(* ===== verification/_CoqProject ===== *)
-Q . S2P
Prelude.v
PyStr.v
Text.v
Errors.v
Latch.v
Paths.v
Manifest.v
Model.v
Fingerprint.v
StateValidate.v
SqlText.v
Admission.v
Metadata.v
Checks.v
World.v
Statements.v
SqliteText.v
Adapter.v
Context.v
Engine.v
History.v
Safety.v
Frame.v
Triple.v
Protocol.v
Order.v
Outcome.v
Durable.v
Crash.v
Memory.v
Staging.v
Sources.v
Config.v
Effects.v
Dbapi.v
Catalog.v
Contract.v
Imports.v
Diagnostics.v
Hooks.v
Replay.v
SqliteLib.v
Sqlite.v
SqliteInspect.v
SqliteRefines.v
SqliteSettings.v
SqliteLayout.v
SqliteLock.v
SqliteRun.v
MemoryRuntime.v
SqliteMemory.v
PgText.v
PgLib.v
Postgres.v
PgInspect.v
PgRefines.v
PgLock.v
PgLayout.v
PgMemory.v
OraText.v
OraLib.v
Oracle.v
OraInspect.v
OraRefines.v
OraLayout.v
OraLock.v
OraMemory.v
Bindings.v
Reporting.v
ReadOnly.v
Verdict.v
Cli.v
Terminal.v
CliDemo.v
Recovery.v
