(* ===== verification/Prelude.v ===== *)
(** * migr8: a model of the migration engine and its theorems

    migr8 ([src/src/migr8/]) brings a database to the state a manifest
    describes: it captures the manifest's units from disk, compares them with the
    history recorded in the database, and executes what is pending, each unit
    either inside one transaction (atomic) or as a resumable sequence of short
    ones (restartable). The hard part is failure: a call may fail, its reply may
    get lost, the process may be interrupted or die, and the history must stay
    trustworthy nevertheless.

    ** Parts of the program and the files that model them

    Pure parts, translated function by function; an exception is the [Err] case
    of [result], with the class and the fields of the error:
    - [Prelude], [PyStr]: results and their loops, sorting, the Python strings,
      bytes, UTF-8 and big-endian integers the program uses;
    - [Errors] (errors.py): error classes, exit codes, reports;
    - [Latch] (latch.py): the run latch;
    - [Paths] (paths.py): path rules, unit directories, the scan of a unit;
    - [Manifest] (manifest.py): a parsed TOML document to [Manifest];
    - [Model] (model.py): history rows, progress rows, snapshots, plans;
    - [Fingerprint] (fingerprint.py): canonical bytes of a unit;
    - [StateValidate] (statevalidate.py): snapshot checks and the plan;
    - [SqlText] (sqltext.py): the SQL scanner and [normalize];
    - [Admission] (adapters/base.py and the policy and classification parts of
      sqlite.py, postgres.py, oracle.py): which statements a context admits and
      what a failed call means; an adapter is an instance of [Dialect];
    - [Metadata] (adapters/metadata.py): the state of the metadata layout;
    - [Checks] (checks.py): preflight and binding checks;
    - [Statements] (adapters/base.py, adapters/metadata.py): the text of the
      engine's own statements in the spelling of each adapter, what they bind,
      and the mapping of rows read back;
    - [SqliteText] (adapters/sqlite.py), [PgText] (adapters/postgres.py) and
      [OraText] (adapters/oracle.py): DDL texts, expected layout and catalogue
      queries of each adapter, the comparison of stored definitions; [Catalog]:
      what it means that a catalogue shows the layout;
    - [Text]: decimal numerals and padding;
    - [Staging] (staging.py): capture in place, copies, staging; [Sources]: the
      composition of loading and capturing;
    - [Config] (config.py): a parsed TOML document to [Config];
    - [Reporting] (reporting.py): reports, their text and JSON value;

    Stateful parts, in the monad [M S] of [World]: a function from the run's
    state [World S] to a new one and a result. [S] is the driver's own state:
    - [World]: the operations the program asks of a database session ([rawop],
      one constructor per kind of call) and what it keeps during a run (latch,
      facade state, report, the trace of calls made and the latch state each
      call met);
    - [Adapter] (adapters/base.py): the guard, transactions, [durable_commit],
      the engine's own statements, inspection, initialization;
    - [Context] (context.py): the facade migration code is given; migration
      code itself is [prog], a strategy tree that may call any method, catch
      what it raises, and end in any way;
    - [Engine] (engine.py): a run, from [initial_world] to its report;
    - [ReadOnly] (readonly.py): [status], [validate] and offline validation,
      the comparison with an approved plan; [Verdict]: the theorems on them;
    - [History]: what the engine's statements do to the metadata tables;
    - [Safety], [Frame], [Triple], [Outcome], [Durable]: invariants and Hoare
      triples of the monadic code and the theorems on runs;
    - [Protocol], [Order]: a run's calls as the word of a state machine, over a
      driver that logs its answers ([logged]); [Crash]: a driver whose process
      dies after some number of calls ([Mortal]);
    - [Cli] (cli.py, adapters/__init__.py): one command from its arguments to its
      exit code, in the monad [C E S], over the session and the process [E];
      [Terminal]: how it ends; [Recovery]: the recovery command as a shell reads
      it; [CliDemo]: commands that run;
    - [Imports] (loader.py), [Diagnostics] (diagnostics.py) and [Hooks]
      (testing/hooks.py): the private packages of Python units in [sys.modules],
      the run log, the test hooks, each over its own part of the process, in the
      monad of [Effects];
    - the adapters themselves, in a monad of the adapter's own methods
      ([Effects]) over an interface to the calls they make; [Dbapi] has what the
      database drivers share, [Contract] and [Replay] what the proofs about them
      share (rows as values, what a call may commit; a log replayed, the lock of a
      run), [MemoryRuntime] what their servers held in memory share:
      - SQLite (adapters/sqlite.py), over sqlite3, the operating system and the
        clock ([Library] of [SqliteLib]): [Sqlite], its methods; [SqliteInspect],
        the inspection of the metadata objects, and the adapter as a [Driver];
        [SqliteRefines], that it keeps the contract of the runs; [SqliteSettings],
        [SqliteLock], [SqliteLayout], [SqliteRun], what it promises of settings,
        lock, identities, inspection and runs; [SqliteMemory], a library in memory;
      - PostgreSQL (adapters/postgres.py), over psycopg and the clock
        ([PgLibrary] of [PgLib]): [Postgres], its methods; [PgInspect], the
        inspection and the [Driver]; [PgRefines], [PgLock], [PgLayout], the
        contract, the advisory lock and the layout; [PgMemory], a server in memory;
      - Oracle (adapters/oracle.py), over python-oracledb ([OraLibrary] of
        [OraLib]): [Oracle], its methods; [OraInspect], the inspection, the check
        of required objects and the [Driver]; [OraRefines], [OraLock],
        [OraLayout], the contract, the lock of DBMS_LOCK, the layout and required
        objects; [OraMemory], a server in memory;
    - [Bindings]: how the adapters spell namespace and lock, and what the marker
      of a namespace makes runs agree on;
    - [Memory]: a database held in memory, which shows that the hypotheses of
      those theorems can hold and on which the witnesses run.

    ** What is a parameter

    The driver ([Driver]) answers every raw operation in any way its state
    dictates: it may fail, and may have had its effect all the same.
    [StorageLaws] ([Durable]) is what the theorems on the record assume of it:
    uncommitted work is separate from committed work, a metadata statement that
    returns did what it says (an empty text may be stored as NULL), nothing but a
    commit or the creation of an object, which may commit, changes what is
    committed, and a commit makes durable all of the working state or nothing,
    whatever it answers. Migration code is assumed to leave the metadata tables alone
    ([admitted_never_reserved] is what the program does about it). Other
    parameters are Unicode tables ([Unicode]), Python's compiler, the TOML
    parser, SHA-256, [Path.resolve], the import of migration modules ([Loader]),
    the host ([Host]), [int], [fromisoformat] and [str] of foreign objects
    ([PyRuntime]).

    For the three shipped adapters the contract is proved rather than assumed
    ([sqlite_keeps_contract], [postgres_keeps_contract],
    [oracle_keeps_contract]). What is assumed instead
    is what the makers of the systems document, in small classes: [LibraryLaws]
    (transactions of sqlite3), [HostLaws] and [TurnLaws] (file locks, descriptors,
    clock), [SettingsLaws] (PRAGMAs that set), [CatalogLaws] (PRAGMAs that read);
    [PgLaws] (transactions of the server, status and command tags),
    [ServerLaws] (sessions, advisory locks, clock), [PgLayout.DictionaryLaws]
    (catalogue queries); [OraLaws] (transactions, implicit commits, the text of
    numbers and times), [OraServerLaws] (sessions, failover, DBMS_LOCK),
    [OraLayout.DictionaryLaws] (dictionary and validity queries). [SqliteMemory],
    [PgMemory] and [OraMemory] have an instance of each.

    ** Theorems, most important first

    - Runs: [run_keeps_record], [run_ok_complete] and [rerun_resumes] (what is
      committed after any run, success means done, the next run finds its way),
      [no_call_after_unknown] (nothing is submitted after an unknown outcome),
      [run_reports] (a run always ends in a report and the latch decides it).
    - SQLite: [sqlite_keeps_contract] (the theorems on runs hold on it),
      [sqlite_run_locked] (a run works under the operating system's lock),
      [acquire_lock_ends] and [acquire_lock_served] (the attempt ends; in time it
      succeeds), [inspection_exact] (what layout is accepted),
      [identity_separates] (the tripwire tells transactions apart),
      [connect_settings].
    - PostgreSQL: [postgres_keeps_contract], [postgres_run_locked] (whatever the
      server executes while a run works is executed by the session that has the
      lock), [postgres_inspection_exact].
    - Oracle: [oracle_keeps_contract], [oracle_run_locked] (in Thick mode too: a
      session that could fail over is refused), [oracle_inspection_exact],
      [oracle_required_exact] (what passes as a valid object). On every adapter:
      [commands_bound], [same_marker_same_lock] (runs that accept one marker
      contend for one lock).
    - Decisions: [build_plan_decides], [build_plan_reorder],
      [recovery_decides], [preflight_decides], [verify_bindings_iff],
      [classify_metadata_state].
    - SQL: [tokenize_tiles], [normalize_spec], [admitted_never_reserved],
      [admit_statement_context], [classification_conservative],
      [sqlite_commit_classified].
    - Sources: [load_manifest_wf], [canonical_bytes_iff], [scan_unit_complete],
      [resolve_unit_dir_inside], [check_units_disjoint_iff],
      [check_relative_path_iff].
    - The process: [units_load_isolated] (no unit meets the modules of another),
      [import_repeats] (so a run can take the import as a function of the unit),
      [run_log_prefix] (the log is a prefix of the events), [fire_inert].
    - Foundations: [latch_first_wins], [exit_code_inherited].
    - Order: [run_follows_protocol], [no_work_before_plan],
      [atomic_commit_records], [completed_in_order] (the calls of a run, by a
      state machine of its phases); [crash_resumes] (a process that dies).
    - The command: [exit_zero_complete], [main_reports_run] (the exit code of the
      process against the run and the database), [recovery_command_words].
    - Read-only commands: [readonly_reads_only], [readonly_verdict],
      [baseline_prefix].
    - Inputs: [stage_agrees], [captured_units_ok], [load_config_iff].

    ** Bounds and fuel

    Loops over lists are structural. The scanners' loops run on fuel given by
    the length of the text: each step consumes a character, and
    [tokenize_tiles], [canonical_tokens_total] and [def_tokens_total] show that
    the fuel never runs out. The polling of the lock has [poll_fuel] rounds, one
    for every sleep of the timeout and two more, and [acquire_lock_ends] (on
    PostgreSQL, for an interval above zero, [pg_acquire_lock_ends]) shows that
    they are enough. Sizes in canonical bytes are 32 and 64 bits wide and
    their overflow is an error, as [int.to_bytes] raises. A run needs no fuel:
    migration code is a well-founded tree, so code that never returns is outside
    the model.

    ** Not modelled

    Argument parsing, signal set-up, the redirection of standard streams, and
    importlib itself ([Importer] is what [Imports] assumes of it). A run takes the
    import of a unit as the parameter [Loader], whose independence of earlier
    units [units_load_isolated] is about, a boundary's hooks as a raw operation,
    and leaves out the events that it logs; [run_log_prefix] says when they
    raise nothing. Interrupts are
    raised by the calls that may be interrupted, not between two statements of
    Python code. Of the adapters: the clock counts exact nanoseconds; a text column that
    holds no text is a type error; error numbers are those of Linux; the guarded
    reads inside a snapshot are judged by the guard around it; a Python bool that a
    driver returns is an integer; the strings given to the operator are shortened.
    [postgres_run_locked] and [oracle_run_locked] are about runs whose migrations
    do not release the lock themselves. Oracle's LOBs are read with their row.
    In [Cli] an interrupt may besides arrive at every [OTick], between the
    statements that its handlers protect. The temporary directory of a run and
    its permission bits are not modelled.
*)
From stdpp Require Export base tactics decidable list numbers option gmap.
From Stdlib Require Export Sorting.Sorted.

#[export] Set Warnings "-clear-no-such-hyp".

(** ** Python text and bytes

    A Python [str] is a sequence of Unicode code points, a [bytes] object a
    sequence of 8-bit values. Both are lists of [N]; the type says which. *)
Abbreviation char := N (only parsing).
Abbreviation byte := N (only parsing).
Abbreviation str := (list N).
Abbreviation bytes := (list N) (only parsing).

(** String literals of the model: the notation reads the (ASCII) bytes of the
    literal as code points. *)
Inductive str_literal :=
| SLNil
| SLCons (c : char) (s : str_literal).

Fixpoint str_literal_parse (l : list Byte.byte) : str_literal :=
  match l with
  | [] => SLNil
  | b :: l => SLCons (Byte.to_N b) (str_literal_parse l)
  end.

Fixpoint str_literal_bytes (s : str_literal) : option (list Byte.byte) :=
  match s with
  | SLNil => Some []
  | SLCons c s =>
      match Byte.of_N c, str_literal_bytes s with
      | Some b, Some l => Some (b :: l)
      | _, _ => None
      end
  end.

(** The empty list keeps its own notation. *)
Definition str_literal_print (s : str_literal) : option (list Byte.byte) :=
  match s with SLNil => None | SLCons _ _ => str_literal_bytes s end.

Declare Scope str_scope.
Delimit Scope str_scope with str.
(** The type the literals are registered for; it is [str] itself. *)
Definition str_type := list N.
#[warnings="-via-type-remapping,-via-type-mismatch"]
String Notation str_type str_literal_parse str_literal_print
  (via str_literal mapping [[nil] => SLNil, [cons] => SLCons]) : str_scope.

(** ** Fallible pure code

    A Python function that returns or raises. The error type comes first, so
    that [result E] is a monad and stdpp's [x ← m; k] applies. *)
Inductive result (E A : Type) :=
| Ok (a : A)
| Err (e : E).
Arguments Ok {_ _} _.
Arguments Err {_ _} _.

#[export] Instance result_ret {E} : MRet (result E) := fun A a => Ok a.
#[export] Instance result_bind {E} : MBind (result E) := fun A B f r =>
  match r with Ok a => f a | Err e => Err e end.
#[export] Instance result_fmap {E} : FMap (result E) := fun A B f r =>
  match r with Ok a => Ok (f a) | Err e => Err e end.
Arguments result_bind {_ _ _} _ !_ /.
Arguments result_fmap {_ _ _} _ !_ /.
#[export] Instance result_eq_dec {E A} `{EqDecision E, EqDecision A} :
  EqDecision (result E A).
Proof. solve_decision. Defined.

Definition is_ok {E A} (r : result E A) : bool :=
  match r with Ok _ => true | Err _ => false end.

(** [if b: raise e] followed by the rest of the function. *)
Definition raise_if {E} (b : bool) (e : E) : result E unit :=
  if b then Err e else Ok tt.

(** A [for] loop whose body may raise. *)
Fixpoint for_each {E A} (f : A -> result E unit) (l : list A) : result E unit :=
  match l with
  | [] => Ok tt
  | x :: l => f x;; for_each f l
  end.

(** A [for] loop that threads an accumulator and may raise. *)
Fixpoint fold_result {E A S} (f : S -> A -> result E S) (s : S) (l : list A) : result E S :=
  match l with
  | [] => Ok s
  | x :: l => s' ← f s x; fold_result f s' l
  end.

(** A list comprehension whose element expression may raise. *)
Fixpoint map_result {E A B} (f : A -> result E B) (l : list A) : result E (list B) :=
  match l with
  | [] => Ok []
  | x :: l => y ← f x; ys ← map_result f l; Ok (y :: ys)
  end.

(** ** Sorting

    Python's [sorted] is stable; insertion from the right keeps equal elements
    in their original order. *)
Fixpoint insert_by {A} (le : A -> A -> bool) (x : A) (l : list A) : list A :=
  match l with
  | [] => [x]
  | y :: l' => if le x y then x :: l else y :: insert_by le x l'
  end.

Definition sort_by {A} (le : A -> A -> bool) (l : list A) : list A :=
  foldr (insert_by le) [] l.

(** Lexicographic order on sequences of code points or bytes. *)
Fixpoint lex_leb (s t : list N) : bool :=
  match s, t with
  | [], _ => true
  | _ :: _, [] => false
  | x :: s, y :: t => if (x <? y)%N then true else if (x =? y)%N then lex_leb s t else false
  end.

(** Order on pairs whose first components compare first. *)
Definition pair_leb {A B} (ea : A -> A -> bool) (la : A -> A -> bool) (lb : B -> B -> bool)
    (p q : A * B) : bool :=
  if ea p.1 q.1 then lb p.2 q.2 else la p.1 q.1.

(** [enumerate(l, start=n)]. *)
Fixpoint enumerate_from {A} (n : nat) (l : list A) : list (nat * A) :=
  match l with
  | [] => []
  | x :: l => (n, x) :: enumerate_from (S n) l
  end.

(** [l[i]], where a negative index counts from the end; [IndexError] is [None]. *)
Definition py_index {A} (l : list A) (i : Z) : option A :=
  if (0 <=? i)%Z then l !! Z.to_nat i
  else if (0 <=? i + Z.of_nat (length l))%Z then l !! Z.to_nat (i + Z.of_nat (length l))
  else None.

(** [l[a:b]] for [a <= b]. *)
Definition slice_list {A} (l : list A) (a b : nat) : list A := take (b - a) (drop a l).

(** [sep.join(parts)]. *)
Fixpoint join (sep : str) (parts : list str) : str :=
  match parts with
  | [] => []
  | [p] => p
  | p :: parts => p ++ sep ++ join sep parts
  end.

(** ** Lemmas on fallible code *)
Create HintDb migr8.
Create Rewrite HintDb migr8_rw.

Lemma bind_Ok {E A B} (f : A -> result E B) (r : result E A) b :
  (r ≫= f) = Ok b <-> exists a, r = Ok a /\ f a = Ok b.
Proof. destruct r; naive_solver. Qed.

Lemma bind_Err {E A B} (f : A -> result E B) (r : result E A) e :
  (r ≫= f) = Err e <-> r = Err e \/ exists a, r = Ok a /\ f a = Err e.
Proof. destruct r; naive_solver. Qed.

Lemma fmap_Ok {E A B} (f : A -> B) (r : result E A) b :
  f <$> r = Ok b <-> exists a, r = Ok a /\ b = f a.
Proof. destruct r; naive_solver. Qed.

Lemma raise_if_Ok {E} b (e : E) u : raise_if b e = Ok u <-> b = false.
Proof. destruct b, u; naive_solver. Qed.

Lemma raise_if_Err {E} b (e e' : E) : raise_if b e = Err e' <-> b = true /\ e = e'.
Proof. destruct b; naive_solver. Qed.

Lemma for_each_Ok {E A} (f : A -> result E unit) l u :
  for_each f l = Ok u <-> Forall (fun x => f x = Ok tt) l.
Proof.
  destruct u. induction l as [|x l IH]; simpl; [by split|].
  rewrite Forall_cons, <-IH, bind_Ok. split.
  - by intros ([] & ? & ?).
  - intros [? ?]. by exists tt.
Qed.

(** The error a loop raises is the one of the first element that raises. *)
Lemma for_each_Err {E A} (f : A -> result E unit) l e :
  for_each f l = Err e <->
  exists l1 x l2, l = l1 ++ x :: l2 /\ Forall (fun y => f y = Ok tt) l1 /\ f x = Err e.
Proof.
  induction l as [|x l IH]; simpl.
  - split; [done|]. by intros ([] & ? & ? & ? & _).
  - rewrite bind_Err. split.
    + intros [Hx|([] & Hx & Hl)].
      * by exists [], x, l.
      * apply IH in Hl as (l1 & y & l2 & -> & ? & ?).
        exists (x :: l1), y, l2. auto.
    + intros ([|z l1] & y & l2 & Heq & Hf & Hy); simplify_eq/=; [by left|].
      right. exists tt. apply Forall_cons in Hf as [Hz Hf]. split; [done|].
      apply IH. by exists l1, y, l2.
Qed.

Lemma map_result_Ok {E A B} (f : A -> result E B) l ys :
  map_result f l = Ok ys <-> Forall2 (fun x y => f x = Ok y) l ys.
Proof.
  revert ys. induction l as [|x l IH]; intros ys; simpl.
  - split; [intros; simplify_eq; constructor|]. by inversion 1.
  - split.
    + intros (y & Hy & (zs & Hzs & [= <-])%bind_Ok)%bind_Ok.
      constructor; [done|]. by apply IH.
    + inversion 1 as [|? y ? zs Hy Hzs]; simplify_eq.
      rewrite Hy; simpl. by rewrite (proj2 (IH zs) Hzs).
Qed.

(** ** Lemmas on the stable sort *)
Section sort_by.
Context {A : Type} (le : A -> A -> bool).

Lemma insert_by_perm x l : insert_by le x l ≡ₚ x :: l.
Proof.
  induction l as [|y l IH]; simpl; [done|].
  case_match; [done|]. rewrite IH. constructor.
Qed.

Lemma sort_by_perm l : sort_by le l ≡ₚ l.
Proof.
  unfold sort_by.
  induction l as [|x l IH]; simpl; [done|]. by rewrite insert_by_perm, IH.
Qed.

Lemma sort_by_length l : length (sort_by le l) = length l.
Proof. by rewrite (Permutation_length (sort_by_perm l)). Qed.

Lemma elem_of_sort_by x l : x ∈ sort_by le l <-> x ∈ l.
Proof. by rewrite sort_by_perm. Qed.

Lemma sort_by_id l :
  StronglySorted (fun x y => le x y = true) l -> sort_by le l = l.
Proof.
  unfold sort_by. induction 1 as [|x l Hl IH Hx]; simpl; [done|]. rewrite IH.
  destruct l as [|y l]; simpl; [done|].
  apply Forall_cons in Hx as [-> _]. done.
Qed.

Context (le_total : forall x y, le x y = true \/ le y x = true).
Context (le_trans : forall x y z, le x y = true -> le y z = true -> le x z = true).

Lemma insert_by_sorted x l :
  StronglySorted (fun x y => le x y = true) l ->
  StronglySorted (fun x y => le x y = true) (insert_by le x l).
Proof.
  induction 1 as [|y l Hl IH Hy]; simpl; [by repeat constructor|].
  destruct (le x y) eqn:Hxy.
  - repeat constructor; try done. eapply Forall_impl; [done|]. naive_solver.
  - constructor; [done|]. rewrite insert_by_perm. constructor; [|done].
    destruct (le_total x y); congruence.
Qed.

Lemma sort_by_sorted l : StronglySorted (fun x y => le x y = true) (sort_by le l).
Proof.
  unfold sort_by. induction l; simpl; [constructor|]. by apply insert_by_sorted.
Qed.

(** Two sorted arrangements of the same elements coincide when the order tells
    these elements apart. *)
Lemma strongly_sorted_unique_in l1 l2 :
  (forall x y, x ∈ l1 -> y ∈ l1 -> le x y = true -> le y x = true -> x = y) ->
  StronglySorted (fun x y => le x y = true) l1 ->
  StronglySorted (fun x y => le x y = true) l2 ->
  l1 ≡ₚ l2 -> l1 = l2.
Proof.
  intros Hanti H1. revert l2. induction H1 as [|x l1 Hl1 IH Hx]; intros l2 H2 Hp.
  - by apply Permutation_nil in Hp.
  - destruct H2 as [|y l2 Hl2 Hy]; [by symmetry in Hp; apply Permutation_nil_cons in Hp|].
    assert (x = y) as ->.
    { assert (x ∈ y :: l2) as Hxy by (rewrite <-Hp; left).
      assert (y ∈ x :: l1) as Hyx by (rewrite Hp; left).
      rewrite Forall_forall in Hx, Hy. pose proof Hyx as Hyx'.
      apply elem_of_cons in Hxy as [?|Hxy]; [done|].
      apply elem_of_cons in Hyx as [?|Hyx]; [done|].
      apply Hanti; auto. left. }
    f_equal. apply IH; [|done|by apply Permutation_cons_inv in Hp].
    intros; apply Hanti; auto; by right.
Qed.

Context (le_antisym : forall x y, le x y = true -> le y x = true -> x = y).

(** Sorting forgets the original order. *)
Lemma sort_by_proper l1 l2 : l1 ≡ₚ l2 -> sort_by le l1 = sort_by le l2.
Proof.
  intros Hp. apply strongly_sorted_unique_in; [auto|apply sort_by_sorted..|].
  by rewrite !sort_by_perm.
Qed.
End sort_by.

(** ** Lemmas on the lexicographic order *)
Lemma lex_leb_refl s : lex_leb s s = true.
Proof.
  induction s as [|x s IH]; simpl; [done|].
  rewrite N.ltb_irrefl, N.eqb_refl. done.
Qed.

Lemma lex_leb_total s t : lex_leb s t = true \/ lex_leb t s = true.
Proof.
  revert t. induction s as [|x s IH]; intros [|y t]; simpl; auto.
  destruct (N.ltb_spec x y), (N.ltb_spec y x); auto.
  destruct (N.eqb_spec x y) as [->|]; [|lia]. rewrite N.eqb_refl. apply IH.
Qed.

Lemma lex_leb_antisym s t : lex_leb s t = true -> lex_leb t s = true -> s = t.
Proof.
  revert t. induction s as [|x s IH]; intros [|y t]; simpl; auto; try done.
  destruct (N.ltb_spec x y), (N.ltb_spec y x); try lia.
  - destruct (N.eqb_spec y x); [lia|done].
  - destruct (N.eqb_spec x y); [lia|done].
  - destruct (N.eqb_spec x y) as [->|]; [|lia]. rewrite N.eqb_refl.
    intros. f_equal. auto.
Qed.

Lemma lex_leb_trans s t u : lex_leb s t = true -> lex_leb t u = true -> lex_leb s u = true.
Proof.
  revert t u. induction s as [|x s IH]; intros [|y t] [|z u]; simpl; auto; try done.
  destruct (N.ltb_spec x y), (N.ltb_spec y z), (N.ltb_spec x z); try lia; try done;
    destruct (N.eqb_spec x y), (N.eqb_spec y z), (N.eqb_spec x z);
    try lia; try done; eauto.
Qed.

Lemma N_list_eqb_spec (s t : list N) : bool_decide (s = t) = true <-> s = t.
Proof. apply bool_decide_eq_true. Qed.

(** Order on pairs of byte strings, the order of [sorted] on encoded pairs. *)
Definition bytes_pair_leb (p q : bytes * bytes) : bool :=
  pair_leb (fun s t => bool_decide (s = t)) lex_leb lex_leb p q.

Lemma bytes_pair_leb_spec p q :
  bytes_pair_leb p q = true <->
  (p.1 = q.1 /\ lex_leb p.2 q.2 = true) \/ (p.1 <> q.1 /\ lex_leb p.1 q.1 = true).
Proof. unfold bytes_pair_leb, pair_leb. case_bool_decide; naive_solver. Qed.

Lemma bytes_pair_leb_total p q : bytes_pair_leb p q = true \/ bytes_pair_leb q p = true.
Proof.
  rewrite !bytes_pair_leb_spec.
  destruct (decide (p.1 = q.1)) as [->|Hne].
  - destruct (lex_leb_total p.2 q.2); auto.
  - destruct (lex_leb_total p.1 q.1); naive_solver.
Qed.

Lemma bytes_pair_leb_antisym p q :
  bytes_pair_leb p q = true -> bytes_pair_leb q p = true -> p = q.
Proof.
  rewrite !bytes_pair_leb_spec. destruct p as [p1 p2], q as [q1 q2]; simpl.
  intros [[-> ?]|[? ?]] [[? ?]|[? ?]]; try congruence.
  - f_equal. by apply lex_leb_antisym.
  - exfalso. eauto using lex_leb_antisym.
Qed.

Lemma bytes_pair_leb_trans p q r :
  bytes_pair_leb p q = true -> bytes_pair_leb q r = true -> bytes_pair_leb p r = true.
Proof.
  rewrite !bytes_pair_leb_spec. destruct p as [p1 p2], q as [q1 q2], r as [r1 r2]; simpl.
  intros [[-> ?]|[? ?]] [[-> ?]|[? ?]].
  - left; eauto using lex_leb_trans.
  - right; eauto.
  - right; eauto.
  - right. split; [|eauto using lex_leb_trans].
    intros ->. eauto using lex_leb_antisym.
Qed.

(** ** Lemmas on [enumerate] *)
Lemma enumerate_from_fst {A} n (l : list A) : (enumerate_from n l).*1 = seq n (length l).
Proof. revert n; induction l; intros; simpl; f_equal; auto. Qed.

Lemma enumerate_from_snd {A} n (l : list A) : (enumerate_from n l).*2 = l.
Proof. revert n; induction l; intros; simpl; f_equal; auto. Qed.

Lemma enumerate_from_lookup {A} n (l : list A) i :
  enumerate_from n l !! i = (fun x => (n + i, x)) <$> l !! i.
Proof.
  revert n i. induction l as [|x l IH]; intros n [|i]; simpl; try done.
  - by rewrite Nat.add_0_r.
  - rewrite IH. destruct (l !! i); simpl; [|done]. do 2 f_equal. lia.
Qed.

(** ** Tactics

    [inv_ok] opens every hypothesis that says a chain of raising statements
    returned, and [inv_err] one that says it raised. *)
Ltac inv_ok :=
  repeat match goal with
  | H : (_ ≫= _) = Ok _ |- _ =>
      let a := fresh "r" in let H1 := fresh "Hr" in
      apply bind_Ok in H as (a & H1 & H); simpl in H
  | H : _ <$> _ = Ok _ |- _ =>
      let a := fresh "r" in let H1 := fresh "Hr" in
      apply fmap_Ok in H as (a & H1 & H)
  | H : raise_if _ _ = Ok _ |- _ => apply raise_if_Ok in H
  | H : Ok _ = Ok _ |- _ => injection H as H; try subst
  | H : Err _ = Ok _ |- _ => discriminate H
  | H : Ok _ = Err _ |- _ => discriminate H
  end.

(** The same call returned twice: its two results are the same. *)
Ltac same_ok :=
  repeat match goal with
  | H : ?t = Ok ?x, H' : ?t = Ok ?y |- _ =>
      rewrite H in H'; injection H' as H'; try subst
  end.

(** Decides the boolean tests that guard a goal or a hypothesis. *)
Ltac bool_simpl :=
  repeat match goal with
  | H : negb _ = true |- _ => apply negb_true_iff in H
  | H : negb _ = false |- _ => apply negb_false_iff in H
  | H : _ && _ = true |- _ => apply andb_true_iff in H as [? ?]
  | H : _ || _ = false |- _ => apply orb_false_iff in H as [? ?]
  | H : bool_decide _ = true |- _ => apply bool_decide_eq_true in H
  | H : bool_decide _ = false |- _ => apply bool_decide_eq_false in H
  end.

#[export] Hint Resolve lex_leb_refl lex_leb_total lex_leb_trans lex_leb_antisym
  bytes_pair_leb_total bytes_pair_leb_trans bytes_pair_leb_antisym : migr8.
#[export] Hint Rewrite @sort_by_length @enumerate_from_fst @enumerate_from_snd : migr8_rw.

(** ** Lemmas on permutations *)
Lemma map_result_perm {E A B} (f : A -> result E B) l l' ys :
  l ≡ₚ l' -> map_result f l = Ok ys -> exists ys', map_result f l' = Ok ys' /\ ys ≡ₚ ys'.
Proof.
  intros Hl Hys%map_result_Ok.
  destruct (Permutation_Forall2 Hl Hys) as (ys' & ? & ?).
  exists ys'. by rewrite map_result_Ok.
Qed.

(** Ordered pairs of a list by their indices. *)
Lemma ordered_pairs_lookup {A} (R : A -> A -> Prop) l :
  ForallOrdPairs R l <-> forall i j a b, i < j -> l !! i = Some a -> l !! j = Some b -> R a b.
Proof.
  split.
  - induction 1 as [|x l Hx _ IH]; intros i j a b Hij Ha Hb; [done|].
    rewrite Forall_lookup in Hx.
    destruct i, j; simplify_eq/=; [lia|by eapply Hx|lia|apply (IH i j); [lia|done..]].
  - induction l as [|x l IH]; intros H; constructor.
    + apply Forall_lookup. intros j b Hb. apply (H 0 (S j)); [lia|done..].
    + apply IH. intros i j a b Hij. apply (H (S i) (S j)). lia.
Qed.

Lemma concat_perm {A} (ls ls' : list (list A)) : ls ≡ₚ ls' -> concat ls ≡ₚ concat ls'.
Proof.
  induction 1; simpl; [done|by f_equiv| |by etrans].
  by rewrite !app_assoc, (Permutation_app_comm x).
Qed.

(** A loop invariant indexed by the elements already consumed. *)
Lemma fold_result_ind {E A S} (P : list A -> S -> Prop) (f : S -> A -> result E S) s0 l s :
  P [] s0 ->
  (forall l1 x s s', P l1 s -> f s x = Ok s' -> P (l1 ++ [x]) s') ->
  fold_result f s0 l = Ok s -> P l s.
Proof.
  intros H0 Hstep H.
  enough (forall l1 s1, P l1 s1 -> fold_result f s1 l = Ok s -> P (l1 ++ l) s) as Hgen
    by exact (Hgen [] s0 H0 H).
  clear H H0 s0. induction l as [|x l IH]; intros l1 s1 Hp H; simpl in H.
  - injection H as <-. by rewrite app_nil_r.
  - inv_ok. replace (l1 ++ x :: l) with ((l1 ++ [x]) ++ l) by (by rewrite <-app_assoc).
    eauto.
Qed.

(** Sorting commutes with the key it sorts by. *)
Lemma insert_by_fmap {A B} (f : A -> B) (le : B -> B -> bool) x l :
  map f (insert_by (fun a b => le (f a) (f b)) x l) = insert_by le (f x) (map f l).
Proof. induction l as [|y l IH]; simpl; [done|]. case_match; simpl; by rewrite ?IH. Qed.

Lemma sort_by_fmap {A B} (f : A -> B) (le : B -> B -> bool) l :
  map f (sort_by (fun a b => le (f a) (f b)) l) = sort_by le (map f l).
Proof.
  unfold sort_by. induction l as [|x l IH]; simpl; [done|]. by rewrite insert_by_fmap, IH.
Qed.

(** A loop over the elements of a list never depends on equal representations. *)
Lemma map_result_ext {E A B} (f g : A -> result E B) l :
  (forall x, x ∈ l -> f x = g x) -> map_result f l = map_result g l.
Proof.
  induction l as [|x l IH]; intros H; simpl; [done|].
  rewrite H by left. rewrite IH by (intros; apply H; by right). done.
Qed.

(** A loop that records the elements it has seen, in the form [abs] of its state,
    and refuses an element by a test [P] against them. *)
Lemma fold_seen {E A S} (abs : list A -> S) (P : list A -> A -> Prop)
    (f : S -> A -> result E S) l seen s' :
  (forall seen x s', f (abs seen) x = Ok s' <-> P seen x /\ s' = abs (x :: seen)) ->
  fold_result f (abs seen) l = Ok s' <->
  (forall l1 x l2, l = l1 ++ x :: l2 -> P (rev l1 ++ seen) x) /\ s' = abs (rev l ++ seen).
Proof.
  intros Hf. revert seen. induction l as [|y l IH]; intros seen; simpl.
  - split; [|by intros [_ ->]]. intros [= <-]. split; [|done]. by intros [].
  - rewrite bind_Ok. setoid_rewrite Hf. split.
    + intros (? & [Hy ->] & [Hl ->]%IH). split.
      * intros [|z l1] x l2 Heq; simplify_eq/=; [done|]. rewrite <-app_assoc. eauto.
      * by rewrite <-app_assoc.
    + intros [Hl ->]. eexists. split; [split; [exact (Hl [] y l eq_refl)|done]|].
      apply IH. split; [|by rewrite <-app_assoc]. intros l1 x l2 ->.
      specialize (Hl (y :: l1) x l2 eq_refl). simpl in Hl. by rewrite <-app_assoc in Hl.
Qed.

Lemma NoDup_splits {A K} (key : A -> K) l :
  NoDup (map key l) <-> forall l1 x l2, l = l1 ++ x :: l2 -> key x ∉ map key l1.
Proof.
  induction l as [|y l IH] using rev_ind.
  - split; [|constructor]. by intros _ [].
  - rewrite map_app. simpl. rewrite NoDup_app, IH. split.
    + intros (Hl & Hy & _) l1 x l2. destruct (nil_or_length_pos l2) as [->|Hl2].
      * intros [-> [= ->]]%app_inj_tail. intros Hin. apply (Hy _ Hin). by left.
      * destruct l2 as [|z l2 _] using rev_ind; [simpl in *; lia|].
        rewrite app_comm_cons, app_assoc. intros [-> _]%app_inj_tail. by eapply Hl.
    + intros H. split_and!.
      * intros l1 x l2 ->. apply (H l1 x (l2 ++ [y])). by rewrite <-app_assoc.
      * intros k Hk Hy. apply list_elem_of_singleton in Hy as ->. by apply (H l y []).
      * apply NoDup_singleton.
Qed.

Lemma Forall_splits {A} (P : A -> Prop) l :
  Forall P l <-> forall l1 x l2, l = l1 ++ x :: l2 -> P x.
Proof.
  rewrite Forall_forall. split.
  - intros H l1 x l2 ->. apply H. set_solver.
  - intros H x (l1 & l2 & ->)%list_elem_of_split. eauto.
Qed.

Lemma elem_of_map_rev {A K} (key : A -> K) l k : k ∈ map key (rev l) <-> k ∈ map key l.
Proof. by rewrite map_rev, !list_elem_of_In, <-in_rev. Qed.

(** Statements in sequence return when each of them does. *)
Lemma then_Ok {E A} (r : result E unit) (k : result E A) a :
  (r;; k) = Ok a <-> r = Ok tt /\ k = Ok a.
Proof. destruct r as [[]|]; naive_solver. Qed.

Lemma raise_then_Ok {E A} b (e : E) (k : result E A) a :
  (raise_if b e;; k) = Ok a <-> b = false /\ k = Ok a.
Proof. destruct b; naive_solver. Qed.

Lemma then_Err {E A} (r : result E unit) (k : result E A) e :
  (r;; k) = Err e <-> r = Err e \/ (r = Ok tt /\ k = Err e).
Proof. destruct r as [[]|]; naive_solver. Qed.

(** ** [filter] by a boolean test *)
Lemma filter_cons_true {A} (P : A -> bool) x l : P x = true -> filter P (x :: l) = x :: filter P l.
Proof. intros Hx. rewrite filter_cons_True; [done|]. by rewrite Hx. Qed.

Lemma filter_cons_false {A} (P : A -> bool) x l : P x = false -> filter P (x :: l) = filter P l.
Proof. intros Hx. rewrite filter_cons_False; [done|]. rewrite Hx. intros []. Qed.

Lemma elem_of_filter_bool {A} (P : A -> bool) (x : A) (l : list A) : x ∈ filter P l <-> P x = true /\ x ∈ l.
Proof. rewrite list_elem_of_filter. by rewrite Is_true_true. Qed.

Lemma filter_none {A} (P : A -> bool) l : Forall (fun x => P x = false) l -> filter P l = [].
Proof. induction 1 as [|x l Hx _ IH]; [done|]. by rewrite filter_cons_false. Qed.

Lemma filter_all {A} (P : A -> bool) l : Forall (fun x => P x = true) l -> filter P l = l.
Proof. induction 1 as [|x l Hx _ IH]; [done|]. by rewrite filter_cons_true, IH. Qed.

Lemma bind_const_Ok {E A B} (r : result E A) (k : result E B) b :
  (r ≫= fun _ => k) = Ok b <-> (exists a, r = Ok a) /\ k = Ok b.
Proof. destruct r; naive_solver. Qed.

(** ** Which errors a computation can raise *)
Definition errs_in {E A} (P : E -> Prop) (r : result E A) : Prop :=
  match r with Ok _ => True | Err e => P e end.

Section errs_in.
Context {E : Type} (P : E -> Prop).

Lemma errs_in_ok {A} (a : A) : errs_in P (Ok a).
Proof. done. Qed.

Lemma errs_in_err {A} (e : E) : P e -> errs_in P (@Err E A e).
Proof. done. Qed.

Lemma errs_in_raise_if b (e : E) : P e -> errs_in P (raise_if b e).
Proof. by destruct b. Qed.

Lemma errs_in_bind {A B} (r : result E A) (k : A -> result E B) :
  errs_in P r -> (forall a, r = Ok a -> errs_in P (k a)) -> errs_in P (r ≫= k).
Proof. destruct r; simpl; eauto. Qed.

Lemma errs_in_fmap {A B} (r : result E A) (f : A -> B) : errs_in P r -> errs_in P (f <$> r).
Proof. by destruct r. Qed.

Lemma errs_in_for_each {A} (f : A -> result E unit) l :
  (forall x, errs_in P (f x)) -> errs_in P (for_each f l).
Proof. intros H. induction l; simpl; [done|]. apply errs_in_bind; auto. Qed.

Lemma errs_in_fold {A S} (f : S -> A -> result E S) s l :
  (forall s x, errs_in P (f s x)) -> errs_in P (fold_result f s l).
Proof. intros H. revert s. induction l; intros s; simpl; [done|]. apply errs_in_bind; auto. Qed.

Lemma errs_in_map {A B} (f : A -> result E B) l :
  (forall x, errs_in P (f x)) -> errs_in P (map_result f l).
Proof.
  intros H. induction l; simpl; [done|]. apply errs_in_bind; [done|]. intros.
  apply errs_in_bind; auto. done.
Qed.

Lemma errs_in_elim {A} (r : result E A) e : errs_in P r -> r = Err e -> P e.
Proof. by intros ? ->. Qed.
End errs_in.

(** Walks a computation and leaves the side conditions [P e] of its [raise]s. *)
Ltac errs_in :=
  repeat match goal with
    | |- errs_in _ (Ok _) => exact I
    | |- errs_in _ (Err _) => apply errs_in_err
    | |- errs_in _ (raise_if _ _) => apply errs_in_raise_if
    | |- errs_in _ (for_each _ _) => apply errs_in_for_each; intros ?
    | |- errs_in _ (fold_result _ _ _) => apply errs_in_fold; intros ? ?
    | |- errs_in _ (map_result _ _) => apply errs_in_map; intros ?
    | |- errs_in _ (_ <$> _) => apply errs_in_fmap
    | |- errs_in _ (_ ≫= _) => apply errs_in_bind; [|intros ? ?]
    | |- errs_in _ (match ?x with _ => _ end) => destruct x
    end.

(** ** What loops and choices of lists produce *)
Lemma singleton_unless {A} (P : Prop) `{Decision P} (x : A) : (if bool_decide P then [] else [x]) = [] <-> P.
Proof. by case_bool_decide. Qed.

Lemma map_result_in {E A B} (f : A -> result E B) l ys y : map_result f l = Ok ys ->
  y ∈ ys <-> exists x, x ∈ l /\ f x = Ok y.
Proof.
  intros Hm%map_result_Ok. induction Hm as [|x z l ys Hx _ IH].
  - split; [by intros Hy; apply elem_of_nil in Hy|]. intros (x & Hx & _). by apply elem_of_nil in Hx.
  - rewrite elem_of_cons, IH. setoid_rewrite elem_of_cons. split.
    + intros [->|(x' & ? & ?)]; [by exists x; auto|by exists x'; auto].
    + intros (x' & [->|Hin] & Hf); [left; congruence|right; by exists x'].
Qed.

Lemma map_result_in_l {E A B} (f : A -> result E B) l ys x : map_result f l = Ok ys -> x ∈ l -> exists y, f x = Ok y /\ y ∈ ys.
Proof.
  intros Hm%map_result_Ok. induction Hm as [|x' y l ys Hx _ IH]; intros Hin; [by apply elem_of_nil in Hin|].
  apply elem_of_cons in Hin as [->|Hin]; [exists y; split; [done|by left]|].
  destruct (IH Hin) as (y' & ? & ?). exists y'. split; [done|by right].
Qed.
