(* ===== verification/PyStr.v ===== *)
(** * Python's [str] methods

    The operations of Python's standard [str] and [bytes] types that migr8 uses:
    prefix tests, [find], slices, [split], [strip], case mapping and UTF-8.
    Case mapping, classification and normalisation depend on the Unicode tables
    of the interpreter, which are data outside the program: they are the class
    [Unicode], with the values every version gives to ASCII as its laws. UTF-8
    and the integer encodings are defined in full. *)
From Stdlib Require Import Lia ZifyBool ZifyN ZifyNat.
From S2P Require Import Prelude.
Open Scope str_scope.

(** ** ASCII classification *)
Definition between (lo hi c : N) : bool := (lo <=? c)%N && (c <=? hi)%N.
Definition ascii_upper_letter (c : char) : bool := between 65 90 c.
Definition ascii_lower_letter (c : char) : bool := between 97 122 c.
Definition ascii_alpha (c : char) : bool := ascii_upper_letter c || ascii_lower_letter c.
Definition ascii_digit (c : char) : bool := between 48 57 c.
Definition ascii_alnum (c : char) : bool := ascii_alpha c || ascii_digit c.
Definition ascii_space (c : char) : bool := between 9 13 c || between 28 32 c.
Definition to_ascii_upper (c : char) : char := if ascii_lower_letter c then (c - 32)%N else c.
Definition to_ascii_lower (c : char) : char := if ascii_upper_letter c then (c + 32)%N else c.
Definition is_ascii (c : char) : bool := (c <? 128)%N.

(** ** The Unicode tables of the interpreter *)
Class Unicode := {
  uc_isalpha : char -> bool;
  uc_isdigit : char -> bool;
  uc_isdecimal : char -> bool;      (* category Nd: what [\d] matches *)
  uc_isalnum : char -> bool;
  uc_isspace : char -> bool;
  (** full case mappings: one code point can map to several *)
  uc_upper : char -> str;
  uc_casefold : char -> str;
  (** [unicodedata.normalize("NFC", s)] *)
  uc_nfc : str -> str;
  uc_isalpha_ascii c : is_ascii c = true -> uc_isalpha c = ascii_alpha c;
  uc_isdigit_ascii c : is_ascii c = true -> uc_isdigit c = ascii_digit c;
  uc_isdecimal_ascii c : is_ascii c = true -> uc_isdecimal c = ascii_digit c;
  uc_isalnum_ascii c : is_ascii c = true -> uc_isalnum c = ascii_alnum c;
  uc_isspace_ascii c : is_ascii c = true -> uc_isspace c = ascii_space c;
  uc_upper_ascii c : is_ascii c = true -> uc_upper c = [to_ascii_upper c];
  uc_casefold_ascii c : is_ascii c = true -> uc_casefold c = [to_ascii_lower c];
  uc_nfc_ascii s : forallb is_ascii s = true -> uc_nfc s = s;
}.

(** The tables restricted to ASCII: every other code point is caseless, neither
    a letter nor a digit nor a space. Witnesses evaluate with this instance. *)
#[refine] Definition ascii_unicode : Unicode := {|
  uc_isalpha := ascii_alpha;
  uc_isdigit := ascii_digit;
  uc_isdecimal := ascii_digit;
  uc_isalnum := ascii_alnum;
  uc_isspace := ascii_space;
  uc_upper c := [to_ascii_upper c];
  uc_casefold c := [to_ascii_lower c];
  uc_nfc s := s;
|}.
Proof. all: done. Defined.

(** ** Searching and slicing *)
Fixpoint starts_with (p s : str) : bool :=
  match p, s with
  | [], _ => true
  | _ :: _, [] => false
  | c :: p, d :: s => (c =? d)%N && starts_with p s
  end.

Definition ends_with (p s : str) : bool := starts_with (rev p) (rev s).

(** Offset of the first occurrence of [sub] in [s], [n] being the offset of [s]. *)
Fixpoint find_aux (sub s : str) (n : nat) : option nat :=
  if starts_with sub s then Some n
  else match s with
       | [] => None
       | _ :: s => find_aux sub s (S n)
       end.

(** [s.find(sub, i)], with [None] for -1. *)
Definition find_from (sub s : str) (i : nat) : option nat := find_aux sub (drop i s) i.

(** [s.rfind(c, 0, b)] for one character: the last offset below [b] that holds [c]. *)
Fixpoint rfind_below (c : char) (s : str) (b : nat) : option nat :=
  match b with
  | O => None
  | S b => match s !! b with
           | Some d => if (d =? c)%N then Some b else rfind_below c s b
           | None => rfind_below c s b
           end
  end.

(** [s[a:b]] for [a <= b]. *)
Definition slice (s : str) (a b : nat) : str := take (b - a) (drop a s).

(** [text[:a] + text[b:]]. *)
Definition remove_slice (s : str) (a b : nat) : str := take a s ++ drop b s.

(** [s.split(sep)] for a one-character separator. *)
Fixpoint split_on (sep : char) (s : str) : list str :=
  match s with
  | [] => [[]]
  | c :: s =>
      if (c =? sep)%N then [] :: split_on sep s
      else match split_on sep s with
           | [] => [[c]]
           | w :: ws => (c :: w) :: ws
           end
  end.

Fixpoint lstrip (space : char -> bool) (s : str) : str :=
  match s with
  | [] => []
  | c :: s' => if space c then lstrip space s' else s
  end.

Definition strip_with (space : char -> bool) (s : str) : str :=
  rev (lstrip space (rev (lstrip space s))).

(** [s.replace("''", "'")]: left to right, without overlap. *)
Fixpoint undouble (q : char) (s : str) : str :=
  match s with
  | [] => []
  | c :: s' =>
      match s' with
      | d :: s'' => if (c =? q)%N && (d =? q)%N then q :: undouble q s'' else c :: undouble q s'
      | [] => [c]
      end
  end.

Section unicode.
Context {UC : Unicode}.
Definition strip (s : str) : str := strip_with uc_isspace s.
Definition upper (s : str) : str := concat (map uc_upper s).
Definition casefold (s : str) : str := concat (map uc_casefold s).
End unicode.

(** [s.split()]: the maximal runs of non-space characters; [cur] is the run in
    progress, reversed. *)
Fixpoint split_space (space : char -> bool) (s : str) (cur : str) : list str :=
  match s with
  | [] => match cur with [] => [] | _ => [rev cur] end
  | c :: s =>
      if space c then match cur with [] => split_space space s [] | _ => rev cur :: split_space space s [] end
      else split_space space s (c :: cur)
  end.

Definition lower_ascii (s : str) : str := map to_ascii_lower s.
Definition upper_ascii (s : str) : str := map to_ascii_upper s.

(** [.lower()] where the result is compared with ASCII words. *)
Definition lower_str (s : str) : str := map to_ascii_lower s.

(** ** UTF-8

    [s.encode("utf-8")]; a surrogate raises [UnicodeEncodeError], and no [str]
    holds a value above U+10FFFF. *)
Definition utf8_char (c : char) : option bytes :=
  if (c <? 0x80)%N then Some [c]
  else if (c <? 0x800)%N then Some [0xC0 + c / 64; 0x80 + c mod 64]%N
  else if (c <? 0x10000)%N then
    if between 0xD800 0xDFFF c then None
    else Some [0xE0 + c / 4096; 0x80 + (c / 64) mod 64; 0x80 + c mod 64]%N
  else if (c <? 0x110000)%N then
    Some [0xF0 + c / 262144; 0x80 + (c / 4096) mod 64; 0x80 + (c / 64) mod 64; 0x80 + c mod 64]%N
  else None.

Fixpoint utf8_encode (s : str) : option bytes :=
  match s with
  | [] => Some []
  | c :: s => b ← utf8_char c; bs ← utf8_encode s; Some (b ++ bs)
  end.

(** ** Fixed-width integers

    [value.to_bytes(w, "big", signed=False)]; [OverflowError] is [None]. *)
Fixpoint be_bytes (w : nat) (n : N) : bytes :=
  match w with
  | O => []
  | S w => be_bytes w (n / 256) ++ [n mod 256]%N
  end.

Definition to_bytes_big (w : nat) (n : N) : option bytes :=
  if (n <? 2 ^ (8 * N.of_nat w))%N then Some (be_bytes w n) else None.

(** The value a big-endian byte string denotes. *)
Definition be_value (b : bytes) : N := fold_left (fun a x => a * 256 + x)%N b 0%N.

(** Lower-case hexadecimal, [b.hex()]. *)
Definition hex_digit (n : N) : char := if (n <? 10)%N then (48 + n)%N else (87 + n)%N.
Definition hex_byte (b : byte) : str := [hex_digit (b / 16)%N; hex_digit (b mod 16)%N].
Definition hex (b : bytes) : str := concat (map hex_byte b).

(** ** Lemmas on searching *)
Lemma starts_with_spec p s : starts_with p s = true <-> exists t, s = p ++ t.
Proof.
  revert s. induction p as [|c p IH]; intros [|d s]; simpl.
  - naive_solver.
  - naive_solver.
  - naive_solver.
  - rewrite andb_true_iff, N.eqb_eq, IH. naive_solver.
Qed.

Lemma starts_with_app p s : starts_with p (p ++ s) = true.
Proof. apply starts_with_spec. eauto. Qed.

Lemma find_aux_Some sub s n i :
  find_aux sub s n = Some i ->
  n <= i /\ i - n + length sub <= length s /\ starts_with sub (drop (i - n) s) = true /\
  forall j, n <= j < i -> starts_with sub (drop (j - n) s) = false.
Proof.
  revert n. induction s as [|c s IH]; intros n; simpl.
  - destruct (starts_with sub []) eqn:Hs; intros; simplify_eq.
    rewrite Nat.sub_diag. apply starts_with_spec in Hs as Hs'. destruct Hs' as [t Ht].
    destruct sub; [|done]. split_and!; simpl; try done; try lia.
  - destruct (starts_with sub (c :: s)) eqn:Hs; intros; simplify_eq.
    + rewrite Nat.sub_diag. split_and!; try done; try lia.
      apply starts_with_spec in Hs as [t Ht]. apply (f_equal length) in Ht.
      rewrite length_app in Ht. simpl in *. lia.
    + destruct (IH _ H) as (? & ? & Hst & Hmin).
      split_and!; [lia|lia| |].
      * replace (i - n) with (S (i - S n)) by lia. done.
      * intros j Hj. destruct (decide (j = n)) as [->|].
        -- by rewrite Nat.sub_diag.
        -- replace (j - n) with (S (j - S n)) by lia. apply Hmin. lia.
Qed.

Lemma find_from_Some sub s i j :
  find_from sub s i = Some j ->
  i <= j /\ (i <= length s -> j + length sub <= length s) /\
  starts_with sub (drop j s) = true /\
  forall k, i <= k < j -> starts_with sub (drop k s) = false.
Proof.
  intros H. apply find_aux_Some in H as (? & Hle & Hs & Hmin).
  rewrite length_drop in Hle. rewrite drop_drop in Hs.
  replace (i + (j - i)) with j in Hs by lia.
  split_and!; [done|lia|done|].
  intros k Hk. specialize (Hmin k Hk). rewrite drop_drop in Hmin.
  by replace (i + (k - i)) with k in Hmin by lia.
Qed.

Lemma find_aux_None sub s n k :
  find_aux sub s n = None -> starts_with sub (drop k s) = false.
Proof.
  revert n k. induction s as [|c s IH]; intros n k; simpl.
  - rewrite drop_nil. by destruct (starts_with sub []).
  - destruct (starts_with sub (c :: s)) eqn:Hs; [done|].
    destruct k; [done|]. apply IH.
Qed.

Lemma find_from_None sub s i k :
  find_from sub s i = None -> i <= k -> starts_with sub (drop k s) = false.
Proof.
  intros H Hk. apply (find_aux_None _ _ _ (k - i)) in H.
  rewrite drop_drop in H. by replace (i + (k - i)) with k in H by lia.
Qed.

Lemma slice_length s a b : b <= length s -> length (slice s a b) = b - a.
Proof. intros. unfold slice. rewrite length_take, length_drop. lia. Qed.

Lemma slice_app s a b c : a <= b -> b <= c -> slice s a b ++ slice s b c = slice s a c.
Proof.
  intros. unfold slice. replace (c - a) with ((b - a) + (c - b)) by lia.
  rewrite <-(take_take_drop (drop a s) (b - a)), drop_drop.
  by replace (a + (b - a)) with b by lia.
Qed.

Lemma slice_full s : slice s 0 (length s) = s.
Proof. unfold slice. rewrite drop_0, Nat.sub_0_r. by apply take_ge. Qed.

Lemma slice_nil s a : slice s a a = [].
Proof. unfold slice. by rewrite Nat.sub_diag. Qed.

Lemma slice_one s a c : s !! a = Some c -> slice s a (S a) = [c].
Proof.
  intros H. unfold slice. replace (S a - a) with 1 by lia.
  by rewrite (drop_S _ _ _ H).
Qed.

(** ** Lemmas on encodings *)
Lemma utf8_char_inj c d b b' r r' :
  utf8_char c = Some b -> utf8_char d = Some b' -> b ++ r = b' ++ r' -> c = d /\ r = r'.
Proof.
  unfold utf8_char, between. intros Hc Hd.
  repeat case_match; simplify_eq/=; intros Heq; simplify_eq/=; try (split; [lia|done]).
  all: zify; Z.div_mod_to_equations; lia.
Qed.

Lemma utf8_char_nonempty c b : utf8_char c = Some b -> 0 < length b.
Proof. unfold utf8_char. intros. repeat case_match; simplify_eq/=; lia. Qed.

(** Two texts with the same UTF-8 bytes are the same text. *)
Lemma utf8_encode_inj s t b : utf8_encode s = Some b -> utf8_encode t = Some b -> s = t.
Proof.
  revert t b. induction s as [|c s IH]; intros [|d t] b; simpl; intros Hs Ht.
  - done.
  - simplify_eq. apply bind_Some in Ht as (b1 & Hb1 & Ht).
    apply bind_Some in Ht as (b2 & _ & [= Hb]).
    apply utf8_char_nonempty in Hb1. destruct b1; simpl in *; [lia|done].
  - simplify_eq. apply bind_Some in Hs as (b1 & Hb1 & Hs).
    apply bind_Some in Hs as (b2 & _ & [= Hb]).
    apply utf8_char_nonempty in Hb1. destruct b1; simpl in *; [lia|done].
  - apply bind_Some in Hs as (b1 & Hb1 & Hs). apply bind_Some in Hs as (b2 & Hb2 & [= Hb]).
    apply bind_Some in Ht as (b3 & Hb3 & Ht). apply bind_Some in Ht as (b4 & Hb4 & [= Hb']).
    rewrite <-Hb' in Hb. destruct (utf8_char_inj _ _ _ _ _ _ Hb1 Hb3 Hb) as [-> ->].
    f_equal. eauto.
Qed.

Lemma utf8_encode_ascii s : forallb is_ascii s = true -> utf8_encode s = Some s.
Proof.
  induction s as [|c s IH]; simpl; [done|]. intros [Hc Hs]%andb_true_iff.
  unfold utf8_char. unfold is_ascii in Hc. change 128%N with 0x80%N in Hc. rewrite Hc. simpl.
  by rewrite IH.
Qed.

Lemma be_bytes_length w n : length (be_bytes w n) = w.
Proof. revert n; induction w; intros; simpl; [done|]. rewrite length_app, IHw. simpl. lia. Qed.

Lemma be_value_app b x : be_value (b ++ [x]) = (be_value b * 256 + x)%N.
Proof. unfold be_value. by rewrite fold_left_app. Qed.

(** The big-endian encoding decodes to the value it encodes. *)
Lemma be_value_bytes w n : (n < 2 ^ (8 * N.of_nat w))%N -> be_value (be_bytes w n) = n.
Proof.
  revert n. induction w as [|w IH]; intros n Hn.
  - simpl in *. unfold be_value; simpl. lia.
  - simpl be_bytes. rewrite be_value_app, IH.
    + pose proof (N.div_mod n 256). lia.
    + replace (8 * N.of_nat (S w))%N with (8 * N.of_nat w + 8)%N in Hn by lia.
      rewrite N.pow_add_r in Hn. change (2 ^ 8)%N with 256%N in Hn.
      apply N.Div0.div_lt_upper_bound. lia.
Qed.

Lemma to_bytes_big_inj w n m b :
  to_bytes_big w n = Some b -> to_bytes_big w m = Some b -> n = m.
Proof.
  unfold to_bytes_big.
  destruct (N.ltb_spec n (2 ^ (8 * N.of_nat w))); [|done].
  destruct (N.ltb_spec m (2 ^ (8 * N.of_nat w))); [|done]. intros [= <-] [= Heq].
  rewrite <-(be_value_bytes w n), <-(be_value_bytes w m) by done. by rewrite Heq.
Qed.

Lemma to_bytes_big_length w n b : to_bytes_big w n = Some b -> length b = w.
Proof. unfold to_bytes_big. case_match; [|done]. intros [= <-]. apply be_bytes_length. Qed.

Lemma hex_length b : length (hex b) = 2 * length b.
Proof. induction b; simpl; [done|]. unfold hex in *. simpl. rewrite IHb. lia. Qed.

Lemma hex_digit_inj x y : (x < 16)%N -> (y < 16)%N -> hex_digit x = hex_digit y -> x = y.
Proof. unfold hex_digit. intros ??. repeat case_match; lia. Qed.

(** [bytes.hex] is injective on 8-bit values. *)
Lemma hex_inj b c :
  Forall (fun x => x < 256)%N b -> Forall (fun x => x < 256)%N c -> hex b = hex c -> b = c.
Proof.
  intros Hb. revert c. induction Hb as [|x b Hx Hb IH]; intros c Hc Heq.
  - destruct c; [done|]. apply (f_equal length) in Heq. rewrite !hex_length in Heq.
    simpl in Heq. lia.
  - destruct Hc as [|y c Hy Hc]; [apply (f_equal length) in Heq; rewrite !hex_length in Heq;
      simpl in Heq; lia|].
    unfold hex in *. simpl in Heq. injection Heq as H1 H2 H3.
    apply hex_digit_inj in H1; [|apply N.Div0.div_lt_upper_bound; lia..].
    apply hex_digit_inj in H2; [|apply N.mod_lt; lia..].
    f_equal; [|by apply IH].
    rewrite (N.div_mod x 256), (N.div_mod y 256) by lia. clear - H1 H2 Hx Hy.
    rewrite (N.div_mod x 16), (N.div_mod y 16) by lia. rewrite H1, H2. done.
Qed.

Lemma utf8_encode_bytes s b : utf8_encode s = Some b -> Forall (fun x => x < 256)%N b.
Proof.
  revert b. induction s as [|c s IH]; intros b; simpl; intros Hs; simplify_eq; [constructor|].
  apply bind_Some in Hs as (b1 & Hb1 & Hs). apply bind_Some in Hs as (b2 & Hb2 & [= <-]).
  apply Forall_app. split; [|by apply IH].
  unfold utf8_char, between in Hb1. repeat case_match; simplify_eq;
    repeat constructor; zify; Z.div_mod_to_equations; lia.
Qed.

#[export] Hint Resolve starts_with_app utf8_encode_inj to_bytes_big_length : migr8.
#[export] Hint Rewrite be_bytes_length hex_length : migr8_rw.

(** ** Lemmas on [split] and [join] *)
Lemma split_on_nonempty sep s : split_on sep s <> [].
Proof. destruct s as [|c s]; simpl; [done|]. repeat case_match; done. Qed.

Lemma join_split sep s : join [sep] (split_on sep s) = s.
Proof.
  induction s as [|c s IH]; simpl; [done|].
  destruct (N.eqb_spec c sep) as [->|].
  - pose proof (split_on_nonempty sep s). destruct (split_on sep s) eqn:E; [done|].
    simpl in *. by rewrite IH.
  - destruct (split_on sep s) as [|w [|w' ws]] eqn:E; simpl in *; by rewrite <-?IH.
Qed.

Lemma split_on_no_sep sep s : Forall (fun w => sep ∉ w) (split_on sep s).
Proof.
  induction s as [|c s IH]; simpl; [repeat constructor; set_solver|].
  destruct (N.eqb_spec c sep) as [->|].
  - constructor; [set_solver|done].
  - destruct (split_on sep s) as [|w ws]; constructor; try set_solver.
    + apply Forall_cons in IH as [? _]. set_solver.
    + by apply Forall_cons in IH as [_ ?].
Qed.

Lemma split_on_none sep w : sep ∉ w -> split_on sep w = [w].
Proof.
  induction w as [|c w IH]; simpl; [done|]. intros Hw.
  rewrite IH by set_solver. destruct (N.eqb_spec c sep); [set_solver|done].
Qed.

Lemma split_on_app sep w s : sep ∉ w -> split_on sep (w ++ sep :: s) = w :: split_on sep s.
Proof.
  induction w as [|c w IH]; simpl; intros Hw.
  - by rewrite N.eqb_refl.
  - rewrite IH by set_solver. destruct (N.eqb_spec c sep); [set_solver|done].
Qed.

Lemma split_join sep parts :
  parts <> [] -> Forall (fun w => sep ∉ w) parts -> split_on sep (join [sep] parts) = parts.
Proof.
  intros Hne Hp. induction Hp as [|w parts Hw Hp IH]; [done|].
  destruct parts as [|w' parts].
  - by apply split_on_none.
  - change (join [sep] (w :: w' :: parts)) with (w ++ sep :: join [sep] (w' :: parts)).
    rewrite split_on_app by done. by rewrite IH.
Qed.

#[export] Hint Resolve split_on_nonempty split_on_no_sep : migr8.
#[export] Hint Rewrite join_split : migr8_rw.
