(* ===== verification/Text.v ===== *)
(** * Printing numbers and padding text

    What f-strings do with an integer and a width: decimal digits, zero padding,
    left and right alignment; and the fact that digits can be read back. *)
From S2P Require Import Prelude PyStr.
Open Scope str_scope.

(** ** Decimal digits

    Each step writes the last digit; a number has no more digits than bits. *)
Fixpoint dec_digits (fuel : nat) (n : N) (acc : str) : str :=
  match fuel with
  | O => acc
  | S fuel =>
      let acc := (48 + n mod 10)%N :: acc in
      if (n / 10 =? 0)%N then acc else dec_digits fuel (n / 10)%N acc
  end.

Definition dec (n : N) : str := dec_digits (S (N.to_nat (N.log2 n))) n [].

(** [str(z)]. *)
Definition dec_Z (z : Z) : str := if (z <? 0)%Z then "-" ++ dec (Z.to_N (- z)) else dec (Z.to_N z).

(** [int(s)] on digits. *)
Definition dec_value (s : str) : N := fold_left (fun a c => a * 10 + (c - 48))%N s 0%N.

(** ** Alignment: [f"{s:<w}"], [f"{s:>w}"] and [f"{n:0w}"] *)
Definition pad_right (w : nat) (s : str) : str := s ++ repeat 32%N (w - length s).
Definition pad_left (w : nat) (s : str) : str := repeat 32%N (w - length s) ++ s.
Definition zero_pad (w : nat) (s : str) : str := repeat 48%N (w - length s) ++ s.

(** An optional value and a truth value in an f-string. *)
Definition show_option {A} (show : A -> str) (o : option A) : str :=
  match o with Some a => show a | None => "None" end.
Definition show_bool (b : bool) : str := if b then "True" else "False".

(** ** Lemmas *)
Lemma fold_digits s a b :
  fold_left (fun a c => a * 10 + (c - 48))%N s (a + b)%N =
  (a * 10 ^ N.of_nat (length s) + fold_left (fun a c => a * 10 + (c - 48)) s b)%N.
Proof.
  revert a b. induction s as [|c s IH]; intros a b; simpl; [lia|].
  replace ((a + b) * 10 + (c - 48))%N with (a * 10 + (b * 10 + (c - 48)))%N by lia.
  rewrite IH, Nat2N.inj_succ, N.pow_succ_r'. lia.
Qed.

Lemma dec_value_cons d acc : (d < 10)%N -> dec_value ((48 + d)%N :: acc) = (d * 10 ^ N.of_nat (length acc) + dec_value acc)%N.
Proof.
  intros Hd. unfold dec_value. cbn [fold_left].
  replace (0 * 10 + (48 + d - 48))%N with (d + 0)%N by lia. by rewrite fold_digits.
Qed.

Lemma dec_digits_value fuel n acc :
  (n < 2 ^ N.of_nat fuel)%N -> dec_value (dec_digits fuel n acc) = (n * 10 ^ N.of_nat (length acc) + dec_value acc)%N.
Proof.
  revert n acc. induction fuel as [|fuel IH]; intros n acc Hn.
  { simpl in *. assert (n = 0%N) as -> by lia. simpl. lia. }
  simpl dec_digits. assert (n mod 10 < 10)%N by (apply N.mod_lt; lia).
  pose proof (N.div_mod' n 10) as Hdm.
  destruct (N.eqb_spec (n / 10) 0%N) as [Hz|Hz].
  - rewrite dec_value_cons by done. rewrite Hdm at 2. rewrite Hz. lia.
  - rewrite IH.
    + rewrite dec_value_cons by done. simpl length. rewrite Nat2N.inj_succ, N.pow_succ_r'.
      rewrite Hdm at 3. lia.
    + rewrite Nat2N.inj_succ, N.pow_succ_r' in Hn. lia.
Qed.

Lemma dec_value_dec n : dec_value (dec n) = n.
Proof.
  unfold dec. rewrite dec_digits_value; [unfold dec_value; simpl; lia|].
  destruct (N.eq_dec n 0%N) as [->|]; [done|].
  rewrite Nat2N.inj_succ, N2Nat.id. apply N.log2_spec. lia.
Qed.

Lemma dec_inj n m : dec n = dec m -> n = m.
Proof. intros H. by rewrite <-(dec_value_dec n), <-(dec_value_dec m), H. Qed.

Lemma dec_value_zeros k s : dec_value (repeat 48%N k ++ s) = dec_value s.
Proof. unfold dec_value. rewrite fold_left_app. f_equal. by induction k. Qed.

(** Padding never identifies two numbers, however long they are. *)
Lemma zero_pad_dec_inj w n m : zero_pad w (dec n) = zero_pad w (dec m) -> n = m.
Proof.
  intros H. apply (f_equal dec_value) in H. unfold zero_pad in H. by rewrite !dec_value_zeros, !dec_value_dec in H.
Qed.

(** ** [int(s)] of a decimal text *)
Definition is_digit (c : char) : bool := (48 <=? c)%N && (c <=? 57)%N.
Definition digits_int (s : str) : option Z :=
  match s with [] => None | _ => if forallb is_digit s then Some (Z.of_N (dec_value s)) else None end.
Definition text_int (s : str) : option Z :=
  match s with c :: r => if (c =? 45)%N then Z.opp <$> digits_int r else digits_int s | [] => None end.

Lemma dec_digits_digits fuel n acc : forallb is_digit acc = true -> forallb is_digit (dec_digits fuel n acc) = true.
Proof.
  revert n acc. induction fuel as [|fuel IH]; intros n acc Hacc; [done|]. simpl. pose proof (N.mod_lt n 10).
  assert (is_digit (48 + n mod 10)%N = true) as Hd. { unfold is_digit. rewrite andb_true_iff, !N.leb_le. lia. }
  destruct (_ =? 0)%N; [|apply IH]; simpl; by rewrite Hd.
Qed.

Lemma dec_digits_cons fuel n acc : acc <> [] -> dec_digits fuel n acc <> [].
Proof. revert n acc. induction fuel as [|fuel IH]; intros n acc Hacc; simpl; [done|]. destruct (_ =? 0)%N; [done|]. by apply IH. Qed.

Lemma digits_int_dec n : digits_int (dec n) = Some (Z.of_N n).
Proof.
  unfold digits_int. rewrite dec_value_dec. assert (dec n <> []) as Hne.
  { unfold dec. simpl. destruct (_ =? 0)%N; [done|]. by apply dec_digits_cons. }
  assert (forallb is_digit (dec n) = true) as -> by (by apply dec_digits_digits). by destruct (dec n).
Qed.

Lemma text_int_dec z : text_int (dec_Z z) = Some z.
Proof.
  unfold dec_Z. destruct (z <? 0)%Z eqn:Hz; [apply Z.ltb_lt in Hz|apply Z.ltb_ge in Hz].
  - simpl. rewrite digits_int_dec. simpl. f_equal. lia.
  - pose proof (digits_int_dec (Z.to_N z)) as Hd. unfold text_int. rewrite Z2N.id in Hd by done.
    destruct (dec (Z.to_N z)) as [|c r]; [done|]. destruct (c =? 45)%N eqn:Hc; [|done]. apply N.eqb_eq in Hc as ->. done.
Qed.

Lemma dec_Z_inj x y : dec_Z x = dec_Z y -> x = y.
Proof. intros H. apply (f_equal text_int) in H. rewrite !text_int_dec in H. by injection H. Qed.

Example dec_examples : dec 0 = "0" /\ dec 120 = "120" /\ zero_pad 5 (dec 42) = "00042" /\ pad_left 4 "7" ++ pad_right 3 "x" = "   7x  ".
Proof. vm_compute. done. Qed.
