(* ===== verification/Errors.v ===== *)
(** * Error taxonomy and exit codes ([errors.py])

    Python's exception classes become the inductive [eclass] with its
    inheritance as a function to the base class, and an exception object the
    record [error]. The interpolated text of a message is not modelled: each
    [raise] statement carries a fixed label instead, so that the branches of a
    function stay distinguishable. Everything the program reads back from an
    exception (class, exit code, phase, migration id, operation) is kept. *)
From S2P Require Import Prelude PyStr.
Open Scope str_scope.

(* @src errors.py Exit *)
Inductive Exit :=
| OK
| USAGE
| VALIDATION
| MIGRATION_FAILED
| UNKNOWN_OUTCOME
| LOCK_NOT_ACQUIRED
| NOT_INITIALIZED
| METADATA_DAMAGED
| CONTRACT_VIOLATION.

#[export] Instance Exit_eq_dec : EqDecision Exit.
Proof. solve_decision. Defined.

(* @src errors.py 18-26 Exit (integer values) *)
Definition exit_int (e : Exit) : Z :=
  match e with
  | OK => 0
  | USAGE => 1
  | VALIDATION => 2
  | MIGRATION_FAILED => 3
  | UNKNOWN_OUTCOME => 4
  | LOCK_NOT_ACQUIRED => 5
  | NOT_INITIALIZED => 6
  | METADATA_DAMAGED => 7
  | CONTRACT_VIOLATION => 8
  end.

(** [Exit(n)], which raises [ValueError] on any other integer. *)
Definition Exit_of_int (n : Z) : option Exit :=
  match n with
  | 0 => Some OK
  | 1 => Some USAGE
  | 2 => Some VALIDATION
  | 3 => Some MIGRATION_FAILED
  | 4 => Some UNKNOWN_OUTCOME
  | 5 => Some LOCK_NOT_ACQUIRED
  | 6 => Some NOT_INITIALIZED
  | 7 => Some METADATA_DAMAGED
  | 8 => Some CONTRACT_VIOLATION
  | _ => None
  end%Z.

(* @src errors.py OUTCOME_NAMES *)
Definition OUTCOME_NAMES (e : Exit) : str :=
  match e with
  | OK => "ok"
  | USAGE => "usage_error"
  | VALIDATION => "validation_failed"
  | MIGRATION_FAILED => "migration_failed"
  | UNKNOWN_OUTCOME => "outcome_unknown"
  | LOCK_NOT_ACQUIRED => "lock_not_acquired"
  | NOT_INITIALIZED => "not_initialized"
  | METADATA_DAMAGED => "metadata_damaged"
  | CONTRACT_VIOLATION => "contract_violation"
  end.

(* @src errors.py 45-172 Migr8Error and its subclasses *)
Inductive eclass :=
| Migr8Error
| UsageError
| ConfigError
| ConnectionSetupError
| UnsupportedCapabilityError
| ValidationError
| ManifestError
| UnitError
| SqlSyntaxError
| PythonSyntaxError
| RecoveryRequiredError
| MigrationFailedError
| UnknownOutcomeError
| LockNotAcquiredError
| NotInitializedError
| MetadataDamagedError
| ContractViolationError.

#[export] Instance eclass_eq_dec : EqDecision eclass.
Proof. solve_decision. Defined.

(** [__qualname__] of each class. *)
Definition class_name (c : eclass) : str :=
  match c with
  | Migr8Error => "Migr8Error"
  | UsageError => "UsageError"
  | ConfigError => "ConfigError"
  | ConnectionSetupError => "ConnectionSetupError"
  | UnsupportedCapabilityError => "UnsupportedCapabilityError"
  | ValidationError => "ValidationError"
  | ManifestError => "ManifestError"
  | UnitError => "UnitError"
  | SqlSyntaxError => "SqlSyntaxError"
  | PythonSyntaxError => "PythonSyntaxError"
  | RecoveryRequiredError => "RecoveryRequiredError"
  | MigrationFailedError => "MigrationFailedError"
  | UnknownOutcomeError => "UnknownOutcomeError"
  | LockNotAcquiredError => "LockNotAcquiredError"
  | NotInitializedError => "NotInitializedError"
  | MetadataDamagedError => "MetadataDamagedError"
  | ContractViolationError => "ContractViolationError"
  end.

(** The base class of each class statement. *)
(* @src errors.py 68-172 class statements (bases) *)
Definition base_class (c : eclass) : option eclass :=
  match c with
  | Migr8Error => None
  | UsageError | ValidationError | MigrationFailedError | UnknownOutcomeError
  | LockNotAcquiredError | NotInitializedError | MetadataDamagedError
  | ContractViolationError => Some Migr8Error
  | ConfigError | ConnectionSetupError | UnsupportedCapabilityError => Some UsageError
  | ManifestError | UnitError | SqlSyntaxError | PythonSyntaxError
  | RecoveryRequiredError => Some ValidationError
  end.

(** The [exit_code] attribute a class statement sets itself, if any. *)
(* @src errors.py 45-172 class attribute exit_code *)
Definition own_exit_code (c : eclass) : option Exit :=
  match c with
  | Migr8Error => Some USAGE
  | UsageError => Some USAGE
  | ValidationError => Some VALIDATION
  | MigrationFailedError => Some MIGRATION_FAILED
  | UnknownOutcomeError => Some UNKNOWN_OUTCOME
  | LockNotAcquiredError => Some LOCK_NOT_ACQUIRED
  | NotInitializedError => Some NOT_INITIALIZED
  | MetadataDamagedError => Some METADATA_DAMAGED
  | ContractViolationError => Some CONTRACT_VIOLATION
  | _ => None
  end.

(** Attribute lookup along the bases; the hierarchy is three classes deep. *)
Fixpoint lookup_exit (fuel : nat) (c : eclass) : option Exit :=
  match fuel with
  | O => None
  | S fuel =>
      match own_exit_code c with
      | Some e => Some e
      | None => b ← base_class c; lookup_exit fuel b
      end
  end.

Definition class_exit_code (c : eclass) : Exit := default USAGE (lookup_exit 3 c).

(** [issubclass(c, d)]. *)
Fixpoint subclass_fuel (fuel : nat) (c d : eclass) : bool :=
  bool_decide (c = d) ||
  match fuel, base_class c with
  | S fuel, Some b => subclass_fuel fuel b d
  | _, _ => false
  end.
Definition subclass (c d : eclass) : bool := subclass_fuel 2 c d.

(** An exception object. [e_message] is the label of the [raise] statement. *)
(* @src errors.py Migr8Error.__init__ *)
Record error := MkError {
  e_class : eclass;
  e_message : str;
  e_phase : option str;
  e_migration_id : option str;
  e_operation : option str;
}.

#[export] Instance error_eq_dec : EqDecision error.
Proof. solve_decision. Defined.

Definition is_instance (e : error) (c : eclass) : bool := subclass (e_class e) c.
Definition exit_code (e : error) : Exit := class_exit_code (e_class e).

(** Exceptions raised with a message alone, and with keyword arguments. *)
Definition mk (c : eclass) (label : str) : error := MkError c label None None None.
Definition mk_id (c : eclass) (label : str) (mid : str) : error :=
  MkError c label None (Some mid) None.
Definition mk_at (c : eclass) (label : str) (phase : str) (mid : option str) : error :=
  MkError c label (Some phase) mid None.

(** [UnknownOutcomeError(message, operation=..., phase=..., migration_id=...)]. *)
(* @src errors.py UnknownOutcomeError.__init__ *)
Definition mk_unknown (label operation phase : str) (mid : option str) : error :=
  MkError UnknownOutcomeError label (Some phase) mid (Some operation).

(** A Python truth test on an optional string. *)
Definition truthy (s : option str) : option str :=
  match s with Some (_ :: _) => s | _ => None end.

(* @src errors.py Migr8Error.report *)
Definition base_report (e : error) : str :=
  let parts :=
    option_list ((fun p => "phase=" ++ p) <$> truthy (e_phase e)) ++
    option_list ((fun m => "migration=" ++ m) <$> truthy (e_migration_id e)) in
  let suffix := match parts with [] => [] | _ => " [" ++ join ", " parts ++ "]" end in
  e_message e ++ suffix.

(* @src errors.py UnknownOutcomeError.report *)
Definition report (e : error) : str :=
  match e_class e, e_operation e with
  | UnknownOutcomeError, Some op => "unknown outcome for " ++ op ++ ": " ++ base_report e
  | _, _ => base_report e
  end.

(** Any Python exception that reaches a handler of the program. [PyMigr8] is a
    [Migr8Error]; [PyException] any other [Exception], named by module and
    qualified type, with the engine's code for it when the adapter has one;
    [PyInterrupt] a [KeyboardInterrupt], which is a [BaseException] only. *)
Record driver_exn := MkDriver {
  d_name : str;                   (* module and qualified type name *)
  d_bases : list str;             (* the classes isinstance answers True for *)
  d_code : option str;            (* sqlite_errorname, sqlstate or full_code *)
  d_number : Z;                   (* the error number python-oracledb keeps, or errno, or 0 *)
  d_dead : bool;                  (* is_session_dead *)
}.

(** An exception of Python itself. *)
Definition builtin_exn (name : str) : driver_exn := MkDriver name [] None 0 false.

(** [isinstance(exc, C)] for a driver class [C]. *)
Definition instance_of (c : str) (d : driver_exn) : bool := bool_decide (c ∈ d_bases d).

Inductive pyexn :=
| PyMigr8 (e : error)
| PyException (d : driver_exn)
| PyInterrupt.

#[export] Instance driver_exn_eq_dec : EqDecision driver_exn.
Proof. solve_decision. Defined.
#[export] Instance pyexn_eq_dec : EqDecision pyexn.
Proof. solve_decision. Defined.

(** [isinstance(exc, Exception)]. *)
Definition is_Exception (x : pyexn) : bool :=
  match x with PyInterrupt => false | _ => true end.

(** [except C:] for a class [C] of the taxonomy. *)
Definition catches (c : eclass) (x : pyexn) : bool :=
  match x with PyMigr8 e => is_instance e c | _ => false end.

(* @src errors.py describe_safely *)
Definition describe_safely (x : pyexn) : str :=
  match x with
  | PyMigr8 e => report e
  | PyException d => d_name d
  | PyInterrupt => "builtins.KeyboardInterrupt"
  end.

(** ** Sorting by UTF-8 bytes

    [sorted(l, key=lambda x: key(x).encode("utf-8"))]: the keys are computed first,
    and a text that does not encode raises [UnicodeEncodeError]. *)
Definition unicode_error : pyexn := PyException (builtin_exn "builtins.UnicodeEncodeError").

Definition encode_or_raise (s : str) : result pyexn bytes :=
  match utf8_encode s with Some b => Ok b | None => Err unicode_error end.

Definition with_key {A} (key : A -> str) (x : A) : result pyexn (bytes * A) :=
  b ← encode_or_raise (key x); Ok (b, x).

Definition key_leb {A} (p q : bytes * A) : bool := lex_leb p.1 q.1.

Definition sort_by_utf8 {A} (key : A -> str) (l : list A) : result pyexn (list A) :=
  keyed ← map_result (with_key key) l; Ok ((sort_by key_leb keyed).*2).

(** A pure check's [Migr8Error] seen as a Python exception. *)
Definition lift {A} (r : result error A) : result pyexn A :=
  match r with Ok a => Ok a | Err e => Err (PyMigr8 e) end.

(** ** Lemmas *)
Lemma Exit_of_int_code e : Exit_of_int (exit_int e) = Some e.
Proof. by destruct e. Qed.

Lemma exit_int_range e : (0 <= exit_int e <= 8)%Z.
Proof. destruct e; simpl; lia. Qed.

Lemma Exit_of_int_inv n e : Exit_of_int n = Some e -> exit_int e = n.
Proof. unfold Exit_of_int. repeat case_match; intros; simplify_eq; done. Qed.

Lemma exit_code_not_OK e : exit_code e <> OK.
Proof. unfold exit_code. by destruct (e_class e). Qed.

Lemma subclass_refl c : subclass c c = true.
Proof. by destruct c. Qed.

Lemma lookup_exit_total c : exists e, lookup_exit 3 c = Some e.
Proof. destruct c; eexists; reflexivity. Qed.

(** A class statement's exit code and outcome name. Every class inherits the
    exit code of each class it derives from below [Migr8Error], so catching by a
    base class never changes the code; a caught exception is never reported as
    success; and the nine outcome names name nine exit codes. *)
Lemma exit_code_inherited :
  (forall c d, subclass c d = true -> d <> Migr8Error -> class_exit_code c = class_exit_code d) /\
  (forall c, class_exit_code c <> OK) /\
  (forall a b, OUTCOME_NAMES a = OUTCOME_NAMES b -> a = b) /\
  (forall a, Exit_of_int (exit_int a) = Some a).
Proof.
  split_and!.
  - intros [] [] H Hne; try done; vm_compute in H; done.
  - by intros [].
  - intros [] []; vm_compute; done.
  - apply Exit_of_int_code.
Qed.

Lemma exit_code_unknown e : exit_code e = UNKNOWN_OUTCOME <-> e_class e = UnknownOutcomeError.
Proof. destruct e as [[] ? ? ? ?]; vm_compute; split; done. Qed.

Lemma catches_class c e : catches c (PyMigr8 e) = subclass (e_class e) c.
Proof. done. Qed.

#[export] Hint Rewrite Exit_of_int_code catches_class : migr8_rw.
#[export] Hint Resolve exit_int_range subclass_refl : migr8.

(** ** Lemmas on sorting by UTF-8 bytes *)
Lemma lift_Ok {A} (r : result error A) a : lift r = Ok a <-> r = Ok a.
Proof. destruct r; naive_solver. Qed.

Lemma encode_or_raise_Ok s b : encode_or_raise s = Ok b <-> utf8_encode s = Some b.
Proof. unfold encode_or_raise. destruct (utf8_encode s); naive_solver. Qed.

Lemma with_key_Ok {A} (key : A -> str) x p :
  with_key key x = Ok p <-> utf8_encode (key x) = Some p.1 /\ p.2 = x.
Proof.
  unfold with_key. rewrite bind_Ok. setoid_rewrite encode_or_raise_Ok.
  destruct p as [b y]; simpl. naive_solver.
Qed.

Lemma key_leb_total {A} (p q : bytes * A) : key_leb p q = true \/ key_leb q p = true.
Proof. apply lex_leb_total. Qed.

Lemma key_leb_trans {A} (p q r : bytes * A) :
  key_leb p q = true -> key_leb q r = true -> key_leb p r = true.
Proof. apply lex_leb_trans. Qed.

Lemma StronglySorted_fmap {A B} (f : A -> B) (R : B -> B -> Prop) l :
  StronglySorted (fun x y => R (f x) (f y)) l -> StronglySorted R (map f l).
Proof.
  induction 1 as [|x l Hl IH Hx]; simpl; constructor; [done|].
  apply Forall_fmap. done.
Qed.

(** The result is a permutation, ordered by the encoded keys. *)
Lemma sort_by_utf8_Ok {A} (key : A -> str) l l' :
  sort_by_utf8 key l = Ok l' ->
  l' ≡ₚ l /\ exists ks, Forall2 (fun x k => utf8_encode (key x) = Some k) l' ks /\
    StronglySorted (fun a b => lex_leb a b = true) ks.
Proof.
  unfold sort_by_utf8. intros (keyed & Hk%map_result_Ok & [= <-])%bind_Ok.
  assert (keyed.*2 = l) as Hl.
  { clear -Hk. induction Hk as [|x p l keyed Hp Hk IH]; [done|].
    apply with_key_Ok in Hp as [_ Hp]. csimpl. by rewrite Hp, IH. }
  assert (Forall (fun p => utf8_encode (key p.2) = Some p.1) keyed) as Hf.
  { clear -Hk. induction Hk as [|x p l keyed Hp Hk IH]; constructor; [|done].
    apply with_key_Ok in Hp as [? ->]. done. }
  split.
  - rewrite <-Hl. apply fmap_Permutation, sort_by_perm.
  - exists (sort_by key_leb keyed).*1. split.
    + rewrite <-(sort_by_perm key_leb) in Hf. apply Forall2_fmap, Forall_Forall2_diag. done.
    + apply (StronglySorted_fmap fst (fun a b => lex_leb a b = true)).
      apply (sort_by_sorted key_leb key_leb_total key_leb_trans).
Qed.

(** Whether the sort succeeds does not depend on the input order. *)
Lemma sort_by_utf8_total {A} (key : A -> str) l1 l2 r1 :
  l1 ≡ₚ l2 -> sort_by_utf8 key l1 = Ok r1 -> exists r2, sort_by_utf8 key l2 = Ok r2.
Proof.
  unfold sort_by_utf8. intros Hp (keyed & Hk & _)%bind_Ok.
  destruct (map_result_perm _ _ _ _ Hp Hk) as (keyed' & -> & _). simpl. eauto.
Qed.

(** With distinct keys the result does not depend on the input order. *)
Lemma sort_by_utf8_perm {A} (key : A -> str) l1 l2 r1 r2 :
  l1 ≡ₚ l2 -> NoDup (map key l1) ->
  sort_by_utf8 key l1 = Ok r1 -> sort_by_utf8 key l2 = Ok r2 -> r1 = r2.
Proof.
  intros Hp Hnd H1 H2.
  apply sort_by_utf8_Ok in H1 as (Hp1 & k1 & Hk1 & Hs1).
  apply sort_by_utf8_Ok in H2 as (Hp2 & k2 & Hk2 & Hs2).
  assert (r1 ≡ₚ r2) as Hr by (by rewrite Hp1, Hp2).
  assert (NoDup (map key r1)) as Hnd1 by (by rewrite Hp1).
  clear l1 l2 Hp Hnd Hp1 Hp2. revert r2 k2 Hk2 Hs2 Hr.
  revert k1 Hk1 Hs1 Hnd1. induction r1 as [|x r1 IH]; intros k1 Hk1 Hs1 Hnd r2 k2 Hk2 Hs2 Hr.
  { by apply Permutation_nil_l in Hr. }
  destruct r2 as [|y r2]; [by apply Permutation_nil_r in Hr|].
  inversion Hk1 as [|? kx ? k1' Hkx Hk1']; subst. inversion Hk2 as [|? ky ? k2' Hky Hk2']; subst.
  inversion Hs1 as [|? ? Hs1' Hle1]; subst. inversion Hs2 as [|? ? Hs2' Hle2]; subst.
  assert (key x = key y) as Hxy.
  { eapply utf8_encode_inj; [exact Hkx|].
    assert (x ∈ y :: r2) as Hx by (rewrite <-Hr; left).
    assert (y ∈ x :: r1) as Hy by (rewrite Hr; left).
    apply elem_of_cons in Hx as [->|Hx]; [done|]. apply elem_of_cons in Hy as [->|Hy]; [done|].
    rewrite Forall_lookup in Hle1, Hle2.
    apply list_elem_of_lookup in Hx as [i Hi], Hy as [j Hj].
    destruct (Forall2_lookup_l _ _ _ _ _ Hk2' Hi) as (k & Hki & Hk).
    destruct (Forall2_lookup_l _ _ _ _ _ Hk1' Hj) as (k' & Hkj & Hk').
    apply Hle2 in Hki. apply Hle1 in Hkj. rewrite Hk in Hkx. rewrite Hk' in Hky. simplify_eq.
    rewrite Hk'. f_equal. by apply lex_leb_antisym. }
  apply NoDup_cons in Hnd as [Hni Hnd].
  assert (x = y) as ->.
  { assert (y ∈ x :: r1) as Hy by (rewrite Hr; left).
    apply elem_of_cons in Hy as [->|Hy]; [done|].
    destruct Hni. rewrite Hxy. by apply list_elem_of_fmap_2. }
  f_equal. apply (IH k1' Hk1' Hs1' Hnd r2 k2' Hk2' Hs2'). by apply Permutation_cons_inv in Hr.
Qed.
