(* ===== verification/Latch.v ===== *)
(** * The run latch ([latch.py])

    A single-shot latch: the first unknown outcome, contract violation or failed
    batch closes it, and from then on [check] raises that first error. *)
From S2P Require Import Prelude PyStr Errors.
Open Scope str_scope.

(* @src latch.py LatchState *)
Inductive LatchState :=
| OPEN
| UNKNOWN
| VIOLATION
| BATCH_FAILED.

#[export] Instance LatchState_eq_dec : EqDecision LatchState.
Proof. solve_decision. Defined.

(* @src latch.py RunLatch.__init__ *)
Record RunLatch := MkLatch {
  l_state : LatchState;
  l_error : option error;
}.

#[export] Instance RunLatch_eq_dec : EqDecision RunLatch.
Proof. solve_decision. Defined.

Definition latch_init : RunLatch := MkLatch OPEN None.

(* @src latch.py RunLatch.latched *)
Definition latched (l : RunLatch) : bool := negb (bool_decide (l_state l = OPEN)).

(* @src latch.py RunLatch.unknown *)
Definition latch_is_unknown (l : RunLatch) : bool := bool_decide (l_state l = UNKNOWN).

Definition latch_with (s : LatchState) (e : error) (l : RunLatch) : RunLatch :=
  match l_state l with
  | OPEN => MkLatch s (Some e)
  | _ => l
  end.

(** The three setters return their argument; the new latch is what matters. *)
(* @src latch.py RunLatch.latch_unknown *)
Definition latch_unknown (e : error) (l : RunLatch) : RunLatch := latch_with UNKNOWN e l.

(* @src latch.py RunLatch.latch_violation *)
Definition latch_violation (e : error) (l : RunLatch) : RunLatch := latch_with VIOLATION e l.

(* @src latch.py RunLatch.latch_failure *)
Definition latch_failure (e : error) (l : RunLatch) : RunLatch := latch_with BATCH_FAILED e l.

(* @src latch.py RunLatch.check *)
Definition check (l : RunLatch) : result error unit :=
  match l_error l with Some e => Err e | None => Ok tt end.

(** One call on the latch, and a whole run's worth of them. *)
Inductive latch_call :=
| CallUnknown (e : error)
| CallViolation (e : error)
| CallFailure (e : error).

Definition latch_step (l : RunLatch) (c : latch_call) : RunLatch :=
  match c with
  | CallUnknown e => latch_unknown e l
  | CallViolation e => latch_violation e l
  | CallFailure e => latch_failure e l
  end.

Definition call_error (c : latch_call) : error :=
  match c with CallUnknown e | CallViolation e | CallFailure e => e end.

Definition call_state (c : latch_call) : LatchState :=
  match c with
  | CallUnknown _ => UNKNOWN
  | CallViolation _ => VIOLATION
  | CallFailure _ => BATCH_FAILED
  end.

(** The invariant of a reachable latch: it holds an error exactly when closed. *)
Definition latch_wf (l : RunLatch) : Prop := l_state l = OPEN <-> l_error l = None.

(** ** Lemmas *)
Lemma latch_init_wf : latch_wf latch_init.
Proof. done. Qed.

Lemma latch_with_wf s e l : s <> OPEN -> latch_wf l -> latch_wf (latch_with s e l).
Proof. destruct l as [[] ?]; unfold latch_wf, latch_with; simpl; naive_solver. Qed.

Lemma latch_step_wf l c : latch_wf l -> latch_wf (latch_step l c).
Proof. destruct c; by apply latch_with_wf. Qed.

Lemma latch_with_latched s e l : s <> OPEN -> latched (latch_with s e l) = true.
Proof. destruct l as [[] ?]; destruct s; naive_solver. Qed.

(** Once closed, no call changes anything: the latch cannot be cleared. *)
Lemma latch_with_stable s e l : latched l = true -> latch_with s e l = l.
Proof. by destruct l as [[] ?]. Qed.

Lemma latch_step_stable l c : latched l = true -> latch_step l c = l.
Proof. destruct c; apply latch_with_stable. Qed.

Lemma latch_steps_stable l cs : latched l = true -> foldl latch_step l cs = l.
Proof.
  revert l. induction cs as [|c cs IH]; intros l Hl; simpl; [done|].
  rewrite latch_step_stable by done. auto.
Qed.

Lemma check_open l : latch_wf l -> check l = Ok tt <-> latched l = false.
Proof. destruct l as [[] []]; unfold latch_wf, check; simpl; naive_solver. Qed.

(** The latch is single-shot. After any sequence of latch calls the state and
    the error [check] raises are those of the first call, whatever the later
    calls carry; with no call the latch is open and [check] returns. *)
Lemma latch_first_wins cs :
  match cs with
  | [] => check (foldl latch_step latch_init cs) = Ok tt
  | c :: _ =>
      check (foldl latch_step latch_init cs) = Err (call_error c) /\
      l_state (foldl latch_step latch_init cs) = call_state c
  end.
Proof.
  destruct cs as [|c cs]; [done|]. simpl.
  rewrite latch_steps_stable by (by destruct c). by destruct c.
Qed.

#[export] Hint Resolve latch_init_wf latch_with_wf latch_step_wf : migr8.
#[export] Hint Rewrite latch_with_latched using done : migr8_rw.
