(* ===== verification/Paths.v ===== *)
(** * Path rules for migration units ([paths.py])

    A resolved path is the list of its components below the root. The file
    system is a tree of [node]s; what [lstat] says of a path is the node found by
    walking its components without following links. [Path.resolve] and the
    device and inode of a directory are facts about the host and stay parameters. *)
From S2P Require Import Prelude PyStr Errors.
Open Scope str_scope.

Abbreviation path := (list str).

#[warnings="-register-all"]
Inductive node :=
| NFile (data : bytes)
| NDir (entries : list (str * node))
| NSymlink
| NSpecial.

(** [lstat] along the components of a path, from a node. *)
Fixpoint lookup_node (n : node) (p : path) : option node :=
  match p with
  | [] => Some n
  | c :: p =>
      match n with
      | NDir es =>
          match find (fun e => bool_decide (e.1 = c)) es with
          | Some e => lookup_node e.2 p
          | None => None
          end
      | _ => None
      end
  end.

Definition is_dir (n : node) : bool := match n with NDir _ => true | _ => false end.
Definition is_regular (n : node) : bool := match n with NFile _ => true | _ => false end.
Definition is_link (n : node) : bool := match n with NSymlink => true | _ => false end.

(** [path.parents] holds [p]: [p] is a proper prefix of [path]. *)
Definition in_parents (p q : path) : bool :=
  bool_decide (length p < length q) && bool_decide (p = take (length p) q).

(** [path.parents], nearest first. *)
Definition parents (q : path) : list path :=
  map (fun n => take n q) (rev (seq 0 (length q))).

(* @src paths.py FORBIDDEN_DIR_NAMES *)
Definition FORBIDDEN_DIR_NAMES : list str := ["__pycache__"; ".pytest_cache"; ".mypy_cache"].

(* @src paths.py FORBIDDEN_FILE_SUFFIXES *)
Definition FORBIDDEN_FILE_SUFFIXES : list str := [".pyc"; ".pyo"].

Definition slash : char := 47%N.
Definition backslash : char := 92%N.
Definition is_control (c : char) : bool := (c <? 0x20)%N || (c =? 0x7F)%N.
Definition is_blank (c : char) : bool := (c =? 32)%N.

(** One component of the loop over [text.split("/")]. *)
(* @src paths.py 42-50 check_relative_path (loop body) *)
Definition check_component (part : str) : result error unit :=
  raise_if (bool_decide (part = [])) (mk UnitError "empty component");;
  raise_if (bool_decide (part ∈ ["."; ".."])) (mk UnitError "dot component");;
  raise_if (negb (bool_decide (part = strip_with is_blank part)))
    (mk UnitError "leading or trailing space").

Section paths.
Context {UC : Unicode}.

(* @src paths.py check_relative_path *)
Definition check_relative_path (text : str) : result error path :=
  raise_if (bool_decide (text = [])) (mk UnitError "empty path");;
  raise_if (bool_decide (backslash ∈ text)) (mk UnitError "backslash");;
  raise_if (existsb is_control text) (mk UnitError "control character");;
  raise_if (starts_with "/" text) (mk UnitError "absolute path");;
  raise_if (negb (bool_decide (uc_nfc text = text))) (mk UnitError "not NFC");;
  for_each check_component (split_on slash text);;
  Ok (split_on slash text).

(* @src paths.py 62-66 check_no_case_collisions (loop body) *)
Definition case_collision_step (seen : gmap str str) (rel : str) : result error (gmap str str) :=
  match seen !! casefold rel with
  | Some _ => Err (mk UnitError "case-folding collision")
  | None => Ok (<[casefold rel := rel]> seen)
  end.

(* @src paths.py check_no_case_collisions *)
Definition check_no_case_collisions (relpaths : list str) : result error unit :=
  fold_result case_collision_step ∅ relpaths;; Ok tt.

(* @src paths.py _lstat_or_fail *)
Definition lstat_or_fail (fs : node) (p : path) : result error node :=
  match lookup_node fs p with
  | Some n => Ok n
  | None => Err (mk ManifestError "component not accessible")
  end.

(** The walk over the components of a unit path: [current] grows by one
    component per iteration and must not be a link. *)
(* @src paths.py 81-89 resolve_unit_dir (loop) *)
Fixpoint refuse_links (fs : node) (current : path) (parts : list str) : result error path :=
  match parts with
  | [] => Ok current
  | part :: parts =>
      n ← lstat_or_fail fs (current ++ [part]);
      raise_if (is_link n) (mk ManifestError "symlink component");;
      refuse_links fs (current ++ [part]) parts
  end.

(** [except UnitError as exc: raise ManifestError(str(exc)) from None]. *)
(* @src paths.py 72-75 resolve_unit_dir (except clause) *)
Definition unit_to_manifest {A} (r : result error A) : result error A :=
  match r with
  | Err e => if is_instance e UnitError then Err (mk ManifestError (e_message e)) else Err e
  | Ok a => Ok a
  end.

(** [realpath] is [Path.resolve] on the host. *)
(* @src paths.py resolve_unit_dir *)
Definition resolve_unit_dir (realpath : path -> path) (fs : node) (manifest_dir : path)
    (raw_path : str) : result error path :=
  parts ← unit_to_manifest (check_relative_path raw_path);
  let root := realpath manifest_dir in
  refuse_links fs root parts;;
  let resolved := realpath (manifest_dir ++ parts) in
  raise_if (negb (match lookup_node fs resolved with Some n => is_dir n | None => false end))
    (mk ManifestError "not an existing directory");;
  raise_if (bool_decide (resolved = root)) (mk ManifestError "manifest directory itself");;
  raise_if (negb (in_parents root resolved)) (mk ManifestError "escapes the manifest tree");;
  Ok resolved.

(** ** Disjoint units

    [identity] is the device and inode of a directory, [None] when [stat] fails. *)
Definition inode := (N * N)%type.

(* @src paths.py _ancestor_identities *)
Definition ancestor_identities (identity : path -> option inode) (p : path) : list inode :=
  omap identity (parents p).

Definition has_identity (i : option inode) (l : list inode) : bool :=
  match i with Some i => bool_decide (i ∈ l) | None => false end.

(** The body of the inner loop, for units [a] before [b] in the manifest. *)
(* @src paths.py 129-142 check_units_disjoint (loop body) *)
Definition check_pair (identity : path -> option inode) (a b : str * path) : result error unit :=
  let same_directory :=
    match identity a.2 with
    | Some i => bool_decide (identity b.2 = Some i)
    | None => false
    end in
  raise_if (bool_decide (a.2 = b.2) || same_directory) (mk ManifestError "same unit directory");;
  raise_if (in_parents a.2 b.2 || has_identity (identity a.2) (ancestor_identities identity b.2))
    (mk ManifestError "second unit inside first");;
  raise_if (in_parents b.2 a.2 || has_identity (identity b.2) (ancestor_identities identity a.2))
    (mk ManifestError "first unit inside second").

(* @src paths.py check_units_disjoint *)
Fixpoint check_units_disjoint (identity : path -> option inode) (units : list (str * path)) :
    result error unit :=
  match units with
  | [] => Ok tt
  | a :: units =>
      for_each (check_pair identity a) units;;
      check_units_disjoint identity units
  end.

(** ** Scanning a unit *)
(* @src paths.py UnitFile *)
Record UnitFile := MkUnitFile {
  f_relpath : str;
  f_data : bytes;
}.

Definition name_leb (p q : str * result error (list UnitFile)) : bool := lex_leb p.1 q.1.

Definition rel_join (rel name : str) : str :=
  match rel with [] => name | _ => rel ++ "/" ++ name end.

(** [_scan_dir] appends to one list as it recurses; here each entry yields the
    files below it and the results are taken in the order of the entry names.
    Scanning has no other effect, so the first error met is the same. *)
(* @src paths.py _scan_dir *)
Fixpoint scan_entry (rel name : str) (n : node) : result error (list UnitFile) :=
  match n with
  | NSymlink => Err (mk UnitError "symlink")
  | NDir es =>
      raise_if (bool_decide (name ∈ FORBIDDEN_DIR_NAMES)) (mk UnitError "forbidden directory");;
      check_relative_path rel;;
      fs ← map_result snd (sort_by name_leb
             (map (fun e => (e.1, scan_entry (rel_join rel e.1) e.1 e.2)) es));
      Ok (concat fs)
  | NFile data =>
      raise_if (existsb (fun suffix => ends_with suffix name) FORBIDDEN_FILE_SUFFIXES)
        (mk UnitError "forbidden bytecode file");;
      check_relative_path rel;;
      Ok [MkUnitFile rel data]
  | NSpecial => Err (mk UnitError "special file")
  end.

(** [_scan_dir(root, root, files, id)]. *)
(* @src paths.py 182-183 _scan_dir (called at the root) *)
Definition scan_dir (entries : list (str * node)) : result error (list UnitFile) :=
  fs ← map_result snd (sort_by name_leb
         (map (fun e => (e.1, scan_entry e.1 e.1 e.2)) entries));
  Ok (concat fs).

(* @src paths.py scan_unit *)
Definition scan_unit (entries : list (str * node)) : result pyexn (list UnitFile) :=
  files ← lift (scan_dir entries);
  lift (raise_if (bool_decide (files = [])) (mk UnitError "no files"));;
  files ← sort_by_utf8 f_relpath files;
  lift (check_no_case_collisions (map f_relpath files));;
  Ok files.
End paths.

(** ** Specifications *)
Definition good_component (part : str) : Prop :=
  part <> [] /\ (part ∉ ["."; ".."]) /\ (slash ∉ part) /\ part = strip_with is_blank part.

(** Two unit directories overlap: they are one directory, or one is an ancestor
    of the other, by path or by device and inode. *)
Definition same_dir (identity : path -> option inode) (p q : path) : Prop :=
  p = q \/ exists i, identity p = Some i /\ identity q = Some i.

Definition inside (identity : path -> option inode) (p q : path) : Prop :=
  exists r, r ∈ parents q /\ same_dir identity p r.

Definition overlap (identity : path -> option inode) (p q : path) : Prop :=
  same_dir identity p q \/ inside identity p q \/ inside identity q p.

(** Every regular file below a node, under its unit-relative path. *)
Fixpoint leaves (rel : str) (n : node) : list (str * bytes) :=
  match n with
  | NFile data => [(rel, data)]
  | NDir es => concat (map (fun e => leaves (rel_join rel e.1) e.2) es)
  | NSymlink | NSpecial => []
  end.

Definition unit_leaves (es : list (str * node)) : list (str * bytes) :=
  concat (map (fun e => leaves e.1 e.2) es).

(** Nothing but directories and regular files. *)
Fixpoint plain (n : node) : bool :=
  match n with
  | NFile _ => true
  | NDir es => forallb (fun e => plain e.2) es
  | NSymlink | NSpecial => false
  end.

(** Induction on file trees, with the hypothesis for every entry. *)
Definition node_ind' (P : node -> Prop)
    (Hfile : forall d, P (NFile d))
    (Hdir : forall es, Forall (fun e => P e.2) es -> P (NDir es))
    (Hlink : P NSymlink) (Hspecial : P NSpecial) : forall n, P n :=
  fix go n :=
    match n with
    | NFile d => Hfile d
    | NDir es =>
        Hdir es ((fix gos (es : list (str * node)) : Forall (fun e => P e.2) es :=
          match es with
          | [] => Forall_nil_2 _
          | e :: es => Forall_cons_2 _ e es (go e.2) (gos es)
          end) es)
    | NSymlink => Hlink
    | NSpecial => Hspecial
    end.

(** ** Lemmas *)
Lemma in_parents_spec p q : in_parents p q = true <-> p ∈ parents q.
Proof.
  unfold in_parents, parents. rewrite andb_true_iff, !bool_decide_eq_true.
  rewrite list_elem_of_fmap. setoid_rewrite list_elem_of_In. setoid_rewrite <-in_rev.
  setoid_rewrite in_seq. split.
  - intros [Hl Hp]. exists (length p). split; [done|lia].
  - intros (n & -> & Hn). rewrite length_take. split; [lia|].
    by rewrite Nat.min_l by lia.
Qed.

Lemma in_parents_app p q : q <> [] -> in_parents p (p ++ q) = true.
Proof.
  intros Hq. unfold in_parents. apply andb_true_iff. rewrite !bool_decide_eq_true.
  rewrite length_app, take_app_length. destruct q; [done|]. simpl. split; [lia|done].
Qed.

Section path_lemmas.
Context {UC : Unicode}.

Lemma check_component_Ok part u :
  check_component part = Ok u <->
  part <> [] /\ (part ∉ ["."; ".."]) /\ part = strip_with is_blank part.
Proof.
  destruct u. unfold check_component. split.
  - intros H. inv_ok. by bool_simpl.
  - intros (H1 & H2 & H3). rewrite (bool_decide_eq_false_2 (part = [])) by done.
    rewrite (bool_decide_eq_false_2 (part ∈ _)) by done.
    by rewrite bool_decide_eq_true_2.
Qed.

(** The components are good ones and the text is their join. *)
Lemma check_relative_path_parts text parts :
  check_relative_path text = Ok parts -> Forall good_component parts /\ text = join "/" parts.
Proof.
  unfold check_relative_path. intros H. inv_ok. apply for_each_Ok in Hr4. split; [|symmetry; apply join_split].
  pose proof (split_on_no_sep slash text) as Hs. rewrite Forall_forall in Hs, Hr4 |- *.
  intros w Hw. specialize (Hs w Hw). apply (Hr4 w), check_component_Ok in Hw. unfold good_component. naive_solver.
Qed.

(** [check_relative_path] accepts exactly the texts that are ['/']-joined
    non-empty lists of good components (not empty, not ['.'] or ['..'], no
    surrounding space), free of backslashes and control characters and already
    NFC; and it returns those components. *)
Lemma check_relative_path_iff text parts :
  check_relative_path text = Ok parts <->
  parts <> [] /\ Forall good_component parts /\ text = join "/" parts /\
  (backslash ∉ text) /\ Forall (fun c => is_control c = false) text /\ uc_nfc text = text.
Proof.
  unfold check_relative_path. split.
  - intros H. destruct (check_relative_path_parts _ _ H) as [Hg Ht]. unfold check_relative_path in H.
    inv_ok. bool_simpl. split_and!; eauto using split_on_nonempty.
    + apply Forall_forall. intros c Hc. apply not_true_iff_false. intros Hctl.
      apply not_true_iff_false in Hr1. apply Hr1, existsb_exists.
      exists c. by rewrite <-list_elem_of_In.
  - intros (Hne & Hg & -> & Hb & Hc & Hn).
    assert (split_on slash (join "/" parts) = parts) as Hsplit.
    { apply split_join; [done|]. eapply Forall_impl; [done|]. unfold good_component. naive_solver. }
    rewrite Hsplit.
    assert (existsb is_control (join "/" parts) = false) as ->.
    { apply not_true_iff_false. intros (c & Hc1 & Hc2)%existsb_exists.
      rewrite Forall_forall in Hc. apply list_elem_of_In in Hc1.
      rewrite (Hc _ Hc1) in Hc2. done. }
    rewrite (bool_decide_eq_false_2 (backslash ∈ _)) by done.
    rewrite (bool_decide_eq_true_2 (uc_nfc _ = _)) by done.
    destruct parts as [|[|c w] parts]; [done| |].
    { apply Forall_cons in Hg as [(? & _) _]. done. }
    assert (exists t, join "/" ((c :: w) :: parts) = c :: t) as [t Ht]
      by (destruct parts; eexists; reflexivity).
    rewrite Ht. change (starts_with "/" (c :: t)) with ((47 =? c)%N && true). destruct (N.eqb_spec 47 c) as [<-|].
    { apply Forall_cons in Hg as [(_ & _ & Hs & _) _]. set_solver. }
    rewrite bool_decide_eq_false_2 by done.
    assert (for_each check_component ((c :: w) :: parts) = Ok tt) as ->; [|reflexivity].
    apply for_each_Ok. eapply Forall_impl; [done|]. intros ? (? & ? & ? & ?).
    by apply check_component_Ok.
Qed.

Lemma case_collisions_from seen rels :
  (exists m, fold_result case_collision_step seen rels = Ok m) <->
  NoDup (map casefold rels) /\ Forall (fun r => seen !! casefold r = None) rels.
Proof.
  revert seen. induction rels as [|r rels IH]; intros seen; simpl.
  - split; [|by eauto]. intros _. split; constructor.
  - rewrite NoDup_cons, Forall_cons.
    destruct (case_collision_step seen r) as [seen'|e] eqn:E; simpl;
      unfold case_collision_step in E; destruct (seen !! casefold r) eqn:Er; simplify_eq;
      [|naive_solver].
    rewrite IH. split.
    + intros [Hnd Hf]. rewrite Forall_forall in Hf. split_and!; try done.
      * intros (r' & Heq & Hr')%list_elem_of_fmap. specialize (Hf _ Hr').
        rewrite <-Heq in Hf. simplify_map_eq.
      * apply Forall_forall. intros r' Hr'. specialize (Hf _ Hr').
        by apply lookup_insert_None in Hf as [? _].
    + intros [[Hni Hnd] [_ Hf]]. split; [done|]. rewrite Forall_forall in Hf |- *.
      intros r' Hr'. rewrite lookup_insert_ne; [auto|].
      intros Heq. apply Hni. rewrite Heq. by apply list_elem_of_fmap_2.
Qed.

(** The collision check accepts a list of paths exactly when their case-folded
    forms are pairwise different. *)
Lemma no_case_collisions_Ok rels :
  check_no_case_collisions rels = Ok tt <-> NoDup (map casefold rels).
Proof.
  unfold check_no_case_collisions. transitivity
    (exists m, fold_result case_collision_step ∅ rels = Ok m).
  - rewrite bind_Ok. naive_solver.
  - rewrite case_collisions_from. split; [naive_solver|]. intros; split; [done|].
    apply Forall_forall. intros. apply lookup_empty.
Qed.
End path_lemmas.

(** ** Disjoint units *)
Section disjoint_lemmas.
Context (identity : path -> option inode).

Lemma has_identity_spec i q :
  has_identity i (ancestor_identities identity q) = true <->
  exists r, r ∈ parents q /\ exists j, i = Some j /\ identity r = Some j.
Proof.
  unfold has_identity, ancestor_identities. destruct i as [j|].
  - rewrite bool_decide_eq_true, list_elem_of_omap. naive_solver.
  - naive_solver.
Qed.

Lemma inside_spec p q :
  in_parents p q || has_identity (identity p) (ancestor_identities identity q) = true <->
  inside identity p q.
Proof.
  rewrite orb_true_iff, in_parents_spec, has_identity_spec. unfold inside, same_dir.
  naive_solver.
Qed.

Lemma same_dir_spec p q :
  (bool_decide (p = q) ||
   match identity p with Some i => bool_decide (identity q = Some i) | None => false end) = true
  <-> same_dir identity p q.
Proof.
  unfold same_dir. rewrite orb_true_iff, bool_decide_eq_true.
  destruct (identity p); rewrite ?bool_decide_eq_true; naive_solver.
Qed.

Lemma check_pair_Ok a b u :
  check_pair identity a b = Ok u <-> ~ overlap identity a.2 b.2.
Proof.
  destruct u. unfold check_pair, overlap. rewrite <-same_dir_spec, <-!inside_spec.
  repeat match goal with |- context [raise_if ?b _] => destruct b eqn:?; simpl end;
    naive_solver.
Qed.

(** No pair of units, in the order of the list, overlaps. *)
Lemma check_units_disjoint_pairs units :
  check_units_disjoint identity units = Ok tt <-> ForallOrdPairs (fun a b => ~ overlap identity a.2 b.2) units.
Proof.
  induction units as [|x units IH]; simpl; [split; [constructor|done]|].
  rewrite bind_Ok. split.
  - intros ([] & Hx%for_each_Ok & Hr). constructor; [|by apply IH].
    apply Forall_lookup. rewrite Forall_lookup in Hx. intros i b Hb. by apply Hx in Hb as ?%check_pair_Ok.
  - inversion_clear 1 as [|? ? Hx Hr]. exists tt. split; [|by apply IH].
    apply for_each_Ok. eapply Forall_impl; [done|]. intros b Hb. by apply check_pair_Ok.
Qed.

(** [check_units_disjoint] returns exactly when no two units of the manifest
    overlap: not one directory by path or by device and inode, and none an
    ancestor of the other. *)
Lemma check_units_disjoint_iff units :
  check_units_disjoint identity units = Ok tt <->
  forall i j a b, i < j -> units !! i = Some a -> units !! j = Some b ->
    ~ overlap identity a.2 b.2.
Proof. by rewrite check_units_disjoint_pairs, ordered_pairs_lookup. Qed.
End disjoint_lemmas.

(** ** Resolving a unit path stays below the manifest *)
Section resolve_lemmas.
Context {UC : Unicode}.

Lemma refuse_links_Ok fs current parts r :
  refuse_links fs current parts = Ok r ->
  r = current ++ parts /\
  forall n, 0 < n <= length parts ->
    exists x, lookup_node fs (current ++ take n parts) = Some x /\ is_link x = false.
Proof.
  revert current. induction parts as [|part parts IH]; intros current; simpl; intros H.
  - injection H as <-. rewrite app_nil_r. split; [done|lia].
  - inv_ok. unfold lstat_or_fail in Hr. destruct (lookup_node fs _) eqn:E; simplify_eq.
    apply IH in H as [-> H]. rewrite <-app_assoc. split; [done|]. intros [|n] Hn; [lia|].
    simpl. destruct n as [|n].
    + eauto.
    + destruct (H (S n)) as (x & Hx & ?); [lia|]. exists x. by rewrite <-app_assoc in Hx.
Qed.

Lemma unit_to_manifest_Ok {A} (r : result error A) a : unit_to_manifest r = Ok a <-> r = Ok a.
Proof. destruct r as [|e]; simpl; [done|]. by destruct (is_instance e UnitError). Qed.

(** A manifest [path] resolves to an existing directory strictly below the
    manifest directory, whatever [Path.resolve] answers; when it answers as
    documented (it keeps a path none of whose components is a link), the result
    is the manifest directory followed by the path's own components. *)
Lemma resolve_unit_dir_inside realpath fs manifest_dir raw_path resolved
    (Hresolve : resolve_unit_dir realpath fs manifest_dir raw_path = Ok resolved)
    (Hroot : realpath manifest_dir = manifest_dir)
    (Hreal : forall p, (forall n, 0 < n <= length p -> exists x,
        lookup_node fs (manifest_dir ++ take n p) = Some x /\ is_link x = false) ->
      realpath (manifest_dir ++ p) = manifest_dir ++ p) :
  in_parents manifest_dir resolved = true /\
  (exists es, lookup_node fs resolved = Some (NDir es)) /\
  exists parts, raw_path = join "/" parts /\ resolved = manifest_dir ++ parts /\
    Forall good_component parts.
Proof.
  unfold resolve_unit_dir in Hresolve. inv_ok. rewrite Hroot in *.
  apply refuse_links_Ok in Hr0 as [_ Hlinks].
  apply unit_to_manifest_Ok, check_relative_path_parts in Hr as [? ?].
  split_and!.
  - by bool_simpl.
  - bool_simpl. destruct (lookup_node fs _) as [[]|]; naive_solver.
  - rewrite Hreal by done. eauto.
Qed.

End resolve_lemmas.

Definition sample_tree : node :=
  NDir [("m", NDir [("u1", NDir [("a.sql", NFile [65%N])]); ("l", NSymlink)])].

Lemma resolve_unit_dir_inside_witness :
  in_parents ["m"] ["m"; "u1"] = true /\
  (exists es, lookup_node sample_tree ["m"; "u1"] = Some (NDir es)) /\
  exists parts, "u1" = join "/" parts /\ ["m"; "u1"] = ["m"] ++ parts /\
    Forall good_component parts.
Proof.
  apply (@resolve_unit_dir_inside ascii_unicode (fun p => p) sample_tree ["m"] "u1").
  - vm_compute. reflexivity.
  - reflexivity.
  - intros. reflexivity.
Defined.

(** ** A scanned unit is complete *)
Section scan_lemmas.
Context {UC : Unicode}.

Definition file_pair (f : UnitFile) : str * bytes := (f_relpath f, f_data f).
Definition legal_path (f : UnitFile) : Prop := is_ok (check_relative_path (f_relpath f)) = true.

(** What the scan of one entry promises about the files it returns. *)
Definition scanned (rel : str) (n : node) (fs : list UnitFile) : Prop :=
  map file_pair fs ≡ₚ leaves rel n /\ plain n = true /\ Forall legal_path fs.

Lemma scan_children_Ok (g : str * node -> result error (list UnitFile)) (rel : str * node -> str)
    es out :
  Forall (fun e => forall fs, g e = Ok fs -> scanned (rel e) e.2 fs) es ->
  map_result snd (sort_by name_leb (map (fun e => (e.1, g e)) es)) = Ok out ->
  map file_pair (concat out) ≡ₚ concat (map (fun e => leaves (rel e) e.2) es) /\
  forallb (fun e => plain e.2) es = true /\ Forall legal_path (concat out).
Proof.
  intros Hes Hout.
  destruct (map_result_perm _ _ _ _ (sort_by_perm name_leb _) Hout) as (out' & Hout' & Hp).
  rewrite (concat_perm _ _ Hp). clear Hout Hp out. revert out' Hout'.
  induction Hes as [|e es He Hes IH]; intros out' Hout'; simpl in *; inv_ok; simpl; [done|].
  apply He in Hr as (Hfp & Hpl & Hlp). destruct (IH _ Hr0) as (IH1 & IH2 & IH3).
  rewrite map_app, Hfp, Hpl, IH1. split_and!; [done|done|]. by apply Forall_app.
Qed.

Lemma scan_entry_Ok n rel name fs : scan_entry rel name n = Ok fs -> scanned rel n fs.
Proof.
  revert rel name fs. induction n as [d|es IH| |] using node_ind'; intros rel name fs H;
    simpl in H; inv_ok.
  - split_and!; [done|done|]. repeat constructor. unfold legal_path. simpl. by rewrite Hr0.
  - apply (scan_children_Ok _ (fun e => rel_join rel e.1)) in Hr1 as (? & ? & ?); [done|].
    rewrite Forall_forall in IH |- *. eauto.
Qed.

(** A scan that returns misses nothing and admits nothing else. The captured
    files are, up to order, exactly the regular files below the unit root with
    their relative paths; there is at least one; the unit holds no symlink and
    no special file; every path obeys the path rules; no two paths differ only
    by case; and the list is ordered by the UTF-8 bytes of the paths. *)
Lemma scan_unit_complete es files (Hscan : scan_unit es = Ok files) :
  map file_pair files ≡ₚ unit_leaves es /\ files <> [] /\
  forallb (fun e => plain e.2) es = true /\
  Forall legal_path files /\
  NoDup (map casefold (map f_relpath files)) /\
  exists ks, Forall2 (fun f k => utf8_encode (f_relpath f) = Some k) files ks /\
    StronglySorted (fun a b => lex_leb a b = true) ks.
Proof.
  unfold scan_unit, scan_dir in Hscan. inv_ok.
  apply lift_Ok in Hr, Hr0, Hr2. inv_ok. bool_simpl.
  apply sort_by_utf8_Ok in Hr1 as [Hp Hks].
  apply (scan_children_Ok _ (fun e => e.1)) in Hr3 as (Hl & Hpl & Hlp).
  2: { apply Forall_forall. eauto using scan_entry_Ok. }
  destruct r0, r2. apply no_case_collisions_Ok in Hr2.
  split_and!; try done.
  - by rewrite Hp.
  - intros ->. by apply Permutation_nil_l in Hp.
  - by rewrite Hp.
Qed.
End scan_lemmas.

Definition sample_unit : list (str * node) :=
  [("b.sql", NFile [66%N]); ("a", NDir [("x.sql", NFile [65%N]); ("w.py", NFile [])])].

Lemma scan_unit_complete_witness :
  exists files, @scan_unit ascii_unicode sample_unit = Ok files /\
  map f_relpath files = ["a/w.py"; "a/x.sql"; "b.sql"] /\
  map file_pair files ≡ₚ unit_leaves sample_unit.
Proof.
  eexists. split; [vm_compute; reflexivity|]. split; [reflexivity|].
  refine (proj1 (@scan_unit_complete ascii_unicode sample_unit _ _)). vm_compute. reflexivity.
Defined.
