(* ===== verification/Manifest.v ===== *)
(** * The ordered TOML manifest ([manifest.py])

    [tomllib.loads] and UTF-8 decoding are the standard library's and appear as
    parameters of [load]; a parsed document is a value of [toml]. What the host
    says about paths (links, existing files, [Path.resolve], inodes) is the
    record [host]. *)
From S2P Require Import Prelude PyStr Errors Paths.
Open Scope str_scope.

(* @src manifest.py MANIFEST_VERSION *)
Definition MANIFEST_VERSION : Z := 1.

(* @src manifest.py _TOP_LEVEL_KEYS *)
Definition TOP_LEVEL_KEYS : list str := ["manifest_version"; "migration"].

(* @src manifest.py _MIGRATION_KEYS *)
Definition MIGRATION_KEYS : list str :=
  ["id"; "path"; "language"; "mode"; "entry"; "require_valid"].

(* @src manifest.py _REQUIRED_MIGRATION_KEYS *)
Definition REQUIRED_MIGRATION_KEYS : list str := ["id"; "path"; "language"; "mode"; "entry"].

(* @src manifest.py _REQUIRED_OBJECT_KEYS *)
Definition REQUIRED_OBJECT_KEYS : list str := ["name"; "type"].

(* @src manifest.py Language *)
Inductive Language := SQL_LANG | PYTHON.
(* @src manifest.py Mode *)
Inductive Mode := ATOMIC | RESTARTABLE.

#[export] Instance Language_eq_dec : EqDecision Language.
Proof. solve_decision. Defined.
#[export] Instance Mode_eq_dec : EqDecision Mode.
Proof. solve_decision. Defined.

(* @src manifest.py 30-31 Language (values) *)
Definition language_value (l : Language) : str :=
  match l with SQL_LANG => "sql" | PYTHON => "python" end.

(* @src manifest.py 35-36 Mode (values) *)
Definition mode_value (m : Mode) : str :=
  match m with ATOMIC => "atomic" | RESTARTABLE => "restartable" end.

(* @src manifest.py RequiredObject *)
Record RequiredObject := MkRequired {
  r_type : str;
  r_name : str;
}.

#[export] Instance RequiredObject_eq_dec : EqDecision RequiredObject.
Proof. solve_decision. Defined.

(* @src manifest.py RequiredObject.as_pair *)
Definition as_pair (o : RequiredObject) : str * str := (r_type o, r_name o).

(* @src manifest.py MigrationDef *)
Record MigrationDef := MkMigration {
  m_position : Z;
  m_id : str;
  m_raw_path : str;
  m_language : Language;
  m_mode : Mode;
  m_entry : str;
  m_required : list RequiredObject;
  m_unit_dir : path;
}.

(* @src manifest.py MigrationDef.required_pairs *)
Definition required_pairs (m : MigrationDef) : list (str * str) := map as_pair (m_required m).

(* @src manifest.py Manifest *)
Record Manifest := MkManifest {
  mf_path : path;
  mf_directory : path;
  mf_migrations : list MigrationDef;
}.

(** ** Parsed TOML *)
#[warnings="-register-all"]
Inductive toml :=
| TStr (s : str)
| TInt (z : Z)
| TBool (b : bool)
| TOther                                   (* floats, dates and times *)
| TArr (l : list toml)
| TTable (t : list (str * toml)).

(** [table.get(key)] on a table, whose keys are distinct. *)
Definition table_get (key : str) (t : list (str * toml)) : option toml :=
  snd <$> find (fun kv => bool_decide (kv.1 = key)) t.

Definition has_key (key : str) (t : list (str * toml)) : bool :=
  match table_get key t with Some _ => true | None => false end.

(** [set(table) - allowed] is not empty. *)
Definition unknown_keys (allowed : list str) (t : list (str * toml)) : bool :=
  existsb (fun kv => negb (bool_decide (kv.1 ∈ allowed))) t.

Definition missing_keys (needed : list str) (t : list (str * toml)) : bool :=
  existsb (fun key => negb (has_key key t)) needed.

(** What the host answers about paths. *)
Record host := MkHost {
  h_fs : node;                              (* lstat, component by component *)
  h_realpath : path -> path;                (* Path.resolve *)
  h_identity : path -> option inode;        (* stat: device and inode *)
  h_is_file : path -> bool;                 (* Path.is_file *)
  h_is_symlink : path -> bool;              (* Path.is_symlink *)
}.

Definition merr (label : str) : pyexn := PyMigr8 (mk ManifestError label).

(* @src manifest.py _require_str *)
Definition require_str (value : option toml) (what : str) : result pyexn str :=
  match value with Some (TStr s) => Ok s | _ => Err (merr (what ++ " must be a string")) end.

(* @src manifest.py _require_enum *)
Definition require_enum {A} (members : list A) (value_of : A -> str) (value : option toml)
    (what : str) : result pyexn A :=
  text ← require_str value what;
  match find (fun m => bool_decide (value_of m = text)) members with
  | Some m => Ok m
  | None => Err (merr (what ++ " is not a member"))
  end.

(** [ID_RE.fullmatch]: [^[A-Za-z0-9][A-Za-z0-9_.\-]{0,199}$]. *)
Definition id_char (c : char) : bool :=
  ascii_alnum c || existsb (fun d => (c =? d)%N) [95; 46; 45]%N.

(* @src manifest.py ID_RE *)
Definition id_ok (s : str) : bool :=
  match s with
  | [] => false
  | c :: s => ascii_alnum c && forallb id_char s && bool_decide (length s <= 199)
  end.

Section manifest.
Context {UC : Unicode}.

(** One declaration of [require_valid]; [seen] is the set of earlier pairs. *)
(* @src manifest.py 190-218 _build_required (loop body) *)
Definition required_step (st : list RequiredObject * list (str * str)) (item : toml) :
    result pyexn (list RequiredObject * list (str * str)) :=
  match item with
  | TTable t =>
      lift (raise_if (unknown_keys REQUIRED_OBJECT_KEYS t) (mk ManifestError "unknown keys"));;
      lift (raise_if (missing_keys REQUIRED_OBJECT_KEYS t) (mk ManifestError "missing keys"));;
      name ← require_str (table_get "name" t) "require_valid name";
      obj_type ← require_str (table_get "type" t) "require_valid type";
      lift (raise_if (bool_decide (strip name = []) || bool_decide (strip obj_type = []))
        (mk ManifestError "empty name or type"));;
      lift (raise_if (bool_decide ((obj_type, name) ∈ st.2))
        (mk ManifestError "duplicate required object"));;
      Ok (st.1 ++ [MkRequired obj_type name], (obj_type, name) :: st.2)
  | _ => Err (merr "require_valid entry is not a table")
  end.

(** The sort key of a required object: its type's and its name's UTF-8 bytes. *)
Definition required_key (o : RequiredObject) : result pyexn ((bytes * bytes) * RequiredObject) :=
  t ← encode_or_raise (r_type o); n ← encode_or_raise (r_name o); Ok ((t, n), o).

Definition required_key_leb (p q : (bytes * bytes) * RequiredObject) : bool :=
  bytes_pair_leb p.1 q.1.

(* @src manifest.py _build_required *)
Definition build_required (value : toml) : result pyexn (list RequiredObject) :=
  match value with
  | TArr items =>
      st ← fold_result required_step ([], []) items;
      keyed ← map_result required_key st.1;
      Ok (sort_by required_key_leb keyed).*2
  | _ => Err (merr "require_valid must be an array of tables")
  end.

(* @src manifest.py _build_migration *)
Definition build_migration (h : host) (entry : list (str * toml)) (position : nat)
    (directory : path) : result pyexn MigrationDef :=
  lift (raise_if (unknown_keys MIGRATION_KEYS entry) (mk ManifestError "unknown keys"));;
  lift (raise_if (missing_keys REQUIRED_MIGRATION_KEYS entry)
    (mk ManifestError "missing required keys"));;
  migration_id ← require_str (table_get "id" entry) "id";
  lift (raise_if (negb (id_ok migration_id)) (mk ManifestError "bad migration id"));;
  raw_path ← require_str (table_get "path" entry) "path";
  language ← require_enum [SQL_LANG; PYTHON] language_value (table_get "language" entry) "language";
  mode ← require_enum [ATOMIC; RESTARTABLE] mode_value (table_get "mode" entry) "mode";
  entry_file ← require_str (table_get "entry" entry) "entry";
  entry_parts ← lift (unit_to_manifest (check_relative_path entry_file));
  required ← build_required (default (TArr []) (table_get "require_valid" entry));
  unit_dir ← lift (resolve_unit_dir (h_realpath h) (h_fs h) directory raw_path);
  let entry_abs := unit_dir ++ entry_parts in
  lift (raise_if (h_is_symlink h entry_abs || negb (h_is_file h entry_abs))
    (mk ManifestError "entry is not an existing regular file"));;
  Ok (MkMigration (Z.of_nat position) migration_id raw_path language mode entry_file required
        unit_dir).

(** The loop over the array of tables; [seen_ids] maps an id to its position. *)
(* @src manifest.py 119-129 load (loop body) *)
Definition load_step (h : host) (directory : path) (st : list MigrationDef * gmap str nat)
    (ie : nat * toml) : result pyexn (list MigrationDef * gmap str nat) :=
  match ie.2 with
  | TTable entry =>
      migration ← build_migration h entry ie.1 directory;
      match st.2 !! m_id migration with
      | Some _ => Err (merr "duplicate migration id")
      | None => Ok (st.1 ++ [migration], <[m_id migration := ie.1]> st.2)
      end
  | _ => Err (merr "migration is not a table")
  end.

(** [content] is [path.read_bytes()], [None] when it raises [OSError]. *)
(* @src manifest.py load *)
Definition load (utf8_decode : bytes -> option str) (toml_loads : str -> option (list (str * toml)))
    (h : host) (manifest_path : path) (content : option bytes) : result pyexn Manifest :=
  lift (raise_if (negb (h_is_file h manifest_path)) (mk ManifestError "not a regular file"));;
  raw_bytes ← match content with Some b => Ok b | None => Err (merr "cannot be read") end;
  text ← match utf8_decode raw_bytes with Some s => Ok s | None => Err (merr "not valid UTF-8") end;
  document ← match toml_loads text with Some d => Ok d | None => Err (merr "not valid TOML") end;
  lift (raise_if (unknown_keys TOP_LEVEL_KEYS document) (mk ManifestError "unknown top-level keys"));;
  match table_get "manifest_version" document with
  | None => Err (merr "missing manifest_version")
  | Some (TInt version) =>
      lift (raise_if (negb (version =? MANIFEST_VERSION)%Z)
        (mk ManifestError "unsupported manifest_version"))
  | Some _ => Err (merr "manifest_version must be an integer")
  end;;
  entries ← match default (TArr []) (table_get "migration" document) with
            | TArr l => Ok l
            | _ => Err (merr "migration must be an array of tables")
            end;
  let directory := h_realpath h (take (length manifest_path - 1) manifest_path) in
  st ← fold_result (load_step h directory) ([], ∅) (enumerate_from 1 entries);
  lift (check_units_disjoint (h_identity h) (map (fun m => (m_id m, m_unit_dir m)) st.1));;
  Ok (MkManifest manifest_path directory st.1).
End manifest.

(** ** Specification of a loaded manifest *)
Definition entry_of (entry : toml) (m : MigrationDef) : Prop :=
  exists t, entry = TTable t /\ table_get "id" t = Some (TStr (m_id m)) /\
    table_get "path" t = Some (TStr (m_raw_path m)) /\
    table_get "language" t = Some (TStr (language_value (m_language m))) /\
    table_get "mode" t = Some (TStr (mode_value (m_mode m))) /\
    table_get "entry" t = Some (TStr (m_entry m)).

Definition required_canonical (l : list RequiredObject) : Prop :=
  NoDup l /\ exists ks,
    Forall2 (fun o k => utf8_encode (r_type o) = Some k.1 /\ utf8_encode (r_name o) = Some k.2) l ks /\
    StronglySorted (fun a b => bytes_pair_leb a b = true) ks.

(** ** Lemmas *)
Lemma require_str_Ok v what s : require_str v what = Ok s <-> v = Some (TStr s).
Proof. destruct v as [[]|]; simpl; naive_solver. Qed.

Lemma require_enum_Ok {A} (members : list A) value_of v what m :
  require_enum members value_of v what = Ok m -> v = Some (TStr (value_of m)).
Proof.
  unfold require_enum. intros (text & ->%require_str_Ok & H)%bind_Ok.
  destruct (find _ _) eqn:E; simplify_eq. apply find_some in E as [_ E].
  by apply bool_decide_eq_true in E as ->.
Qed.

Section manifest_lemmas.
Context {UC : Unicode}.

Lemma required_loop_Ok items st :
  fold_result required_step ([], []) items = Ok st ->
  NoDup st.1 /\ forall o, o ∈ st.1 -> as_pair o ∈ st.2.
Proof.
  intros H. refine (fold_result_ind (fun _ st => NoDup st.1 /\ forall o, o ∈ st.1 -> as_pair o ∈ st.2)
    required_step _ items _ _ _ H); [split; [constructor|set_solver]|].
  clear. intros _ x [acc seen] st' [Hnd Hin] Hs. simpl in *.
  destruct x; try done. unfold required_step in Hs. inv_ok.
  apply lift_Ok, raise_if_Ok in Hr4. bool_simpl. simpl in *. split.
  - apply NoDup_app. split_and!; [done| |apply NoDup_singleton].
    intros o Ho ->%list_elem_of_singleton. by apply Hin in Ho.
  - intros o [Ho| ->%list_elem_of_singleton]%elem_of_app; [|by left]. right. auto.
Qed.

Lemma required_key_Ok o p :
  required_key o = Ok p ->
  utf8_encode (r_type o) = Some p.1.1 /\ utf8_encode (r_name o) = Some p.1.2 /\ p.2 = o.
Proof.
  unfold required_key. intros H. inv_ok. rewrite encode_or_raise_Ok in *. done.
Qed.

Lemma build_required_Ok v l : build_required v = Ok l -> required_canonical l.
Proof.
  destruct v; try done. unfold build_required. intros H. inv_ok.
  apply required_loop_Ok in Hr as [Hnd _]. apply map_result_Ok in Hr0.
  assert (r0.*2 = r.1 /\ Forall (fun p => utf8_encode (r_type p.2) = Some p.1.1 /\
    utf8_encode (r_name p.2) = Some p.1.2) r0) as [Hl Hf].
  { clear Hnd. induction Hr0 as [|o p ol ps Ho Hps [IH1 IH2]]; [done|].
    apply required_key_Ok in Ho as (? & ? & ?). csimpl. split; [by f_equal|].
    constructor; [by subst|done]. }
  split.
  - rewrite (sort_by_perm required_key_leb). by rewrite Hl.
  - exists (sort_by required_key_leb r0).*1. split.
    + apply Forall2_fmap, Forall_Forall2_diag. by rewrite (sort_by_perm required_key_leb).
    + apply (StronglySorted_fmap fst (fun a b => bytes_pair_leb a b = true)).
      apply (sort_by_sorted required_key_leb); intros; unfold required_key_leb in *;
        eauto with migr8.
Qed.

Lemma build_migration_Ok h t position directory m :
  build_migration h t position directory = Ok m ->
  entry_of (TTable t) m /\ m_position m = Z.of_nat position /\ id_ok (m_id m) = true /\
  required_canonical (m_required m) /\
  is_ok (check_relative_path (m_entry m)) = true /\
  resolve_unit_dir (h_realpath h) (h_fs h) directory (m_raw_path m) = Ok (m_unit_dir m).
Proof.
  unfold build_migration. intros H. inv_ok. rewrite require_str_Ok in *.
  repeat match goal with H : require_enum _ _ _ _ = Ok _ |- _ => apply require_enum_Ok in H end.
  repeat match goal with H : lift _ = Ok _ |- _ => apply lift_Ok in H end.
  rewrite raise_if_Ok in *. bool_simpl. rewrite unit_to_manifest_Ok in Hr7. simpl.
  split_and!; eauto using build_required_Ok.
  - unfold entry_of. simpl. naive_solver.
  - by rewrite Hr7.
Qed.

(** The invariant of the loop over the entries already read. *)
Definition load_inv (h : host) (directory : path) (ies : list (nat * toml))
    (st : list MigrationDef * gmap str nat) : Prop :=
  Forall2 (fun ie m => exists t, ie.2 = TTable t /\ build_migration h t ie.1 directory = Ok m)
    ies st.1 /\
  NoDup (map m_id st.1) /\
  forall i, is_Some (st.2 !! i) <-> i ∈ map m_id st.1.

Lemma load_loop_Ok h directory ies st :
  fold_result (load_step h directory) ([], ∅) ies = Ok st -> load_inv h directory ies st.
Proof.
  apply fold_result_ind.
  - split_and!; [constructor..|]. intros i. cbn [fst snd map]. rewrite lookup_empty.
    split; [by intros []|set_solver].
  - intros ies1 [n x] [ms seen] st' (Hf & Hnd & Hseen) Hs. simpl in *.
    destruct x as [| | | | |t]; try done. unfold load_step in Hs. simpl in Hs. inv_ok.
    destruct (seen !! m_id r) eqn:E; simplify_eq/=. split_and!; simpl.
    + apply Forall2_app; [done|]. repeat constructor. eauto.
    + rewrite map_app. apply NoDup_app. split_and!; [done| |apply NoDup_singleton].
      intros i Hi ->%list_elem_of_singleton. apply Hseen in Hi as [? ?]. congruence.
    + intros i. rewrite map_app, elem_of_app, <-Hseen. simpl. rewrite list_elem_of_singleton.
      destruct (decide (i = m_id r)) as [->|Hne].
      * rewrite lookup_insert_eq. split; eauto.
      * rewrite lookup_insert_ne by done. naive_solver.
Qed.

(** A load that returns has read, decoded and parsed a document of this version,
    built its entries in their order and found their directories disjoint. *)
Lemma load_Ok utf8_decode toml_loads h manifest_path content m :
  load utf8_decode toml_loads h manifest_path content = Ok m ->
  exists raw text document entries directory seen,
    content = Some raw /\ utf8_decode raw = Some text /\ toml_loads text = Some document /\
    default (TArr []) (table_get "migration" document) = TArr entries /\
    table_get "manifest_version" document = Some (TInt 1) /\
    load_inv h directory (enumerate_from 1 entries) (mf_migrations m, seen) /\
    check_units_disjoint (h_identity h) (map (fun m => (m_id m, m_unit_dir m)) (mf_migrations m)) = Ok tt.
Proof.
  unfold load. intros Hload. inv_ok.
  destruct content as [raw|]; simplify_eq. destruct (utf8_decode r0) as [text|] eqn:Ht; simplify_eq.
  destruct (toml_loads r1) as [doc|] eqn:Hd; simplify_eq.
  destruct (table_get "manifest_version" r2) as [[| version| | | |]|] eqn:Hv; simplify_eq.
  apply lift_Ok, raise_if_Ok, negb_false_iff, Z.eqb_eq in Hr4 as ->.
  destruct (default (TArr []) (table_get "migration" r2)) as [| | | |entries|] eqn:He; simplify_eq.
  apply load_loop_Ok in Hr6. apply lift_Ok in Hr7. destruct r7, r6 as [ms seen]. eauto 20.
Qed.

(** The migrations are numbered from 1 and their ids are distinct. *)
Lemma load_numbered utf8_decode toml_loads h manifest_path content m :
  load utf8_decode toml_loads h manifest_path content = Ok m ->
  (forall i d, mf_migrations m !! i = Some d -> m_position d = (Z.of_nat i + 1)%Z) /\ NoDup (map m_id (mf_migrations m)).
Proof.
  intros (? & ? & ? & entries & directory & seen & _ & _ & _ & _ & _ & (Hf & Hnd & _) & _)%load_Ok. split; [|done].
  intros i d Hd. destruct (Forall2_lookup_r _ _ _ _ _ Hf Hd) as (ie & Hi & t & _ & Hb).
  apply build_migration_Ok in Hb as (_ & -> & _).
  rewrite enumerate_from_lookup in Hi. apply fmap_Some in Hi as (entry & _ & ->). simpl. lia.
Qed.

End manifest_lemmas.

(** ** A sample manifest *)
Definition sample_entry (id dir : str) : toml :=
  TTable [("id", TStr id); ("path", TStr dir); ("language", TStr "sql");
          ("mode", TStr "atomic"); ("entry", TStr "a.sql")].

Definition sample_document : list (str * toml) :=
  [("manifest_version", TInt 1); ("migration", TArr [sample_entry "m-2" "u2"; sample_entry "m-1" "u1"])].

Definition sample_host : host :=
  MkHost (NDir [("p", NDir [("u1", NDir [("a.sql", NFile [65%N])]); ("u2", NDir [("a.sql", NFile [66%N])])])])
    (fun p => p) (fun _ => None) (fun _ => true) (fun _ => false).

Definition sample_load : result pyexn Manifest :=
  @load ascii_unicode Some (fun _ => Some sample_document) sample_host ["p"; "manifest.toml"] (Some []).

