(* ===== verification/Model.v ===== *)
(** * The durable state model ([model.py])

    The rows of the three metadata tables as the program reads them, the
    in-memory capture of a manifest and the plan. A timestamp is the database's
    clock value; only its presence is ever examined. *)
From S2P Require Import Prelude PyStr Errors Paths Manifest.
Open Scope str_scope.

(* @src model.py LAYOUT_VERSION *)
Definition LAYOUT_VERSION : Z := 1.

(* @src model.py HISTORY_TABLE *)
Definition HISTORY_TABLE : str := "m8_history".
(* @src model.py PROGRESS_TABLE *)
Definition PROGRESS_TABLE : str := "m8_progress".
(* @src model.py META_TABLE *)
Definition META_TABLE : str := "m8_meta".
(* @src model.py ACTIVE_INDEX *)
Definition ACTIVE_INDEX : str := "m8_history_one_active".

(* @src model.py RESERVED_OBJECT_NAMES *)
Definition RESERVED_OBJECT_NAMES : list str :=
  [HISTORY_TABLE; PROGRESS_TABLE; META_TABLE; ACTIVE_INDEX].

(* @src model.py PROGRESS_KEY_MAX_CHARS *)
Definition PROGRESS_KEY_MAX_CHARS : nat := 128.
(* @src model.py PROGRESS_VALUE_MAX_BYTES *)
Definition PROGRESS_VALUE_MAX_BYTES : N := 4000.

(* @src model.py Status *)
Inductive Status := ST_ACTIVE | ST_SUCCESS.

Definition status_value (s : Status) : str :=
  match s with ST_ACTIVE => "ACTIVE" | ST_SUCCESS => "SUCCESS" end.

Definition timestamp := Z.

(** The text columns hold whatever the database returned, not only the values
    the engine writes. *)
(* @src model.py HistoryRow *)
Record HistoryRow := MkHistory {
  hr_seq : Z;
  hr_id : str;
  hr_fingerprint : str;
  hr_first_fingerprint : str;
  hr_language : str;
  hr_mode : str;
  hr_status : str;
  hr_attempt : option Z;
  hr_started_at : option timestamp;
  hr_last_attempt_at : option timestamp;
  hr_finished_at : option timestamp;
  hr_runner_host : option str;
  hr_runner_user : option str;
  hr_runner_pid : option Z;
  hr_db_session : option str;
  hr_tool_version : option str;
}.

#[export] Instance HistoryRow_eq_dec : EqDecision HistoryRow.
Proof. solve_decision. Defined.

(* @src model.py HistoryRow.is_success *)
Definition is_success (r : HistoryRow) : bool := bool_decide (hr_status r = status_value ST_SUCCESS).

(* @src model.py HistoryRow.is_active *)
Definition is_active (r : HistoryRow) : bool := bool_decide (hr_status r = status_value ST_ACTIVE).

(* @src model.py ProgressRow *)
Record ProgressRow := MkProgress {
  pr_id : str;
  pr_key : str;
  pr_value : str;
  pr_updated_at : option timestamp;
}.

#[export] Instance ProgressRow_eq_dec : EqDecision ProgressRow.
Proof. solve_decision. Defined.

(* @src model.py MetaRow *)
Record MetaRow := MkMeta {
  mt_layout_version : Z;
  mt_adapter : str;
  mt_lock_provider : str;
  mt_lock_binding : str;
  mt_target_namespace : str;
  mt_initialized_at : option timestamp;
}.

#[export] Instance MetaRow_eq_dec : EqDecision MetaRow.
Proof. solve_decision. Defined.

(* @src model.py MetadataState *)
Inductive MetadataState :=
| ABSENT
| INCOMPLETE_COMPATIBLE
| COMPLETE
| DAMAGED.

#[export] Instance MetadataState_eq_dec : EqDecision MetadataState.
Proof. solve_decision. Defined.

(* @src model.py 86-93 MetadataState (values) *)
Definition metadata_state_value (s : MetadataState) : str :=
  match s with
  | ABSENT => "absent"
  | INCOMPLETE_COMPATIBLE => "incomplete_compatible"
  | COMPLETE => "complete"
  | DAMAGED => "damaged"
  end.

(* @src model.py MetadataReport *)
Record MetadataReport := MkMetadataReport {
  mr_state : MetadataState;
  mr_meta : option MetaRow;
  mr_problems : list str;
  mr_present : list str;
  mr_missing : list str;
}.

(* @src model.py Snapshot *)
Record Snapshot := MkSnapshot {
  s_history : list HistoryRow;
  s_progress : list ProgressRow;
  s_meta : option MetaRow;
}.

(** [source_dir] is a file tree: what the code reads from the captured unit. *)
(* @src model.py CapturedUnit *)
Record CapturedUnit := MkUnit {
  u_definition : MigrationDef;
  u_source : list (str * node);
  u_fingerprint : str;
  u_relpaths : list str;
  u_staged : bool;
}.

(* @src model.py CapturedUnit.id *)
Definition u_id (u : CapturedUnit) : str := m_id (u_definition u).
(* @src model.py CapturedUnit.position *)
Definition u_position (u : CapturedUnit) : Z := m_position (u_definition u).
(* @src model.py CapturedUnit.language *)
Definition u_language (u : CapturedUnit) : Language := m_language (u_definition u).
(* @src model.py CapturedUnit.mode *)
Definition u_mode (u : CapturedUnit) : Mode := m_mode (u_definition u).

(* @src model.py Capture *)
Record Capture := MkCapture {
  c_manifest : Manifest;
  c_units : list CapturedUnit;
  c_staged : bool;
}.

(* @src model.py Capture.at_position *)
Definition at_position (c : Capture) (position : Z) : option CapturedUnit :=
  if (1 <=? position)%Z && (position <=? Z.of_nat (length (c_units c)))%Z
  then c_units c !! Z.to_nat (position - 1)
  else None.

(* @src model.py Plan *)
Record Plan := MkPlan {
  p_capture : Capture;
  p_snapshot : Snapshot;
  p_success_count : nat;
  p_active : option HistoryRow;
  p_pending : list CapturedUnit;
  p_active_changed : bool;
}.

(** ** Lemmas *)
Lemma status_value_inj a b : status_value a = status_value b -> a = b.
Proof. by destruct a, b. Qed.

Lemma is_active_success r : is_active r = true -> is_success r = false.
Proof.
  unfold is_active, is_success. intros H%bool_decide_eq_true. rewrite H.
  by apply bool_decide_eq_false.
Qed.

(** [at_position] is the 1-based lookup of the manifest order. *)
Lemma at_position_spec c i : at_position c (Z.of_nat i + 1) = c_units c !! i.
Proof.
  unfold at_position. replace (Z.to_nat (Z.of_nat i + 1 - 1)) with i by lia.
  destruct (c_units c !! i) eqn:E.
  - apply lookup_lt_Some in E.
    destruct (Z.leb_spec 1 (Z.of_nat i + 1)), (Z.leb_spec (Z.of_nat i + 1) (Z.of_nat (length (c_units c))));
      simpl; try done; lia.
  - by destruct (_ && _).
Qed.

Lemma at_position_Some c n u :
  at_position c n = Some u <-> (1 <= n)%Z /\ c_units c !! Z.to_nat (n - 1) = Some u.
Proof.
  unfold at_position.
  destruct (Z.leb_spec 1 n), (Z.leb_spec n (Z.of_nat (length (c_units c)))); simpl.
  - naive_solver.
  - split; [done|]. intros [_ H1%lookup_lt_Some]. lia.
  - naive_solver lia.
  - naive_solver lia.
Qed.
