(* ===== verification/Fingerprint.v ===== *)
(** * The [fp1] canonical fingerprint ([fingerprint.py])

    The byte string that is hashed, defined to the last byte, and the fact that
    matters about it: two inputs with the same canonical bytes are the same
    input up to the order of files and required objects. SHA-256 is a parameter. *)
From S2P Require Import Prelude PyStr Errors.
Open Scope str_scope.

(* @src fingerprint.py FORMAT_PREFIX *)
Definition FORMAT_PREFIX : str := "fp1".

Definition newline : char := 10%N.

(* @src fingerprint.py CANONICAL_HEADER *)
Definition CANONICAL_HEADER : bytes := "migr8-fingerprint/1" ++ [newline].

(** [[0-9a-f]]. *)
Definition lower_hex (c : char) : bool := ascii_digit c || between 97 102 c.

(** [FINGERPRINT_RE.fullmatch(value)]: [^fp1:[0-9a-f]{64}$]. *)
(* @src fingerprint.py 16-21 is_supported_fingerprint *)
Definition is_supported_fingerprint (value : str) : bool :=
  starts_with "fp1:" value &&
  bool_decide (length (drop 4 value) = 64) && forallb lower_hex (drop 4 value).

(** [int.to_bytes] raises [OverflowError] when the value does not fit. *)
Definition overflow_error : pyexn := PyException (builtin_exn "builtins.OverflowError").

Definition to_bytes_or_raise (w : nat) (n : N) : result pyexn bytes :=
  match to_bytes_big w n with Some b => Ok b | None => Err overflow_error end.

(* @src fingerprint.py _u32be *)
Definition u32be (value : N) : result pyexn bytes := to_bytes_or_raise 4 value.

(* @src fingerprint.py _u64be *)
Definition u64be (value : N) : result pyexn bytes := to_bytes_or_raise 8 value.

Definition blen (b : bytes) : N := N.of_nat (length b).

(* @src fingerprint.py field *)
Definition field (name : str) (value : bytes) : result pyexn bytes :=
  raw_name ← encode_or_raise name;
  name_len ← u32be (blen raw_name);
  value_len ← u64be (blen value);
  Ok (name_len ++ raw_name ++ value_len ++ value).

(** [field(name, text.encode("utf-8"))]. *)
Definition text_field (name text : str) : result pyexn bytes :=
  b ← encode_or_raise text; field name b.

(** The key of the sort: the UTF-8 bytes of the type and of the name. *)
Definition pair_key (p : str * str) : result pyexn ((bytes * bytes) * (str * str)) :=
  t ← encode_or_raise p.1; n ← encode_or_raise p.2; Ok ((t, n), p).

Definition pair_key_leb (p q : (bytes * bytes) * (str * str)) : bool := bytes_pair_leb p.1 q.1.

(* @src fingerprint.py 45-45 encode_required (sorted) *)
Definition sort_pairs (required : list (str * str)) : result pyexn (list (str * str)) :=
  keyed ← map_result pair_key required; Ok (sort_by pair_key_leb keyed).*2.

Definition encode_pair (p : str * str) : result pyexn bytes :=
  t ← text_field "type" p.1; n ← text_field "name" p.2; Ok (t ++ n).

(* @src fingerprint.py encode_required *)
Definition encode_required (required : list (str * str)) : result pyexn bytes :=
  ordered ← sort_pairs required;
  count ← u64be (N.of_nat (length ordered));
  entries ← map_result encode_pair ordered;
  Ok (count ++ concat entries).

(* @src fingerprint.py FingerprintInput *)
Record FingerprintInput := MkInput {
  fi_language : str;
  fi_mode : str;
  fi_entry : str;
  fi_required : list (str * str);
  fi_files : list (str * bytes);
}.

Definition encode_file (f : str * bytes) : result pyexn bytes :=
  p ← text_field "path" f.1; d ← field "data" f.2; Ok (p ++ d).

(* @src fingerprint.py canonical_bytes *)
Definition canonical_bytes (data : FingerprintInput) : result pyexn bytes :=
  ordered_files ← sort_by_utf8 fst (fi_files data);
  language ← text_field "language" (fi_language data);
  mode ← text_field "mode" (fi_mode data);
  entry ← text_field "entry" (fi_entry data);
  required ← encode_required (fi_required data);
  require_valid ← field "require_valid" required;
  count ← u64be (N.of_nat (length ordered_files));
  count ← field "count" count;
  files ← map_result encode_file ordered_files;
  Ok (CANONICAL_HEADER ++ language ++ mode ++ entry ++ require_valid ++ count ++ concat files).

(** [sha256_hex b] is [hashlib.sha256(b).hexdigest()]. *)
(* @src fingerprint.py compute *)
Definition compute (sha256_hex : bytes -> str) (data : FingerprintInput) : result pyexn str :=
  b ← canonical_bytes data; Ok (FORMAT_PREFIX ++ ":" ++ sha256_hex b).

(** Two inputs describe the same unit when they differ only in the order of
    their files and required objects. *)
Record same_unit (d e : FingerprintInput) : Prop := {
  su_language : fi_language d = fi_language e;
  su_mode : fi_mode d = fi_mode e;
  su_entry : fi_entry d = fi_entry e;
  su_required : fi_required d ≡ₚ fi_required e;
  su_files : fi_files d ≡ₚ fi_files e;
}.

(** ** Lemmas: every piece of the encoding is prefix-free *)
Definition prefix_free {A} (enc : A -> result pyexn bytes) : Prop :=
  forall x y b c r s, enc x = Ok b -> enc y = Ok c -> b ++ r = c ++ s -> x = y /\ r = s.

Lemma to_bytes_or_raise_Ok w n b : to_bytes_or_raise w n = Ok b <-> to_bytes_big w n = Some b.
Proof. unfold to_bytes_or_raise. case_match; naive_solver. Qed.

Lemma to_bytes_or_raise_prefix_free w : prefix_free (to_bytes_or_raise w).
Proof.
  intros n m b c r s Hn%to_bytes_or_raise_Ok Hm%to_bytes_or_raise_Ok Heq.
  apply app_inj_1 in Heq as [-> ->].
  - split; [|done]. eapply to_bytes_big_inj; eauto.
  - by rewrite (to_bytes_big_length _ _ _ Hn), (to_bytes_big_length _ _ _ Hm).
Qed.

(** Two blocks that both start with their own 64-bit or 32-bit length. *)
Lemma counted_prefix_free w (v v' l l' r s : bytes) :
  to_bytes_or_raise w (blen v) = Ok l -> to_bytes_or_raise w (blen v') = Ok l' ->
  l ++ v ++ r = l' ++ v' ++ s -> v = v' /\ r = s.
Proof.
  intros Hl Hl' Heq. destruct (to_bytes_or_raise_prefix_free w _ _ _ _ _ _ Hl Hl' Heq) as [Hlen Hvr].
  apply app_inj_1 in Hvr; [done|]. unfold blen in Hlen. lia.
Qed.

Lemma field_prefix_free n n' v v' b c r s :
  field n v = Ok b -> field n' v' = Ok c -> b ++ r = c ++ s -> n = n' /\ v = v' /\ r = s.
Proof.
  unfold field, u32be, u64be. intros H1 H2 Heq. inv_ok. rewrite <-!app_assoc in Heq.
  (* the lengths of both names come first, then the names, then the values *)
  match goal with
  | Hn : to_bytes_or_raise 4 (blen ?x) = Ok ?l, Hm : to_bytes_or_raise 4 (blen ?y) = Ok ?l',
    Heq : ?l ++ ?x ++ _ = ?l' ++ ?y ++ _ |- _ =>
      destruct (to_bytes_or_raise_prefix_free 4 _ _ _ _ _ _ Hn Hm Heq) as [Hlen Htl];
      apply app_inj_1 in Htl as [-> Hv]; [|unfold blen in Hlen; lia]
  end.
  match goal with
  | Hn : to_bytes_or_raise 8 (blen v) = Ok _, Hm : to_bytes_or_raise 8 (blen v') = Ok _ |- _ =>
      destruct (counted_prefix_free 8 _ _ _ _ _ _ Hn Hm Hv) as [-> ->]
  end.
  split; [|done]. rewrite !encode_or_raise_Ok in *. eauto with migr8.
Qed.

Lemma text_field_prefix_free n n' t t' b c r s :
  text_field n t = Ok b -> text_field n' t' = Ok c -> b ++ r = c ++ s -> n = n' /\ t = t' /\ r = s.
Proof.
  unfold text_field. intros (x & Hx & H1)%bind_Ok (y & Hy & H2)%bind_Ok Heq.
  destruct (field_prefix_free _ _ _ _ _ _ _ _ H1 H2 Heq) as (-> & -> & ->).
  split_and!; try done. rewrite !encode_or_raise_Ok in *. eauto with migr8.
Qed.

Lemma encode_pair_prefix_free : prefix_free encode_pair.
Proof.
  intros [t n] [t' n'] b c r s (bt & Ht & (bn & Hn & [= <-])%bind_Ok)%bind_Ok
    (bt' & Ht' & (bn' & Hn' & [= <-])%bind_Ok)%bind_Ok Heq. simpl in *.
  rewrite <-!app_assoc in Heq.
  destruct (text_field_prefix_free _ _ _ _ _ _ _ _ Ht Ht' Heq) as (_ & -> & Heq').
  by destruct (text_field_prefix_free _ _ _ _ _ _ _ _ Hn Hn' Heq') as (_ & -> & ->).
Qed.

Lemma encode_file_prefix_free : prefix_free encode_file.
Proof.
  intros [p d] [p' d'] b c r s (bp & Hp & (bd & Hd & [= <-])%bind_Ok)%bind_Ok
    (bp' & Hp' & (bd' & Hd' & [= <-])%bind_Ok)%bind_Ok Heq. simpl in *.
  rewrite <-!app_assoc in Heq.
  destruct (text_field_prefix_free _ _ _ _ _ _ _ _ Hp Hp' Heq) as (_ & -> & Heq').
  by destruct (field_prefix_free _ _ _ _ _ _ _ _ Hd Hd' Heq') as (_ & -> & ->).
Qed.

(** A sequence of the same number of prefix-free blocks decodes uniquely. *)
Lemma blocks_inj {A} (enc : A -> result pyexn bytes) xs ys bs cs :
  prefix_free enc -> length xs = length ys ->
  map_result enc xs = Ok bs -> map_result enc ys = Ok cs -> concat bs = concat cs -> xs = ys.
Proof.
  intros Hpf Hlen Hx%map_result_Ok Hy%map_result_Ok.
  revert ys cs Hlen Hy. induction Hx as [|x b xs bs Hxb Hx IH]; intros [|y ys] cs Hlen Hy Heq;
    try done; inversion Hy as [|? c ? cs' Hyc Hy']; subst; simpl in *.
  destruct (Hpf _ _ _ _ _ _ Hxb Hyc Heq) as [-> Heq']. f_equal. eapply IH; eauto.
Qed.

(** ** Lemmas on the canonical order *)
Lemma pair_key_Ok p k :
  pair_key p = Ok k <->
  utf8_encode p.1 = Some k.1.1 /\ utf8_encode p.2 = Some k.1.2 /\ k.2 = p.
Proof.
  unfold pair_key. rewrite bind_Ok. setoid_rewrite bind_Ok. setoid_rewrite encode_or_raise_Ok.
  destruct k as [[t n] q]; simpl. naive_solver.
Qed.

Lemma pair_keys_snd l ks : Forall2 (fun p k => pair_key p = Ok k) l ks -> ks.*2 = l.
Proof.
  induction 1 as [|p k l ks Hp _ IH]; csimpl; [done|].
  apply pair_key_Ok in Hp as (_ & _ & ->). by rewrite IH.
Qed.

Lemma sort_pairs_perm l l' : sort_pairs l = Ok l' -> l' ≡ₚ l.
Proof.
  unfold sort_pairs. intros. inv_ok.
  match goal with H : map_result _ _ = Ok _ |- _ => apply map_result_Ok in H as Hk end.
  rewrite <-(pair_keys_snd _ _ Hk). apply fmap_Permutation, sort_by_perm.
Qed.

Lemma pair_keys_inj ks ks' :
  Forall (fun k => pair_key k.2 = Ok k) ks -> Forall (fun k => pair_key k.2 = Ok k) ks' ->
  ks.*1 = ks'.*1 -> ks = ks'.
Proof.
  intros H. revert ks'. induction H as [|k ks Hk H IH]; intros [|k' ks'] H' Heq; csimpl; try done.
  inversion H' as [|? ? Hk' Hks']; subst. csimpl. injection Heq as H1 H2.
  apply pair_key_Ok in Hk as (Ht & Hn & _), Hk' as (Ht' & Hn' & _).
  destruct k as [[t n] [pt pn]], k' as [[t' n'] [pt' pn']]; simpl in *; simplify_eq.
  rewrite (utf8_encode_inj _ _ _ Ht Ht'), (utf8_encode_inj _ _ _ Hn Hn'). f_equal. by apply IH.
Qed.

(** The canonical order of required objects forgets their original order. *)
Lemma sort_pairs_proper l1 l2 r1 r2 :
  l1 ≡ₚ l2 -> sort_pairs l1 = Ok r1 -> sort_pairs l2 = Ok r2 -> r1 = r2.
Proof.
  intros Hp H1 H2. unfold sort_pairs in *. inv_ok.
  match goal with H : map_result _ l1 = Ok ?k1, H' : map_result _ l2 = Ok ?k2 |- _ =>
    destruct (map_result_perm _ _ _ _ Hp H) as (k2' & Hk2 & Hperm);
    assert (k2' = k2) as -> by congruence;
    apply map_result_Ok in H, H'; rename H into Hf1, H' into Hf2 end.
  assert (forall l ks, Forall2 (fun p k => pair_key p = Ok k) l ks ->
            Forall (fun k => pair_key k.2 = Ok k) (sort_by pair_key_leb ks)) as Hf.
  { intros l ks Hf. rewrite sort_by_perm. induction Hf as [|p k l' ks' Hpk _ IH]; [done|].
    constructor; [|done]. by pose proof Hpk as (_ & _ & ->)%pair_key_Ok. }
  f_equal. apply pair_keys_inj; [by eapply Hf..|].
  unfold pair_key_leb. rewrite !(sort_by_fmap fst bytes_pair_leb).
  apply sort_by_proper; eauto with migr8. by apply fmap_Permutation.
Qed.

Lemma encode_required_inj l1 l2 b :
  encode_required l1 = Ok b -> encode_required l2 = Ok b -> l1 ≡ₚ l2.
Proof.
  unfold encode_required, u64be. intros H1 H2.
  apply bind_Ok in H1 as (o1 & Ho1 & H1), H2 as (o2 & Ho2 & H2).
  apply bind_Ok in H1 as (c1 & Hc1 & H1), H2 as (c2 & Hc2 & H2).
  apply bind_Ok in H1 as (e1 & He1 & H1), H2 as (e2 & He2 & H2).
  injection H1 as H1. injection H2 as H2. rewrite <-H2 in H1.
  destruct (to_bytes_or_raise_prefix_free 8 _ _ _ _ _ _ Hc1 Hc2 H1) as [Hlen Heq].
  rewrite <-(sort_pairs_perm _ _ Ho1), <-(sort_pairs_perm _ _ Ho2).
  rewrite (blocks_inj encode_pair o1 o2 e1 e2); auto using encode_pair_prefix_free. lia.
Qed.

Lemma encode_required_proper l1 l2 b1 b2 :
  l1 ≡ₚ l2 -> encode_required l1 = Ok b1 -> encode_required l2 = Ok b2 -> b1 = b2.
Proof.
  unfold encode_required. intros Hp H1 H2.
  apply bind_Ok in H1 as (o1 & Ho1 & H1), H2 as (o2 & Ho2 & H2).
  rewrite (sort_pairs_proper _ _ _ _ Hp Ho1 Ho2) in H1. congruence.
Qed.

(** The six parts of a canonical encoding. *)
Lemma canonical_bytes_inv d b :
  canonical_bytes d = Ok b ->
  exists files l m e rq rv n cn fs,
    sort_by_utf8 fst (fi_files d) = Ok files /\
    text_field "language" (fi_language d) = Ok l /\ text_field "mode" (fi_mode d) = Ok m /\
    text_field "entry" (fi_entry d) = Ok e /\ encode_required (fi_required d) = Ok rq /\
    field "require_valid" rq = Ok rv /\ u64be (N.of_nat (length files)) = Ok n /\
    field "count" n = Ok cn /\ map_result encode_file files = Ok fs /\
    b = CANONICAL_HEADER ++ l ++ m ++ e ++ rv ++ cn ++ concat fs.
Proof. unfold canonical_bytes. intros. inv_ok. repeat eexists; eauto. Qed.

Lemma canonical_bytes_inj d e b :
  canonical_bytes d = Ok b -> canonical_bytes e = Ok b -> same_unit d e.
Proof.
  intros (fs & l & m & en & rq & rv & n & cn & bs & Hfs & Hl & Hm & Hen & Hrq & Hrv & Hn & Hcn & Hbs & Hb)%canonical_bytes_inv
    (fs' & l' & m' & en' & rq' & rv' & n' & cn' & bs' & Hfs' & Hl' & Hm' & Hen' & Hrq' & Hrv' & Hn' & Hcn' & Hbs' & Hb')%canonical_bytes_inv.
  rewrite Hb in Hb'. apply app_inv_head in Hb'.
  destruct (text_field_prefix_free _ _ _ _ _ _ _ _ Hl Hl' Hb') as (_ & Hlang & Hb1).
  destruct (text_field_prefix_free _ _ _ _ _ _ _ _ Hm Hm' Hb1) as (_ & Hmode & Hb2).
  destruct (text_field_prefix_free _ _ _ _ _ _ _ _ Hen Hen' Hb2) as (_ & Hentry & Hb3).
  destruct (field_prefix_free _ _ _ _ _ _ _ _ Hrv Hrv' Hb3) as (_ & -> & Hb4).
  destruct (field_prefix_free _ _ _ _ _ _ _ _ Hcn Hcn' Hb4) as (_ & -> & Hb5).
  split; [done..|by eapply encode_required_inj|].
  apply sort_by_utf8_Ok in Hfs as [<- _], Hfs' as [<- _].
  unfold u64be in *. apply to_bytes_or_raise_Ok in Hn, Hn'.
  pose proof (to_bytes_big_inj _ _ _ _ Hn Hn').
  rewrite (blocks_inj encode_file fs fs' bs bs'); auto using encode_file_prefix_free. lia.
Qed.

Lemma canonical_bytes_proper d e b c :
  NoDup (fi_files d).*1 -> same_unit d e ->
  canonical_bytes d = Ok b -> canonical_bytes e = Ok c -> b = c.
Proof.
  intros Hnd [Hl Hm He Hr Hf] H1 H2. unfold canonical_bytes in *.
  rewrite <-Hl, <-Hm, <-He in H2.
  apply bind_Ok in H1 as (fs & Hfs & H1), H2 as (fs' & Hfs' & H2).
  rewrite <-(sort_by_utf8_perm fst _ _ _ _ Hf Hnd Hfs Hfs') in H2.
  apply bind_Ok in H1 as (l & Hl1 & H1), H2 as (l' & Hl2 & H2).
  apply bind_Ok in H1 as (m & Hm1 & H1), H2 as (m' & Hm2 & H2).
  apply bind_Ok in H1 as (n & Hn1 & H1), H2 as (n' & Hn2 & H2).
  apply bind_Ok in H1 as (q & Hq1 & H1), H2 as (q' & Hq2 & H2).
  rewrite <-(encode_required_proper _ _ _ _ Hr Hq1 Hq2) in H2. same_ok. congruence.
Qed.

(** C36: the fingerprint's canonical bytes identify a unit. For two inputs that both
    encode, with distinct file paths, the hashed bytes are equal exactly when
    language, mode and entry are equal and the files and the required objects
    are the same up to order: reordering never changes the fingerprint input,
    and any edit, addition, removal or rename always does. *)
Theorem canonical_bytes_iff d e b c
    (Hd : canonical_bytes d = Ok b) (He : canonical_bytes e = Ok c)
    (Hnd : NoDup (fi_files d).*1) :
  b = c <-> same_unit d e.
Proof.
  split; [intros ->; by eapply canonical_bytes_inj|]. intros. by eapply canonical_bytes_proper.
Qed.

(** A two-file unit, its files and required objects listed in both orders. *)
Definition sample_input : FingerprintInput :=
  MkInput "sql" "atomic" "up.sql" [("view", "a"); ("table", "b")]
    [("up.sql", "SELECT 1"); ("data/x.txt", [255; 0]%N)].
Definition sample_reordered : FingerprintInput :=
  MkInput "sql" "atomic" "up.sql" [("table", "b"); ("view", "a")]
    [("data/x.txt", [255; 0]%N); ("up.sql", "SELECT 1")].
Definition sample_edited : FingerprintInput :=
  MkInput "sql" "atomic" "up.sql" [("table", "b"); ("view", "a")]
    [("data/x.txt", [255; 1]%N); ("up.sql", "SELECT 1")].

Lemma canonical_bytes_iff_witness :
  canonical_bytes sample_input = canonical_bytes sample_reordered /\
  canonical_bytes sample_input <> canonical_bytes sample_edited /\
  same_unit sample_input sample_reordered.
Proof.
  split; [reflexivity|]. split; [by vm_compute|].
  refine (proj1 (canonical_bytes_iff sample_input sample_reordered _ _ eq_refl eq_refl _) eq_refl).
  repeat constructor; set_solver.
Defined.

(** A computed fingerprint is one the tool accepts later: when [sha256_hex] gives
    64 lower-case hexadecimal digits, whatever [compute] returns passes
    [is_supported_fingerprint]. *)
Lemma compute_supported sha256_hex d fp
    (Hsha : forall b, length (sha256_hex b) = 64 /\ forallb lower_hex (sha256_hex b) = true)
    (Hfp : compute sha256_hex d = Ok fp) :
  is_supported_fingerprint fp = true.
Proof.
  unfold compute in Hfp. apply bind_Ok in Hfp as (b & _ & [= <-]).
  destruct (Hsha b) as [Hlen Hhex]. unfold is_supported_fingerprint.
  cbn [drop]. rewrite drop_0.
  by rewrite Hhex, bool_decide_eq_true_2.
Qed.
