(* ===== verification/StateValidate.v ===== *)
(** * Validation of durable state and the plan ([statevalidate.py])

    The pure core of the tool: from a snapshot of the metadata rows and a capture
    of the manifest either a plan or an error. [snapshot_ok] and [agrees] say,
    without an algorithm, which snapshots are accepted; the theorems show that
    the checks of the code decide exactly these. *)
From S2P Require Import Prelude PyStr Errors Paths Manifest Fingerprint Model.
Open Scope str_scope.

(** ** The shape of the rows, whatever the manifest *)
Definition damaged (label : str) : error := mk MetadataDamagedError label.

Definition seq_leb (r1 r2 : HistoryRow) : bool := (hr_seq r1 <=? hr_seq r2)%Z.

(* @src statevalidate.py 47-47 validate_snapshot_shape (sorted) *)
Definition sorted_rows (s : Snapshot) : list HistoryRow := sort_by seq_leb (s_history s).

(** The body of the first loop, over [seen_seq] and [seen_ids]. *)
(* @src statevalidate.py 49-66 validate_snapshot_shape (first loop) *)
Definition scan_row (seen : list Z * list str) (row : HistoryRow) : result error (list Z * list str) :=
  let '(seen_seq, seen_ids) := seen in
  raise_if (hr_seq row <? 1)%Z (damaged "non-positive position");;
  raise_if (bool_decide (hr_seq row ∈ seen_seq)) (damaged "position used twice");;
  raise_if (bool_decide (hr_id row ∈ seen_ids)) (damaged "duplicate migration id");;
  Ok (hr_seq row :: seen_seq, hr_id row :: seen_ids).

(* @src statevalidate.py 68-73 validate_snapshot_shape (second loop) *)
Definition check_consecutive (rows : list HistoryRow) : result error unit :=
  for_each (fun ir : nat * HistoryRow =>
      raise_if (negb (bool_decide (hr_seq ir.2 = Z.of_nat ir.1))) (damaged "positions not consecutive"))
    (enumerate_from 1 rows).

(* @src statevalidate.py 113-123 _validate_row (fingerprints) *)
Definition validate_fingerprint (label value : str) : result error unit :=
  raise_if (bool_decide (value = [])) (damaged ("empty " ++ label));;
  raise_if (negb (is_supported_fingerprint value)) (damaged ("unsupported " ++ label)).

Definition attempt_invalid (a : option Z) : bool :=
  match a with None => true | Some n => (n <? 1)%Z end.

(* @src statevalidate.py _validate_row *)
Definition validate_row (row : HistoryRow) : result error unit :=
  raise_if (negb (is_active row || is_success row)) (damaged "unsupported status");;
  raise_if (negb (bool_decide (hr_language row ∈ ["sql"; "python"]))) (damaged "unsupported language");;
  raise_if (negb (bool_decide (hr_mode row ∈ ["atomic"; "restartable"]))) (damaged "unsupported mode");;
  validate_fingerprint "fingerprint" (hr_fingerprint row);;
  validate_fingerprint "first_fingerprint" (hr_first_fingerprint row);;
  if is_active row then
    raise_if (negb (bool_decide (hr_mode row = mode_value RESTARTABLE))) (damaged "ACTIVE row not restartable");;
    raise_if (attempt_invalid (hr_attempt row)) (damaged "ACTIVE row has invalid attempt");;
    raise_if (negb (bool_decide (hr_finished_at row = None))) (damaged "ACTIVE row has a completion time");;
    raise_if (bool_decide (hr_started_at row = None)) (damaged "ACTIVE row has no start time")
  else
    raise_if (bool_decide (hr_finished_at row = None)) (damaged "SUCCESS row has no completion time");;
    raise_if (bool_decide (hr_mode row = mode_value ATOMIC) && negb (bool_decide (hr_attempt row = None)))
      (damaged "atomic row records attempt");;
    raise_if (bool_decide (hr_mode row = mode_value RESTARTABLE) && attempt_invalid (hr_attempt row))
      (damaged "restartable row has invalid attempt").

(** [by_id]: a later row with the same id would replace an earlier one. *)
Definition by_id (rows : list HistoryRow) (mid : str) : option HistoryRow :=
  list_find (fun r => hr_id r = mid) (rev rows) ≫= fun p => Some p.2.

(* @src statevalidate.py 159-183 _validate_progress (loop body) *)
Definition scan_progress (rows : list HistoryRow) (seen : list (str * str)) (entry : ProgressRow) :
    result error (list (str * str)) :=
  let key := (pr_id entry, pr_key entry) in
  raise_if (bool_decide (key ∈ seen)) (damaged "duplicate progress key");;
  match by_id rows (pr_id entry) with
  | None => Err (damaged "progress row references unknown migration")
  | Some owner =>
      raise_if (is_success owner) (damaged "progress row attached to successful migration");;
      raise_if (bool_decide (pr_value entry = [])) (damaged "progress row has an empty value");;
      Ok (key :: seen)
  end.

(* @src statevalidate.py _validate_progress *)
Definition validate_progress (s : Snapshot) (rows : list HistoryRow) : result error unit :=
  fold_result (scan_progress rows) [] (s_progress s);; Ok tt.

(* @src statevalidate.py validate_snapshot_shape *)
Definition validate_snapshot_shape (s : Snapshot) : result error unit :=
  raise_if (match s_meta s with
            | Some m => negb (bool_decide (mt_layout_version m = LAYOUT_VERSION))
            | None => false
            end) (damaged "layout_version not supported");;
  let rows := sorted_rows s in
  fold_result scan_row ([], []) rows;;
  check_consecutive rows;;
  for_each validate_row rows;;
  let actives := filter is_active rows in
  raise_if (bool_decide (1 < length actives)) (damaged "more than one ACTIVE history row");;
  match actives with
  | active :: _ =>
      let successes := filter is_success rows in
      raise_if (negb (bool_decide (hr_seq active = Z.of_nat (length successes) + 1)%Z))
        (damaged "ACTIVE must be the next position")
  | [] => Ok tt
  end;;
  validate_progress s rows.

(** ** The plan *)
Definition invalid (label : str) : error := mk ValidationError label.

Definition index_error : pyexn := PyException (builtin_exn "builtins.IndexError").
Definition assertion_error : pyexn := PyException (builtin_exn "builtins.AssertionError").

(** [units[row.seq - 1]]. *)
Definition unit_of (units : list CapturedUnit) (row : HistoryRow) : result pyexn CapturedUnit :=
  match py_index units (hr_seq row - 1) with Some u => Ok u | None => Err index_error end.

(* @src statevalidate.py 206-228 build_plan (loop over successes) *)
Definition check_success_row (units : list CapturedUnit) (row : HistoryRow) : result pyexn unit :=
  unit ← unit_of units row;
  lift (
    raise_if (negb (bool_decide (u_id unit = hr_id row))) (invalid "successful history id differs");;
    raise_if (negb (bool_decide (hr_language row = language_value (u_language unit))))
      (invalid "successful migration recorded another language");;
    raise_if (negb (bool_decide (hr_mode row = mode_value (u_mode unit))))
      (invalid "successful migration recorded another mode");;
    raise_if (negb (bool_decide (hr_fingerprint row = u_fingerprint unit)))
      (invalid "successful migration has changed")).

(* @src statevalidate.py 232-251 build_plan (ACTIVE row) *)
Definition check_active_row (units : list CapturedUnit) (active : HistoryRow) : result pyexn bool :=
  unit ← unit_of units active;
  lift (
    raise_if (negb (bool_decide (u_id unit = hr_id active))) (invalid "ACTIVE history id differs");;
    raise_if (negb (bool_decide (hr_language active = language_value (u_language unit))) &&
              bool_decide (hr_fingerprint active = u_fingerprint unit))
      (invalid "ACTIVE migration recorded another language");;
    raise_if (negb (bool_decide (u_mode unit = RESTARTABLE))) (invalid "ACTIVE migration declared atomic"));;
  Ok (negb (bool_decide (hr_fingerprint active = u_fingerprint unit))).

(* @src statevalidate.py build_plan *)
Definition build_plan (capture : Capture) (snapshot : Snapshot) : result pyexn Plan :=
  lift (validate_snapshot_shape snapshot);;
  let rows := sorted_rows snapshot in
  let units := c_units capture in
  raise_if (bool_decide (length units < length rows))
    (PyMigr8 (invalid "history is longer than the manifest"));;
  let successes := filter is_success rows in
  for_each (check_success_row units) successes;;
  let active := head (filter is_active rows) in
  changed ← match active with
            | Some row => check_active_row units row
            | None => Ok false
            end;
  let success_count := length successes in
  Ok (MkPlan capture snapshot success_count active (drop success_count units) changed).

(* @src statevalidate.py require_no_recovery_needed *)
Definition require_no_recovery_needed (plan : Plan) : result pyexn unit :=
  if p_active_changed plan then
    match p_active plan with
    | None => Ok tt
    | Some active =>
        match at_position (p_capture plan) (hr_seq active) with
        | None => Err assertion_error
        | Some _ => Err (PyMigr8 (mk_id RecoveryRequiredError "active migration source has changed" (hr_id active)))
        end
    end
  else Ok tt.

(* @src statevalidate.py check_recovery_admission *)
Definition check_recovery_admission (plan : Plan) (recover_id : str) : result error unit :=
  match p_active plan with
  | None => Err (invalid "--recover requires an ACTIVE migration")
  | Some active =>
      raise_if (negb (bool_decide (hr_id active = recover_id)))
        (mk_id ValidationError "--recover does not match the active migration" (hr_id active));;
      match at_position (p_capture plan) (hr_seq active) with
      | None => Err (invalid "--recover cannot change position")
      | Some unit =>
          raise_if (negb (bool_decide (u_id unit = hr_id active))) (invalid "--recover cannot change position");;
          raise_if (negb (bool_decide (u_mode unit = RESTARTABLE)) ||
                    negb (bool_decide (hr_mode active = mode_value RESTARTABLE)))
            (mk_id ValidationError "--recover cannot change execution mode" (hr_id active))
      end
  end.

(** ** What the checks decide *)

(** A positive attempt number. *)
Definition attempt_counted (r : HistoryRow) : Prop := exists n, hr_attempt r = Some n /\ (1 <= n)%Z.

(** One well-formed row, by its status. *)
Record row_ok (r : HistoryRow) : Prop := {
  ro_language : exists l, hr_language r = language_value l;
  ro_mode : exists m, hr_mode r = mode_value m;
  ro_fingerprint : is_supported_fingerprint (hr_fingerprint r) = true;
  ro_first : is_supported_fingerprint (hr_first_fingerprint r) = true;
  ro_status :
    (hr_status r = status_value ST_ACTIVE /\ hr_mode r = mode_value RESTARTABLE /\ attempt_counted r /\
     hr_finished_at r = None /\ hr_started_at r <> None) \/
    (hr_status r = status_value ST_SUCCESS /\ hr_finished_at r <> None /\
     (hr_mode r = mode_value ATOMIC -> hr_attempt r = None) /\
     (hr_mode r = mode_value RESTARTABLE -> attempt_counted r));
}.

(** Rows listed in position order: [1], [2], ... *)
Definition numbered (rows : list HistoryRow) : Prop :=
  map hr_seq rows = map Z.of_nat (seq 1 (length rows)).

(** A successful prefix [done], then at most one ACTIVE row. *)
Definition prefix_shape (rows done act : list HistoryRow) : Prop :=
  rows = done ++ act /\ Forall (fun r => is_success r = true) done /\
  Forall (fun r => is_active r = true) act /\ length act <= 1.

(** Every progress row belongs to the ACTIVE row, has its own key and a value. *)
Definition progress_ok (act : list HistoryRow) (ps : list ProgressRow) : Prop :=
  NoDup (map (fun p => (pr_id p, pr_key p)) ps) /\
  Forall (fun p => pr_value p <> [] /\ Exists (fun r => hr_id r = pr_id p) act) ps.

Record snapshot_ok (s : Snapshot) (done act : list HistoryRow) : Prop := {
  so_layout : forall m, s_meta s = Some m -> mt_layout_version m = LAYOUT_VERSION;
  so_rows : done ++ act ≡ₚ s_history s;
  so_numbered : numbered (done ++ act);
  so_ids : NoDup (map hr_id (done ++ act));
  so_each : Forall row_ok (done ++ act);
  so_prefix : prefix_shape (done ++ act) done act;
  so_progress : progress_ok act (s_progress s);
}.

(** A successful row agrees with the unit at its position. *)
Definition success_agrees (r : HistoryRow) (u : CapturedUnit) : Prop :=
  hr_id r = u_id u /\ hr_language r = language_value (u_language u) /\
  hr_mode r = mode_value (u_mode u) /\ hr_fingerprint r = u_fingerprint u.

(** The ACTIVE row agrees with its unit; its fingerprint may differ. *)
Definition active_agrees (r : HistoryRow) (u : CapturedUnit) : Prop :=
  hr_id r = u_id u /\ u_mode u = RESTARTABLE /\
  (hr_fingerprint r = u_fingerprint u -> hr_language r = language_value (u_language u)).

(** The rows of a snapshot match the first units of the capture. *)
Record agrees (units : list CapturedUnit) (done act : list HistoryRow) : Prop := {
  ag_done : Forall2 success_agrees done (take (length done) units);
  ag_active : Forall2 active_agrees act (take (length act) (drop (length done) units));
}.

(** The ACTIVE row's fingerprint is not the one of the first pending unit. *)
Definition fingerprint_changed (act : list HistoryRow) (pending : list CapturedUnit) : bool :=
  match act, pending with
  | a :: _, u :: _ => negb (bool_decide (hr_fingerprint a = u_fingerprint u))
  | _, _ => false
  end.

Definition the_plan (c : Capture) (s : Snapshot) (done act : list HistoryRow) : Plan :=
  let pending := drop (length done) (c_units c) in
  MkPlan c s (length done) (head act) pending (fingerprint_changed act pending).

(** ** Lemmas on the order of rows *)
Lemma seq_leb_total r1 r2 : seq_leb r1 r2 = true \/ seq_leb r2 r1 = true.
Proof. unfold seq_leb. lia. Qed.

Lemma seq_leb_trans r1 r2 r3 : seq_leb r1 r2 = true -> seq_leb r2 r3 = true -> seq_leb r1 r3 = true.
Proof. unfold seq_leb. lia. Qed.

Lemma sorted_rows_perm s : sorted_rows s ≡ₚ s_history s.
Proof. apply sort_by_perm. Qed.

Lemma numbered_lookup rows i r : numbered rows -> rows !! i = Some r -> hr_seq r = (Z.of_nat i + 1)%Z.
Proof.
  intros Hn Hr. assert (map hr_seq rows !! i = Some (hr_seq r)) as H by (by rewrite list_lookup_fmap, Hr).
  rewrite Hn, list_lookup_fmap in H. rewrite lookup_seq_lt in H by (by eapply lookup_lt_Some).
  injection H as <-. lia.
Qed.

Lemma numbered_iff rows :
  numbered rows <-> forall i r, rows !! i = Some r -> hr_seq r = (Z.of_nat i + 1)%Z.
Proof.
  split; [intros; by eapply numbered_lookup|]. intros H. unfold numbered. apply list_eq. intros i.
  rewrite !list_lookup_fmap. destruct (rows !! i) as [r|] eqn:E; simpl.
  - rewrite lookup_seq_lt by (by eapply lookup_lt_Some). simpl. rewrite (H _ _ E). f_equal. lia.
  - apply lookup_ge_None in E. by rewrite lookup_seq_ge.
Qed.

Lemma numbered_inj rows i j r r' :
  numbered rows -> rows !! i = Some r -> rows !! j = Some r' -> hr_seq r = hr_seq r' -> i = j.
Proof. intros Hn Hi%(numbered_lookup _ _ _ Hn) Hj%(numbered_lookup _ _ _ Hn). lia. Qed.

Lemma numbered_sorted rows : numbered rows -> StronglySorted (fun a b => seq_leb a b = true) rows.
Proof.
  intros Hn.
  enough (forall k, StronglySorted (fun a b => seq_leb a b = true) (drop k rows)) as H by exact (H 0).
  intros k. remember (length rows - k) as m eqn:Hm. revert k Hm.
  induction m as [|m IH]; intros k Hm.
  - rewrite drop_ge by lia. constructor.
  - destruct (lookup_lt_is_Some_2 rows k) as [r Hr]; [lia|]. rewrite (drop_S _ _ _ Hr).
    constructor; [apply IH; lia|]. apply Forall_lookup. intros i r' Hr'.
    rewrite lookup_drop in Hr'. unfold seq_leb.
    rewrite (numbered_lookup _ _ _ Hn Hr), (numbered_lookup _ _ _ Hn Hr'). lia.
Qed.

(** A numbered arrangement of the history is the one the code sorts into. *)
Lemma sorted_rows_numbered s rows : rows ≡ₚ s_history s -> numbered rows -> sorted_rows s = rows.
Proof.
  intros Hp Hn. symmetry. apply (strongly_sorted_unique_in seq_leb).
  - intros x y Hx Hy Hxy Hyx. apply list_elem_of_lookup in Hx as [i Hi], Hy as [j Hj].
    unfold seq_leb in *. assert (i = j) as -> by (eapply numbered_inj; eauto; lia). congruence.
  - by apply numbered_sorted.
  - apply (sort_by_sorted _ seq_leb_total seq_leb_trans).
  - by rewrite sorted_rows_perm.
Qed.

(** ** Lemmas on the loops *)
Lemma scan_row_Ok seen r s' :
  scan_row (map hr_seq seen, map hr_id seen) r = Ok s' <->
  ((1 <= hr_seq r)%Z /\ (hr_seq r ∉ map hr_seq seen) /\ (hr_id r ∉ map hr_id seen)) /\
  s' = (map hr_seq (r :: seen), map hr_id (r :: seen)).
Proof.
  unfold scan_row, raise_if. case_bool_decide; case_bool_decide;
    destruct (Z.ltb_spec (hr_seq r) 1); simpl; naive_solver lia.
Qed.

Lemma scan_rows_Ok rows :
  (exists s', fold_result scan_row ([], []) rows = Ok s') <->
  Forall (fun r => (1 <= hr_seq r)%Z) rows /\ NoDup (map hr_seq rows) /\ NoDup (map hr_id rows).
Proof.
  rewrite Forall_splits, !NoDup_splits.
  pose proof (fun s' => fold_seen _ _ scan_row rows [] s' scan_row_Ok) as H.
  setoid_rewrite H. clear H.
  setoid_rewrite app_nil_r. setoid_rewrite elem_of_map_rev. split.
  - intros (? & H & _). split_and!; intros l1 y l2 Hl; by apply H in Hl as (? & ? & ?).
  - intros (H1 & H2 & H3). eexists. split; [|done]. eauto 6.
Qed.

Lemma check_consecutive_Ok rows : check_consecutive rows = Ok tt <-> numbered rows.
Proof.
  unfold check_consecutive. rewrite for_each_Ok, Forall_lookup, numbered_iff.
  setoid_rewrite enumerate_from_lookup. split.
  - intros H i r Hr. specialize (H i (S i, r)). rewrite Hr in H. simpl in H.
    specialize (H eq_refl). apply raise_if_Ok in H. bool_simpl. lia.
  - intros H i [j r]. destruct (rows !! i) as [r'|] eqn:E; simpl; [|done]. intros [= <- <-].
    apply raise_if_Ok, negb_false_iff, bool_decide_eq_true. rewrite (H _ _ E). lia.
Qed.

Lemma attempt_invalid_false r : attempt_invalid (hr_attempt r) = false <-> attempt_counted r.
Proof.
  unfold attempt_invalid, attempt_counted. destruct (hr_attempt r) as [n|]; [|naive_solver].
  rewrite Z.ltb_ge. naive_solver.
Qed.

Lemma validate_fingerprint_Ok label v :
  validate_fingerprint label v = Ok tt <-> is_supported_fingerprint v = true.
Proof.
  unfold validate_fingerprint, raise_if. case_bool_decide as Hv; simpl.
  - subst. split; done.
  - destruct (is_supported_fingerprint v); naive_solver.
Qed.

Lemma language_recorded v : v ∈ ["sql"; "python"] <-> exists l, v = language_value l.
Proof.
  rewrite !elem_of_cons, elem_of_nil. split.
  - intros [->|[->|[]]]; [by exists SQL_LANG|by exists PYTHON].
  - intros [[] ->]; auto.
Qed.

Lemma mode_recorded v : v ∈ ["atomic"; "restartable"] <-> exists m, v = mode_value m.
Proof.
  rewrite !elem_of_cons, elem_of_nil. split.
  - intros [->|[->|[]]]; [by exists ATOMIC|by exists RESTARTABLE].
  - intros [[] ->]; auto.
Qed.

(** The status part of [_validate_row], on either branch. *)
Definition status_ok (r : HistoryRow) : Prop :=
  (hr_status r = status_value ST_ACTIVE /\ hr_mode r = mode_value RESTARTABLE /\ attempt_counted r /\
   hr_finished_at r = None /\ hr_started_at r <> None) \/
  (hr_status r = status_value ST_SUCCESS /\ hr_finished_at r <> None /\
   (hr_mode r = mode_value ATOMIC -> hr_attempt r = None) /\
   (hr_mode r = mode_value RESTARTABLE -> attempt_counted r)).

Lemma is_active_true r : is_active r = true <-> hr_status r = status_value ST_ACTIVE.
Proof. apply bool_decide_eq_true. Qed.

Lemma is_success_true r : is_success r = true <-> hr_status r = status_value ST_SUCCESS.
Proof. apply bool_decide_eq_true. Qed.

Lemma is_success_active r : is_success r = true -> is_active r = false.
Proof. unfold is_success, is_active. intros ->%bool_decide_eq_true. done. Qed.

Lemma validate_row_Ok r : validate_row r = Ok tt <-> row_ok r.
Proof.
  trans ((exists l, hr_language r = language_value l) /\ (exists m, hr_mode r = mode_value m) /\
         is_supported_fingerprint (hr_fingerprint r) = true /\
         is_supported_fingerprint (hr_first_fingerprint r) = true /\ status_ok r).
  2:{ split; [intros (?&?&?&?&?)|intros []]; [by constructor|by split_and!]. }
  unfold validate_row. rewrite !raise_then_Ok, !then_Ok, !validate_fingerprint_Ok.
  rewrite !negb_false_iff, !bool_decide_eq_true, language_recorded, mode_recorded.
  unfold status_ok. rewrite <-!is_active_true, <-!is_success_true.
  destruct (is_active r) eqn:Ha; simpl.
  - rewrite (is_active_success _ Ha), !raise_then_Ok, raise_if_Ok, !negb_false_iff,
      attempt_invalid_false, !bool_decide_eq_true, bool_decide_eq_false. naive_solver.
  - rewrite !raise_then_Ok, raise_if_Ok, !andb_false_iff, !negb_false_iff, attempt_invalid_false,
      !bool_decide_eq_true, !bool_decide_eq_false.
    destruct (decide (hr_mode r = mode_value ATOMIC)), (decide (hr_mode r = mode_value RESTARTABLE));
      naive_solver.
Qed.

(** ** Lemmas on the successful prefix *)
Definition known_status (r : HistoryRow) : Prop := is_active r = true \/ is_success r = true.

Lemma row_ok_status r : row_ok r -> known_status r.
Proof.
  unfold known_status. rewrite is_active_true, is_success_true.
  intros [_ _ _ _ [(? & _)|(? & _)]]; auto.
Qed.

Lemma prefix_shape_filters rows done act :
  prefix_shape rows done act -> filter is_success rows = done /\ filter is_active rows = act.
Proof.
  intros (-> & Hd & Ha & _). rewrite !filter_app. split.
  - rewrite filter_all by done. rewrite filter_none; [by rewrite app_nil_r|].
    eapply Forall_impl; [exact Ha|]. apply is_active_success.
  - rewrite filter_none; [by rewrite filter_all|].
    eapply Forall_impl; [exact Hd|]. apply is_success_active.
Qed.

Lemma count_statuses rows :
  Forall known_status rows ->
  length (filter is_success rows) + length (filter is_active rows) = length rows.
Proof.
  induction 1 as [|r rows [Hr|Hr] _ IH]; [done|..].
  - rewrite (filter_cons_false is_success), (filter_cons_true is_active); simpl;
      auto using is_active_success with lia.
  - rewrite (filter_cons_true is_success), (filter_cons_false is_active); simpl;
      auto using is_success_active with lia.
Qed.

Lemma no_actives_all_success rows :
  Forall known_status rows -> filter is_active rows = [] -> Forall (fun r => is_success r = true) rows.
Proof.
  intros Hk Hf. rewrite Forall_forall in *. intros r Hr. destruct (Hk r Hr) as [Ha|]; [|done].
  assert (r ∈ filter is_active rows) as Hin by (by apply elem_of_filter_bool).
  rewrite Hf in Hin. set_solver.
Qed.

(** "ACTIVE is the next position" is all it takes: the rows are a successful
    prefix followed by that row. *)
Lemma next_position_prefix rows a :
  numbered rows -> Forall known_status rows -> filter is_active rows = [a] ->
  hr_seq a = (Z.of_nat (length (filter is_success rows)) + 1)%Z ->
  exists done, prefix_shape rows done [a].
Proof.
  intros Hn Hk Ha Hseq. pose proof (count_statuses rows Hk) as Hlen. rewrite Ha in Hlen. simpl in Hlen.
  destruct rows as [|r rows _] using rev_ind; [simpl in *; lia|].
  rewrite length_app in Hlen. simpl in Hlen.
  assert (a ∈ rows ++ [r]) as Hin.
  { assert (a ∈ filter is_active (rows ++ [r])) as H by (rewrite Ha; by left).
    by apply elem_of_filter_bool in H as []. }
  apply list_elem_of_lookup in Hin as [i Hi].
  pose proof (numbered_lookup _ _ _ Hn Hi) as Hsi.
  assert (i = length rows) as -> by lia.
  rewrite list_lookup_middle in Hi by done. injection Hi as ->.
  apply Forall_app in Hk as [Hk _]. rewrite filter_app in Ha.
  assert (is_active a = true) as Hact.
  { assert (a ∈ filter is_active rows ++ filter is_active [a]) as H by (rewrite Ha; by left).
    by apply elem_of_app in H as [H|H]; apply elem_of_filter_bool in H as [H _]. }
  rewrite (filter_all is_active [a]) in Ha by (by repeat constructor).
  apply (app_inj_tail _ []) in Ha as [Ha _].
  exists rows. split_and!; [done|by apply no_actives_all_success|by repeat constructor|simpl; lia].
Qed.

(** ** Lemmas on progress *)
Lemma by_id_Some rows mid r :
  NoDup (map hr_id rows) -> by_id rows mid = Some r <-> r ∈ rows /\ hr_id r = mid.
Proof.
  intros Hnd. unfold by_id. split.
  - intros ([i r'] & (Hr & Hid & _)%list_find_Some & [= <-])%bind_Some.
    apply list_elem_of_lookup_2 in Hr. simpl in *. 
    split; [|done]. by rewrite list_elem_of_In, in_rev, <-list_elem_of_In.
  - intros [Hr Hid].
    destruct (list_find_elem_of (fun r => hr_id r = mid) (rev rows) r) as [[i r'] Hf]; [|done|].
    { by rewrite list_elem_of_In, <-in_rev, <-list_elem_of_In. }
    rewrite Hf. simpl. apply list_find_Some in Hf as (Hi & Hid' & _).
    apply list_elem_of_lookup_2 in Hi. rewrite list_elem_of_In, <-in_rev, <-list_elem_of_In in Hi.
    f_equal. apply list_elem_of_lookup in Hr as [j Hj], Hi as [k Hk].
    assert (k = j) as ->; [|congruence].
    eapply (NoDup_lookup (map hr_id rows)); [done|rewrite list_lookup_fmap, Hk; done|].
    rewrite list_lookup_fmap, Hj. simpl. congruence.
Qed.

Definition progress_key (p : ProgressRow) : str * str := (pr_id p, pr_key p).

Lemma scan_progress_Ok rows seen p s' :
  scan_progress rows (map progress_key seen) p = Ok s' <->
  ((progress_key p ∉ map progress_key seen) /\
   exists r, by_id rows (pr_id p) = Some r /\ is_success r = false /\ pr_value p <> []) /\
  s' = map progress_key (p :: seen).
Proof.
  unfold scan_progress. change (pr_id p, pr_key p) with (progress_key p).
  rewrite raise_then_Ok, bool_decide_eq_false.
  destruct (by_id rows (pr_id p)) as [r|]; [|naive_solver].
  rewrite !raise_then_Ok, bool_decide_eq_false. simpl. naive_solver.
Qed.

Lemma validate_progress_Ok s rows done act :
  NoDup (map hr_id rows) -> prefix_shape rows done act -> 
  validate_progress s rows = Ok tt <-> progress_ok act (s_progress s).
Proof.
  intros Hnd Hshape. unfold validate_progress, progress_ok.
  change (fun p => (pr_id p, pr_key p)) with progress_key.
  assert (forall p, (exists r, by_id rows (pr_id p) = Some r /\ is_success r = false /\ pr_value p <> []) <->
                    (pr_value p <> [] /\ Exists (fun r => hr_id r = pr_id p) act)) as Howner.
  { intros p. setoid_rewrite (by_id_Some rows _ _ Hnd). rewrite Exists_exists.
    destruct Hshape as (-> & Hd & Ha & _). rewrite Forall_forall in Hd, Ha. split.
    - intros (r & [[Hr|Hr]%elem_of_app Hid] & Hs & Hv); [rewrite (Hd _ Hr) in Hs; done|eauto].
    - intros (Hv & r & Hr & Hid). exists r. rewrite elem_of_app.
      split_and!; auto using is_active_success. }
  trans (exists s', fold_result (scan_progress rows) [] (s_progress s) = Ok s').
  { rewrite bind_Ok. naive_solver. }
  setoid_rewrite (fun s' => fold_seen _ _ _ (s_progress s) [] s' (scan_progress_Ok rows)).
  rewrite NoDup_splits, Forall_splits. setoid_rewrite app_nil_r. setoid_rewrite elem_of_map_rev.
  setoid_rewrite Howner. split.
  - intros (? & H & _). split; intros l1 y l2 Hl; by apply H in Hl as [??].
  - intros [H1 H2]. eexists. split; [|done]. eauto.
Qed.

(** ** The shape of a snapshot *)

(** The test on the ACTIVE row decides the successful prefix. *)
Lemma active_position_iff rows :
  numbered rows -> Forall known_status rows ->
  (length (filter is_active rows) <= 1 /\
   forall a act, filter is_active rows = a :: act ->
     hr_seq a = (Z.of_nat (length (filter is_success rows)) + 1)%Z) <->
  exists done act, prefix_shape rows done act.
Proof.
  intros Hn Hk. split.
  - intros [Hlen Hpos]. destruct (filter is_active rows) as [|a [|b act]] eqn:Ha; simpl in Hlen; [|clear Hlen|lia].
    + exists rows, []. split_and!; [by rewrite app_nil_r|by apply no_actives_all_success|done|simpl; lia].
    + destruct (next_position_prefix rows a) as [dn Hshape]; eauto.
  - intros (dn & act & Hshape). destruct (prefix_shape_filters _ _ _ Hshape) as [-> ->].
    destruct Hshape as (-> & _ & _ & Hlen). split; [done|]. intros a act' ->.
    apply (numbered_lookup _ (length dn) _ Hn). by rewrite list_lookup_middle.
Qed.

Lemma numbered_facts rows :
  numbered rows -> Forall (fun r => (1 <= hr_seq r)%Z) rows /\ NoDup (map hr_seq rows).
Proof.
  intros Hn. split.
  - apply Forall_lookup. intros i r Hr. rewrite (numbered_lookup _ _ _ Hn Hr). lia.
  - rewrite Hn. apply NoDup_fmap_2, NoDup_seq. intros x y. lia.
Qed.

Definition layout_ok (s : Snapshot) : Prop :=
  forall m, s_meta s = Some m -> mt_layout_version m = LAYOUT_VERSION.

Lemma layout_check_Ok s :
  match s_meta s with
  | Some m => negb (bool_decide (mt_layout_version m = LAYOUT_VERSION))
  | None => false
  end = false <-> layout_ok s.
Proof.
  unfold layout_ok. destruct (s_meta s); [|done].
  rewrite negb_false_iff, bool_decide_eq_true. naive_solver.
Qed.

Lemma row_ok_statuses rows : Forall row_ok rows -> Forall known_status rows.
Proof. intros. eapply Forall_impl; [done|apply row_ok_status]. Qed.

(** The code's checks, on the rows in position order. *)
Lemma validate_rows_iff s :
  validate_snapshot_shape s = Ok tt <->
  layout_ok s /\ numbered (sorted_rows s) /\ NoDup (map hr_id (sorted_rows s)) /\
  Forall row_ok (sorted_rows s) /\
  exists done act, prefix_shape (sorted_rows s) done act /\ progress_ok act (s_progress s).
Proof.
  unfold validate_snapshot_shape. rewrite raise_then_Ok, layout_check_Ok.
  apply and_iff_compat_l. rewrite bind_const_Ok, then_Ok, then_Ok, raise_then_Ok, then_Ok.
  rewrite check_consecutive_Ok, for_each_Ok, bool_decide_eq_false.
  rewrite (Forall_iff _ _ row_ok validate_row_Ok).
  set (rows := sorted_rows s).
  trans ((exists s', fold_result scan_row ([], []) rows = Ok s') /\ numbered rows /\ Forall row_ok rows /\
    (length (filter is_active rows) <= 1 /\
     forall a act, filter is_active rows = a :: act ->
       hr_seq a = (Z.of_nat (length (filter is_success rows)) + 1)%Z) /\
    validate_progress s rows = Ok tt).
  { split.
    - intros (Hs' & Hn & Hr & Ha & Hpos & Hp). split_and!; eauto; [lia|].
      intros a act Hact. rewrite Hact in Hpos. apply raise_if_Ok in Hpos. bool_simpl. done.
    - intros (Hs' & Hn & Hr & [Ha Hpos] & Hp). split_and!; eauto; [lia|].
      destruct (filter is_active rows) as [|a act]; [done|].
      by rewrite (Hpos a act eq_refl), bool_decide_eq_true_2. }
  rewrite scan_rows_Ok. split.
  - intros ((_ & _ & Hid) & Hn & Hr & Hact & Hp). split_and!; try done.
    apply active_position_iff in Hact as (dn & act & Hshape);
      [|done|by apply row_ok_statuses].
    exists dn, act. split; [done|]. by eapply validate_progress_Ok.
  - intros (Hn & Hid & Hr & dn & act & Hshape & Hp).
    pose proof (numbered_facts _ Hn) as []. split_and!; try done.
    + apply active_position_iff; eauto using row_ok_statuses.
    + apply active_position_iff; eauto using row_ok_statuses.
    + by eapply validate_progress_Ok.
Qed.

Lemma snapshot_ok_rows s done act : snapshot_ok s done act -> sorted_rows s = done ++ act.
Proof. intros []. by apply sorted_rows_numbered. Qed.

Lemma validate_snapshot_shape_accepts s :
  validate_snapshot_shape s = Ok tt <-> exists done act, snapshot_ok s done act.
Proof.
  rewrite validate_rows_iff. split.
  - intros (Hl & Hn & Hid & Hr & dn & act & Hshape & Hp). exists dn, act.
    pose proof Hshape as (Heq & _). rewrite Heq in *.
    split; try done. rewrite <-Heq. apply sorted_rows_perm.
  - intros (dn & act & Hok). rewrite (snapshot_ok_rows _ _ _ Hok).
    destruct Hok. split_and!; eauto.
Qed.

(** ** Lemmas on the plan *)
Lemma shape_errors s : errs_in (fun e => e_class e = MetadataDamagedError) (validate_snapshot_shape s).
Proof.
  unfold validate_snapshot_shape, scan_row, check_consecutive, validate_row, validate_fingerprint,
    validate_progress, scan_progress. errs_in; done.
Qed.

Lemma unit_of_numbered units rows i r :
  numbered rows -> rows !! i = Some r ->
  unit_of units r = match units !! i with Some u => Ok u | None => Err index_error end.
Proof.
  intros Hn Hr. unfold unit_of, py_index. rewrite (numbered_lookup _ _ _ Hn Hr).
  destruct (Z.leb_spec 0 (Z.of_nat i + 1 - 1)); [|lia].
  by replace (Z.to_nat (Z.of_nat i + 1 - 1)) with i by lia.
Qed.

Ltac run_raise :=
  match goal with
  | |- context [lift (raise_if ?b _ ≫= _)] => destruct b eqn:?
  | |- context [lift (raise_if ?b _)] => destruct b eqn:?
  end; bool_simpl; simpl.

Ltac refused := right; split; [naive_solver|eexists; split; reflexivity].

Lemma check_success_row_unit units r u :
  unit_of units r = Ok u ->
  check_success_row units r = Ok tt /\ success_agrees r u \/
  ~ success_agrees r u /\ exists e, check_success_row units r = Err (PyMigr8 e) /\ exit_code e = VALIDATION.
Proof.
  intros Hu. unfold check_success_row, success_agrees. rewrite Hu. simpl.
  do 4 (run_raise; [refused|]). left. naive_solver.
Qed.

Lemma check_active_row_unit units r u :
  unit_of units r = Ok u ->
  check_active_row units r = Ok (fingerprint_changed [r] [u]) /\ active_agrees r u \/
  ~ active_agrees r u /\ exists e, check_active_row units r = Err (PyMigr8 e) /\ exit_code e = VALIDATION.
Proof.
  intros Hu. unfold check_active_row, active_agrees. rewrite Hu. simpl.
  do 3 (run_raise; [refused|]). left. rewrite andb_false_iff, negb_false_iff in *.
  rewrite bool_decide_eq_true, bool_decide_eq_false in *. naive_solver.
Qed.

Lemma units_of_rows units rows :
  numbered rows -> length rows <= length units ->
  Forall2 (fun r u => unit_of units r = Ok u) rows (take (length rows) units).
Proof.
  intros Hn Hlen. apply Forall2_same_length_lookup_2; [by rewrite length_take_le|].
  intros i r u Hr Hu. apply lookup_take_Some in Hu as [Hu _].
  by rewrite (unit_of_numbered _ _ _ _ Hn Hr), Hu.
Qed.

(** The loop over the successful rows checks them against the units in order. *)
Lemma check_success_rows units l us :
  Forall2 (fun r u => unit_of units r = Ok u) l us ->
  for_each (check_success_row units) l = Ok tt /\ Forall2 success_agrees l us \/
  ~ Forall2 success_agrees l us /\
    exists e, for_each (check_success_row units) l = Err (PyMigr8 e) /\ exit_code e = VALIDATION.
Proof.
  induction 1 as [|r u l us Hu _ IH]; simpl; [by left|].
  destruct (check_success_row_unit _ _ _ Hu) as [[-> Hr]|[Hr (e & -> & He)]].
  - destruct IH as [[-> Hl]|[Hl (e & -> & He)]]; [left; auto|right].
    split; [by inversion 1|]. by exists e.
  - right. split; [by inversion 1|]. by exists e.
Qed.

Lemma agrees_iff units done act :
  agrees units done act <->
  Forall2 success_agrees done (take (length done) units) /\
  Forall2 active_agrees act (take (length act) (drop (length done) units)).
Proof. split; [intros []; done|intros []; by constructor]. Qed.

(** With too few units nothing agrees. *)
Lemma agrees_length units done act : agrees units done act -> length (done ++ act) <= length units.
Proof.
  intros [H1%Forall2_length H2%Forall2_length].
  rewrite length_take in H1. rewrite length_take, length_drop in H2. rewrite length_app. lia.
Qed.

(** [build_plan] once the shape is known to be right. *)
Lemma build_plan_shape c s dn act :
  snapshot_ok s dn act ->
  (build_plan c s = Ok (the_plan c s dn act) /\ agrees (c_units c) dn act) \/
  (~ agrees (c_units c) dn act /\
   exists e, build_plan c s = Err (PyMigr8 e) /\ exit_code e = VALIDATION).
Proof.
  intros Hok. pose proof (snapshot_ok_rows _ _ _ Hok) as Hrows.
  assert (validate_snapshot_shape s = Ok tt) as Hshape by (apply validate_snapshot_shape_accepts; eauto).
  unfold build_plan. rewrite Hshape, Hrows. simpl.
  destruct (prefix_shape_filters _ _ _ (so_prefix _ _ _ Hok)) as [-> ->].
  unfold raise_if. case_bool_decide as Hlen; simpl.
  { right. split; [|by eexists]. intros Hag%agrees_length. lia. }
  pose proof (units_of_rows (c_units c) _ (so_numbered _ _ _ Hok) ltac:(lia)) as Hunits.
  rewrite length_app, <-take_take_drop in Hunits.
  apply Forall2_app_inv in Hunits as [Hud Hua]; [|rewrite length_take_le; [done|rewrite length_app in Hlen; lia]].
  rewrite agrees_iff.
  destruct (check_success_rows _ _ _ Hud) as [[-> Hd]|[Hd (e & -> & He)]]; simpl.
  2:{ right. split; [naive_solver|by exists e]. }
  destruct (so_prefix _ _ _ Hok) as (_ & _ & _ & Hact).
  unfold the_plan. destruct act as [|a [|? ?]]; [..|simpl in Hact; lia]; simpl in *.
  { left. auto. }
  destruct (drop (length dn) (c_units c)) as [|u us] eqn:Hdrop; simpl in Hua; [inversion Hua|].
  apply Forall2_cons in Hua as [Hu _]. simpl. rewrite take_0.
  destruct (check_active_row_unit _ _ _ Hu) as [[-> Ha]|[Ha (e & -> & He)]]; simpl.
  - left. auto.
  - right. split; [|by exists e]. intros [_ H]. inversion H; subst; done.
Qed.

Lemma build_plan_Ok c s p :
  build_plan c s = Ok p -> exists dn act, snapshot_ok s dn act /\ agrees (c_units c) dn act /\ p = the_plan c s dn act.
Proof.
  intros Hp. destruct (validate_snapshot_shape s) as [[]|e] eqn:Hshape.
  - pose proof Hshape as (dn & act & Hok)%validate_snapshot_shape_accepts. exists dn, act.
    destruct (build_plan_shape c s dn act Hok) as [[Heq Hag]|(Hag & e & Heq & He)]; rewrite Heq in Hp; [|done].
    by injection Hp as <-.
  - unfold build_plan in Hp. by rewrite Hshape in Hp.
Qed.

(** A snapshot has one decomposition only. *)
Lemma snapshot_ok_unique s d1 a1 d2 a2 :
  snapshot_ok s d1 a1 -> snapshot_ok s d2 a2 -> d1 = d2 /\ a1 = a2.
Proof.
  intros H1 H2. pose proof (snapshot_ok_rows _ _ _ H1). pose proof (snapshot_ok_rows _ _ _ H2).
  destruct (prefix_shape_filters _ _ _ (so_prefix _ _ _ H1)), (prefix_shape_filters _ _ _ (so_prefix _ _ _ H2)).
  split; congruence.
Qed.

(** The order in which rows were read is irrelevant. *)
Lemma snapshot_ok_rows_only s1 s2 dn act :
  s_history s1 ≡ₚ s_history s2 -> s_progress s1 ≡ₚ s_progress s2 -> layout_ok s2 ->
  snapshot_ok s1 dn act -> snapshot_ok s2 dn act.
Proof.
  intros Hh Hp Hm []. split; try done.
  - by rewrite <-Hh.
  - unfold progress_ok. by rewrite <-Hp.
Qed.

Lemma snapshot_ok_reorder s1 s2 dn act :
  s_history s1 ≡ₚ s_history s2 -> s_progress s1 ≡ₚ s_progress s2 -> s_meta s1 = s_meta s2 ->
  snapshot_ok s1 dn act -> snapshot_ok s2 dn act.
Proof.
  intros Hh Hp Hm Hok. eapply snapshot_ok_rows_only; try done. unfold layout_ok. rewrite <-Hm. apply Hok.
Qed.

(** What a plan says of the ACTIVE migration. *)
Lemma the_plan_active c s dn act a :
  snapshot_ok s dn act -> agrees (c_units c) dn act -> head act = Some a ->
  exists u, at_position c (hr_seq a) = Some u /\ active_agrees a u /\
    hr_mode a = mode_value RESTARTABLE /\ head (drop (length dn) (c_units c)) = Some u.
Proof.
  intros Hok [_ Hag] Ha. destruct act as [|a' act]; [done|]. injection Ha as ->.
  destruct (drop (length dn) (c_units c)) as [|u us] eqn:Hdrop; simpl in Hag; [inversion Hag|].
  apply Forall2_cons in Hag as [Hau _]. exists u.
  assert (hr_seq a = Z.of_nat (length dn) + 1)%Z as ->.
  { apply (numbered_lookup (dn ++ a :: act)); [apply Hok|by rewrite list_lookup_middle]. }
  rewrite at_position_spec. split_and!; [|done| |done].
  - rewrite <-(Nat.add_0_r (length dn)), <-lookup_drop. by rewrite Hdrop.
  - pose proof (so_each _ _ _ Hok) as Hr. apply Forall_app in Hr as [_ Hr].
    apply Forall_cons in Hr as [Hr _].
    pose proof (so_prefix _ _ _ Hok) as (_ & _ & Hact & _).
    apply Forall_cons in Hact as [Hact%is_active_true _].
    destruct (ro_status _ Hr) as [(_ & ? & _)|(Hs & _)]; [done|by rewrite Hact in Hs].
Qed.

(** C26: what [build_plan] decides. A plan comes out exactly when the snapshot is
    well shaped and its rows agree with the first units of the capture, and it
    is then the number of successful rows, the ACTIVE row if there is one, the
    units after the successful prefix, and whether the ACTIVE fingerprint
    changed. A malformed snapshot is refused with exit code 7 whatever the
    manifest is; a well-formed one that disagrees with the manifest with exit
    code 2; nothing else (an [IndexError], say) ever comes out. *)
Theorem build_plan_decides c s :
  match build_plan c s with
  | Ok p => exists dn act, snapshot_ok s dn act /\ agrees (c_units c) dn act /\ p = the_plan c s dn act
  | Err (PyMigr8 e) =>
      (exit_code e = METADATA_DAMAGED /\ forall dn act, ~ snapshot_ok s dn act) \/
      (exit_code e = VALIDATION /\ exists dn act, snapshot_ok s dn act /\ ~ agrees (c_units c) dn act)
  | Err _ => False
  end.
Proof.
  destruct (validate_snapshot_shape s) as [[]|e] eqn:Hshape.
  - pose proof Hshape as (dn & act & Hok)%validate_snapshot_shape_accepts.
    destruct (build_plan_shape c s dn act Hok) as [[-> Hag]|(Hag & e & -> & He)]; [|right]; eauto.
  - unfold build_plan. rewrite Hshape. simpl. left. split.
    + unfold exit_code. by rewrite (errs_in_elim _ _ _ (shape_errors s) Hshape).
    + intros dn act Hok. assert (validate_snapshot_shape s = Ok tt) as H; [|congruence].
      apply validate_snapshot_shape_accepts. eauto.
Qed.

(** ** A concrete state *)
Definition fp_a : str := "fp1:" ++ repeat 48%N 64.
Definition fp_b : str := "fp1:" ++ repeat 97%N 64.

Definition sample_def (n : Z) (mid : str) (m : Mode) : MigrationDef :=
  MkMigration n mid mid SQL_LANG m "up.sql" [] [mid].
Definition sample_unit (n : Z) (mid : str) (m : Mode) (fp : str) : CapturedUnit :=
  MkUnit (sample_def n mid m) [("up.sql", NFile [])] fp ["up.sql"] false.
Definition sample_capture : Capture :=
  let units := [sample_unit 1 "a" ATOMIC fp_a; sample_unit 2 "b" RESTARTABLE fp_b; sample_unit 3 "c" ATOMIC fp_a] in
  MkCapture (MkManifest ["m.toml"] [] (map u_definition units)) units false.

Definition success_row : HistoryRow :=
  MkHistory 1 "a" fp_a fp_a "sql" "atomic" "SUCCESS" None (Some 1%Z) None (Some 2%Z) None None None None None.
Definition active_row (fp : str) : HistoryRow :=
  MkHistory 2 "b" fp fp "sql" "restartable" "ACTIVE" (Some 3%Z) (Some 3%Z) (Some 4%Z) None None None None None None.
Definition sample_progress : list ProgressRow :=
  [MkProgress "b" "cursor" "10" None; MkProgress "b" "total" "20" None].
Definition sample_snapshot (rows : list HistoryRow) (ps : list ProgressRow) : Snapshot :=
  MkSnapshot rows ps (Some (MkMeta 1 "sqlite" "file" "x" "main" None)).

(** The order in which the metadata rows are read decides nothing: the same
    rows in any order give the same plan. *)
Lemma build_plan_reorder c s1 s2 p
    (Hh : s_history s1 ≡ₚ s_history s2) (Hp : s_progress s1 ≡ₚ s_progress s2)
    (Hm : s_meta s1 = s_meta s2) (Hplan : build_plan c s1 = Ok p) :
  build_plan c s2 =
    Ok (MkPlan c s2 (p_success_count p) (p_active p) (p_pending p) (p_active_changed p)).
Proof.
  unfold build_plan in Hplan. apply bind_Ok in Hplan as ([] & Hshape%lift_Ok & Hrest).
  apply validate_snapshot_shape_accepts in Hshape as (dn & act & Hok).
  assert (build_plan c s1 = Ok p) as Hplan.
  { unfold build_plan. rewrite (proj2 (validate_snapshot_shape_accepts s1)); [done|eauto]. }
  destruct (build_plan_shape c s1 dn act Hok) as [[Heq Hag]|(_ & e & He & _)]; [|congruence].
  assert (p = the_plan c s1 dn act) as -> by congruence.
  destruct (build_plan_shape c s2 dn act (snapshot_ok_reorder _ _ _ _ Hh Hp Hm Hok)) as [[-> _]|[Hn _]];
    done.
Qed.

Lemma build_plan_reorder_witness :
  exists p, build_plan sample_capture (sample_snapshot [success_row; active_row fp_a] sample_progress) = Ok p /\
    p_success_count p = 1 /\ p_active_changed p = true /\
    build_plan sample_capture (sample_snapshot [active_row fp_a; success_row] (rev sample_progress)) =
      Ok (MkPlan sample_capture (sample_snapshot [active_row fp_a; success_row] (rev sample_progress))
           (p_success_count p) (p_active p) (p_pending p) (p_active_changed p)).
Proof.
  eexists. split; [vm_compute; reflexivity|]. split; [reflexivity|]. split; [reflexivity|].
  eapply (build_plan_reorder _ (sample_snapshot [success_row; active_row fp_a] sample_progress));
    [apply perm_swap|apply perm_swap|reflexivity|vm_compute; reflexivity].
Defined.

(** C27: recovery. For a plan [build_plan] returned, plain [migrate] and [validate]
    go on exactly when the ACTIVE fingerprint is unchanged and otherwise ask for
    recovery of that very migration (the assertion never fails), and
    [--recover ID] is admitted exactly when [ID] is the ACTIVE migration. *)
Theorem recovery_decides c s p rid (Hplan : build_plan c s = Ok p) :
  match require_no_recovery_needed p with
  | Ok _ => p_active_changed p = false
  | Err (PyMigr8 e) => p_active_changed p = true /\ e_class e = RecoveryRequiredError /\
      exists a, p_active p = Some a /\ e_migration_id e = Some (hr_id a)
  | Err _ => False
  end /\
  (check_recovery_admission p rid = Ok tt <-> exists a, p_active p = Some a /\ hr_id a = rid).
Proof.
  unfold build_plan in Hplan. pose proof Hplan as Hplan'.
  apply bind_Ok in Hplan' as ([] & (dn & act & Hok)%lift_Ok%validate_snapshot_shape_accepts & _).
  change (build_plan c s = Ok p) in Hplan.
  destruct (build_plan_shape c s dn act Hok) as [[Heq Hag]|(_ & e & He & _)]; [|congruence].
  assert (p = the_plan c s dn act) as -> by congruence. clear Hplan Heq.
  unfold require_no_recovery_needed, check_recovery_admission; simpl.
  destruct (head act) as [a|] eqn:Ha.
  - destruct (the_plan_active c s dn act a Hok Hag Ha) as (u & Hu & (Hid & Hmode & _) & Hrm & _).
    rewrite Hu, Hid, Hmode, Hrm. simpl. split.
    + destruct (fingerprint_changed _ _); [|done]. rewrite <-Hid. eauto 6.
    + rewrite raise_then_Ok, negb_false_iff, bool_decide_eq_true.
      rewrite bool_decide_eq_true_2 by done. simpl. naive_solver.
  - destruct act; [|done]. simpl. naive_solver.
Qed.

Lemma recovery_decides_witness :
  exists p, build_plan sample_capture (sample_snapshot [success_row; active_row fp_a] sample_progress) = Ok p /\
    p_active_changed p = true /\
    (check_recovery_admission p "b" = Ok tt <-> exists a, p_active p = Some a /\ hr_id a = "b").
Proof.
  eexists. split; [vm_compute; reflexivity|]. split; [reflexivity|].
  eapply (recovery_decides sample_capture (sample_snapshot [success_row; active_row fp_a] sample_progress)).
  vm_compute. reflexivity.
Defined.
