(* ===== verification/SqlText.v ===== *)
(** * Lexical scanning of one statement ([sqltext.py])

    The scanner, the classification of a statement and its normalisation for
    submission, over code points and with the Unicode tables as parameters.
    Offsets are those of the text; a token holds its exact text. *)
From S2P Require Import Prelude PyStr Errors.
Open Scope str_scope.

Definition sql_error (label : str) : error := mk SqlSyntaxError label.

(** ** Tokens *)
(* @src sqltext.py TokenKind *)
Inductive TokenKind :=
| WORD
| NUMBER
| STRING
| QUOTED_IDENT
| PUNCT
| COMMENT.

#[export] Instance TokenKind_eq_dec : EqDecision TokenKind.
Proof. solve_decision. Defined.

(* @src sqltext.py 100-106 Token *)
Record Token := MkToken {
  t_kind : TokenKind;
  t_text : str;
  t_start : nat;
  t_end : nat;
}.

#[export] Instance Token_eq_dec : EqDecision Token.
Proof. solve_decision. Defined.

(* @src sqltext.py Token.significant *)
Definition significant (t : Token) : bool := negb (bool_decide (t_kind t = COMMENT)).

(** [ch in " \t\r\n\f\v"] and [opener in " \t\r\n"]. *)
Definition sql_space (c : char) : bool := existsb (fun d => (c =? d)%N) [32; 9; 13; 10; 12; 11]%N.
Definition quote_space (c : char) : bool := existsb (fun d => (c =? d)%N) [32; 9; 13; 10]%N.

Definition nl : str := [10%N].
Definition c_squote : char := 39%N.
Definition c_dquote : char := 34%N.
Definition c_dollar : char := 36%N.
Definition c_dot : char := 46%N.

Definition one_of (cs : str) (c : char) : bool := existsb (fun d => (c =? d)%N) cs.

(** Length of the longest prefix whose characters satisfy [p]: what the [while]
    loops over identifiers and digits advance by. *)
Fixpoint span_len (p : char -> bool) (s : str) : nat :=
  match s with
  | c :: s => if p c then S (span_len p s) else 0
  | [] => 0
  end.
Definition span_end (p : char -> bool) (sql : str) (i : nat) : nat := i + span_len p (drop i sql).

(** [index < length and p(sql[index])]. *)
Definition char_at (p : char -> bool) (sql : str) (i : nat) : bool :=
  match sql !! i with Some c => p c | None => false end.

(* @src sqltext.py _ALT_QUOTE_PAIRS *)
Definition ALT_QUOTE_PAIRS (c : char) : option char :=
  if (c =? 91)%N then Some 93%N          (* [ ] *)
  else if (c =? 123)%N then Some 125%N   (* { } *)
  else if (c =? 40)%N then Some 41%N     (* ( ) *)
  else if (c =? 60)%N then Some 62%N     (* < > *)
  else None.

(** [_DOLLAR_TAG_RE.match(sql, start).end()]. *)
(* @src sqltext.py _DOLLAR_TAG_RE *)
Definition match_dollar_tag (sql : str) (start : nat) : option nat :=
  if char_at (N.eqb c_dollar) sql start then
    let ident_start c := ascii_alpha c || (c =? 95)%N in
    let ident_part c := ascii_alnum c || (c =? 95)%N in
    let body := if char_at ident_start sql (S start) then span_end ident_part sql (S start) else S start in
    if char_at (N.eqb c_dollar) sql body then Some (S body) else None
  else None.

(* @src sqltext.py _scan_quoted_ident *)
Definition scan_quoted_ident (sql : str) (start : nat) : result error nat :=
  match find_from [c_dquote] sql (S start) with
  | None => Err (sql_error "unterminated quoted identifier")
  | Some e => Ok (S e)
  end.

(** The loop of [_scan_plain_string], on the text from offset [index] on. *)
Fixpoint scan_string_body (rest : str) (index : nat) : result error nat :=
  match rest with
  | [] => Err (sql_error "unterminated string literal")
  | c :: rest1 =>
      if (c =? c_squote)%N then
        match rest1 with
        | d :: rest2 => if (d =? c_squote)%N then scan_string_body rest2 (S (S index)) else Ok (S index)
        | [] => Ok (S index)
        end
      else scan_string_body rest1 (S index)
  end.

(* @src sqltext.py _scan_plain_string *)
Definition scan_plain_string (sql : str) (start : nat) : result error nat :=
  scan_string_body (drop (S start) sql) (S start).

(* @src sqltext.py _try_scan_dollar_quoted *)
Definition try_scan_dollar_quoted (sql : str) (start : nat) : result error (option nat) :=
  match match_dollar_tag sql start with
  | None => Ok None
  | Some tag_end =>
      let tag := slice sql start tag_end in
      match find_from tag sql tag_end with
      | None => Err (sql_error "unterminated dollar-quoted string")
      | Some e => Ok (Some (e + length tag))
      end
  end.

(* @src sqltext.py _scan_alt_quoted *)
Definition scan_alt_quoted (sql : str) (body : nat) : result error nat :=
  match sql !! body with
  | None => Err (sql_error "unterminated alternative-quoted literal")
  | Some opener =>
      raise_if (quote_space opener) (sql_error "alternative-quoted literal uses whitespace");;
      let closer := default opener (ALT_QUOTE_PAIRS opener) in
      let terminator := [closer; c_squote] in
      match find_from terminator sql (S body) with
      | None => Err (sql_error "unterminated alternative-quoted literal opened with q'")
      | Some e => Ok (e + length terminator)
      end
  end.

Section unicode.
Context {UC : Unicode}.

(* @src sqltext.py Token.upper *)
Definition t_upper (t : Token) : str := upper (t_text t).

(* @src sqltext.py _is_ident_start *)
Definition is_ident_start (c : char) : bool := uc_isalpha c || one_of "_$#:" c.

(* @src sqltext.py _is_ident_part *)
Definition is_ident_part (c : char) : bool := uc_isalnum c || one_of "_$#" c.

(* @src sqltext.py _scan_number *)
Definition scan_number (sql : str) (start : nat) : nat :=
  let index := span_end (fun c => uc_isdigit c || (c =? c_dot)%N) sql start in
  if char_at (one_of "eE") sql index then
    let probe := S index in
    let probe := if char_at (one_of "+-") sql probe then S probe else probe in
    if char_at uc_isdigit sql probe then span_end uc_isdigit sql probe else index
  else index.

(* @src sqltext.py _try_scan_prefixed_string *)
Definition try_scan_prefixed_string (sql : str) (start : nat) : result error (option nat) :=
  let up := upper (slice sql start (start + 3)) in
  if starts_with "NQ'" up then Some <$> scan_alt_quoted sql (start + 3)
  else if starts_with "Q'" up then Some <$> scan_alt_quoted sql (start + 2)
  else if starts_with "N'" up then Some <$> scan_plain_string sql (start + 1)
  else Ok None.

Definition token (kind : TokenKind) (sql : str) (start stop : nat) : Token :=
  MkToken kind (slice sql start stop) start stop.

(** One iteration of the loop of [tokenize] at offset [index], where [ch] is: no
    token for whitespace, and the offset at which the next iteration starts. *)
(* @src sqltext.py 129-183 tokenize (loop body) *)
Definition scan_token (sql : str) (index : nat) (ch : char) : result error (option Token * nat) :=
  let emit kind stop := Ok (Some (token kind sql index stop), stop) in
  if sql_space ch then Ok (None, S index)
  else if starts_with "--" (drop index sql) then
    emit COMMENT (default (length sql) (find_from nl sql index))
  else if starts_with "/*" (drop index sql) then
    match find_from "*/" sql (index + 2) with
    | None => Err (sql_error "unterminated block comment")
    | Some e => emit COMMENT (e + 2)
    end
  else if (ch =? c_dquote)%N then
    stop ← scan_quoted_ident sql index; emit QUOTED_IDENT stop
  else if (ch =? c_squote)%N then
    stop ← scan_plain_string sql index; emit STRING stop
  else
    dollar ← (if (ch =? c_dollar)%N then try_scan_dollar_quoted sql index else Ok None);
    match dollar with
    | Some stop => emit STRING stop
    | None =>
        alt ← try_scan_prefixed_string sql index;
        match alt with
        | Some stop => emit STRING stop
        | None =>
            if uc_isdigit ch || ((ch =? c_dot)%N && char_at uc_isdigit sql (S index)) then
              emit NUMBER (scan_number sql index)
            else if is_ident_start ch then
              emit WORD (span_end is_ident_part sql (S index))
            else emit PUNCT (S index)
        end
    end.

(** The [while] loop; every iteration moves forward, so [length sql] steps are
    always enough ([tokenize_tiles] shows that the whole text is consumed). *)
Fixpoint tokenize_loop (fuel : nat) (sql : str) (index : nat) : result error (list Token) :=
  match fuel, sql !! index with
  | S fuel, Some ch =>
      step ← scan_token sql index ch;
      rest ← tokenize_loop fuel sql step.2;
      Ok (option_list step.1 ++ rest)
  | _, _ => Ok []
  end.

(* @src sqltext.py tokenize *)
Definition tokenize (sql : str) : result error (list Token) := tokenize_loop (length sql) sql 0.

(* @src sqltext.py significant_tokens *)
Definition significant_tokens (sql : str) : result error (list Token) :=
  filter significant <$> tokenize sql.
End unicode.

(** ** Classification *)
(* @src sqltext.py StatementKind *)
Inductive StatementKind :=
| SK_SQL
| SK_PLSQL_BLOCK
| SK_PLSQL_DEFINITION.

#[export] Instance StatementKind_eq_dec : EqDecision StatementKind.
Proof. solve_decision. Defined.

(* @src sqltext.py SQLPLUS_COMMANDS *)
Definition SQLPLUS_COMMANDS : list str :=
  ["@"; "@@"; "ACCEPT"; "APPEND"; "ARCHIVE"; "ATTRIBUTE"; "BREAK"; "BTITLE"; "CHANGE"; "CLEAR";
   "COLUMN"; "COMPUTE"; "CONNECT"; "COPY"; "DEFINE"; "DESC"; "DESCRIBE"; "DISCONNECT"; "EDIT";
   "EXECUTE"; "EXIT"; "GET"; "HELP"; "HOST"; "INPUT"; "LIST"; "PASSWORD"; "PAUSE"; "PRINT"; "PROMPT";
   "QUIT"; "RECOVER"; "REMARK"; "REPFOOTER"; "REPHEADER"; "RUN"; "SAVE"; "SET"; "SHOW"; "SHUTDOWN";
   "SPOOL"; "STARTUP"; "STORE"; "TIMING"; "TTITLE"; "UNDEFINE"; "VARIABLE"; "WHENEVER"; "XQUERY"].

(* @src sqltext.py _PLSQL_DEFINITION_OBJECTS *)
Definition PLSQL_DEFINITION_OBJECTS : list str :=
  ["PROCEDURE"; "FUNCTION"; "PACKAGE"; "TRIGGER"; "TYPE"].

(* @src sqltext.py _CREATE_MODIFIERS *)
Definition CREATE_MODIFIERS : list str :=
  ["OR"; "REPLACE"; "EDITIONABLE"; "NONEDITIONABLE"; "EDITIONING"].

(* @src sqltext.py _IDENTIFIER_POSITION_WORDS *)
Definition IDENTIFIER_POSITION_WORDS : list str :=
  ["FROM"; "INTO"; "UPDATE"; "JOIN"; "TABLE"; "VIEW"; "INDEX"; "TRIGGER"; "EXISTS"; "ON"; "TO";
   "REFERENCES"; "REPLACE"; "ROLLBACK"; "ABORT"; "FAIL"; "IGNORE"].

(* @src sqltext.py _CTE_MAIN_VERBS *)
Definition CTE_MAIN_VERBS : list str :=
  ["SELECT"; "VALUES"; "INSERT"; "REPLACE"; "UPDATE"; "DELETE"; "MERGE"].

(* @src sqltext.py _CTE_BODY_DML_VERBS *)
Definition CTE_BODY_DML_VERBS : list str := ["INSERT"; "UPDATE"; "DELETE"; "MERGE"].

Definition mem (x : str) (l : list str) : bool := bool_decide (x ∈ l).

Definition is_word (t : Token) : bool := bool_decide (t_kind t = WORD).
Definition is_punct (p : str) (t : Token) : bool :=
  bool_decide (t_kind t = PUNCT) && bool_decide (t_text t = p).

(** A set of names; only membership is ever asked. *)
(* @src sqltext.py 317-349 Statement *)
Record Statement := MkStatement {
  st_text : str;
  st_kind : StatementKind;
  st_lead : list str;
  st_names : gset str;
  st_string_names : gset str;
  st_cte_verb : str;
  st_cte_body_verbs : gset str;
}.

(* @src sqltext.py Statement.first_token *)
Definition first_token (st : Statement) : str := default [] (head (st_lead st)).

(** [text[1:-1]] for a text of two characters or more. *)
Definition unquote (text : str) : str := slice text 1 (length text - 1).

(* @src sqltext.py _string_value *)
Definition string_value (t : Token) : option str :=
  if negb (bool_decide (t_kind t = STRING)) || negb (starts_with [c_squote] (t_text t)) then None
  else Some (undouble c_squote (unquote (t_text t))).

Section classify.
Context {UC : Unicode}.

(* @src sqltext.py _strings_in_identifier_position *)
Definition strings_in_identifier_position (sig : list Token) : gset str :=
  list_to_set (omap (fun pair : Token * Token =>
      value ← string_value pair.2;
      if (is_word pair.1 && mem (t_upper pair.1) IDENTIFIER_POSITION_WORDS) || is_punct "." pair.1
      then Some (upper value) else None)
    (zip sig (drop 1 sig))).

(* @src sqltext.py _identifier_words *)
Definition identifier_words (tokens : list Token) : gset str :=
  list_to_set (map t_upper (filter is_word tokens)) ∪
  list_to_set (map (fun t => upper (unquote (t_text t)))
                   (filter (fun t => bool_decide (t_kind t = QUOTED_IDENT)) tokens)).

(** [depth] after one token: parentheses only. *)
Definition paren_step (depth : Z) (t : Token) : Z :=
  if is_punct "(" t then depth + 1 else if is_punct ")" t then depth - 1 else depth.

Fixpoint cte_main_verb_loop (depth : Z) (tokens : list Token) : str :=
  match tokens with
  | [] => []
  | t :: tokens =>
      if bool_decide (t_kind t = PUNCT) then cte_main_verb_loop (paren_step depth t) tokens
      else if (depth =? 0)%Z && is_word t && mem (t_upper t) CTE_MAIN_VERBS then t_upper t
      else cte_main_verb_loop depth tokens
  end.

(* @src sqltext.py _cte_main_verb *)
Definition cte_main_verb (sig : list Token) : str := cte_main_verb_loop 0 (drop 1 sig).

(** The words just before [index], the nearest first. *)
(* @src sqltext.py _follows_as *)
Definition follows_as (sig : list Token) (index : nat) : bool :=
  let before := map (fun t => if is_word t then t_upper t else []) (rev (slice_list sig (index - 3) index)) in
  bool_decide (take 1 before = ["AS"]) ||
  bool_decide (take 2 before = ["MATERIALIZED"; "AS"]) ||
  bool_decide (take 3 before = ["MATERIALIZED"; "NOT"; "AS"]).

Fixpoint cte_body_verbs_loop (sig : list Token) (depth : Z) (rest : list (nat * Token)) : list str :=
  match rest with
  | [] => []
  | (index, t) :: rest =>
      (if is_punct "(" t && (depth =? 0)%Z && follows_as sig index then
         match sig !! S index with
         | Some body => if is_word body && mem (t_upper body) CTE_BODY_DML_VERBS then [t_upper body] else []
         | None => []
         end
       else []) ++ cte_body_verbs_loop sig (paren_step depth t) rest
  end.

(* @src sqltext.py _cte_body_verbs *)
Definition cte_body_verbs (sig : list Token) : gset str :=
  list_to_set (cte_body_verbs_loop sig 0 (enumerate_from 0 sig)).

(** [_WORD_RE.findall(body)]: the maximal matches of [[A-Za-z_][A-Za-z0-9_$#]*]
    from left to right; [cur] is the match in progress, reversed. *)
(* @src sqltext.py _WORD_RE *)
Fixpoint findall_words (s : str) (cur : option str) : list str :=
  match s with
  | [] => option_list ((fun w => rev w) <$> cur)
  | c :: s =>
      let starts := ascii_alpha c || (c =? 95)%N in
      let part := ascii_alnum c || one_of "_$#" c in
      match cur with
      | Some w => if part then findall_words s (Some (c :: w)) else rev w :: findall_words s None
      | None => findall_words s (if starts then Some [c] else None)
      end
  end.

(** [text.index("$", 1)] raises [ValueError] when there is no such character. *)
Definition value_error : pyexn := PyException (builtin_exn "builtins.ValueError").

(* @src sqltext.py 493-503 _do_body_names (loop body) *)
Definition do_token_names (t : Token) : result pyexn (gset str) :=
  if negb (bool_decide (t_kind t = STRING)) then Ok ∅
  else
    body ← (if starts_with [c_squote] (t_text t) then Ok (undouble c_squote (unquote (t_text t)))
            else match find_from [c_dollar] (t_text t) 1 with
                 | None => Err value_error
                 | Some i => Ok (slice (t_text t) (S i) (length (t_text t) - S i))
                 end);
    match significant_tokens body with
    | Ok tokens => Ok (identifier_words tokens)
    | Err _ => Ok (list_to_set (map upper (findall_words body None)))
    end.

(* @src sqltext.py _do_body_names *)
Definition do_body_names (sig : list Token) : result pyexn (gset str) :=
  sets ← map_result do_token_names sig; Ok (⋃ sets).

(** [words[index] in _CREATE_MODIFIERS] skipped, then the next word. *)
Fixpoint skip_modifiers (words : list str) : list str :=
  match words with
  | w :: words' => if mem w CREATE_MODIFIERS then skip_modifiers words' else words
  | [] => []
  end.

(** The upper-cased words of a token list. *)
Definition words_of (tokens : list Token) : list str := map t_upper (filter is_word tokens).

(* @src sqltext.py classify *)
Definition classify (sql : str) : result error StatementKind :=
  tokens ← significant_tokens sql;
  raise_if (bool_decide (tokens = [])) (sql_error "SQL text contains no statement");;
  match words_of tokens with
  | [] => Err (sql_error "SQL text does not begin with a recognisable keyword")
  | first :: words =>
      if mem first ["DECLARE"; "BEGIN"] then Ok SK_PLSQL_BLOCK
      else if bool_decide (first = "CREATE") then
        match skip_modifiers words with
        | w :: _ => Ok (if mem w PLSQL_DEFINITION_OBJECTS then SK_PLSQL_DEFINITION else SK_SQL)
        | [] => Ok SK_SQL
        end
      else Ok SK_SQL
  end.

(* @src sqltext.py _standalone_slash *)
Definition standalone_slash (text : str) (t : Token) : bool :=
  let line_start := match rfind_below 10 text (t_start t) with Some i => S i | None => 0 end in
  let line_end := default (length text) (find_from nl text (t_end t)) in
  bool_decide (strip (slice text line_start (t_start t)) = []) &&
  bool_decide (strip (slice text (t_end t) line_end) = []).

(* @src sqltext.py 560-565 normalize (only_terminator) *)
Definition only_terminator (sig : list Token) : bool :=
  match sig with
  | [t] => is_punct ";" t || is_punct "/" t
  | _ => false
  end.

(* @src sqltext.py _is_also_valid_sql *)
Definition is_also_valid_sql (words : list str) : bool :=
  match words with
  | w :: words =>
      if bool_decide (w = "SET") then
        match words with
        | w2 :: _ => mem w2 ["ROLE"; "CONSTRAINT"; "CONSTRAINTS"; "TRANSACTION"]
        | [] => false
        end
      else false
  | [] => false
  end.

(** The text without its last token and the tokens of the new text. *)
Definition drop_last_token (text : str) (last : Token) : result error (str * list Token) :=
  let text' := remove_slice text (t_start last) (t_end last) in
  sig ← significant_tokens text'; Ok (text', sig).

(** The optional end-of-file slash. *)
(* @src sqltext.py 570-578 normalize (trailing slash) *)
Definition strip_slash (text : str) (sig : list Token) : result error (str * list Token) :=
  match last sig with
  | Some t =>
      if is_punct "/" t && standalone_slash text t then
        '(text', sig') ← drop_last_token text t;
        raise_if (bool_decide (sig' = [])) (sql_error "SQL text contains no statement");;
        raise_if (only_terminator sig') (sql_error "SQL text contains only a terminator");;
        Ok (text', sig')
      else Ok (text, sig)
  | None => Ok (text, sig)
  end.

(** The final semicolon: removed from a SQL statement, required of a block. *)
(* @src sqltext.py 582-595 normalize (semicolon) *)
Definition strip_semicolon (kind : StatementKind) (text : str) (sig : list Token) :
    result error (str * list Token) :=
  let ends := match last sig with Some t => is_punct ";" t | None => false end in
  match kind with
  | SK_SQL =>
      '(text', sig') ← match last sig with
                      | Some t => if is_punct ";" t then drop_last_token text t else Ok (text, sig)
                      | None => Ok (text, sig)
                      end;
      raise_if (existsb (is_punct ";") sig') (sql_error "SQL text appears to contain more than one statement");;
      Ok (text', sig')
  | _ =>
      raise_if (negb ends) (sql_error "a PL/SQL block or stored definition must end with ';'");;
      Ok (text, sig)
  end.

(** The text after terminator handling, its significant tokens and its kind. *)
(* @src sqltext.py 553-604 normalize (terminators) *)
Definition normalize_text (sql : str) : result error (str * list Token * StatementKind) :=
  raise_if (bool_decide (0%N ∈ sql)) (sql_error "SQL text contains a NUL byte");;
  sig ← significant_tokens sql;
  raise_if (bool_decide (sig = [])) (sql_error "SQL text contains no statement");;
  raise_if (only_terminator sig) (sql_error "SQL text contains only a terminator");;
  '(text, sig) ← strip_slash sql sig;
  kind ← classify text;
  '(text, sig) ← strip_semicolon kind text sig;
  raise_if (existsb (fun t => is_punct "/" t && standalone_slash text t) sig)
    (sql_error "a standalone '/' is not a statement separator");;
  Ok (text, sig, kind).

(* @src sqltext.py normalize *)
Definition normalize (sql : str) : result pyexn Statement :=
  '(text, sig, kind) ← lift (normalize_text sql);
  let stripped := strip text in
  raise_if (bool_decide (stripped = [])) (PyMigr8 (sql_error "SQL text is empty after normalisation"));;
  let words := take 4 (words_of sig) in
  let name_set := identifier_words sig in
  names ← (if bool_decide (head words = Some "DO")
           then more ← do_body_names sig; Ok (name_set ∪ more)
           else Ok name_set);
  let string_names := strings_in_identifier_position sig in
  raise_if (match head sig with Some t => is_punct "@" t | None => false end)
    (PyMigr8 (sql_error "'@' script inclusion is not supported"));;
  raise_if (match words with
            | w :: _ => mem w SQLPLUS_COMMANDS && bool_decide (kind = SK_SQL) && negb (is_also_valid_sql words)
            | [] => false
            end) (PyMigr8 (sql_error "unsupported SQL*Plus or client command"));;
  let is_with := bool_decide (head words = Some "WITH") in
  Ok (MkStatement stripped kind words names string_names
        (if is_with then cte_main_verb sig else [])
        (if is_with then cte_body_verbs sig else ∅)).
End classify.

(** ** What a token list says of its text

    From offset [index] on, the tokens follow one another, each is a non-empty
    piece of the text, and nothing but whitespace lies between them or after
    the last one. *)
Fixpoint tiles (sql : str) (index : nat) (tokens : list Token) : Prop :=
  match tokens with
  | [] => forallb sql_space (drop index sql) = true
  | t :: tokens =>
      index <= t_start t /\ t_start t < t_end t /\ t_end t <= length sql /\
      forallb sql_space (slice sql index (t_start t)) = true /\
      t_text t = slice sql (t_start t) (t_end t) /\ tiles sql (t_end t) tokens
  end.

(** ** Lemmas: every scanner moves forward and stays inside the text *)
Lemma span_len_bound p s : span_len p s <= length s.
Proof. induction s as [|c s IH]; simpl; [lia|]. destruct (p c); lia. Qed.

Lemma span_end_bounds p sql i : i <= length sql -> i <= span_end p sql i <= length sql.
Proof. intros. unfold span_end. pose proof (span_len_bound p (drop i sql)). rewrite length_drop in *. lia. Qed.

Lemma char_at_lt p sql i : char_at p sql i = true -> i < length sql.
Proof. unfold char_at. destruct (sql !! i) eqn:E; [|done]. by apply lookup_lt_Some in E. Qed.

Lemma span_end_pos p sql i : char_at p sql i = true -> i < span_end p sql i.
Proof.
  unfold char_at, span_end. destruct (sql !! i) as [c|] eqn:E; [|done]. intros Hp.
  rewrite (drop_S _ _ _ E). simpl. rewrite Hp. lia.
Qed.

Lemma find_from_bounds sub sql i j :
  i <= length sql -> find_from sub sql i = Some j -> i <= j /\ j + length sub <= length sql.
Proof. intros Hi H. apply find_from_Some in H as (? & ? & _). auto. Qed.

Lemma scan_string_body_bounds rest index stop :
  scan_string_body rest index = Ok stop -> index < stop <= index + length rest.
Proof.
  revert index. remember (length rest) as n eqn:Hn. revert rest Hn.
  induction n as [n IH] using lt_wf_ind. intros [|c rest] Hn index H; simpl in H; [done|].
  destruct (c =? c_squote)%N.
  - destruct rest as [|d rest]; simplify_eq/=; [lia|].
    destruct (d =? c_squote)%N; simplify_eq/=; [|lia]. apply (IH (length rest)) in H; simpl; lia || done.
  - apply (IH (length rest)) in H; simpl in *; lia || done.
Qed.

Lemma scan_plain_string_bounds sql start stop :
  scan_plain_string sql start = Ok stop -> S start < stop <= length sql.
Proof.
  intros H%scan_string_body_bounds. rewrite length_drop in H.
  destruct (decide (S start <= length sql)); lia.
Qed.

Lemma scan_quoted_ident_bounds sql start stop :
  start < length sql -> scan_quoted_ident sql start = Ok stop -> S start < stop <= length sql.
Proof.
  unfold scan_quoted_ident. intros Hs. destruct (find_from _ _ _) as [e|] eqn:E; [|done].
  intros [= <-]. apply find_from_bounds in E as [? ?]; simpl in *; lia.
Qed.

Lemma match_dollar_tag_bounds sql start stop :
  match_dollar_tag sql start = Some stop -> S start < stop <= length sql.
Proof.
  unfold match_dollar_tag. destruct (char_at _ sql start) eqn:Hs; [|done]. apply char_at_lt in Hs.
  set (body := if char_at _ sql (S start) then _ else _).
  assert (S start <= body) as Hb.
  { subst body. destruct (char_at _ sql (S start)) eqn:E; [|lia].
    apply char_at_lt in E. apply span_end_bounds. lia. }
  destruct (char_at _ sql body) eqn:E; [|done]. apply char_at_lt in E. intros [= <-]. lia.
Qed.

Lemma try_scan_dollar_quoted_bounds sql start stop :
  try_scan_dollar_quoted sql start = Ok (Some stop) -> S start < stop <= length sql.
Proof.
  unfold try_scan_dollar_quoted. destruct (match_dollar_tag _ _) as [te|] eqn:Ht; [|done].
  apply match_dollar_tag_bounds in Ht. destruct (find_from _ _ _) as [e|] eqn:E; [|done].
  apply find_from_bounds in E; [|lia]. intros [= <-]. lia.
Qed.

Lemma scan_alt_quoted_bounds sql body stop :
  scan_alt_quoted sql body = Ok stop -> S body < stop <= length sql.
Proof.
  unfold scan_alt_quoted. destruct (sql !! body) as [o|] eqn:Ho; [|done]. apply lookup_lt_Some in Ho.
  rewrite raise_then_Ok. intros [_ H]. destruct (find_from _ _ _) as [e|] eqn:E; [|done].
  injection H as <-. apply find_from_bounds in E; [|lia]. simpl in *. lia.
Qed.

Section bounds.
Context {UC : Unicode}.

Lemma try_scan_prefixed_string_bounds sql start stop :
  try_scan_prefixed_string sql start = Ok (Some stop) -> S start < stop <= length sql.
Proof.
  unfold try_scan_prefixed_string.
  repeat case_match; rewrite ?fmap_Ok; try done; intros (e & He & [= ->]);
    first [apply scan_alt_quoted_bounds in He | apply scan_plain_string_bounds in He]; lia.
Qed.

Lemma scan_number_bounds sql start :
  char_at (fun c => uc_isdigit c || (c =? c_dot)%N) sql start = true ->
  start < scan_number sql start <= length sql.
Proof.
  intros Hs. pose proof (char_at_lt _ _ _ Hs). apply span_end_pos in Hs. unfold scan_number.
  set (index := span_end _ sql start) in *.
  assert (index <= length sql) by (apply span_end_bounds; lia).
  destruct (char_at (one_of "eE") sql index) eqn:He; [|lia]. apply char_at_lt in He.
  set (probe := if char_at _ sql (S index) then _ else _).
  assert (index < probe) by (subst probe; destruct (char_at _ _ _); lia).
  destruct (char_at uc_isdigit sql probe) eqn:Hp; [|lia]. apply char_at_lt in Hp.
  pose proof (span_end_bounds uc_isdigit sql probe). lia.
Qed.

(** One iteration of the loop: it moves forward, and a token covers exactly the
    text it moved over. *)
Definition step_ok (sql : str) (index : nat) (ch : char) (step : option Token * nat) : Prop :=
  index < step.2 <= length sql /\
  match step.1 with
  | None => step.2 = S index /\ sql_space ch = true
  | Some t => t_start t = index /\ t_end t = step.2 /\ t_text t = slice sql index step.2
  end.

Lemma step_ok_emit sql index ch kind stop step :
  index < stop <= length sql -> Ok (Some (token kind sql index stop), stop) = @Ok error _ step ->
  step_ok sql index ch step.
Proof. intros Hb [= <-]. done. Qed.

Lemma scan_comment_bounds sql index :
  starts_with "--" (drop index sql) = true ->
  index < default (length sql) (find_from nl sql index) <= length sql.
Proof.
  intros [r Hr]%starts_with_spec. pose proof Hr as Hlen. apply (f_equal length) in Hlen.
  rewrite length_drop, length_app in Hlen. simpl in Hlen.
  destruct (find_from nl sql index) as [e|] eqn:E; simpl; [|lia].
  pose proof E as (_ & _ & Hst & _)%find_from_Some. apply find_from_bounds in E as [? ?]; [|lia].
  simpl in *. assert (e <> index); [|lia]. intros ->. by rewrite Hr in Hst.
Qed.

Lemma scan_token_step sql index ch step :
  sql !! index = Some ch -> scan_token sql index ch = Ok step -> step_ok sql index ch step.
Proof.
  intros Hch. pose proof (lookup_lt_Some _ _ _ Hch) as Hlt. unfold scan_token.
  destruct (sql_space ch) eqn:Hsp; [intros [= <-]; split; simpl; [lia|done]|].
  destruct (starts_with "--" (drop index sql)) eqn:Hc.
  { apply step_ok_emit. by apply scan_comment_bounds. }
  destruct (starts_with "/*" (drop index sql)) eqn:Hb.
  { destruct (find_from "*/" sql (index + 2)) as [e|] eqn:E; [|done]. apply step_ok_emit.
    apply starts_with_spec in Hb as [r Hr]. apply (f_equal length) in Hr.
    rewrite length_drop, length_app in Hr. simpl in Hr.
    apply find_from_bounds in E as [? ?]; simpl in *; lia. }
  destruct (ch =? c_dquote)%N.
  { intros (e & He & H)%bind_Ok. apply scan_quoted_ident_bounds in He; [|done].
    eapply step_ok_emit; [|done]. lia. }
  destruct (ch =? c_squote)%N.
  { intros (e & He & H)%bind_Ok. apply scan_plain_string_bounds in He.
    eapply step_ok_emit; [|done]. lia. }
  intros (d & Hd & H)%bind_Ok. destruct d as [stop|].
  { destruct (ch =? c_dollar)%N; [|done]. apply try_scan_dollar_quoted_bounds in Hd.
    eapply step_ok_emit; [|done]. lia. }
  apply bind_Ok in H as ([stop|] & Ha & H).
  { apply try_scan_prefixed_string_bounds in Ha. eapply step_ok_emit; [|done]. lia. }
  destruct (uc_isdigit ch || _) eqn:Hn.
  { eapply step_ok_emit; [|done]. apply scan_number_bounds. unfold char_at. rewrite Hch.
    destruct (uc_isdigit ch); [done|]. simpl in *. by bool_simpl. }
  destruct (is_ident_start ch); (eapply step_ok_emit; [|done]); [|lia].
  pose proof (span_end_bounds is_ident_part sql (S index)). lia.
Qed.

Lemma tiles_space sql index ch tokens :
  sql !! index = Some ch -> sql_space ch = true -> tiles sql (S index) tokens -> tiles sql index tokens.
Proof.
  intros Hch Hsp. destruct tokens as [|t tokens]; simpl.
  - rewrite (drop_S _ _ _ Hch). simpl. by rewrite Hsp.
  - intros (? & ? & ? & Hgap & Ht). split_and!; try done; try lia; [|by apply Ht..].
    rewrite <-(slice_app sql index (S index)), (slice_one _ _ _ Hch) by lia. simpl. by rewrite Hsp.
Qed.

Lemma tokenize_loop_tiles fuel sql index tokens :
  length sql <= index + fuel -> tokenize_loop fuel sql index = Ok tokens -> tiles sql index tokens.
Proof.
  revert index tokens. induction fuel as [|fuel IH]; intros index tokens Hfuel; simpl.
  { intros [= <-]. simpl. by rewrite drop_ge by lia. }
  destruct (sql !! index) as [ch|] eqn:Hch.
  2:{ intros [= <-]. simpl. apply lookup_ge_None in Hch. by rewrite drop_ge. }
  intros ([o next] & Hs & (rest & Hrest & [= <-])%bind_Ok)%bind_Ok.
  apply scan_token_step in Hs as [Hb Ho]; [|done]. simpl in *.
  apply IH in Hrest; [|lia]. destruct o as [t|]; simpl.
  - destruct Ho as (Hs' & He & Ht). rewrite Hs', He. split_and!; try done; try lia.
    by rewrite slice_nil.
  - destruct Ho as [-> Hsp]. by eapply tiles_space.
Qed.

Lemma tokenize_tiled sql tokens : tokenize sql = Ok tokens -> tiles sql 0 tokens.
Proof. apply tokenize_loop_tiles. lia. Qed.
End bounds.

(** ** What normalisation does to a text *)
Section normalizing.
Context {UC : Unicode}.

(** [b] is [a] without its last significant token, the punctuation [p]. *)
Definition drops (p a b : str) : Prop :=
  exists sig t, significant_tokens a = Ok sig /\ last sig = Some t /\ is_punct p t = true /\
    b = remove_slice a (t_start t) (t_end t).

(** At most one final "/" and then, for a SQL statement, at most one final ";". *)
Definition terminators_removed (kind : StatementKind) (sql text : str) : Prop :=
  exists mid, (mid = sql \/ drops "/" sql mid) /\ classify mid = Ok kind /\ (text = mid \/ (kind = SK_SQL /\ drops ";" mid text)).

Record normal_form (sql : str) (st : Statement) (text : str) (sig : list Token) : Prop := {
  nf_text : st_text st = strip text;
  nf_removed : terminators_removed (st_kind st) sql text;
  nf_tokens : significant_tokens text = Ok sig;
  nf_lead : st_lead st = take 4 (words_of sig);
  nf_nul : 0%N ∉ sql;
  (** one statement: no bare semicolon is left of a SQL statement *)
  nf_single : st_kind st = SK_SQL -> Forall (fun t => is_punct ";" t = false) sig;
  (** a block keeps its final semicolon *)
  nf_block : st_kind st <> SK_SQL -> exists t, last sig = Some t /\ is_punct ";" t = true;
  nf_slash : Forall (fun t => is_punct "/" t && standalone_slash text t = false) sig;
  (** every identifier the statement names is known to the admission rules *)
  nf_names : identifier_words sig ⊆ st_names st;
}.

Lemma drop_last_token_Ok p text t sig text' sig' :
  significant_tokens text = Ok sig -> last sig = Some t -> is_punct p t = true ->
  drop_last_token text t = Ok (text', sig') -> drops p text text' /\ significant_tokens text' = Ok sig'.
Proof.
  intros Hsig Hl Hp (s & Hs & [= <- <-])%bind_Ok. split; [|done]. by exists sig, t.
Qed.

Lemma strip_slash_Ok sql sig text sig' :
  significant_tokens sql = Ok sig -> strip_slash sql sig = Ok (text, sig') ->
  (text = sql \/ drops "/" sql text) /\ significant_tokens text = Ok sig'.
Proof.
  intros Hsig. unfold strip_slash. destruct (last sig) as [t|] eqn:Hl; [|intros [= <- <-]; auto].
  destruct (is_punct "/" t) eqn:Hp; simpl; [|intros [= <- <-]; auto].
  destruct (standalone_slash sql t); [|intros [= <- <-]; auto].
  intros ([text1 sig1] & Hd & H)%bind_Ok. rewrite !raise_then_Ok in H.
  destruct H as (_ & _ & [= <- <-]).
  destruct (drop_last_token_Ok _ _ _ _ _ _ Hsig Hl Hp Hd). auto.
Qed.

Lemma strip_semicolon_Ok kind mid sig text sig' :
  significant_tokens mid = Ok sig -> strip_semicolon kind mid sig = Ok (text, sig') ->
  (text = mid \/ (kind = SK_SQL /\ drops ";" mid text)) /\ significant_tokens text = Ok sig' /\
  (kind = SK_SQL -> existsb (is_punct ";") sig' = false) /\
  (kind <> SK_SQL -> exists t, last sig' = Some t /\ is_punct ";" t = true).
Proof.
  intros Hsig H. destruct kind; unfold strip_semicolon in H.
  - apply bind_Ok in H as ([text1 sig1] & Hd & H). rewrite raise_then_Ok in H.
    destruct H as [Hno [= <- <-]].
    enough ((text1 = mid \/ drops ";" mid text1) /\ significant_tokens text1 = Ok sig1) as [[|] ?]
      by (split_and!; naive_solver).
    destruct (last sig) as [t|] eqn:Hl; [|injection Hd as <- <-; auto].
    destruct (is_punct ";" t) eqn:Hp; [|injection Hd as <- <-; auto].
    destruct (drop_last_token_Ok _ _ _ _ _ _ Hsig Hl Hp Hd). auto.
  - rewrite raise_then_Ok in H. destruct H as [Hend [= <- <-]]. apply negb_false_iff in Hend.
    destruct (last sig); [|done]. split_and!; auto; [done|eauto].
  - rewrite raise_then_Ok in H. destruct H as [Hend [= <- <-]]. apply negb_false_iff in Hend.
    destruct (last sig); [|done]. split_and!; auto; [done|eauto].
Qed.

Lemma existsb_false {A} (p : A -> bool) l : existsb p l = false <-> Forall (fun x => p x = false) l.
Proof.
  induction l as [|x l IH]; simpl; [by split|]. by rewrite orb_false_iff, Forall_cons, IH.
Qed.

Lemma normalize_text_Ok sql text sig kind :
  normalize_text sql = Ok (text, sig, kind) ->
  terminators_removed kind sql text /\ significant_tokens text = Ok sig /\ (0%N ∉ sql) /\
  (kind = SK_SQL -> Forall (fun t => is_punct ";" t = false) sig) /\
  (kind <> SK_SQL -> exists t, last sig = Some t /\ is_punct ";" t = true) /\
  Forall (fun t => is_punct "/" t && standalone_slash text t = false) sig.
Proof.
  unfold normalize_text. rewrite raise_then_Ok, bool_decide_eq_false.
  intros (Hnul & (sig0 & Hs0 & H)%bind_Ok). rewrite !raise_then_Ok in H. destruct H as (_ & _ & H).
  apply bind_Ok in H as ([mid sig1] & Hslash & (k & Hk & H)%bind_Ok).
  apply bind_Ok in H as ([text' sig2] & Hsemi & H). rewrite raise_then_Ok in H.
  destruct H as [Hno [= -> -> ->]].
  destruct (strip_slash_Ok _ _ _ _ Hs0 Hslash) as [Hmid Hs1].
  destruct (strip_semicolon_Ok _ _ _ _ _ Hs1 Hsemi) as (Htext & Hs2 & Hsql & Hblock).
  split_and!; auto.
  - exists mid. auto.
  - intros Hq. by apply existsb_false, Hsql.
  - by apply existsb_false.
Qed.

Lemma do_token_names_errors t : errs_in (fun x => x = value_error) (do_token_names t).
Proof. unfold do_token_names. errs_in; done. Qed.

Lemma tokenize_errors sql : errs_in (fun e => e_class e = SqlSyntaxError) (tokenize sql).
Proof.
  unfold tokenize.
  assert (forall n i, errs_in (fun e => e_class e = SqlSyntaxError) (tokenize_loop n sql i)) as H; [|apply H].
  intros n. induction n as [|n IH]; intros i; simpl; [done|]. destruct (sql !! i) as [ch|]; [|done].
  apply errs_in_bind; [|intros; apply errs_in_bind; [apply IH|done]].
  assert (forall start index, errs_in (fun e => e_class e = SqlSyntaxError) (scan_string_body start index)) as Hstr.
  { intros rest. remember (length rest) as m eqn:Hm. revert rest Hm.
    induction m as [m IHm] using lt_wf_ind. intros [|c rest] -> index; simpl; [done|].
    destruct (c =? c_squote)%N; [|by apply (IHm (length rest)); simpl; try lia].
    destruct rest as [|d rest]; [done|]. destruct (d =? c_squote)%N; [|done].
    by apply (IHm (length rest)); simpl; lia. }
  unfold scan_token, scan_quoted_ident, scan_plain_string, try_scan_dollar_quoted,
    try_scan_prefixed_string, scan_alt_quoted, scan_plain_string.
  errs_in; try done; apply Hstr.
Qed.

Lemma significant_errors sql : errs_in (fun e => e_class e = SqlSyntaxError) (significant_tokens sql).
Proof. apply errs_in_fmap, tokenize_errors. Qed.

Lemma normalize_text_errors sql : errs_in (fun e => e_class e = SqlSyntaxError) (normalize_text sql).
Proof.
  unfold normalize_text, strip_slash, strip_semicolon, drop_last_token, classify.
  errs_in; try done; apply significant_errors.
Qed.
End normalizing.

(** The union of the cases of [normalize_spec] that other files build on. *)
Lemma normalize_normal_form {UC : Unicode} sql st :
  normalize sql = Ok st -> exists text sig, normal_form sql st text sig.
Proof.
  unfold normalize. intros ([[text sig] kind] & Ht%lift_Ok & H)%bind_Ok.
  rewrite raise_then_Ok in H. destruct H as [_ H]. apply bind_Ok in H as (names & Hn & H).
  rewrite !raise_then_Ok in H. destruct H as (_ & _ & [= <-]).
  destruct (normalize_text_Ok _ _ _ _ Ht) as (Hrm & Hsig & Hnul & Hsql & Hblock & Hslash).
  exists text, sig. constructor; try done. simpl.
  case_bool_decide; [|by simplify_eq].
  apply bind_Ok in Hn as (more & _ & [= <-]). set_solver.
Qed.

(** C35: the scanner loses nothing. On every input it either returns tokens that
    tile the text (each an exact non-empty slice, in order, with only whitespace
    between them and after the last, so literals and comments are kept to the
    character and the loop always reaches the end) or raises [SqlSyntaxError]. *)
Theorem tokenize_tiles {UC : Unicode} sql :
  match tokenize sql with
  | Ok tokens => tiles sql 0 tokens
  | Err e => e_class e = SqlSyntaxError
  end.
Proof.
  destruct (tokenize sql) eqn:E; [by apply tokenize_tiled|].
  exact (errs_in_elim _ _ _ (tokenize_errors sql) E).
Qed.

(** C29: what [normalize] submits. On success the text is the input with at most one
    final standalone slash and, for a SQL statement, one final semicolon taken
    out and the ends stripped; a SQL statement holds no further bare semicolon,
    a block ends in one, no standalone slash is left, and every identifier
    named is in [names]. Otherwise it raises [SqlSyntaxError], except that a
    [DO] statement may raise Python's own [ValueError]. *)
Theorem normalize_spec {UC : Unicode} sql :
  match normalize sql with
  | Ok st => exists text sig, normal_form sql st text sig
  | Err (PyMigr8 e) => e_class e = SqlSyntaxError
  | Err x => x = value_error /\
      exists text sig kind, normalize_text sql = Ok (text, sig, kind) /\ head (take 4 (words_of sig)) = Some "DO"
  end.
Proof.
  unfold normalize. destruct (normalize_text sql) as [[[text sig] kind]|e] eqn:Ht; simpl.
  2:{ exact (errs_in_elim _ _ _ (normalize_text_errors sql) Ht). }
  destruct (bool_decide (strip text = [])); [done|]. simpl.
  assert (match (if bool_decide (head (take 4 (words_of sig)) = Some "DO")
                 then more ← do_body_names sig; Ok (identifier_words sig ∪ more)
                 else Ok (identifier_words sig)) with
          | Ok names => identifier_words sig ⊆ names
          | Err x => x = value_error /\ head (take 4 (words_of sig)) = Some "DO"
          end) as Hnames.
  { case_bool_decide as Hdo; [|done]. unfold do_body_names.
    destruct (map_result do_token_names sig) as [sets|x] eqn:E; simpl; [set_solver|].
    split; [|done]. exact (errs_in_elim _ _ _ (errs_in_map _ _ _ do_token_names_errors) E). }
  destruct (if bool_decide _ then _ else _) as [names|x]; simpl.
  2:{ destruct Hnames as [-> Hdo]. split; [done|]. by exists text, sig, kind. }
  match goal with |- context [raise_if ?b (PyMigr8 (sql_error "'@' script inclusion is not supported"))] => destruct b end; [done|].
  simpl. match goal with |- context [raise_if ?b _] => destruct b end; [done|]. simpl.
  destruct (normalize_text_Ok _ _ _ _ Ht) as (Hrm & Hsig & Hnul & Hsql & Hblock & Hslash).
  exists text, sig. by constructor.
Qed.

(** A [DO] statement whose body is written as a national literal: the scanner
    accepts the literal, and the search for its dollar tag raises [ValueError]. *)
Lemma do_body_value_error : normalize (UC := ascii_unicode) "DO N'BEGIN NULL; END'" = Err value_error.
Proof. vm_compute. reflexivity. Qed.
