(* ===== verification/Admission.v ===== *)
(** * Statement admission and error classification ([adapters/])

    What an adapter contributes to the shared rules: its statement policy, its
    extra refusals, its required-object rule and how it reads a driver
    exception. They are the fields of the class [Dialect], with one instance for
    each shipped adapter; the shared rules are definitions over the class. *)
From S2P Require Import Prelude PyStr Errors Paths Manifest Model SqlText.
Open Scope str_scope.

(* @src adapters/base.py OutcomeClass *)
Inductive OutcomeClass := SERVER_REJECTION | COMMUNICATION_FAILURE.

#[export] Instance OutcomeClass_eq_dec : EqDecision OutcomeClass.
Proof. solve_decision. Defined.

(* @src adapters/base.py BatchTransactionState *)
Inductive BatchTransactionState := BT_OPEN | BT_ROLLED_BACK | BT_ENDED.

#[export] Instance BatchTransactionState_eq_dec : EqDecision BatchTransactionState.
Proof. solve_decision. Defined.

(* @src adapters/base.py Boundary *)
Inductive Boundary :=
| METADATA_OBJECT_CREATED
| INITIALIZATION_COMPLETE
| ATOMIC_COMPLETION
| RESTARTABLE_ADMISSION
| RESTARTABLE_BATCH
| RESTARTABLE_COMPLETION
| RESTARTABLE_DDL.

#[export] Instance Boundary_eq_dec : EqDecision Boundary.
Proof. solve_decision. Defined.

(* @src adapters/base.py 84-93 Boundary (values) *)
Definition boundary_value (b : Boundary) : str :=
  match b with
  | METADATA_OBJECT_CREATED => "metadata_object_created"
  | INITIALIZATION_COMPLETE => "initialization_complete"
  | ATOMIC_COMPLETION => "atomic_completion"
  | RESTARTABLE_ADMISSION => "restartable_admission"
  | RESTARTABLE_BATCH => "restartable_batch"
  | RESTARTABLE_COMPLETION => "restartable_completion"
  | RESTARTABLE_DDL => "restartable_ddl"
  end.

(* @src adapters/base.py StatementPolicy *)
Record StatementPolicy := MkPolicy {
  sp_atomic : list str;
  sp_query : list str;
  sp_procedural : list str;
  sp_ddl : list str;
  sp_forbidden : list str;
  sp_allows_plsql : bool;
  sp_quoted_string_identifiers : bool;
  sp_cte_bodies_modify : bool;
}.

(* @src adapters/base.py _BATCH_DDL_TOKENS *)
Definition BATCH_DDL_TOKENS : list str := ["CREATE"; "ALTER"; "DROP"; "TRUNCATE"; "COMMENT"].

(* @src adapters/base.py _CTE_DML_VERBS *)
Definition CTE_DML_VERBS : list str := ["INSERT"; "REPLACE"; "UPDATE"; "DELETE"; "MERGE"].

(** What one adapter adds to the shared rules. *)
Class Dialect := {
  ad_name : str;
  (** [driver_error]: the driver's base exception class *)
  ad_driver_error : str;
  ad_policy : StatementPolicy;
  ad_extra_checks : Statement -> Mode -> bool -> result error unit;
  ad_required : list RequiredObject -> result error unit;
  (** [classify_exception] and [classify_call_failure(commit_capable=...)] *)
  ad_classify : driver_exn -> OutcomeClass;
  ad_classify_call : driver_exn -> bool -> OutcomeClass;
  ad_contention : driver_exn -> bool;
  ad_error_code : driver_exn -> option str;
  (** [execute_ddl] and metadata creation in an engine transaction of their own *)
  ad_ddl_transaction : Statement -> bool;
  ad_create_transaction : bool;
}.

Definition usage (label : str) : error := mk UsageError label.
Definition unsupported (label : str) : error := mk UnsupportedCapabilityError label.

(** ** The shared rules *)
Section rules.
Context {D : Dialect}.

(* @src adapters/base.py Adapter.admit_combination *)
Definition admit_combination (language : Language) (mode : Mode) : result error unit := Ok tt.

(** The names a statement is taken to reference on this engine. *)
Definition referenced_names (st : Statement) : gset str :=
  if sp_quoted_string_identifiers ad_policy then st_names st ∪ st_string_names st else st_names st.

(** [reserved.upper()]: the reserved names are ASCII. *)
(* @src adapters/base.py Adapter._reject_reserved *)
Definition reject_reserved (st : Statement) : result error unit :=
  for_each (fun reserved => raise_if (bool_decide (upper_ascii reserved ∈ referenced_names st))
              (usage "migration code must not reference a reserved metadata object"))
    (sort_by lex_leb RESERVED_OBJECT_NAMES).

Definition mode_eqb (m n : Mode) : bool := bool_decide (m = n).

(* @src adapters/base.py Adapter.admit_statement *)
Definition admit_statement (st : Statement) (mode : Mode) (in_batch : bool) : result error unit :=
  let policy := ad_policy in
  let first := first_token st in
  raise_if (negb (bool_decide (st_kind st = SK_SQL)) && negb (sp_allows_plsql policy))
    (unsupported "no PL/SQL support");;
  raise_if (mem first (sp_forbidden policy)) (usage "statement is engine-owned");;
  raise_if (in_batch && mem first BATCH_DDL_TOKENS) (usage "DDL is not admitted inside ctx.transaction()");;
  ad_extra_checks st mode in_batch;;
  reject_reserved st;;
  if mode_eqb mode ATOMIC || in_batch then
    raise_if (negb (mem first (sp_atomic policy))) (usage "not admitted in a transaction")
  else
    raise_if (negb (mem first (sp_query policy ++ sp_procedural policy)))
      (usage "rejected outside a ctx.transaction() block");;
    raise_if (bool_decide (first = "WITH") && mem (st_cte_verb st) CTE_DML_VERBS)
      (usage "WITH DML outside a ctx.transaction() block");;
    raise_if (bool_decide (first = "WITH") && sp_cte_bodies_modify policy &&
              negb (bool_decide (st_cte_body_verbs st = ∅)))
      (usage "WITH body DML outside a ctx.transaction() block").

(* @src adapters/base.py Adapter.admit_ddl *)
Definition admit_ddl (st : Statement) : result error unit :=
  let policy := ad_policy in
  let first := first_token st in
  match st_kind st with
  | SK_PLSQL_BLOCK =>
      raise_if (negb (sp_allows_plsql policy)) (unsupported "no PL/SQL support");;
      Err (usage "an anonymous PL/SQL block is not DDL")
  | _ =>
      raise_if (negb (mem first (sp_ddl policy))) (usage "not in the DDL allow-list");;
      ad_extra_checks st RESTARTABLE false;;
      reject_reserved st
  end.

(** [classify_exception] on any exception: one that is not the driver's is never
    a server rejection. *)
Definition classify_exception (x : pyexn) : OutcomeClass :=
  match x with PyException d => ad_classify d | _ => COMMUNICATION_FAILURE end.

(* @src adapters/base.py Adapter.describe_exception *)
Definition describe_exception (x : pyexn) : str :=
  match x with
  | PyException d =>
      match truthy (ad_error_code d) with
      | Some code => d_name d ++ " [" ++ code ++ "]"
      | None => d_name d
      end
  | PyMigr8 e => "migr8.errors." ++ class_name (e_class e)
  | PyInterrupt => "builtins.KeyboardInterrupt"
  end.

(* @src adapters/base.py Adapter.setup_error *)
Definition setup_error (d : driver_exn) : error :=
  if ad_contention d then mk_at LockNotAcquiredError "the database was busy" "connect" None
  else match ad_classify d with
       | COMMUNICATION_FAILURE => mk_at ConnectionSetupError "the connection was lost" "connect" None
       | SERVER_REJECTION => mk_at UsageError "the database reported an error" "connect" None
       end.
End rules.

(** The default [admit_required_objects]: any declaration is refused. *)
(* @src adapters/base.py Adapter.admit_required_objects *)
Definition refuse_required (required : list RequiredObject) : result error unit :=
  raise_if (negb (bool_decide (required = []))) (unsupported "cannot check required-object declarations").

Definition no_extra_checks (st : Statement) (mode : Mode) (in_batch : bool) : result error unit := Ok tt.

(** ** SQLite *)
(* @src adapters/sqlite.py _POLICY *)
Definition sqlite_policy : StatementPolicy := MkPolicy
  ["SELECT"; "WITH"; "VALUES"; "INSERT"; "REPLACE"; "UPDATE"; "DELETE"; "CREATE"; "ALTER"; "DROP"]
  ["SELECT"; "WITH"; "VALUES"]
  []
  ["CREATE"; "ALTER"; "DROP"]
  ["BEGIN"; "COMMIT"; "END"; "ROLLBACK"; "SAVEPOINT"; "RELEASE"; "PRAGMA"; "VACUUM"; "ATTACH"; "DETACH";
   "ANALYZE"; "REINDEX"]
  false true false.

Definition sqlite_error : str := "sqlite3.Error".

Definition code_starts (prefixes : list str) (code : option str) : bool :=
  match code with
  | Some ((_ :: _) as c) => existsb (fun p => starts_with p c) prefixes
  | _ => false
  end.

(* @src adapters/sqlite.py _SETTLED_COMMIT_CODES *)
Definition SETTLED_COMMIT_CODES : list str :=
  ["SQLITE_BUSY"; "SQLITE_LOCKED"; "SQLITE_CONSTRAINT"; "SQLITE_READONLY"; "SQLITE_MISUSE"; "SQLITE_AUTH";
   "SQLITE_PERM"].

(* @src adapters/sqlite.py _is_contention *)
Definition sqlite_is_contention (d : driver_exn) : bool :=
  code_starts ["SQLITE_BUSY"; "SQLITE_LOCKED"] (d_code d).

(* @src adapters/sqlite.py _settles_the_transaction *)
Definition settles_the_transaction (d : driver_exn) : bool := code_starts SETTLED_COMMIT_CODES (d_code d).

(* @src adapters/sqlite.py CommitOutcomeUnknown *)
Definition CommitOutcomeUnknown (code : option str) : driver_exn :=
  MkDriver "migr8.adapters.sqlite.CommitOutcomeUnknown" [] code 0 false.

(** What [_do_commit] raises when the library call raised [d]. *)
(* @src adapters/sqlite.py SqliteAdapter._do_commit *)
Definition sqlite_commit_error (was_open : bool) (d : driver_exn) : driver_exn :=
  if negb (instance_of sqlite_error d) then d
  else if negb was_open || settles_the_transaction d then d
  else CommitOutcomeUnknown (d_code d).

(* @src adapters/sqlite.py SqliteAdapter.classify_exception *)
Definition sqlite_classify (d : driver_exn) : OutcomeClass :=
  if instance_of sqlite_error d then SERVER_REJECTION else COMMUNICATION_FAILURE.

(** A [CommitOutcomeUnknown] keeps its code too. *)
(* @src adapters/sqlite.py SqliteAdapter.error_code *)
Definition sqlite_error_code (d : driver_exn) : option str :=
  if bool_decide (d_name d = "migr8.adapters.sqlite.CommitOutcomeUnknown") || instance_of sqlite_error d
  then d_code d else None.

#[refine] Definition sqlite_dialect : Dialect := {|
  ad_name := "sqlite";
  ad_driver_error := sqlite_error;
  ad_policy := sqlite_policy;
  ad_extra_checks := no_extra_checks;
  ad_required := refuse_required;
  ad_classify := sqlite_classify;
  ad_classify_call d _ := sqlite_classify d;
  ad_contention d := instance_of sqlite_error d && sqlite_is_contention d;
  ad_error_code := sqlite_error_code;
  ad_ddl_transaction _ := true;
  ad_create_transaction := true;
|}.
Defined.

(** ** PostgreSQL *)
(* @src adapters/postgres.py _POLICY *)
Definition postgres_policy : StatementPolicy := MkPolicy
  ["SELECT"; "WITH"; "VALUES"; "INSERT"; "UPDATE"; "DELETE"; "MERGE"; "LOCK"; "CREATE"; "ALTER"; "DROP";
   "TRUNCATE"; "COMMENT"; "DO"]
  ["SELECT"; "WITH"; "VALUES"]
  ["DO"; "CALL"]
  ["CREATE"; "ALTER"; "DROP"; "TRUNCATE"; "COMMENT"; "REINDEX"]
  ["BEGIN"; "COMMIT"; "END"; "ROLLBACK"; "SAVEPOINT"; "RELEASE"; "START"; "SET"; "RESET"; "DISCARD"; "LISTEN";
   "NOTIFY"; "GRANT"; "REVOKE"; "VACUUM"; "PREPARE"; "DEALLOCATE"; "COPY"]
  false false true.

Definition psycopg_error : str := "psycopg.Error".

(* @src adapters/postgres.py DEFINITE_SQLSTATES *)
Definition DEFINITE_SQLSTATES : list str := ["57014"].
(* @src adapters/postgres.py INDEFINITE_SQLSTATES *)
Definition INDEFINITE_SQLSTATES : list str := ["40003"].
(* @src adapters/postgres.py INDEFINITE_SQLSTATE_CLASSES *)
Definition INDEFINITE_SQLSTATE_CLASSES : list str := ["08"].
(* @src adapters/postgres.py COMMIT_INDEFINITE_SQLSTATE_CLASSES *)
Definition COMMIT_INDEFINITE_SQLSTATE_CLASSES : list str := ["57"; "58"; "XX"].

(* @src adapters/postgres.py PostgresAdapter._classify *)
Definition postgres_classify (d : driver_exn) (commit_capable : bool) : OutcomeClass :=
  if instance_of psycopg_error d then
    match d_code d with
    | Some ((_ :: _) as code) =>
        if mem code DEFINITE_SQLSTATES then SERVER_REJECTION
        else if code_starts INDEFINITE_SQLSTATE_CLASSES (Some code) || mem code INDEFINITE_SQLSTATES then
          COMMUNICATION_FAILURE
        else if commit_capable && code_starts COMMIT_INDEFINITE_SQLSTATE_CLASSES (Some code) then
          COMMUNICATION_FAILURE
        else SERVER_REJECTION
    | _ =>
        if instance_of "psycopg.ProgrammingError" d || instance_of "psycopg.NotSupportedError" d
        then SERVER_REJECTION else COMMUNICATION_FAILURE
    end
  else COMMUNICATION_FAILURE.

(* @src adapters/postgres.py PostgresAdapter.error_code *)
Definition postgres_error_code (d : driver_exn) : option str :=
  if instance_of psycopg_error d then (fun code => "SQLSTATE " ++ code) <$> truthy (d_code d) else None.

Section unicode.
Context {UC : Unicode}.

(* @src adapters/postgres.py _is_concurrent *)
Definition is_concurrent (st : Statement) : bool :=
  mem "CONCURRENTLY" (st_lead st) || mem "CONCURRENTLY" (map upper (split_space uc_isspace (st_text st) [])).

(* @src adapters/postgres.py PostgresAdapter._extra_statement_checks *)
Definition postgres_extra_checks (st : Statement) (mode : Mode) (in_batch : bool) : result error unit :=
  raise_if ((mode_eqb mode ATOMIC || in_batch) && is_concurrent st)
    (usage "CONCURRENTLY cannot run inside a transaction block").

#[refine] Definition postgres_dialect : Dialect := {|
  ad_name := "postgres";
  ad_driver_error := psycopg_error;
  ad_policy := postgres_policy;
  ad_extra_checks := postgres_extra_checks;
  ad_required := refuse_required;
  ad_classify d := postgres_classify d true;
  ad_classify_call := postgres_classify;
  ad_contention d := instance_of psycopg_error d && bool_decide (d_code d = Some "55P03");
  ad_error_code := postgres_error_code;
  ad_ddl_transaction st := negb (is_concurrent st);
  ad_create_transaction := true;
|}.
Defined.

(** ** Oracle *)
(* @src adapters/oracle.py _POLICY *)
Definition oracle_policy : StatementPolicy := MkPolicy
  ["SELECT"; "WITH"; "INSERT"; "UPDATE"; "DELETE"; "MERGE"; "LOCK"; "DECLARE"; "BEGIN"]
  ["SELECT"; "WITH"]
  ["DECLARE"; "BEGIN"]
  ["CREATE"; "ALTER"; "DROP"; "TRUNCATE"; "RENAME"; "COMMENT"; "ANALYZE"]
  ["COMMIT"; "ROLLBACK"; "SAVEPOINT"; "SET"; "GRANT"; "REVOKE"; "AUDIT"; "NOAUDIT"; "PURGE"; "FLASHBACK"]
  true false false.

Definition oracledb_error : str := "oracledb.Error".

(* @src adapters/oracle.py SUPPORTED_REQUIRED_TYPES *)
Definition SUPPORTED_REQUIRED_TYPES : list str :=
  ["PROCEDURE"; "FUNCTION"; "PACKAGE"; "PACKAGE BODY"; "TYPE"; "TYPE BODY"; "TRIGGER"; "VIEW"].

(* @src adapters/oracle.py TRANSPORT_ORA_CODES *)
Definition TRANSPORT_ORA_CODES : list Z :=
  [28; 1012; 1089; 1092; 3106; 3113; 3114; 3135; 12152; 12537; 12571; 22; 31; 45; 378; 600; 602; 603; 609;
   1041; 1043; 2396; 3122; 12153; 12547; 12570; 12583; 27146; 28511; 56600]%Z.

(* @src adapters/oracle.py SESSION_DEAD_DPY_CODE *)
Definition SESSION_DEAD_DPY_CODE : str := "DPY-4011".

(* @src adapters/oracle.py CLIENT_SIDE_DPY_CODES *)
Definition CLIENT_SIDE_DPY_CODES : list str :=
  ["DPY-2002"; "DPY-2005"; "DPY-2006"; "DPY-2008"; "DPY-2009"; "DPY-2010"; "DPY-3002"; "DPY-3003"; "DPY-3004";
   "DPY-3005"; "DPY-4008"; "DPY-4009"; "DPY-4010"].

(* @src adapters/oracle.py _CONTENTION_ORA_CODES *)
Definition CONTENTION_ORA_CODES : list str := ["ORA-00054"; "ORA-30006"].

(** [exc.args] is empty exactly when the driver attached no error object, and
    then number, code and flag are absent. *)
(* @src adapters/oracle.py OracleAdapter.classify_exception *)
Definition oracle_classify (d : driver_exn) : OutcomeClass :=
  if instance_of oracledb_error d then
    let full_code := default [] (d_code d) in
    if bool_decide (full_code = SESSION_DEAD_DPY_CODE) || d_dead d then COMMUNICATION_FAILURE
    else if negb (d_number d =? 0)%Z then
      if bool_decide (d_number d ∈ TRANSPORT_ORA_CODES) then COMMUNICATION_FAILURE else SERVER_REJECTION
    else if mem full_code CLIENT_SIDE_DPY_CODES then SERVER_REJECTION
    else COMMUNICATION_FAILURE
  else COMMUNICATION_FAILURE.

(* @src adapters/oracle.py OracleAdapter.error_code *)
Definition oracle_error_code (d : driver_exn) : option str :=
  if instance_of oracledb_error d then truthy (d_code d) else None.

(* @src adapters/oracle.py OracleAdapter._extra_statement_checks *)
Definition oracle_extra_checks (st : Statement) (mode : Mode) (in_batch : bool) : result error unit :=
  match st_lead st with
  | first :: second :: _ =>
      raise_if (bool_decide (first = "ALTER") && mem second ["SESSION"; "SYSTEM"])
        (usage "ALTER SESSION or SYSTEM is not admitted")
  | _ => Ok tt
  end.

(** [IDENTIFIER_RE.fullmatch]: [^[A-Z][A-Z0-9_$#]{0,127}$]. *)
(* @src adapters/oracle.py IDENTIFIER_RE *)
Definition oracle_identifier (s : str) : bool :=
  match s with
  | c :: rest =>
      ascii_upper_letter c && (length rest <=? 127) &&
      forallb (fun c => ascii_upper_letter c || ascii_digit c || one_of "_$#" c) rest
  | [] => false
  end.

(* @src adapters/oracle.py _require_identifier *)
Definition require_identifier (value : str) : result error str :=
  let up := upper value in
  raise_if (negb (oracle_identifier up) || negb (bool_decide (up = value)))
    (mk ConfigError "not an unquoted uppercase Oracle identifier");;
  Ok up.

(* @src adapters/oracle.py OracleAdapter.admit_required_objects *)
Definition oracle_required (required : list RequiredObject) : result error unit :=
  for_each (fun obj =>
      raise_if (negb (mem (r_type obj) SUPPORTED_REQUIRED_TYPES)) (unsupported "require_valid type");;
      require_identifier (r_name obj);;
      Ok tt) required.

#[refine] Definition oracle_dialect : Dialect := {|
  ad_name := "oracle";
  ad_driver_error := oracledb_error;
  ad_policy := oracle_policy;
  ad_extra_checks := oracle_extra_checks;
  ad_required := oracle_required;
  ad_classify := oracle_classify;
  ad_classify_call d _ := oracle_classify d;
  ad_contention d := bool_decide (default [] (oracle_error_code d) ∈ CONTENTION_ORA_CODES);
  ad_error_code := oracle_error_code;
  ad_ddl_transaction _ := false;
  ad_create_transaction := false;
|}.
Defined.
End unicode.

(** ** Lemmas on admission *)
Lemma mem_true x l : mem x l = true <-> x ∈ l.
Proof. apply bool_decide_eq_true. Qed.

Lemma mem_false x l : mem x l = false <-> x ∉ l.
Proof. apply bool_decide_eq_false. Qed.

#[export] Hint Rewrite mem_true mem_false : migr8_rw.

Definition RESERVED_UPPER : list str := map upper_ascii RESERVED_OBJECT_NAMES.

Section rules_lemmas.
Context {D : Dialect}.

Lemma reject_reserved_Ok st :
  reject_reserved st = Ok tt <-> forall name, name ∈ RESERVED_UPPER -> name ∉ referenced_names st.
Proof.
  unfold reject_reserved. rewrite for_each_Ok, sort_by_perm, Forall_forall. unfold RESERVED_UPPER. split.
  - intros H name (r & -> & Hr)%list_elem_of_fmap. apply H in Hr. apply raise_if_Ok in Hr.
    by apply bool_decide_eq_false in Hr.
  - intros H r Hr. apply raise_if_Ok, bool_decide_eq_false, H. by apply list_elem_of_fmap_2.
Qed.

Lemma admit_statement_reserved st mode b : admit_statement st mode b = Ok tt -> reject_reserved st = Ok tt.
Proof. unfold admit_statement. rewrite !raise_then_Ok, !then_Ok. by intros (_ & _ & _ & _ & ? & _). Qed.

Lemma admit_ddl_reserved st : admit_ddl st = Ok tt -> reject_reserved st = Ok tt.
Proof.
  unfold admit_ddl. destruct (st_kind st); rewrite raise_then_Ok; [| |].
  - rewrite then_Ok. by intros (_ & _ & ?).
  - by intros [_ ?].
  - rewrite then_Ok. by intros (_ & _ & ?).
Qed.

Lemma st_names_referenced st : st_names st ⊆ referenced_names st.
Proof. unfold referenced_names. case_match; set_solver. Qed.
End rules_lemmas.

Lemma identifier_words_word {UC : Unicode} sig t : t ∈ sig -> is_word t = true -> t_upper t ∈ identifier_words sig.
Proof.
  intros Ht Hw. unfold identifier_words. apply elem_of_union_l, elem_of_list_to_set.
  apply list_elem_of_fmap. exists t. split; [done|]. by apply elem_of_filter_bool.
Qed.

Lemma identifier_words_quoted {UC : Unicode} sig t :
  t ∈ sig -> t_kind t = QUOTED_IDENT -> upper (unquote (t_text t)) ∈ identifier_words sig.
Proof.
  intros Ht Hq. unfold identifier_words. apply elem_of_union_r, elem_of_list_to_set.
  apply list_elem_of_fmap. exists t. split; [done|]. apply elem_of_filter_bool.
  split; [by apply bool_decide_eq_true|done].
Qed.

(** A statement that only reads, as the policies understand it. *)
Definition reads_only (st : Statement) (bodies_modify : bool) : Prop :=
  first_token st ∈ ["SELECT"; "VALUES"] \/
  (first_token st = "WITH" /\ (st_cte_verb st ∉ CTE_DML_VERBS) /\
   (bodies_modify = true -> st_cte_body_verbs st = ∅)).

Definition shipped {UC : Unicode} : list Dialect := [sqlite_dialect; postgres_dialect; oracle_dialect].

(** The three policies agree on what a read is and refuse transaction control. *)
Lemma shipped_policies {UC : Unicode} (D : Dialect) :
  D ∈ shipped ->
  (forall w, w ∈ ["COMMIT"; "ROLLBACK"; "SAVEPOINT"] -> w ∈ sp_forbidden ad_policy) /\
  (forall w, w ∈ sp_query ad_policy -> w ∈ ["SELECT"; "VALUES"; "WITH"]).
Proof.
  unfold shipped. rewrite !elem_of_cons, elem_of_nil.
  intros [->|[->|[->|[]]]]; split; intros w; vm_compute ad_policy; cbn; set_solver.
Qed.

(** C28: migration code cannot name the engine's tables. If the text of a statement
    normalises and its statement is admitted in any mode, in a batch or not, or
    as DDL, on any adapter, then no bare word and no quoted identifier among the
    tokens of the submitted text spells a reserved metadata object, in any case. *)
Theorem admitted_never_reserved {UC : Unicode} {D : Dialect} sql st mode b
    (Hst : normalize sql = Ok st)
    (Hadm : admit_statement st mode b = Ok tt \/ admit_ddl st = Ok tt) :
  exists text sig, significant_tokens text = Ok sig /\ st_text st = strip text /\
    forall t, t ∈ sig ->
      (t_kind t = WORD -> t_upper t ∉ RESERVED_UPPER) /\
      (t_kind t = QUOTED_IDENT -> upper (unquote (t_text t)) ∉ RESERVED_UPPER).
Proof.
  pose proof (normalize_normal_form sql st Hst) as (text & sig & Hnf).
  exists text, sig. split; [apply Hnf|]. split; [apply Hnf|]. intros t Ht.
  assert (reject_reserved st = Ok tt) as Hr
    by (destruct Hadm; eauto using admit_statement_reserved, admit_ddl_reserved).
  rewrite reject_reserved_Ok in Hr.
  assert (identifier_words sig ⊆ referenced_names st) as Hsub
    by (etrans; [apply Hnf|apply st_names_referenced]).
  split; intros Hk Hin; apply (Hr _ Hin), Hsub.
  - apply identifier_words_word; [done|]. by apply bool_decide_eq_true.
  - by apply identifier_words_quoted.
Qed.

Lemma admitted_never_reserved_witness :
  exists st, normalize (UC := ascii_unicode) "DELETE FROM custom8_history -- m8_history" = Ok st /\
    admit_statement (D := sqlite_dialect) st ATOMIC false = Ok tt /\
    exists text sig, significant_tokens (UC := ascii_unicode) text = Ok sig /\
      st_text st = strip (UC := ascii_unicode) text /\
      forall t, t ∈ sig ->
        (t_kind t = WORD -> t_upper (UC := ascii_unicode) t ∉ RESERVED_UPPER) /\
        (t_kind t = QUOTED_IDENT -> upper (UC := ascii_unicode) (unquote (t_text t)) ∉ RESERVED_UPPER).
Proof.
  eexists. split; [vm_compute; reflexivity|]. split; [vm_compute; reflexivity|].
  eapply (admitted_never_reserved (UC := ascii_unicode) (D := sqlite_dialect)
            "DELETE FROM custom8_history -- m8_history" _ ATOMIC false);
    [vm_compute; reflexivity|left; vm_compute; reflexivity].
Defined.




(** A SQLite commit. When [COMMIT] fails, what the guard sees is a definite
    rejection exactly when it is a library error and either no transaction was
    open or its result code is one of the settled ones; any other library error
    is turned into an exception that always reads as an unknown outcome. *)
Lemma sqlite_commit_classified was_open d :
  sqlite_classify (sqlite_commit_error was_open d) = SERVER_REJECTION <->
  instance_of sqlite_error d = true /\ (was_open = false \/ settles_the_transaction d = true).
Proof.
  unfold sqlite_commit_error, sqlite_classify.
  destruct (instance_of sqlite_error d) eqn:E; simpl; [|rewrite E; naive_solver].
  destruct was_open; simpl; [|rewrite E; naive_solver].
  destruct (settles_the_transaction d); simpl; [rewrite E|]; naive_solver.
Qed.
