(* ===== verification/Metadata.v ===== *)
(** * The metadata layout ([adapters/metadata.py])

    The state of a namespace from what exists in it, and the comparison of a
    stored CHECK constraint with the supported ones. *)
From S2P Require Import Prelude PyStr Errors Paths Manifest Model SqlText Admission.
Open Scope str_scope.

(* @src adapters/metadata.py CREATION_ORDER *)
Definition CREATION_ORDER : list str := [HISTORY_TABLE; ACTIVE_INDEX; PROGRESS_TABLE; META_TABLE].

(** ** Initialization state *)
Definition counted (n : option Z) : bool := match n with Some n => negb (n =? 0)%Z | None => false end.

(* @src adapters/metadata.py classify *)
Definition classify_metadata (present problems : list str) (meta : option MetaRow)
    (history_count progress_count : option Z) : MetadataReport :=
  let missing := sort_by lex_leb (filter (fun n => negb (mem n present)) CREATION_ORDER) in
  let present_sorted := sort_by lex_leb present in
  match meta with
  | Some m =>
      let reasons := problems ++
        (if bool_decide (missing = []) then [] else ["marker is present but objects are missing"]) in
      if bool_decide (reasons = []) then MkMetadataReport COMPLETE (Some m) [] present_sorted []
      else MkMetadataReport DAMAGED (Some m) reasons present_sorted missing
  | None =>
      if bool_decide (present = []) then MkMetadataReport ABSENT None [] [] missing
      else
        let reasons := problems ++
          (if counted history_count then ["history contains rows but the marker is absent"] else []) ++
          (if counted progress_count then ["progress contains rows but the marker is absent"] else []) in
        if bool_decide (reasons = []) then MkMetadataReport INCOMPLETE_COMPATIBLE None [] present_sorted missing
        else MkMetadataReport DAMAGED None reasons present_sorted missing
  end.

(** ** Stored CHECK conditions *)

(** The string or quoted identifier that starts at the head of [s] with quote
    [q]: its length, doubled quotes included. The regular expression can also
    match a shorter text by backtracking, but then what is left starts with an
    unterminated quote and no alternative matches it. *)
Fixpoint quoted_len (q : char) (s : str) : option nat :=
  match s with
  | [] => None
  | c :: s1 =>
      if (c =? q)%N then
        match s1 with
        | d :: s2 => if (d =? q)%N then (fun n => S (S n)) <$> quoted_len q s2 else Some 1
        | [] => Some 1
        end
      else S <$> quoted_len q s1
  end.

Definition cond_ident_start (c : char) : bool := ascii_alpha c || (c =? 95)%N.
Definition cond_ident_part (c : char) : bool := ascii_alnum c || one_of "_$#" c.

Definition cond_operators : list str := ["<>"; "!="; "<="; ">="; "||"; "::"].

Section conditions.
Context {UC : Unicode}.

(** [\d+(?:\.\d+)*] at the head of [s]; [fuel] bounds the groups. *)
Fixpoint number_groups (fuel : nat) (s : str) : nat :=
  match fuel, s with
  | S fuel, c :: s' =>
      if (c =? c_dot)%N && char_at uc_isdecimal s' 0 then
        let n := span_len uc_isdecimal s' in S n + number_groups fuel (drop n s')
      else 0
  | _, _ => 0
  end.

(** Length of the match of [_CONDITION_TOKEN] at the head of [s]. *)
(* @src adapters/metadata.py _CONDITION_TOKEN *)
Definition condition_token (s : str) : option nat :=
  match s with
  | [] => None
  | c :: s' =>
      if (c =? c_squote)%N then S <$> quoted_len c_squote s'
      else if (c =? c_dquote)%N then S <$> quoted_len c_dquote s'
      else if cond_ident_start c then Some (span_len cond_ident_part s)
      else if uc_isdecimal c then
        let n := span_len uc_isdecimal s in Some (n + number_groups (length s) (drop n s))
      else if existsb (fun op => starts_with op s) cond_operators then Some 2
      else if one_of "()[],.+-*/%<>=" c then Some 1
      else if uc_isspace c then Some (span_len uc_isspace s)
      else None
  end.

(** What one token contributes. *)
Definition canonical_token (fold : str -> str) (token : str) : list str :=
  if forallb uc_isspace token then []
  else if starts_with [c_squote] token then [token]
  else if starts_with [c_dquote] token then [unquote token]
  else [fold token].

(** Every match is non-empty, so [length source] iterations are enough
    ([canonical_tokens_total]). *)
Fixpoint canonical_tokens (fold : str -> str) (fuel : nat) (source : str) : option (list str) :=
  match source, fuel with
  | [], _ => Some []
  | _, O => None
  | _, S fuel =>
      n ← condition_token source;
      rest ← canonical_tokens fold fuel (drop n source);
      Some (canonical_token fold (take n source) ++ rest)
  end.

(** [None] for a value that is NULL, not recognised, or holds no token. *)
(* @src adapters/metadata.py canonical_condition *)
Definition canonical_condition (fold : str -> str) (text : option str) : option str :=
  source ← text;
  tokens ← canonical_tokens fold (length source) source;
  match join " " tokens with [] => None | c => Some c end.

(** Case-insensitive matching of an upper-case ASCII letter under
    [re.IGNORECASE]: the two dotless forms match [I] and the long s matches [S]. *)
Definition ci_match (lit c : char) : bool :=
  (to_ascii_upper c =? lit)%N || ((lit =? 73)%N && one_of [0x130; 0x131]%N c) || ((lit =? 83)%N && (c =? 0x17F)%N).
Definition ci_letter (c : char) : bool := ascii_alpha c || one_of [0x130; 0x131; 0x17F; 0x212A]%N c.

Fixpoint ci_prefix (lit s : str) : option str :=
  match lit, s with
  | [], _ => Some s
  | l :: lit, c :: s => if ci_match l c then ci_prefix lit s else None
  | _ :: _, [] => None
  end.

(** [^[A-Za-z_][A-Za-z0-9_$#]* IS NOT NULL$]; [$] also matches before a final
    newline. *)
(* @src adapters/metadata.py is_not_null_condition *)
Definition is_not_null_condition (condition : str) : bool :=
  match condition with
  | c :: s =>
      (ci_letter c || (c =? 95)%N) &&
      match ci_prefix " IS NOT NULL" (drop (span_len (fun c => ci_letter c || ascii_digit c || one_of "_$#" c) s) s) with
      | Some rest => bool_decide (rest = []) || bool_decide (rest = nl)
      | None => false
      end
  | [] => false
  end.

(** One stored check: condition, whether the server enforces it. *)
Definition stored_check : Type := option str * bool.

Definition equivalent (equivalents : list (str * str)) (condition : str) : str :=
  default condition (snd <$> find (fun kv => bool_decide (kv.1 = condition)) equivalents).

Definition stored_condition (fold : str -> str) (equivalents : list (str * str)) (row : stored_check) : option str :=
  equivalent equivalents <$> canonical_condition fold row.1.

(** The loop body: the problem found and the condition seen, if any. *)
(* @src adapters/metadata.py 265-283 check_problems (loop body) *)
Definition check_row (fold : str -> str) (equivalents : list (str * str)) (expected : list str)
    (row : stored_check) : list str * list str :=
  match stored_condition fold equivalents row with
  | None => (["condition is not in a recognised form"], [])
  | Some condition =>
      if is_not_null_condition condition then ([], [])
      else if negb (mem condition expected) then (["unsupported check constraint " ++ condition], [])
      else (if row.2 then [] else ["check constraint is not enforced " ++ condition], [condition])
  end.

(* @src adapters/metadata.py check_problems *)
Definition check_problems (fold : str -> str) (equivalents : list (str * str)) (rows : list stored_check)
    (expected : list str) : list str :=
  let results := map (check_row fold equivalents expected) rows in
  let seen := concat results.*2 in
  concat results.*1 ++
  map (fun c => "missing the check constraint " ++ c) (filter (fun c => negb (mem c seen)) expected).
End conditions.

(** ** Expected parts of a layout *)

(** A key the layout needs: a primary key, a unique key, or a foreign key with the
    table and the columns it must point at. *)
(* @src adapters/metadata.py ExpectedKey *)
Inductive ExpectedKey :=
| KeyPrimary (columns : str)
| KeyUnique (columns : str)
| KeyForeign (columns target_table target_columns : str).

(** The keys of a table and the canonical forms of its CHECK constraints. *)
(* @src adapters/metadata.py ExpectedConstraints *)
Record ExpectedConstraints := MkExpected {
  ec_keys : list ExpectedKey;
  ec_checks : list str;
}.

(** Stored definitions as comparison keys. *)
Section definitions.
Context {UC : Unicode}.

(** White space, double quotes and, with [drop_parens], parentheses. *)
Definition noise (drop_parens : bool) (c : char) : bool :=
  uc_isspace c || (c =? 34)%N || (drop_parens && ((c =? 40)%N || (c =? 41)%N)).

(* @src adapters/metadata.py compact_definition *)
Definition compact_definition (text : str) (drop_parens : bool) : str :=
  List.filter (fun c => negb (noise drop_parens c)) (upper text).

(** Each run of such characters replaced by one space. *)
Fixpoint spaced (drop_parens : bool) (inside : bool) (s : str) : str :=
  match s with
  | [] => []
  | c :: s =>
      if noise drop_parens c then (if inside then [] else [32%N]) ++ spaced drop_parens true s
      else c :: spaced drop_parens false s
  end.

(* @src adapters/metadata.py normalise_definition *)
Definition normalise_definition (text : str) (drop_parens : bool) : str := strip (spaced drop_parens false (upper text)).
End definitions.

(** ** Lemmas *)
Section lemmas.
Context {UC : Unicode}.

Lemma condition_token_pos s n : condition_token s = Some n -> 0 < n.
Proof.
  unfold condition_token. destruct s as [|c s]; [done|].
  repeat case_match; intros Hn; simplify_eq; try lia.
  - destruct (quoted_len _ _); simplify_eq/=; lia.
  - destruct (quoted_len _ _); simplify_eq/=; lia.
  - simpl. unfold cond_ident_part, cond_ident_start, ascii_alnum, one_of in *.
    destruct (ascii_alpha c); simpl; [lia|]. simpl in *. rewrite H1. simpl. by rewrite orb_true_r; lia.
  - simpl. rewrite H2. lia.
  - simpl. rewrite H5. lia.
Qed.

#[local] Arguments condition_token {_} _ : simpl never.

(** More fuel than the length changes nothing, so the loop always ends. *)
Lemma canonical_tokens_total fold fuel source :
  length source <= fuel -> canonical_tokens fold fuel source = canonical_tokens fold (length source) source.
Proof.
  revert fuel. remember (length source) as m eqn:Hm. revert source Hm.
  induction m as [m IH] using lt_wf_ind. intros source Hm fuel Hf.
  destruct source as [|c s]; [by destruct fuel, m|]. simpl in Hm. subst m.
  destruct fuel as [|fuel]; [lia|]. simpl.
  destruct (condition_token (c :: s)) as [n|] eqn:Hn; [|done]. simpl.
  apply condition_token_pos in Hn.
  assert (length (drop n (c :: s)) <= length s) by (rewrite length_drop; simpl; lia).
  rewrite (IH (length (drop n (c :: s)))) by (try done; simpl; lia).
  rewrite (IH (length (drop n (c :: s))) ltac:(simpl; lia) _ eq_refl (length s)) by lia. done.
Qed.

Lemma check_row_ok fold eqs expected row :
  (check_row fold eqs expected row).1 = [] <->
  exists c, stored_condition fold eqs row = Some c /\
    (is_not_null_condition c = true \/ (c ∈ expected /\ row.2 = true)).
Proof.
  unfold check_row. destruct (stored_condition fold eqs row) as [c|]; [|split; [done|by intros (? & ? & _)]].
  destruct (is_not_null_condition c) eqn:Hn; simpl; [split; eauto|].
  destruct (mem c expected) eqn:Hm; simpl; [apply mem_true in Hm|apply mem_false in Hm].
  - destruct (row.2); simpl; split; try done; [eauto 6|].
    intros (? & [= <-] & [?|[_ ?]]); congruence.
  - split; [done|]. intros (? & [= <-] & [?|[? _]]); congruence.
Qed.

Lemma check_row_seen fold eqs expected row c :
  c ∈ (check_row fold eqs expected row).2 <->
  stored_condition fold eqs row = Some c /\ is_not_null_condition c = false /\ c ∈ expected.
Proof.
  unfold check_row. destruct (stored_condition fold eqs row) as [d|];
    [|by split; [intros ?%elem_of_nil|intros [? _]]].
  destruct (is_not_null_condition d) eqn:Hn; simpl.
  { rewrite elem_of_nil. split; [done|]. intros ([= ->] & ? & _). congruence. }
  destruct (mem d expected) eqn:Hm; simpl; [apply mem_true in Hm|apply mem_false in Hm].
  - rewrite list_elem_of_singleton. split; [by intros ->|]. by intros ([= ->] & _).
  - rewrite elem_of_nil. split; [done|]. by intros ([= ->] & _ & ?).
Qed.

Lemma concat_nil {A} (ls : list (list A)) : concat ls = [] <-> Forall (fun l => l = []) ls.
Proof.
  induction ls as [|l ls IH]; simpl; [by split|]. rewrite Forall_cons, <-IH.
  split; [by intros [? ?]%app_eq_nil|by intros [-> ->]].
Qed.
End lemmas.

Lemma map_nil_iff {A B} (f : A -> B) l : map f l = [] <-> l = [].
Proof. by destruct l. Qed.

Lemma elem_of_concat_snd {A B C} (f : A -> B * list C) l c :
  c ∈ concat (map f l).*2 <-> exists x, x ∈ l /\ c ∈ (f x).2.
Proof.
  induction l as [|x l IH]; csimpl; [set_solver|]. rewrite elem_of_app, IH. set_solver.
Qed.

Lemma sort_by_nil {A} (le : A -> A -> bool) l : sort_by le l = [] <-> l = [].
Proof.
  split; [|by intros ->]. intros H. pose proof (sort_by_perm le l) as Hp. rewrite H in Hp.
  by apply Permutation_nil_l in Hp.
Qed.

Lemma missing_nil present :
  filter (fun n => negb (mem n present)) CREATION_ORDER = [] <-> forall n, n ∈ CREATION_ORDER -> n ∈ present.
Proof.
  split.
  - intros H n Hn. destruct (mem n present) eqn:E; [by apply mem_true|].
    assert (n ∈ filter (fun n => negb (mem n present)) CREATION_ORDER) as Hin
      by (apply elem_of_filter_bool; by rewrite E).
    rewrite H in Hin. set_solver.
  - intros H. apply filter_none, Forall_forall. intros n Hn. apply negb_false_iff, mem_true. auto.
Qed.

(** The state of a namespace. COMPLETE means the marker is there, every object of
    the layout exists and nothing is wrong with a definition; ABSENT that neither
    marker nor object exists; INCOMPLETE that there is no marker, some object,
    no problem and not a single history or progress row; everything else is
    DAMAGED, and exactly then the report lists a problem. *)
Lemma classify_metadata_state present problems meta hc pc :
  let r := classify_metadata present problems meta hc pc in
  (mr_state r = COMPLETE <->
     meta <> None /\ problems = [] /\ forall n, n ∈ CREATION_ORDER -> n ∈ present) /\
  (mr_state r = ABSENT <-> meta = None /\ present = []) /\
  (mr_state r = INCOMPLETE_COMPATIBLE <->
     meta = None /\ present <> [] /\ problems = [] /\ counted hc = false /\ counted pc = false) /\
  (mr_state r = DAMAGED <-> mr_problems r <> []) /\
  (mr_state r = COMPLETE -> mr_meta r = meta).
Proof.
  unfold classify_metadata. rewrite <-missing_nil, <-(sort_by_nil lex_leb (filter _ _)).
  set (missing := sort_by lex_leb _). destruct meta as [m|].
  - destruct (decide (missing = [])) as [Hm|Hm];
      [rewrite (bool_decide_eq_true_2 (missing = [])) by done|rewrite (bool_decide_eq_false_2 (missing = [])) by done].
    + rewrite app_nil_r. case_bool_decide; simpl; naive_solver.
    + rewrite bool_decide_eq_false_2 by (by destruct problems). simpl.
      assert (problems ++ ["marker is present but objects are missing"] <> []) by (by destruct problems).
      naive_solver.
  - case_bool_decide; simpl; [naive_solver|].
    destruct (counted hc), (counted pc), problems; simpl; naive_solver.
Qed.

(** The comparison of CHECK constraints is exact and closed. Nothing is reported
    exactly when every stored constraint is recognised and either only asserts
    NOT NULL or is one of the expected conditions and enforced, and every
    expected condition is stored. *)
Lemma check_problems_none {UC : Unicode} fold eqs rows expected :
  check_problems fold eqs rows expected = [] <->
  (forall row, row ∈ rows -> exists c, stored_condition fold eqs row = Some c /\
     (is_not_null_condition c = true \/ (c ∈ expected /\ row.2 = true))) /\
  (forall c, c ∈ expected -> exists row, row ∈ rows /\ stored_condition fold eqs row = Some c /\
     is_not_null_condition c = false).
Proof.
  unfold check_problems. set (results := map (check_row fold eqs expected) rows).
  rewrite app_nil, concat_nil, map_nil_iff, Forall_forall.
  assert (forall c, c ∈ concat results.*2 <-> exists row, row ∈ rows /\ c ∈ (check_row fold eqs expected row).2)
    as Hseen by (intros c; unfold results; apply elem_of_concat_snd).
  split.
  - intros [Hp Hs]. split.
    + intros row Hrow. apply (check_row_ok fold eqs expected), Hp.
      unfold results. apply list_elem_of_fmap. exists (check_row fold eqs expected row).
      split; [done|]. by apply list_elem_of_fmap_2.
    + intros c Hc. assert (mem c (concat results.*2) = true) as Hin.
      { destruct (mem c (concat results.*2)) eqn:E; [done|].
        assert (c ∈ filter (fun c => negb (mem c (concat results.*2))) expected) as Hf
          by (apply elem_of_filter_bool; by rewrite E).
        rewrite Hs in Hf. set_solver. }
      apply mem_true, Hseen in Hin as (row & Hrow & (? & ? & _)%check_row_seen). eauto.
  - intros [Hp Hs]. split.
    + intros ps (r & -> & (row & -> & Hrow)%list_elem_of_fmap)%list_elem_of_fmap.
      apply check_row_ok. auto.
    + apply filter_none, Forall_forall. intros c Hc. apply negb_false_iff, mem_true, Hseen.
      destruct (Hs c Hc) as (row & Hrow & Hst & Hn). exists row. split; [done|]. by apply check_row_seen.
Qed.
