(* ===== verification/Checks.v ===== *)
(** * Checks before and around execution ([checks.py])

    The preflight over a capture, the admission decision for a SQL entry file,
    and the comparison of the recorded bindings. UTF-8 decoding and Python's
    [compile] are the interpreter's: they are parameters. *)
From S2P Require Import Prelude PyStr Errors Paths Manifest Model SqlText Admission.
Open Scope str_scope.

(** What the interpreter does with source files. *)
Class Interpreter := {
  (** [bytes.decode("utf-8")]; [None] is [UnicodeDecodeError] *)
  utf8_decode : bytes -> option str;
  (** [compile(source, relpath, "exec", dont_inherit=True)] *)
  py_compile : bytes -> str -> result pyexn unit;
}.

Definition file_not_found : pyexn := PyException (builtin_exn "builtins.FileNotFoundError").
Definition is_a_directory : pyexn := PyException (builtin_exn "builtins.IsADirectoryError").

(** The bytes of a unit's file, by its relative path. *)
Definition read_bytes (u : CapturedUnit) (relpath : str) : result pyexn bytes :=
  match lookup_node (NDir (u_source u)) (split_on slash relpath) with
  | Some (NFile data) => Ok data
  | Some (NDir _) => Err is_a_directory
  | _ => Err file_not_found
  end.

(** Text mode translates every line ending to a line feed. *)
Fixpoint universal_newlines (s : str) : str :=
  match s with
  | [] => []
  | c :: s' =>
      if (c =? 13)%N then
        match s' with
        | d :: s'' => if (d =? 10)%N then 10%N :: universal_newlines s'' else 10%N :: universal_newlines s'
        | [] => [10%N]
        end
      else c :: universal_newlines s'
  end.

(* @src checks.py SqlCategory *)
Inductive SqlCategory := ATOMIC_STATEMENT | SC_RESTARTABLE_DDL | RESTARTABLE_PROCEDURAL.

#[export] Instance SqlCategory_eq_dec : EqDecision SqlCategory.
Proof. solve_decision. Defined.

(* @src checks.py AdmittedSql *)
Record AdmittedSql := MkAdmitted {
  as_statement : Statement;
  as_category : SqlCategory;
}.

Definition m_entry_of (u : CapturedUnit) : str := m_entry (u_definition u).

Section checks.
Context {UC : Unicode} {I : Interpreter} {D : Dialect}.

(** [(unit.source_dir / entry).read_text(encoding="utf-8")], the decoding error
    turned into the source error. *)
(* @src checks.py read_sql_entry *)
Definition read_sql_entry (u : CapturedUnit) (phase : str) : result pyexn str :=
  data ← read_bytes u (m_entry_of u);
  match utf8_decode data with
  | Some text => Ok (universal_newlines text)
  | None => Err (PyMigr8 (mk_at SqlSyntaxError "entry is not valid UTF-8" phase (Some (u_id u))))
  end.

(* @src checks.py admit_sql_entry *)
Definition admit_sql_entry (u : CapturedUnit) (phase : str) : result pyexn AdmittedSql :=
  text ← read_sql_entry u phase;
  statement ← normalize text;
  if mode_eqb (u_mode u) ATOMIC then
    lift (admit_statement statement ATOMIC false);;
    Ok (MkAdmitted statement ATOMIC_STATEMENT)
  else if mem (first_token statement) (sp_procedural ad_policy) then
    lift (admit_statement statement RESTARTABLE false);;
    Ok (MkAdmitted statement RESTARTABLE_PROCEDURAL)
  else
    lift (admit_ddl statement);;
    Ok (MkAdmitted statement SC_RESTARTABLE_DDL).

(** The loop body of [compile_python]; any other exception passes through. *)
(* @src checks.py 126-147 compile_python (loop body) *)
Definition compile_source (u : CapturedUnit) (relpath : str) : result pyexn unit :=
  if negb (ends_with ".py" relpath) then Ok tt
  else
    source ← read_bytes u relpath;
    match py_compile source relpath with
    | Ok tt => Ok tt
    | Err (PyException d) =>
        if instance_of "builtins.SyntaxError" d || instance_of "builtins.ValueError" d
        then Err (PyMigr8 (mk_at PythonSyntaxError "source does not compile" "preflight" (Some (u_id u))))
        else Err (PyException d)
    | Err x => Err x
    end.

(* @src checks.py compile_python *)
Definition compile_python (u : CapturedUnit) : result pyexn unit :=
  for_each (compile_source u) (u_relpaths u).

(* @src checks.py 40-45 preflight (loop body) *)
Definition preflight_unit (u : CapturedUnit) : result pyexn unit :=
  lift (admit_combination (u_language u) (u_mode u));;
  lift (ad_required (m_required (u_definition u)));;
  match u_language u with
  | SQL_LANG => admit_sql_entry u "preflight";; Ok tt
  | PYTHON => compile_python u
  end.

(* @src checks.py preflight *)
Definition preflight (capture : Capture) : result pyexn unit :=
  for_each preflight_unit (c_units capture).

(** The namespace and the lock of this run, as the adapter spells them. *)
Record bindings := MkBindings {
  b_namespace : str;
  b_lock_provider : str;
  b_lock_binding : str;
}.

(* @src checks.py verify_bindings *)
Definition verify_bindings (b : bindings) (meta : option MetaRow) : result error unit :=
  match meta with
  | None => Err (mk MetadataDamagedError "initialization marker is missing after initialization")
  | Some m =>
      raise_if (negb (bool_decide (mt_layout_version m = LAYOUT_VERSION)))
        (mk MetadataDamagedError "layout_version is not supported");;
      raise_if (negb (bool_decide (mt_adapter m = ad_name))) (usage "namespace was initialized by another adapter");;
      raise_if (negb (bool_decide (mt_target_namespace m = b_namespace b))) (usage "namespace binding mismatch");;
      raise_if (negb (bool_decide (mt_lock_binding m = b_lock_binding b))) (usage "lock binding mismatch")
  end.
End checks.

(** ** Lemmas *)
Section lemmas.
Context {UC : Unicode} {I : Interpreter} {D : Dialect}.

Lemma preflight_units capture :
  preflight capture = Ok tt <-> Forall (fun u => preflight_unit u = Ok tt) (c_units capture).
Proof. apply for_each_Ok. Qed.

(** The phase appears in an error message only. *)
Lemma read_sql_entry_phase u p q text : read_sql_entry u p = Ok text -> read_sql_entry u q = Ok text.
Proof.
  unfold read_sql_entry. destruct (read_bytes u (m_entry_of u)) as [data|]; [simpl|done].
  by destruct (utf8_decode data).
Qed.

Lemma admit_sql_entry_phase u p q a : admit_sql_entry u p = Ok a -> admit_sql_entry u q = Ok a.
Proof.
  unfold admit_sql_entry. intros (text & Ht & H)%bind_Ok. by rewrite (read_sql_entry_phase _ p q _ Ht).
Qed.

Lemma preflight_unit_sql u :
  u_language u = SQL_LANG -> preflight_unit u = Ok tt ->
  exists a, admit_sql_entry u "preflight" = Ok a.
Proof.
  unfold preflight_unit. intros -> H. rewrite !then_Ok in H. destruct H as (_ & _ & H).
  apply bind_Ok in H as (a & Ha & _). eauto.
Qed.

Lemma admit_sql_entry_category u phase a :
  admit_sql_entry u phase = Ok a ->
  match as_category a with
  | ATOMIC_STATEMENT => u_mode u = ATOMIC /\ admit_statement (as_statement a) ATOMIC false = Ok tt
  | RESTARTABLE_PROCEDURAL =>
      u_mode u = RESTARTABLE /\ admit_statement (as_statement a) RESTARTABLE false = Ok tt /\
      first_token (as_statement a) ∈ sp_procedural ad_policy
  | SC_RESTARTABLE_DDL =>
      u_mode u = RESTARTABLE /\ admit_ddl (as_statement a) = Ok tt /\
      (first_token (as_statement a) ∉ sp_procedural ad_policy)
  end.
Proof.
  unfold admit_sql_entry. intros (text & _ & (st & _ & H)%bind_Ok)%bind_Ok.
  unfold mode_eqb in H. case_bool_decide as Hm.
  - apply then_Ok in H as [Hl%lift_Ok [= <-]]. done.
  - assert (u_mode u = RESTARTABLE) as Hr by (by destruct (u_mode u)).
    destruct (mem (first_token st) _) eqn:E; apply then_Ok in H as [Hl%lift_Ok [= <-]]; simpl.
    + apply mem_true in E. done.
    + apply mem_false in E. done.
Qed.
End lemmas.

(** Execution runs what preflight admitted. If preflight passed, then at
    execution the entry of every SQL unit is admitted again, as the same
    statement in the same category; the category fits the unit's mode, and a
    file that owns its transactions is one the adapter calls procedural. *)
Lemma preflight_decides {UC : Unicode} {I : Interpreter} {D : Dialect} capture u phase
    (Hpre : preflight capture = Ok tt) (Hu : u ∈ c_units capture) (Hsql : u_language u = SQL_LANG) :
  exists a, admit_sql_entry u "preflight" = Ok a /\ admit_sql_entry u phase = Ok a /\
    (as_category a = ATOMIC_STATEMENT <-> u_mode u = ATOMIC) /\
    (as_category a = RESTARTABLE_PROCEDURAL <->
       u_mode u = RESTARTABLE /\ first_token (as_statement a) ∈ sp_procedural ad_policy).
Proof.
  rewrite preflight_units, Forall_forall in Hpre.
  destruct (preflight_unit_sql u Hsql (Hpre u Hu)) as [a Ha]. exists a.
  split; [done|]. split; [by eapply admit_sql_entry_phase|].
  pose proof (admit_sql_entry_category _ _ _ Ha) as Hcat.
  destruct (as_category a); intuition congruence.
Qed.

(** ASCII decoding and a compiler that accepts everything. *)
Definition ascii_interpreter : Interpreter := {|
  utf8_decode b := if forallb is_ascii b then Some b else None;
  py_compile _ _ := Ok tt;
|}.

Definition sql_unit (mode : Mode) (text : str) : CapturedUnit :=
  MkUnit (MkMigration 1 "a" "a" SQL_LANG mode "up.sql" [] ["a"]) [("up.sql", NFile text)] "fp" ["up.sql"] false.

Lemma preflight_decides_witness :
  let u := sql_unit RESTARTABLE "CREATE INDEX i ON t (x);" in
  exists a, admit_sql_entry (UC := ascii_unicode) (I := ascii_interpreter) (D := sqlite_dialect) u "preflight" = Ok a /\
    admit_sql_entry (UC := ascii_unicode) (I := ascii_interpreter) (D := sqlite_dialect) u "migration_execution" = Ok a /\
    (as_category a = ATOMIC_STATEMENT <-> u_mode u = ATOMIC) /\
    (as_category a = RESTARTABLE_PROCEDURAL <->
       u_mode u = RESTARTABLE /\ first_token (as_statement a) ∈ sp_procedural sqlite_policy).
Proof.
  intros u.
  refine (preflight_decides (UC := ascii_unicode) (I := ascii_interpreter) (D := sqlite_dialect)
           (MkCapture (MkManifest [] [] [u_definition u]) [u] false) u "migration_execution" _ _ eq_refl).
  - vm_compute. reflexivity.
  - by left.
Defined.

(** A run only goes on in the namespace it is configured for: [verify_bindings]
    returns exactly when the marker exists and records this layout, this
    adapter, this namespace and this lock. *)
Lemma verify_bindings_iff {D : Dialect} b meta :
  verify_bindings b meta = Ok tt <->
  exists m, meta = Some m /\ mt_layout_version m = LAYOUT_VERSION /\ mt_adapter m = ad_name /\
    mt_target_namespace m = b_namespace b /\ mt_lock_binding m = b_lock_binding b.
Proof.
  unfold verify_bindings. destruct meta as [m|]; [|naive_solver].
  rewrite !raise_then_Ok, raise_if_Ok, !negb_false_iff, !bool_decide_eq_true. naive_solver.
Qed.
