(* ===== verification/World.v ===== *)
(** * The state of a run and the effects on it

    One [migrate] run works on a single database session. [World] holds what the
    program keeps across calls (the latch, the engine-transaction flag, the
    facade's state, the report) next to the session itself, which is a state of
    the driver. Everything the code asks of the driver is one [rawop]; what the
    driver answers is the parameter [Driver]. The monad [M] threads the world and
    carries Python's exceptions, and every raw operation is recorded in a trace, with the state of the latch at
    that moment. *)
From S2P Require Import Prelude PyStr Errors Latch Paths Manifest Model SqlText Admission.
Open Scope str_scope.

(** A Python value the facade passes on or returns. *)
Inductive pyval :=
| VNone
| VInt (z : Z)
| VStr (s : str)
| VOther (n : nat).                 (* any other object *)

#[export] Instance pyval_eq_dec : EqDecision pyval.
Proof. solve_decision. Defined.

(* @src adapters/base.py ValidityResult *)
Record ValidityResult := MkValidity {
  v_failures : list str;
  v_warnings : list str;
}.

(* @src adapters/base.py RunnerInfo *)
Record RunnerInfo := MkRunner {
  ri_host : str;
  ri_user : str;
  ri_pid : Z;
  ri_tool_version : str;
  ri_run_id : str;
}.

(** The bind values [_runner_binds] adds to a history statement. *)
Record runner_binds := MkBinds {
  rb_host : option str;
  rb_user : option str;
  rb_pid : option Z;
  rb_session : option str;
  rb_tool_version : str;
}.

(** ** Engine-owned SQL

    One constructor for each statement that [adapters/base.py] writes: its table,
    its [SET] list and its [WHERE] clause are those of the rendered text. *)
Inductive metadata_cmd :=
| InsertHistory (status : Status) (first : bool) (finished : bool)   (* attempt: 1 or NULL *)
    (seq : Z) (mid fingerprint language mode : str) (r : runner_binds)
| UpdateAttempt (mid fingerprint language : str) (r : runner_binds)
| CompleteHistory (mid tool_version : str)
| DeleteProgress (mid : str)
| UpsertProgress (mid key value : str)
| InsertMarker (layout_version : Z) (adapter lock_provider lock_binding target_namespace : str).

(** ** What is asked of the driver *)
Inductive rawop :=
| RConnect | RAcquireLock | RPrepareStorage | RClose | RDiscard | RConnectionHeld
| RServerDescription | RSessionIdentity
| RObjectsPresent
| RDefinitionProblems (present : list str)
| RCreateObject (name : str)
| RCount (table : str)
| RReadMarker
| RReadSnapshot (consistent : bool)
| RMetadata (c : metadata_cmd)
| RProgressGet (mid key : str)
| RBegin | RCommit | RRollback | RHasOpen | RBatchState
| REstablishIdentity | RReadIdentity
| RExecute (text : str) (params : pyval)
| RExecuteMany (text : str) (params : list pyval)
| RQuery (text : str) (params : pyval)
| RCheckRequired (required : list RequiredObject)
| RProbeLiveness (db_session : option str)
| RFire (b : Boundary) (phase : str).

(** What a raw operation returns. *)
Definition reply (o : rawop) : Type :=
  match o with
  | RConnect | RAcquireLock | RPrepareStorage | RClose | RDiscard => unit
  | RConnectionHeld => bool
  | RServerDescription => str
  | RSessionIdentity => option str
  | RObjectsPresent => list str
  | RDefinitionProblems _ => list str
  | RCreateObject _ => unit
  | RCount _ => Z
  | RReadMarker => list (result pyexn MetaRow)   (* each row as [meta_row] maps it *)
  | RReadSnapshot _ => Snapshot
  | RMetadata _ => Z
  | RProgressGet _ _ => list str
  | RBegin | RCommit | RRollback => unit
  | RHasOpen => bool
  | RBatchState => BatchTransactionState
  | REstablishIdentity | RReadIdentity => option str
  | RExecute _ _ => Z
  | RExecuteMany _ _ => Z
  | RQuery _ _ => list (list pyval)
  | RCheckRequired _ => ValidityResult
  | RProbeLiveness _ => str * str
  | RFire _ _ => unit
  end.

(** The driver and the server behind it: every call may change the session's
    state and returns or raises. *)
Class Driver (S : Type) := drv_step : forall o : rawop, S -> S * result pyexn (reply o).

(** ** The run's own state *)

(** The facade of the migration in progress: [_in_batch], [_open_batch] and the
    identity each batch object holds, in the order the objects were made. *)
(* @src context.py _BaseContext.__init__ *)
Record ContextState := MkContext {
  cx_in_batch : bool;
  cx_open_batch : option nat;
  cx_batches : list (option str);
}.

Definition context_init : ContextState := MkContext false None [].

(* @src engine.py 49-75 RunReport *)
Record RunReport := MkReport {
  rp_exit_code : Exit;
  rp_executed : list str;
  rp_message : option str;
  rp_warnings : list str;
  rp_discarded : bool;
  rp_failed : option str;
  rp_phase : option str;
  rp_recovery_id : option str;
  rp_namespace : option str;
}.

Definition report_init : RunReport := MkReport OK [] None [] false None None None None.

Record World (S : Type) := MkWorld {
  w_driver : S;
  w_trace : list (LatchState * rawop); (* calls so far, each with the latch it met, the latest first *)
  w_latch : RunLatch;
  w_has_latch : bool;               (* adapter.latch is not None *)
  w_runner : option RunnerInfo;     (* adapter.runner *)
  w_engine_txn : bool;              (* adapter._engine_transaction *)
  w_context : ContextState;
  w_report : RunReport;
  w_reported : bool;
  w_started : bool;
}.
Arguments MkWorld {_} _ _ _ _ _ _ _ _ _ _.
Arguments w_driver {_} _.
Arguments w_trace {_} _.
Arguments w_latch {_} _.
Arguments w_has_latch {_} _.
Arguments w_runner {_} _.
Arguments w_engine_txn {_} _.
Arguments w_context {_} _.
Arguments w_report {_} _.
Arguments w_reported {_} _.
Arguments w_started {_} _.

(** ** The monad *)
Definition M (S A : Type) : Type := World S -> World S * result pyexn A.

#[export] Instance M_ret {S} : MRet (M S) := fun A a w => (w, Ok a).
#[export] Instance M_bind {S} : MBind (M S) := fun A B k m w =>
  match m w with
  | (w', Ok a) => k a w'
  | (w', Err x) => (w', Err x)
  end.

Section operations.
Context {S : Type} {DR : Driver S}.

Definition raise {A} (x : pyexn) : M S A := fun w => (w, Err x).
Definition raise_error {A} (e : error) : M S A := raise (PyMigr8 e).
Definition gets {A} (f : World S -> A) : M S A := fun w => (w, Ok (f w)).
Definition modify (f : World S -> World S) : M S unit := fun w => (f w, Ok tt).

(** [try: m except ...]: the handler sees any exception and may raise again. *)
Definition try_except {A} (m : M S A) (h : pyexn -> M S A) : M S A := fun w =>
  match m w with
  | (w', Ok a) => (w', Ok a)
  | (w', Err x) => h x w'
  end.

(** A pure check inside an effectful function. *)
Definition of_result {A} (r : result pyexn A) : M S A := fun w => (w, r).
Definition of_check {A} (r : result error A) : M S A := of_result (lift r).

Definition when (b : bool) (m : M S unit) : M S unit := if b then m else mret tt.

Fixpoint for_each_M {A} (f : A -> M S unit) (l : list A) : M S unit :=
  match l with
  | [] => mret tt
  | x :: l => f x;; for_each_M f l
  end.

(** One call to the driver. *)
Definition raw (o : rawop) : M S (reply o) := fun w =>
  let '(s, r) := drv_step o (w_driver w) in
  (MkWorld s ((l_state (w_latch w), o) :: w_trace w) (w_latch w) (w_has_latch w) (w_runner w) (w_engine_txn w) (w_context w)
     (w_report w) (w_reported w) (w_started w), r).

Definition set_latch (l : RunLatch) (w : World S) : World S :=
  MkWorld (w_driver w) (w_trace w) l (w_has_latch w) (w_runner w) (w_engine_txn w) (w_context w)
    (w_report w) (w_reported w) (w_started w).
Definition set_engine_txn (b : bool) (w : World S) : World S :=
  MkWorld (w_driver w) (w_trace w) (w_latch w) (w_has_latch w) (w_runner w) b (w_context w)
    (w_report w) (w_reported w) (w_started w).
Definition set_context (c : ContextState) (w : World S) : World S :=
  MkWorld (w_driver w) (w_trace w) (w_latch w) (w_has_latch w) (w_runner w) (w_engine_txn w) c
    (w_report w) (w_reported w) (w_started w).
Definition set_report (r : RunReport) (w : World S) : World S :=
  MkWorld (w_driver w) (w_trace w) (w_latch w) (w_has_latch w) (w_runner w) (w_engine_txn w) (w_context w)
    r (w_reported w) (w_started w).
Definition set_reported (w : World S) : World S :=
  MkWorld (w_driver w) (w_trace w) (w_latch w) (w_has_latch w) (w_runner w) (w_engine_txn w) (w_context w)
    (w_report w) true (w_started w).
Definition set_started (w : World S) : World S :=
  MkWorld (w_driver w) (w_trace w) (w_latch w) (w_has_latch w) (w_runner w) (w_engine_txn w) (w_context w)
    (w_report w) (w_reported w) true.

(** [self.latch.check()]. *)
Definition latch_check : M S unit := l ← gets w_latch; of_check (check l).

(** The three latching calls; each returns its error so that it can be raised. *)
Definition do_latch (f : error -> RunLatch -> RunLatch) (e : error) : M S error :=
  modify (fun w => set_latch (f e (w_latch w)) w);; mret e.
End operations.
