(* ===== verification/Statements.v ===== *)
(** * The text of the engine's statements ([adapters/base.py], [adapters/metadata.py])

    Each [metadata_cmd] and each query of [World] is one statement that [Adapter]
    writes: a template with [:name] placeholders and [{now}], rendered for the
    engine's dialect, and its bind values. A row read back is a list of values. *)
From S2P Require Import Prelude PyStr Text Errors Latch Paths Manifest Model SqlText Admission Metadata World.
Open Scope str_scope.

(** ** Dialect: how engine-owned SQL is written *)
(* @src adapters/base.py 178-194 Adapter (dialect attributes) *)
Class Spelling := MkSpelling {
  sp_pyformat : bool;              (* paramstyle *)
  sp_now : str;                    (* now_expression *)
  sp_on_conflict : bool;
  sp_one_row : str;
  sp_upper : bool;                 (* identifier_case *)
  sp_schema : option str;          (* metadata_schema *)
}.

(** The three shipped dialects; the schemas are those of the configuration. *)
(* @src adapters/sqlite.py _NOW *)
Definition sqlite_now : str := "strftime('%Y-%m-%dT%H:%M:%f','now')".
(* @src adapters/sqlite.py 346-349 SqliteAdapter (dialect attributes) *)
Definition sqlite_spelling : Spelling := MkSpelling false sqlite_now true "dual" false None.
(* @src adapters/postgres.py 148-151 PostgresAdapter (dialect attributes) *)
Definition postgres_spelling (schema : str) : Spelling := MkSpelling true "clock_timestamp()" true "dual" false (Some schema).
(* @src adapters/oracle.py 321-329 OracleAdapter (dialect attributes) *)
Definition oracle_spelling (schema : str) : Spelling := MkSpelling false "SYSTIMESTAMP" false "dual" true (Some schema).

(** [str.replace(pattern, replacement)], left to right. *)
Fixpoint replace_skipping (pattern replacement : str) (skip : nat) (s : str) : str :=
  match s with
  | [] => []
  | c :: rest =>
      match skip with
      | S skip => replace_skipping pattern replacement skip rest
      | O => if starts_with pattern s
             then replacement ++ replace_skipping pattern replacement (length pattern - 1) rest
             else c :: replace_skipping pattern replacement 0 rest
      end
  end.
Definition replace_all (pattern replacement s : str) : str := replace_skipping pattern replacement 0 s.

(** ** Placeholders

    A template in pieces: single characters, and the names that
    the placeholder pattern (a colon, then [a-z_], then any of [a-z0-9_]) matches. [hole] is the name being read after a colon. *)
Inductive piece := Lit (c : char) | Hole (name : str).

#[export] Instance piece_eq_dec : EqDecision piece.
Proof. solve_decision. Defined.

Definition colon : char := 58%N.
Definition name_start (c : char) : bool := ascii_lower_letter c || (c =? 95)%N.
Definition name_char (c : char) : bool := name_start c || ascii_digit c.

Definition close_hole (hole : option str) : list piece :=
  match hole with None => [] | Some [] => [Lit colon] | Some name => [Hole name] end.

Definition extends_hole (hole : option str) (c : char) : option str :=
  match hole with
  | None => None
  | Some [] => if name_start c then Some [c] else None
  | Some name => if name_char c then Some (name ++ [c]) else None
  end.

Fixpoint pieces (hole : option str) (s : str) : list piece :=
  match s with
  | [] => close_hole hole
  | c :: s =>
      match extends_hole hole c with
      | Some name => pieces (Some name) s
      | None => close_hole hole ++ (if (c =? colon)%N then pieces (Some []) s else Lit c :: pieces None s)
      end
  end.

Definition hole_names (l : list piece) : list str := omap (fun p => match p with Hole n => Some n | Lit _ => None end) l.
Definition holes_in (hole : option str) (s : str) : list str := hole_names (pieces hole s).
Definition holes (s : str) : list str := holes_in None s.

Section statements.
Context {SP : Spelling}.

(* @src adapters/base.py Adapter.quoted *)
Definition quoted (identifier : str) : str := [34%N] ++ identifier ++ [34%N].

(* @src adapters/base.py Adapter._fold *)
Definition fold_name (identifier : str) : str := map (if sp_upper then to_ascii_upper else to_ascii_lower) identifier.

(* @src adapters/base.py Adapter.metadata_name *)
Definition metadata_name (logical : str) : str :=
  let physical := quoted (fold_name logical) in
  match sp_schema with None => physical | Some schema => quoted schema ++ "." ++ physical end.

(* @src adapters/base.py Adapter.metadata_column *)
Definition metadata_column (logical : str) : str := quoted (fold_name logical).

Definition render_piece (p : piece) : str :=
  match p with
  | Lit c => [c]
  | Hole n => if sp_pyformat then "%(" ++ n ++ ")s" else colon :: n
  end.

(* @src adapters/base.py Adapter._render *)
Definition render (sql : str) : str := replace_all "{now}" sp_now (concat (map render_piece (pieces None sql))).

(* @src adapters/base.py Adapter._columns *)
Definition columns (logical : list str) : str := join ", " (map metadata_column logical).

(** Bind values by name, each name once. *)
Definition bindings_list := list (str * pyval).

Definition bound (params : bindings_list) (name : str) : option pyval :=
  snd <$> find (fun p => bool_decide (p.1 = name)) params.

(* @src adapters/base.py Adapter._binds *)
Definition binds (sql : str) (params : bindings_list) : result pyexn bindings_list :=
  let names := remove_dups (holes sql) in
  raise_if (negb (forallb (fun n => match bound params n with Some _ => true | None => false end) names))
    (PyMigr8 (mk UsageError "engine-owned SQL is missing bind values"));;
  Ok (omap (fun n => (fun v => (n, v)) <$> bound params n) names).

(** ** The statements *)
(* @src adapters/metadata.py HISTORY_COLUMNS *)
Definition HISTORY_COLUMNS : list str :=
  ["seq"; "migration_id"; "fingerprint"; "first_fingerprint"; "language"; "mode"; "status"; "attempt"; "started_at";
   "last_attempt_at"; "finished_at"; "runner_host"; "runner_user"; "runner_pid"; "db_session"; "tool_version"].
(* @src adapters/metadata.py PROGRESS_COLUMNS *)
Definition PROGRESS_COLUMNS : list str := ["migration_id"; "prog_key"; "prog_value"; "updated_at"].
(* @src adapters/metadata.py META_COLUMNS *)
Definition META_COLUMNS : list str :=
  ["meta_key"; "layout_version"; "adapter"; "lock_provider"; "lock_binding"; "target_namespace"; "initialized_at"].
(* @src model.py META_SINGLETON_KEY *)
Definition META_SINGLETON_KEY : str := "singleton".

(* @src adapters/base.py Adapter._insert_history_sql *)
Definition insert_history_sql (status attempt finished : str) : str :=
  "INSERT INTO " ++ metadata_name HISTORY_TABLE ++ " (" ++ columns HISTORY_COLUMNS ++ ") VALUES " ++
  "(:seq, :migration_id, :fingerprint, :fingerprint, :language, " ++
  ":exec_mode, '" ++ status ++ "', " ++ attempt ++ ", {now}, {now}, " ++ finished ++ ", " ++
  ":runner_host, :runner_user, :runner_pid, :db_session, :tool_version)".

(** [SET] assignments and conditions. *)
Definition is_param (column name : str) : str := metadata_column column ++ " = :" ++ name.
Definition is_now (column : str) : str := metadata_column column ++ " = {now}".
Definition where_active : str :=
  "WHERE " ++ is_param "migration_id" "migration_id" ++ " AND " ++ metadata_column "status" ++ " = 'ACTIVE'".

(* @src adapters/base.py 784-796 Adapter.update_active_attempt (text) *)
Definition update_attempt_sql : str :=
  "UPDATE " ++ metadata_name HISTORY_TABLE ++ " SET " ++ metadata_column "attempt" ++ " = " ++ metadata_column "attempt" ++
  " + 1, " ++ is_param "fingerprint" "fingerprint" ++ ", " ++ is_param "language" "language" ++ ", " ++
  is_now "last_attempt_at" ++ ", " ++ is_param "runner_host" "runner_host" ++ ", " ++
  is_param "runner_user" "runner_user" ++ ", " ++ is_param "runner_pid" "runner_pid" ++ ", " ++
  is_param "db_session" "db_session" ++ ", " ++ is_param "tool_version" "tool_version" ++ " " ++ where_active.

(* @src adapters/base.py 814-818 Adapter.complete_active_row (update text) *)
Definition complete_sql : str :=
  "UPDATE " ++ metadata_name HISTORY_TABLE ++ " SET " ++ metadata_column "status" ++ " = 'SUCCESS', " ++
  is_now "finished_at" ++ ", " ++ is_param "tool_version" "tool_version" ++ " " ++ where_active.

(* @src adapters/base.py 826-827 Adapter.complete_active_row (delete text) *)
Definition delete_progress_sql : str :=
  "DELETE FROM " ++ metadata_name PROGRESS_TABLE ++ " WHERE " ++ is_param "migration_id" "migration_id".

(* @src adapters/base.py 884-906 Adapter.progress_set (text) *)
Definition upsert_progress_sql : str :=
  let progress := metadata_name PROGRESS_TABLE in
  if sp_on_conflict then
    "INSERT INTO " ++ progress ++ " (" ++ columns PROGRESS_COLUMNS ++ ") " ++
    "VALUES (:migration_id, :prog_key, :prog_value, {now}) " ++
    "ON CONFLICT (" ++ columns ["migration_id"; "prog_key"] ++ ") DO UPDATE SET " ++
    is_param "prog_value" "prog_value" ++ ", " ++ is_now "updated_at"
  else
    let mid := metadata_column "migration_id" in
    let pkey := metadata_column "prog_key" in
    "MERGE INTO " ++ progress ++ " target USING (SELECT :migration_id AS " ++ mid ++ ", :prog_key AS " ++ pkey ++
    " FROM " ++ sp_one_row ++ ") source ON (target." ++ mid ++ " = source." ++ mid ++ " AND target." ++ pkey ++
    " = source." ++ pkey ++ ") WHEN MATCHED THEN UPDATE SET target." ++ is_param "prog_value" "prog_value" ++
    ", target." ++ is_now "updated_at" ++ " WHEN NOT MATCHED THEN INSERT (" ++ columns PROGRESS_COLUMNS ++ ") " ++
    "VALUES (:migration_id, :prog_key, :prog_value, {now})".

(* @src adapters/base.py 474-476 Adapter.initialize (marker text) *)
Definition insert_marker_sql : str :=
  "INSERT INTO " ++ metadata_name META_TABLE ++ " (" ++ columns META_COLUMNS ++ ") " ++
  "VALUES (:meta_key, :layout_version, :adapter, :lock_provider, :lock_binding, :target_namespace, {now})".

Definition cmd_sql (c : metadata_cmd) : str :=
  match c with
  | InsertHistory status first finished _ _ _ _ _ _ =>
      insert_history_sql (status_value status) (if first then "1" else "NULL")
        (if finished then "{now}" else "NULL")
  | UpdateAttempt _ _ _ _ => update_attempt_sql
  | CompleteHistory _ _ => complete_sql
  | DeleteProgress _ => delete_progress_sql
  | UpsertProgress _ _ _ => upsert_progress_sql
  | InsertMarker _ _ _ _ _ => insert_marker_sql
  end.

Definition val_str (o : option str) : pyval := match o with Some s => VStr s | None => VNone end.
Definition val_int (o : option Z) : pyval := match o with Some z => VInt z | None => VNone end.

Definition runner_params (r : runner_binds) : bindings_list :=
  [("runner_host", val_str (rb_host r)); ("runner_user", val_str (rb_user r)); ("runner_pid", val_int (rb_pid r));
   ("db_session", val_str (rb_session r)); ("tool_version", VStr (rb_tool_version r))].

Definition cmd_params (c : metadata_cmd) : bindings_list :=
  match c with
  | InsertHistory _ _ _ seq mid fingerprint language mode r =>
      [("seq", VInt seq); ("migration_id", VStr mid); ("fingerprint", VStr fingerprint); ("language", VStr language);
       ("exec_mode", VStr mode)] ++ runner_params r
  | UpdateAttempt mid fingerprint language r =>
      [("fingerprint", VStr fingerprint); ("language", VStr language); ("migration_id", VStr mid)] ++ runner_params r
  | CompleteHistory mid tool_version => [("tool_version", VStr tool_version); ("migration_id", VStr mid)]
  | DeleteProgress mid => [("migration_id", VStr mid)]
  | UpsertProgress mid key value => [("migration_id", VStr mid); ("prog_key", VStr key); ("prog_value", VStr value)]
  | InsertMarker version adapter lock_provider lock_binding namespace =>
      [("meta_key", VStr META_SINGLETON_KEY); ("layout_version", VInt version); ("adapter", VStr adapter);
       ("lock_provider", VStr lock_provider); ("lock_binding", VStr lock_binding); ("target_namespace", VStr namespace)]
  end.

(** Queries. *)
(* @src adapters/base.py 519-519 Adapter._count (text) *)
Definition count_sql (table : str) : str := "SELECT COUNT(*) FROM " ++ metadata_name table.
(* @src adapters/base.py 503-504 Adapter._read_meta (text) *)
Definition read_meta_sql : str :=
  "SELECT " ++ columns META_COLUMNS ++ " FROM " ++ metadata_name META_TABLE ++ " WHERE " ++ is_param "meta_key" "meta_key".
(* @src adapters/base.py 864-867 Adapter.progress_get (text) *)
Definition progress_get_sql : str :=
  "SELECT " ++ metadata_column "prog_value" ++ " FROM " ++ metadata_name PROGRESS_TABLE ++ " WHERE " ++
  is_param "migration_id" "migration_id" ++ " AND " ++ is_param "prog_key" "prog_key".
(* @src adapters/sqlite.py 848-852 SqliteAdapter._read_snapshot (history query) *)
Definition select_history_sql : str := "SELECT " ++ join ", " HISTORY_COLUMNS ++ " FROM " ++ HISTORY_TABLE ++ " ORDER BY seq".
(* @src adapters/sqlite.py 855-859 SqliteAdapter._read_snapshot (progress query) *)
Definition select_progress_sql : str :=
  "SELECT " ++ join ", " PROGRESS_COLUMNS ++ " FROM " ++ PROGRESS_TABLE ++ " ORDER BY migration_id, prog_key".
End statements.

(** ** Rows read back

    A text column holds text; any other value in it is outside the model and counts
    as a type error. *)
Definition value_error : pyexn := PyException (builtin_exn "builtins.ValueError").
Definition type_error : pyexn := PyException (builtin_exn "builtins.TypeError").

(** What the interpreter makes of values that are outside the model. *)
Class PyRuntime := {
  int_of_text : str -> option Z;            (* [int(text)]; [None] is [ValueError] *)
  from_iso : str -> option timestamp;       (* [datetime.fromisoformat(text)]; [None] is [ValueError] *)
  obj_str : nat -> str;                     (* [str(object)] *)
  obj_datetime : nat -> option timestamp;   (* the object, if it is a [datetime] *)
  obj_collection : nat -> bool;             (* it is a list, a tuple or a dict *)
}.

Section rows.
Context {PR : PyRuntime}.

Definition py_str (v : pyval) : str :=
  match v with VNone => "None" | VInt z => dec_Z z | VStr s => s | VOther n => obj_str n end.

(* @src adapters/metadata.py parse_iso_timestamp *)
Definition parse_iso_timestamp (v : pyval) : result pyexn (option timestamp) :=
  match v with
  | VNone => Ok None
  | _ =>
      match (match v with VOther n => obj_datetime n | _ => None end) with
      | Some t => Ok (Some t)
      | None =>
          match from_iso (replace_all " " "T" (py_str v)) with
          | Some t => Ok (Some t)
          | None => Err value_error
          end
      end
  end.

Definition py_int (v : pyval) : result pyexn Z :=
  match v with
  | VInt z => Ok z
  | VStr s => match int_of_text s with Some z => Ok z | None => Err value_error end
  | _ => Err type_error
  end.

Definition py_int_or_none (v : pyval) : result pyexn (option Z) :=
  match v with VNone => Ok None | _ => z ← py_int v; Ok (Some z) end.

Definition py_text (v : pyval) : result pyexn str := match v with VStr s => Ok s | _ => Err type_error end.
Definition py_text_or_none (v : pyval) : result pyexn (option str) :=
  match v with VNone => Ok None | _ => s ← py_text v; Ok (Some s) end.

(** [dict(zip(COLUMNS, values, strict=True))]. *)
(* @src adapters/metadata.py history_row *)
Definition history_row (values : list pyval) : result pyexn HistoryRow :=
  match values with
  | [seq; mid; fp; first_fp; lang; mode; status; attempt; started; last; finished; host; user; pid; session; tool] =>
      seq ← py_int seq; mid ← py_text mid; fp ← py_text fp; first_fp ← py_text first_fp;
      lang ← py_text lang; mode ← py_text mode; status ← py_text status; attempt ← py_int_or_none attempt;
      started ← parse_iso_timestamp started; last ← parse_iso_timestamp last; finished ← parse_iso_timestamp finished;
      host ← py_text_or_none host; user ← py_text_or_none user; pid ← py_int_or_none pid;
      session ← py_text_or_none session; tool ← py_text_or_none tool;
      Ok (MkHistory seq mid fp first_fp lang mode status attempt started last finished host user pid session tool)
  | _ => Err value_error
  end.

(* @src adapters/metadata.py progress_row *)
Definition progress_row (values : list pyval) : result pyexn ProgressRow :=
  match values with
  | [mid; key; value; updated] =>
      mid ← py_text mid; key ← py_text key; value ← py_text value; updated ← parse_iso_timestamp updated;
      Ok (MkProgress mid key value updated)
  | _ => Err value_error
  end.

(* @src adapters/metadata.py meta_row *)
Definition meta_row (values : list pyval) : result pyexn MetaRow :=
  match values with
  | [_; version; adapter; provider; binding; namespace; initialized] =>
      version ← py_int version; adapter ← py_text adapter; provider ← py_text provider; binding ← py_text binding;
      namespace ← py_text namespace; initialized ← parse_iso_timestamp initialized;
      Ok (MkMeta version adapter provider binding namespace initialized)
  | _ => Err value_error
  end.
End rows.

(** ** Every statement is bound

    [pieces] a part at a time: what a text contributes, and the name it leaves open. *)
Fixpoint run_pieces (hole : option str) (s : str) : list piece * option str :=
  match s with
  | [] => ([], hole)
  | c :: s =>
      match extends_hole hole c with
      | Some name => run_pieces (Some name) s
      | None =>
          let '(out, final) := if (c =? colon)%N then run_pieces (Some []) s else run_pieces None s in
          (close_hole hole ++ (if (c =? colon)%N then [] else [Lit c]) ++ out, final)
      end
  end.

Lemma pieces_app a b hole : pieces hole (a ++ b) = (run_pieces hole a).1 ++ pieces (run_pieces hole a).2 b.
Proof.
  revert hole. induction a as [|c a IH]; intros hole; [done|]. simpl. destruct (extends_hole hole c); [done|].
  destruct (c =? colon)%N.
  - rewrite IH. destruct (run_pieces (Some []) a). simpl. by rewrite app_assoc.
  - rewrite IH. destruct (run_pieces None a). simpl. by rewrite <-app_assoc.
Qed.

Lemma holes_in_app hole a b : holes_in hole (a ++ b) = hole_names (run_pieces hole a).1 ++ holes_in (run_pieces hole a).2 b.
Proof. unfold holes_in, hole_names. by rewrite pieces_app, omap_app. Qed.

Definition colon_free (s : str) : Prop := Forall (fun c => c <> colon) s.

Lemma run_literal a : colon_free a -> run_pieces None a = (map Lit a, None).
Proof. induction 1 as [|c a Hc _ IH]; [done|]. simpl. apply N.eqb_neq in Hc. by rewrite Hc, IH. Qed.

Lemma holes_in_literal a b : colon_free a -> holes_in None (a ++ b) = holes_in None b.
Proof.
  intros Ha. rewrite holes_in_app, run_literal by done. simpl.
  replace (hole_names (map Lit a)) with ([] : list str); [done|]. clear. by induction a.
Qed.

(** Text without placeholders and braces is rendered as it is. *)
Definition brace : char := 123%N.

Lemma replace_now_cons new c s : c <> brace -> replace_skipping "{now}" new 0 (c :: s) = c :: replace_skipping "{now}" new 0 s.
Proof.
  intros Hc. cbn [replace_skipping]. change (starts_with "{now}" (c :: s)) with ((brace =? c)%N && starts_with "now}" s).
  by rewrite (proj2 (N.eqb_neq _ _)) by congruence.
Qed.

Lemma render_literal {SP : Spelling} a b : Forall (fun c => c <> colon /\ c <> brace) a -> render (a ++ b) = a ++ render b.
Proof.
  intros Ha. unfold render, replace_all. rewrite pieces_app, run_literal by (eapply Forall_impl; [exact Ha|]; naive_solver).
  cbn [fst snd]. rewrite map_app, concat_app. induction Ha as [|c a [_ Hc] _ IH]; [done|].
  cbn [map render_piece concat app]. by rewrite replace_now_cons, IH.
Qed.

(** Binding succeeds when every placeholder has a value, with just the placeholders. *)
Lemma binds_Ok sql params : (forall n, n ∈ holes sql -> n ∈ params.*1) ->
  exists l, binds sql params = Ok l /\ forall n, n ∈ l.*1 <-> n ∈ holes sql.
Proof.
  intros Hall. unfold binds.
  assert (forall n, n ∈ holes sql -> exists v, bound params n = Some v) as Hbound.
  { intros n Hn%Hall. apply list_elem_of_fmap in Hn as (p & -> & Hp). unfold bound.
    destruct (find _ params) as [[m v]|] eqn:Hf; [by exists v|].
    apply find_none with (x := p) in Hf; [|by apply list_elem_of_In]. by rewrite bool_decide_eq_true_2 in Hf. }
  assert (forallb (fun n => match bound params n with Some _ => true | None => false end) (remove_dups (holes sql)) = true) as ->.
  { apply forallb_forall. intros n Hn. apply list_elem_of_In in Hn. rewrite elem_of_remove_dups in Hn. by destruct (Hbound n Hn) as [v ->]. }
  eexists. split; [done|]. intros n. rewrite list_elem_of_fmap. split.
  - intros ([m v] & -> & Hm). apply list_elem_of_omap in Hm as (m' & Hm' & Hv).
    destruct (bound params m'); simplify_eq/=. by rewrite elem_of_remove_dups in Hm'.
  - intros Hn. destruct (Hbound n Hn) as [v Hv]. exists (n, v). split; [done|]. apply list_elem_of_omap.
    exists n. rewrite elem_of_remove_dups, Hv. done.
Qed.

(** A dialect whose parts hold no colon, as validated identifiers do not. *)
Definition plain_spelling (SP : Spelling) : Prop :=
  colon_free sp_one_row /\ match sp_schema with Some schema => colon_free schema | None => True end.

(** Reads off the placeholders of a template: parts known to hold no colon, and
    constant parts by evaluation. *)
Ltac read_holes :=
  repeat match goal with
  | H : colon_free ?a |- context [holes_in None (?a ++ ?b)] => rewrite (holes_in_literal a b) by exact H
  | |- context [holes_in ?h ((?a ++ ?b) ++ ?c)] => rewrite <-(app_assoc a b c)
  | |- context [holes_in ?h (?a ++ ?b)] =>
      rewrite (holes_in_app h a b);
      let r := eval vm_compute in (run_pieces h a) in change (run_pieces h a) with r; cbn [fst snd]
  end.

Lemma colon_free_checked (t : str) : forallb (fun c => negb (c =? colon)%N) t = true -> colon_free t.
Proof.
  rewrite forallb_forall. intros Ht. apply Forall_forall. intros c Hc%list_elem_of_In. apply Ht in Hc.
  by apply negb_true_iff, N.eqb_neq in Hc.
Qed.

Lemma elem_of_checked (n : str) (l names : list str) : forallb (fun m => bool_decide (m ∈ names)) l = true -> n ∈ l -> n ∈ names.
Proof. rewrite forallb_forall. intros Hl Hn. eapply bool_decide_eq_true, Hl. by apply list_elem_of_In. Qed.

Lemma cmd_holes (SP : Spelling) c n : plain_spelling SP -> n ∈ holes (cmd_sql c) -> n ∈ (cmd_params c).*1.
Proof.
  intros [Hone Hschema]. unfold holes. destruct SP as [pf now oc one up sch]. simpl in Hone, Hschema.
  destruct c as [status first finished ? ? ? ? ? ?| | | | |]; cbn [cmd_sql].
  1: assert (colon_free (status_value status)) as Hstatus by (destruct status; by apply colon_free_checked).
  1: assert (colon_free (if first then "1" else "NULL")) as Hfirst by (destruct first; by apply colon_free_checked).
  1: assert (colon_free (if finished then "{now}" else "NULL")) as Hfinished by (destruct finished; by apply colon_free_checked).
  all: unfold insert_history_sql, update_attempt_sql, complete_sql, delete_progress_sql, upsert_progress_sql, insert_marker_sql,
    where_active, metadata_name, quoted; cbn [sp_schema sp_on_conflict sp_one_row].
  all: destruct sch as [schema|], up; try destruct oc; read_holes; apply elem_of_checked; vm_compute; reflexivity.
Qed.

(** An engine-owned statement is never short of a value. On every dialect whose
    schema and one-row table are written without colons, each history, progress
    and marker statement binds, and the values bound are those of its placeholders,
    no more and no fewer. *)
Lemma commands_bound (SP : Spelling) c (Hplain : plain_spelling SP) :
  exists l, binds (cmd_sql c) (cmd_params c) = Ok l /\ forall n, n ∈ l.*1 <-> n ∈ holes (cmd_sql c).
Proof. apply binds_Ok. intros n. by apply cmd_holes. Qed.

Definition demo_binds : runner_binds := MkBinds (Some "host") (Some "user") (Some 7%Z) None "1.0".

Lemma commands_bound_witness :
  exists l, binds (cmd_sql (SP := oracle_spelling "APP") (UpsertProgress "m1" "cursor" "10"))
      (cmd_params (UpsertProgress "m1" "cursor" "10")) = Ok l /\
    forall n, n ∈ l.*1 <-> n ∈ holes (cmd_sql (SP := oracle_spelling "APP") (UpsertProgress "m1" "cursor" "10")).
Proof. apply (commands_bound (oracle_spelling "APP")). split; by apply colon_free_checked. Defined.

(** What the drivers are given. *)
Example rendered_delete :
  render (SP := postgres_spelling "app") (cmd_sql (SP := postgres_spelling "app") (DeleteProgress "m1")) =
    ("DELETE FROM " ++ [34%N] ++ "app" ++ [34%N] ++ "." ++ [34%N] ++ "m8_progress" ++ [34%N] ++ " WHERE " ++
     [34%N] ++ "migration_id" ++ [34%N] ++ " = %(migration_id)s").
Proof. vm_compute. reflexivity. Qed.
