(* ===== verification/SqliteText.v ===== *)
(** * The SQLite metadata definitions ([adapters/sqlite.py], module level)

    The statements that create the metadata objects, the scanner over the text
    SQLite keeps of a statement, and what it reads from such a text: the CHECK
    clauses, the predicate of a partial index, the canonical form. *)
From S2P Require Import Prelude PyStr Errors Paths Manifest Model SqlText Admission Metadata Statements.
Open Scope str_scope.

(** ** The supported layout *)
(* @src adapters/sqlite.py 123-145 _DDL[HISTORY_TABLE] *)
Definition HISTORY_DDL : str := "
        CREATE TABLE m8_history (
            seq               INTEGER NOT NULL UNIQUE CHECK (seq > 0),
            migration_id      TEXT    NOT NULL PRIMARY KEY,
            fingerprint       TEXT    NOT NULL,
            first_fingerprint TEXT    NOT NULL,
            language          TEXT    NOT NULL CHECK (language IN ('sql','python')),
            mode              TEXT    NOT NULL CHECK (mode IN ('atomic','restartable')),
            status            TEXT    NOT NULL CHECK (status IN ('ACTIVE','SUCCESS')),
            attempt           INTEGER          CHECK (attempt IS NULL OR attempt > 0),
            started_at        TEXT    NOT NULL,
            last_attempt_at   TEXT,
            finished_at       TEXT,
            runner_host       TEXT,
            runner_user       TEXT,
            runner_pid        INTEGER,
            db_session        TEXT,
            tool_version      TEXT    NOT NULL,
            CHECK (status <> 'ACTIVE' OR mode = 'restartable'),
            CHECK (status <> 'ACTIVE' OR (attempt IS NOT NULL AND finished_at IS NULL)),
            CHECK (status <> 'SUCCESS' OR finished_at IS NOT NULL)
        )
    ".

(* @src adapters/sqlite.py 146-149 _DDL[ACTIVE_INDEX] *)
Definition ACTIVE_INDEX_DDL : str := "
        CREATE UNIQUE INDEX m8_history_one_active
            ON m8_history (status) WHERE status = 'ACTIVE'
    ".

(* @src adapters/sqlite.py 150-158 _DDL[PROGRESS_TABLE] *)
Definition PROGRESS_DDL : str := "
        CREATE TABLE m8_progress (
            migration_id TEXT NOT NULL REFERENCES m8_history (migration_id),
            prog_key     TEXT NOT NULL CHECK (length(prog_key) BETWEEN 1 AND 128),
            prog_value   TEXT NOT NULL CHECK (length(prog_value) >= 1),
            updated_at   TEXT NOT NULL,
            PRIMARY KEY (migration_id, prog_key)
        )
    ".

(* @src adapters/sqlite.py 159-170 _DDL[META_TABLE] *)
Definition META_DDL : str := "
        CREATE TABLE m8_meta (
            meta_key         TEXT    NOT NULL PRIMARY KEY
                             CHECK (meta_key = 'singleton'),
            layout_version   INTEGER NOT NULL,
            adapter          TEXT    NOT NULL,
            lock_provider    TEXT    NOT NULL,
            lock_binding     TEXT    NOT NULL,
            target_namespace TEXT    NOT NULL,
            initialized_at   TEXT    NOT NULL
        )
    ".

(* @src adapters/sqlite.py 122-171 _DDL *)
Definition DDL : list (str * str) :=
  [(HISTORY_TABLE, HISTORY_DDL); (ACTIVE_INDEX, ACTIVE_INDEX_DDL); (PROGRESS_TABLE, PROGRESS_DDL); (META_TABLE, META_DDL)].

(** [_DDL[name]]. *)
Definition ddl_of (name : str) : option str := snd <$> find (fun kv => bool_decide (kv.1 = name)) DDL.

(** A column: its name, its declared type, whether it is NOT NULL. *)
Definition column : Type := str * str * Z.

(* @src adapters/sqlite.py _EXPECTED_COLUMNS *)
Definition EXPECTED_COLUMNS (table : str) : option (list column) :=
  if bool_decide (table = HISTORY_TABLE) then Some
    [("seq", "INTEGER", 1%Z); ("migration_id", "TEXT", 1%Z); ("fingerprint", "TEXT", 1%Z); ("first_fingerprint",
       "TEXT", 1%Z); ("language", "TEXT", 1%Z); ("mode", "TEXT", 1%Z); ("status", "TEXT", 1%Z); ("attempt",
       "INTEGER", 0%Z); ("started_at", "TEXT", 1%Z); ("last_attempt_at", "TEXT", 0%Z); ("finished_at", "TEXT",
       0%Z); ("runner_host", "TEXT", 0%Z); ("runner_user", "TEXT", 0%Z); ("runner_pid", "INTEGER", 0%Z);
       ("db_session", "TEXT", 0%Z); ("tool_version", "TEXT", 1%Z)]
  else if bool_decide (table = PROGRESS_TABLE) then Some
    [("migration_id", "TEXT", 1%Z); ("prog_key", "TEXT", 1%Z); ("prog_value", "TEXT", 1%Z); ("updated_at", "TEXT",
       1%Z)]
  else if bool_decide (table = META_TABLE) then Some
    [("meta_key", "TEXT", 1%Z); ("layout_version", "INTEGER", 1%Z); ("adapter", "TEXT", 1%Z); ("lock_provider",
       "TEXT", 1%Z); ("lock_binding", "TEXT", 1%Z); ("target_namespace", "TEXT", 1%Z); ("initialized_at", "TEXT",
       1%Z)]
  else None.

(* @src adapters/sqlite.py _EXPECTED_KEYS *)
Definition EXPECTED_KEYS (table : str) : list ExpectedKey :=
  if bool_decide (table = HISTORY_TABLE) then [KeyPrimary "migration_id"; KeyUnique "seq"]
  else if bool_decide (table = PROGRESS_TABLE) then
    [KeyPrimary "migration_id,prog_key"; KeyForeign "migration_id" HISTORY_TABLE "migration_id"]
  else if bool_decide (table = META_TABLE) then [KeyPrimary "meta_key"]
  else [].

(* @src adapters/sqlite.py ACTIVE_INDEX_COLUMN *)
Definition ACTIVE_INDEX_COLUMN : str := "status".
(* @src adapters/sqlite.py ACTIVE_INDEX_PREDICATE *)
Definition ACTIVE_INDEX_PREDICATE : str := "status = 'ACTIVE'".

(** ** The scanner *)
Definition c_lbracket : char := 91%N.
Definition c_rbracket : char := 93%N.
Definition c_backtick : char := 96%N.

Definition def_ident_part (c : char) : bool := ascii_alnum c || (c =? 95)%N || (c =? c_dollar)%N.
Definition def_operators : list str := ["<>"; "!="; "<="; ">="; "||"].

(** Length of a comment at the head of [s], if there is one that ends. *)
Definition comment_len (s : str) : option nat :=
  if starts_with "--" s then Some (span_len (fun c => negb (c =? 10)%N) s)
  else if starts_with "/*" s then (fun i => i + 2) <$> find_from "*/" s 2
  else None.

Section scanner.
Context {UC : Unicode}.

(** Length of the match of [_DEFINITION_TOKEN] at the head of [s]; a slash that
    opens no comment is an operator. As with [condition_token], a quote that
    does not end leaves a text that no alternative matches. *)
(* @src adapters/sqlite.py _DEFINITION_TOKEN *)
Definition definition_token (s : str) : option nat :=
  match s with
  | [] => None
  | c :: s' =>
      if (c =? c_squote)%N || (c =? c_dquote)%N || (c =? c_backtick)%N then S <$> quoted_len c s'
      else if (c =? c_lbracket)%N then (fun i => S i) <$> find_from [c_rbracket] s 1
      else match comment_len s with
      | Some n => Some n
      | None =>
          if cond_ident_start c then Some (span_len def_ident_part s)
          else if uc_isdecimal c then
            let n := span_len uc_isdecimal s in Some (n + number_groups (length s) (drop n s))
          else if existsb (fun op => starts_with op s) def_operators then Some 2
          else if one_of "(),.;+-*/%<>=~&|" c then Some 1
          else if uc_isspace c then Some (span_len uc_isspace s)
          else None
      end
  end.

(** A significant token: its text, and where it starts and ends. *)
Definition def_token : Type := str * nat * nat.
Definition dt_text (t : def_token) : str := t.1.1.
Definition dt_start (t : def_token) : nat := t.1.2.
Definition dt_end (t : def_token) : nat := t.2.

Definition insignificant (text : str) : bool := forallb uc_isspace text || starts_with "--" text || starts_with "/*" text.

(** Every match is non-empty, so [length sql] iterations are enough ([def_tokens_total]). *)
Fixpoint def_tokens (fuel position : nat) (s : str) : option (list def_token) :=
  match s, fuel with
  | [], _ => Some []
  | _, O => None
  | _, S fuel =>
      n ← definition_token s;
      found ← def_tokens fuel (position + n) (drop n s);
      let text := take n s in
      Some (if insignificant text then found else (text, position, position + n) :: found)
  end.

(* @src adapters/sqlite.py _tokens *)
Definition tokens (sql : str) : option (list def_token) := def_tokens (length sql) 0 sql.
End scanner.

(** The rest of the tokens from the one that closes the parenthesis open at [depth]. *)
(* @src adapters/sqlite.py _closing_paren *)
Fixpoint closing_paren (depth : nat) (l : list def_token) : option def_token :=
  match l with
  | [] => None
  | t :: l =>
      if bool_decide (dt_text t = "(") then closing_paren (S depth) l
      else if bool_decide (dt_text t = ")") then
        match depth with
        | O => closing_paren depth l
        | 1 => Some t
        | S depth => closing_paren depth l
        end
      else closing_paren depth l
  end.

(* @src adapters/sqlite.py _check_clauses *)
Fixpoint check_clauses (sql : str) (l : list def_token) : list str :=
  match l with
  | [] => []
  | t :: l =>
      match l with
      | next :: _ =>
          if bool_decide (lower_str (dt_text t) = "check") && bool_decide (dt_text next = "(") then
            match closing_paren 0 l with
            | Some close => slice sql (dt_end next) (dt_start close) :: check_clauses sql l
            | None => check_clauses sql l
            end
          else check_clauses sql l
      | [] => check_clauses sql l
      end
  end.

(** The depth can fall below zero on unbalanced text. *)
(* @src adapters/sqlite.py _where_predicate *)
Fixpoint where_predicate (sql : str) (depth : Z) (l : list def_token) : option str :=
  match l with
  | [] => None
  | t :: l =>
      if bool_decide (dt_text t = "(") then where_predicate sql (depth + 1) l
      else if bool_decide (dt_text t = ")") then where_predicate sql (depth - 1) l
      else if (depth =? 0)%Z && bool_decide (lower_str (dt_text t) = "where") then Some (drop (dt_end t) sql)
      else where_predicate sql depth l
  end.

Section canonical.
Context {UC : Unicode}.

(* @src adapters/sqlite.py _canonical *)
Definition canonical (sql : str) : option str := canonical_condition lower_str (Some sql).

(** [None] where the module's own text would not scan. *)
(* @src adapters/sqlite.py _declared *)
Definition declared (sql : str) : option (str * list str) :=
  ts ← tokens sql;
  form ← canonical sql;
  checks ← mapM canonical (check_clauses sql ts);
  Some (form, checks).

(* @src adapters/sqlite.py _EXPECTED_DEFINITION *)
Definition EXPECTED_DEFINITION (name : str) : option str := fst <$> (ddl_of name ≫= declared).
(* @src adapters/sqlite.py _EXPECTED_CHECKS *)
Definition EXPECTED_CHECKS (name : str) : list str := default [] (snd <$> (ddl_of name ≫= declared)).

(** ** Problems that the text alone shows *)
(* @src adapters/sqlite.py _unreadable *)
Definition unreadable (name : str) : str := name ++ " has a definition this tool cannot read".

(* @src adapters/sqlite.py _definition_differences *)
Definition definition_differences (name sql : str) : list str :=
  let stored := canonical sql in
  if bool_decide (stored = EXPECTED_DEFINITION name) then []
  else match stored with
       | None => [unreadable name]
       | Some _ => [name ++ " is defined otherwise, which is not the supported layout"]
       end.

(* @src adapters/sqlite.py SqliteAdapter._check_constraint_problems *)
Definition check_constraint_problems (table sql : str) : list str :=
  match tokens sql with
  | None => [unreadable table]
  | Some ts => check_problems lower_str [] (map (fun clause => (Some clause, true)) (check_clauses sql ts)) (EXPECTED_CHECKS table)
  end.

(** The predicate of the one-ACTIVE index. *)
(* @src adapters/sqlite.py 767-780 SqliteAdapter._index_problems (predicate) *)
Definition predicate_problems (name sql : str) : list str :=
  match tokens sql with
  | None => [unreadable name]
  | Some ts =>
      match where_predicate sql 0 ts with
      | None => [name ++ " has no WHERE clause"]
      | Some predicate =>
          if bool_decide (canonical predicate = canonical ACTIVE_INDEX_PREDICATE) then []
          else [name ++ " is restricted by another predicate"]
      end
  end.
End canonical.

(** ** Lemmas *)
Lemma span_len_ext p q s : forallb is_ascii s = true -> (forall c, is_ascii c = true -> p c = q c) -> span_len p s = span_len q s.
Proof.
  intros Hs Hpq. induction s as [|c s IH]; simpl in *; [done|]. apply andb_true_iff in Hs as [Hc Hs].
  rewrite (Hpq c Hc), IH by done. done.
Qed.

Lemma forallb_drop {A} (p : A -> bool) n l : forallb p l = true -> forallb p (drop n l) = true.
Proof.
  intros Hl. rewrite <-(take_drop n l), forallb_app in Hl. by apply andb_true_iff in Hl as [_ ?].
Qed.

Lemma forallb_take {A} (p : A -> bool) n l : forallb p l = true -> forallb p (take n l) = true.
Proof.
  intros Hl. rewrite <-(take_drop n l), forallb_app in Hl. by apply andb_true_iff in Hl as [? _].
Qed.

Lemma forallb_ext_ascii p q (s : str) : forallb is_ascii s = true -> (forall c, is_ascii c = true -> p c = q c) ->
  forallb p s = forallb q s.
Proof.
  intros Hs Hpq. induction s as [|c s IH]; simpl in *; [done|]. apply andb_true_iff in Hs as [Hc Hs].
  rewrite (Hpq c Hc), IH by done. done.
Qed.

#[export] Hint Resolve forallb_drop forallb_take : migr8.

(** ** The scan ends *)
Section total.
Context {UC : Unicode}.

Lemma comment_len_pos s n : comment_len s = Some n -> 0 < n.
Proof.
  unfold comment_len. destruct (starts_with "--" s) eqn:E.
  - destruct s as [|c s]; [done|]. unfold starts_with in E. fold starts_with in E. apply andb_true_iff in E as [Hc%N.eqb_eq _].
    subst c. intros [= <-]. simpl. lia.
  - destruct (starts_with "/*" s); [|done]. destruct (find_from _ _ _); [|done]. intros [= <-]. lia.
Qed.

Lemma ident_start_part c : cond_ident_start c = true -> def_ident_part c = true.
Proof. unfold cond_ident_start, def_ident_part, ascii_alnum. intros [->| ->]%orb_true_iff; [done|]. by rewrite orb_true_r. Qed.

Lemma definition_token_pos s n : definition_token s = Some n -> 0 < n.
Proof.
  unfold definition_token. destruct s as [|c s]; [done|].
  destruct (comment_len (c :: s)) as [m|] eqn:Hc; [apply comment_len_pos in Hc|].
  all: repeat case_match; intros Hn; simplify_eq; try lia.
  all: try (destruct (quoted_len _ _); simplify_eq/=; lia); try (destruct (find_from _ _ _); simplify_eq/=; lia).
  - simpl. match goal with Hi : cond_ident_start c = true |- _ => rewrite (ident_start_part c Hi) end. lia.
  - simpl. match goal with Hi : uc_isdecimal c = true |- _ => rewrite Hi end. lia.
  - simpl. match goal with Hi : uc_isspace c = true |- _ => rewrite Hi end. lia.
Qed.

(** More fuel than the length changes nothing. *)
Lemma def_tokens_total fuel position s :
  length s <= fuel -> def_tokens fuel position s = def_tokens (length s) position s.
Proof.
  revert fuel position. remember (length s) as m eqn:Hm. revert s Hm.
  induction m as [m IH] using lt_wf_ind. intros s Hm fuel position Hf.
  destruct s as [|c s]; [by destruct fuel, m|]. simpl in Hm. subst m.
  destruct fuel as [|fuel]; [lia|]. cbn [def_tokens].
  destruct (definition_token (c :: s)) as [n|] eqn:Hn; [|done]. cbn [mbind option_bind].
  apply definition_token_pos in Hn.
  assert (length (drop n (c :: s)) <= length s) by (rewrite length_drop; simpl; lia).
  rewrite (IH (length (drop n (c :: s)))) by (try done; simpl; lia).
  rewrite (IH (length (drop n (c :: s))) ltac:(simpl; lia) _ eq_refl (length s)) by lia. done.
Qed.
End total.

Section ascii.
Context {UC : Unicode}.

Lemma number_groups_ascii fuel s : forallb is_ascii s = true ->
  number_groups (UC := UC) fuel s = number_groups (UC := ascii_unicode) fuel s.
Proof.
  revert s. induction fuel as [|fuel IH]; intros s Hs; [done|]. destruct s as [|c s]; [done|].
  simpl in Hs. apply andb_true_iff in Hs as [Hc Hs]. cbn [number_groups].
  rewrite (span_len_ext uc_isdecimal ascii_digit s Hs uc_isdecimal_ascii), IH by auto with migr8.
  replace (char_at uc_isdecimal s 0) with (char_at ascii_digit s 0); [done|].
  unfold char_at. destruct s as [|d s]; [done|]. simpl in *. apply andb_true_iff in Hs as [Hd _].
  by rewrite uc_isdecimal_ascii.
Qed.

Lemma condition_token_ascii s : forallb is_ascii s = true ->
  condition_token (UC := UC) s = condition_token (UC := ascii_unicode) s.
Proof.
  intros Hs. destruct s as [|c s]; [done|]. pose proof Hs as Hs'. simpl in Hs'. apply andb_true_iff in Hs' as [Hc _].
  unfold condition_token. rewrite (uc_isdecimal_ascii c Hc), (uc_isspace_ascii c Hc).
  rewrite (span_len_ext uc_isdecimal ascii_digit _ Hs uc_isdecimal_ascii).
  rewrite (span_len_ext uc_isspace ascii_space _ Hs uc_isspace_ascii).
  by rewrite number_groups_ascii by auto with migr8.
Qed.

Lemma definition_token_ascii s : forallb is_ascii s = true ->
  definition_token (UC := UC) s = definition_token (UC := ascii_unicode) s.
Proof.
  intros Hs. destruct s as [|c s]; [done|]. pose proof Hs as Hs'. simpl in Hs'. apply andb_true_iff in Hs' as [Hc _].
  unfold definition_token. rewrite (uc_isdecimal_ascii c Hc), (uc_isspace_ascii c Hc).
  rewrite (span_len_ext uc_isdecimal ascii_digit _ Hs uc_isdecimal_ascii).
  rewrite (span_len_ext uc_isspace ascii_space _ Hs uc_isspace_ascii).
  by rewrite number_groups_ascii by auto with migr8.
Qed.

Lemma canonical_tokens_ascii fold fuel s : forallb is_ascii s = true ->
  canonical_tokens (UC := UC) fold fuel s = canonical_tokens (UC := ascii_unicode) fold fuel s.
Proof.
  revert s. induction fuel as [|fuel IH]; intros s Hs; [by destruct s|]. destruct s as [|c s]; [done|].
  cbn [canonical_tokens]. rewrite condition_token_ascii by done. destruct (condition_token _) as [n|]; [|done]. simpl.
  rewrite IH by auto with migr8. destruct (canonical_tokens _ _ _); [|done]. simpl. unfold canonical_token.
  by rewrite (forallb_ext_ascii uc_isspace ascii_space _ (forallb_take _ n _ Hs) uc_isspace_ascii).
Qed.

Lemma canonical_ascii s : forallb is_ascii s = true -> canonical (UC := UC) s = canonical (UC := ascii_unicode) s.
Proof. intros Hs. unfold canonical, canonical_condition. simpl. by rewrite canonical_tokens_ascii. Qed.

Lemma def_tokens_ascii fuel pos s : forallb is_ascii s = true ->
  def_tokens (UC := UC) fuel pos s = def_tokens (UC := ascii_unicode) fuel pos s.
Proof.
  revert pos s. induction fuel as [|fuel IH]; intros pos s Hs; [by destruct s|]. destruct s as [|c s]; [done|].
  cbn [def_tokens]. rewrite definition_token_ascii by done. destruct (definition_token _) as [n|]; [|done]. simpl.
  rewrite IH by auto with migr8. unfold insignificant.
  by rewrite (forallb_ext_ascii uc_isspace ascii_space _ (forallb_take _ n _ Hs) uc_isspace_ascii).
Qed.

Lemma tokens_ascii s : forallb is_ascii s = true -> tokens (UC := UC) s = tokens (UC := ascii_unicode) s.
Proof. apply def_tokens_ascii. Qed.

Lemma check_clauses_ascii sql l : forallb is_ascii sql = true -> Forall (fun c => forallb is_ascii c = true) (check_clauses sql l).
Proof.
  intros Hs. induction l as [|t l IH]; simpl; [constructor|]. destruct l as [|next l]; [done|].
  destruct (_ && _); [|done]. destruct (closing_paren 0 _); [|done]. constructor; [|done].
  unfold slice. auto with migr8.
Qed.

Lemma mapM_ext_Forall {A B} (f g : A -> option B) l : Forall (fun x => f x = g x) l -> mapM f l = mapM g l.
Proof. induction 1 as [|x l Hx _ IH]; simpl; [done|]. by rewrite Hx, IH. Qed.

Lemma declared_ascii s : forallb is_ascii s = true -> declared (UC := UC) s = declared (UC := ascii_unicode) s.
Proof.
  intros Hs. unfold declared. rewrite tokens_ascii, canonical_ascii by done.
  destruct (tokens s) as [ts|]; [|done]. simpl. destruct (canonical s); [|done]. simpl.
  erewrite mapM_ext_Forall; [done|]. eapply Forall_impl; [by apply check_clauses_ascii|]. apply canonical_ascii.
Qed.

(** The module's own statements scan, whatever the Unicode tables. *)
Lemma declared_total name : name ∈ CREATION_ORDER ->
  exists sql d, ddl_of name = Some sql /\ declared sql = Some d /\ declared (UC := ascii_unicode) sql = Some d.
Proof.
  intros Hn%list_elem_of_In. simpl in Hn.
  destruct_or! Hn; subst; try contradiction.
  all: eexists _, _; split; [reflexivity|]; rewrite declared_ascii by reflexivity.
  all: match goal with |- ?x = _ /\ _ => let v := eval vm_compute in x in change x with v end; done.
Qed.
End ascii.
