(* ===== verification/Adapter.v ===== *)
(** * The shared adapter ([adapters/base.py])

    The operation guard, the engine-owned transactions and commits, the history
    transitions, the progress store, initialization and inspection, over the raw
    operations of [World]. *)
From S2P Require Import Prelude PyStr Errors Latch Paths Manifest Model SqlText Admission Metadata Checks World.
Open Scope str_scope.

Section adapter.
Context {S : Type} {DR : Driver S} {UC : Unicode} {D : Dialect}.
Context (b : bindings).

(** ** The operation guard *)

(** The failure of a guarded call: re-raised when it is settled, otherwise an
    unknown outcome, which closes the latch. *)
(* @src adapters/base.py 244-262 Adapter.guarded (except BaseException) *)
Definition guard_failure {A} (operation phase : str) (mid : option str) (commit_capable : bool) (x : pyexn) : M S A :=
  let unknown :=
    let error := mk_unknown (describe_exception x) operation phase mid in
    has ← gets w_has_latch;
    when has (do_latch latch_unknown error;; mret tt);;
    raise_error error in
  match x with
  | PyMigr8 _ => raise x
  | PyException d =>
      match ad_classify_call d commit_capable with
      | SERVER_REJECTION => raise x
      | COMMUNICATION_FAILURE => unknown
      end
  | PyInterrupt => if commit_capable then unknown else raise x
  end.

(* @src adapters/base.py Adapter.guarded *)
Definition guarded {A} (operation phase : str) (mid : option str) (commit_capable : bool) (func : M S A) : M S A :=
  has ← gets w_has_latch;
  when has latch_check;;
  try_except func (guard_failure operation phase mid commit_capable).

(* @src adapters/base.py Adapter._guard_metadata *)
Definition guard_metadata {A} (operation phase : str) (mid : option str) (commit_capable : bool) (func : M S A) : M S A :=
  guarded operation phase mid commit_capable func.

(* @src testing/hooks.py fire *)
Definition fire (boundary : Boundary) (phase : str) : M S unit := raw (RFire boundary phase).

(** ** Transactions *)
(* @src adapters/base.py Adapter.has_open_transaction *)
Definition has_open_transaction : M S bool :=
  guard_metadata "transaction-state probe" "transaction_state" None false (raw RHasOpen).

(* @src adapters/base.py Adapter.batch_transaction_state *)
Definition batch_transaction_state : M S BatchTransactionState := raw RBatchState.

(* @src adapters/base.py Adapter.begin *)
Definition begin : M S unit :=
  open ← gets w_engine_txn;
  when open (raise_error (usage "an engine transaction is already open"));;
  held ← has_open_transaction;
  when held (raise_error (usage "a transaction is already open with uncommitted work"));;
  guard_metadata "transaction begin" "transaction_begin" None false (raw RBegin);;
  modify (set_engine_txn true).

(* @src adapters/base.py Adapter.commit *)
Definition commit : M S unit := raw RCommit;; modify (set_engine_txn false).

(* @src adapters/base.py Adapter.rollback *)
Definition rollback : M S unit := raw RRollback;; modify (set_engine_txn false).

(* @src adapters/base.py Adapter.durable_commit *)
Definition durable_commit (boundary : Boundary) (mid : option str) : M S unit :=
  fire boundary "before_commit";;
  guarded (boundary_value boundary ++ " commit") (boundary_value boundary) mid true commit;;
  fire boundary "after_commit".

(* @src adapters/base.py Adapter.establish_transaction_identity *)
Definition establish_transaction_identity : M S (option str) :=
  guard_metadata "establishing the transaction identity" "transaction_identity" None false (raw REstablishIdentity).

(* @src adapters/base.py Adapter.read_transaction_identity *)
Definition read_transaction_identity : M S (option str) :=
  guard_metadata "reading the transaction identity" "transaction_identity" None false (raw RReadIdentity).

(** ** Engine-owned statements *)
(* @src adapters/base.py Adapter._exec *)
Definition exec (c : metadata_cmd) (operation phase : str) (mid : option str) : M S Z :=
  guard_metadata operation phase mid false (raw (RMetadata c)).

(* @src adapters/base.py Adapter._fetch *)
Definition fetch (o : rawop) (operation phase : str) (mid : option str) : M S (reply o) :=
  guard_metadata operation phase mid false (raw o).

(* @src adapters/base.py Adapter._metadata_execute_in_transaction *)
Definition metadata_execute_in_transaction (c : metadata_cmd) (operation phase : str) (mid : option str) : M S unit :=
  begin;;
  affected ← exec c operation phase mid;
  when (negb (affected =? 1)%Z)
    (rollback;; raise_error (mk MetadataDamagedError "exactly one ACTIVE row was expected")).

(* @src adapters/base.py Adapter._runner_binds *)
Definition runner_binds_of : M S runner_binds :=
  runner ← gets w_runner;
  session ← raw RSessionIdentity;
  mret (MkBinds (ri_host <$> runner) (ri_user <$> runner) (ri_pid <$> runner) session
          (match runner with Some r => ri_tool_version r | None => "unknown" end)).

(* @src adapters/base.py Adapter.insert_success_row *)
Definition insert_success_row (seq : Z) (mid fingerprint : str) (language : Language) (mode : Mode) : M S unit :=
  r ← runner_binds_of;
  exec (InsertHistory ST_SUCCESS false true seq mid fingerprint (language_value language) (mode_value mode) r)
    "history SUCCESS insert" (boundary_value ATOMIC_COMPLETION) (Some mid);;
  mret tt.

(* @src adapters/base.py Adapter.insert_active_row *)
Definition insert_active_row (seq : Z) (mid fingerprint : str) (language : Language) : M S unit :=
  begin;;
  r ← runner_binds_of;
  exec (InsertHistory ST_ACTIVE true false seq mid fingerprint (language_value language)
          (mode_value RESTARTABLE) r)
    "history ACTIVE insert" (boundary_value RESTARTABLE_ADMISSION) (Some mid);;
  durable_commit RESTARTABLE_ADMISSION (Some mid).

(* @src adapters/base.py Adapter.update_active_attempt *)
Definition update_active_attempt (mid fingerprint : str) (language : Language) : M S unit :=
  r ← runner_binds_of;
  metadata_execute_in_transaction (UpdateAttempt mid fingerprint (language_value language) r)
    "history attempt update" (boundary_value RESTARTABLE_ADMISSION) (Some mid);;
  durable_commit RESTARTABLE_ADMISSION (Some mid).

(* @src adapters/base.py Adapter.complete_active_row *)
Definition complete_active_row (mid : str) : M S unit :=
  r ← runner_binds_of;
  metadata_execute_in_transaction (CompleteHistory mid (rb_tool_version r))
    "history SUCCESS update" (boundary_value RESTARTABLE_COMPLETION) (Some mid);;
  exec (DeleteProgress mid) "progress deletion" (boundary_value RESTARTABLE_COMPLETION) (Some mid);;
  durable_commit RESTARTABLE_COMPLETION (Some mid).

(* @src adapters/base.py Adapter.probe_session_liveness *)
Definition probe_session_liveness (db_session : option str) : M S (str * str) :=
  guard_metadata "session-liveness probe" "session_liveness" None false (raw (RProbeLiveness db_session)).

(** ** The progress store *)
(* @src adapters/base.py Adapter.progress_get *)
Definition progress_get (mid key : str) : M S (option str) :=
  rows ← fetch (RProgressGet mid key) "progress read" "progress" (Some mid);
  mret (head (rows : list str)).

(* @src adapters/base.py Adapter.progress_set *)
Definition progress_set (mid key value : str) : M S unit :=
  open ← gets w_engine_txn;
  when (negb open) (raise_error (usage "progress writes require an open batch transaction"));;
  exec (UpsertProgress mid key value) "progress write" "progress" (Some mid);;
  mret tt.

(** ** Metadata *)
(* @src adapters/base.py Adapter._count *)
Definition count (table : str) (present : list str) : M S (option Z) :=
  if mem table present then
    n ← fetch (RCount table) ("counting " ++ table) "metadata_inspection" None; mret (Some (n : Z))
  else mret None.

(* @src adapters/base.py Adapter._read_meta *)
Definition read_meta : M S (option MetaRow * Z) :=
  n ← fetch (RCount META_TABLE) ("counting " ++ META_TABLE) "metadata_inspection" None;
  rows ← fetch RReadMarker "reading the initialization marker" "metadata_inspection" None;
  match (rows : list (result pyexn MetaRow)) with
  | [] => mret (None, n : Z)
  | row :: _ => meta ← of_result row; mret (Some meta, n : Z)
  end.

(** The marker and the problems reading it adds. *)
(* @src adapters/base.py 412-424 Adapter.inspect_metadata (marker) *)
Definition inspect_marker (present : list str) : M S (option MetaRow * list str) :=
  if mem META_TABLE present then
    try_except
      ('(meta, rows) ← read_meta;
       mret (meta, if match meta with Some _ => negb (rows =? 1)%Z | None => false end
                   then ["the marker table holds another number of rows"] else []))
      (fun x => match x with
                | PyException d => if instance_of ad_driver_error d then mret (None, ["the marker cannot be read"]) else raise x
                | _ => raise x
                end)
  else mret (None, []).

(* @src adapters/base.py Adapter.inspect_metadata *)
Definition inspect_metadata : M S MetadataReport :=
  present ← guard_metadata "metadata object inspection" "metadata_inspection" None false (raw RObjectsPresent);
  problems ← guard_metadata "metadata definition inspection" "metadata_inspection" None false
               (raw (RDefinitionProblems present));
  '(meta, more) ← inspect_marker present;
  history_count ← count HISTORY_TABLE present;
  progress_count ← count PROGRESS_TABLE present;
  mret (classify_metadata present (problems ++ more) meta history_count progress_count).

(** SQLite and PostgreSQL wrap the creation in an engine transaction; Oracle's DDL
    commits by itself and is guarded once more. *)
(* @src adapters/sqlite.py SqliteAdapter._create_metadata_object *)
Definition create_metadata_object (name : str) : M S unit :=
  if ad_create_transaction then
    begin;;
    raw (RCreateObject name);;
    durable_commit METADATA_OBJECT_CREATED None
  else
    guarded ("creating " ++ name) (boundary_value METADATA_OBJECT_CREATED) None true (raw (RCreateObject name)).

(* @src adapters/base.py 444-454 Adapter.initialize (creation loop) *)
Definition create_missing (present : list str) (name : str) : M S unit :=
  when (negb (mem name present))
    (guard_metadata ("creating " ++ name) (boundary_value METADATA_OBJECT_CREATED) None true
       (create_metadata_object name)).

(* @src adapters/base.py Adapter.initialize *)
Definition initialize : M S unit :=
  present ← guard_metadata "metadata object inspection" "initialization" None false (raw RObjectsPresent);
  for_each_M (create_missing present) CREATION_ORDER;;
  present ← guard_metadata "metadata object inspection" "initialization" None false (raw RObjectsPresent);
  problems ← guard_metadata "metadata definition inspection" "initialization" None false
               (raw (RDefinitionProblems present));
  when (negb (bool_decide (filter (fun n => negb (mem n present)) CREATION_ORDER = []) &&
              bool_decide ((problems : list str) = [])))
    (raise_error (mk MetadataDamagedError "metadata layout is not complete after creating objects"));;
  begin;;
  exec (InsertMarker LAYOUT_VERSION ad_name (b_lock_provider b) (b_lock_binding b) (b_namespace b))
    "initialization marker insert" (boundary_value INITIALIZATION_COMPLETE) None;;
  durable_commit INITIALIZATION_COMPLETE None.

(* @src adapters/base.py Adapter.read_snapshot *)
Definition read_snapshot (consistent : bool) : M S Snapshot :=
  guard_metadata "metadata snapshot read" "metadata_read" None false (raw (RReadSnapshot consistent)).

(** ** Execution *)
(* @src adapters/base.py Adapter.execute *)
Definition execute (st : Statement) (params : pyval) : M S Z :=
  rowcount ← raw (RExecute (st_text st) params); mret (Z.max rowcount 0).

(* @src adapters/base.py Adapter.query *)
Definition query (st : Statement) (params : pyval) : M S (list (list pyval)) := raw (RQuery (st_text st) params).

(* @src adapters/sqlite.py SqliteAdapter.executemany *)
Definition executemany (st : Statement) (sets : list pyval) : M S Z :=
  rowcount ← raw (RExecuteMany (st_text st) sets); mret (Z.max rowcount 0).

(** [classify_exception(exc) is SERVER_REJECTION] for an [Exception]. *)
Definition definite_rejection (x : pyexn) : bool :=
  is_Exception x && bool_decide (classify_exception x = SERVER_REJECTION).

(** The base's [execute_ddl]; Oracle and a PostgreSQL [CONCURRENTLY] statement
    submit it plainly. *)
(* @src adapters/base.py Adapter.execute_ddl *)
Definition execute_ddl (st : Statement) : M S unit :=
  if ad_ddl_transaction st then
    begin;;
    try_except (raw (RExecute (st_text st) VNone);; mret tt)
      (fun x => when (definite_rejection x) rollback;; raise x);;
    durable_commit RESTARTABLE_DDL None
  else raw (RExecute (st_text st) VNone);; mret tt.

(* @src adapters/base.py Adapter.check_required_objects *)
Definition check_required_objects (required : list RequiredObject) : M S ValidityResult :=
  if bool_decide (required = []) then mret (MkValidity [] [])
  else guard_metadata "required-object validity check" "final_validity" None false (raw (RCheckRequired required)).
End adapter.
