(* ===== verification/Context.v ===== *)
(** * The migration facade ([context.py]) and migration code

    What author code can do is a tree of facade calls, [prog]: each call's
    result, an exception included, is handed to the rest of the program, which
    may catch it, ignore it and go on. Batch objects are values the program
    holds, so it may enter and leave them in any order. *)
From S2P Require Import Prelude PyStr Errors Latch Paths Manifest Model SqlText Admission Metadata Checks World Adapter.
Open Scope str_scope.

(** What the host says about the staged unit's directory. *)
Class Host := {
  (** the resolved path is not below the resolved root *)
  fs_escapes : CapturedUnit -> str -> bool;
  (** not a link and a regular file *)
  fs_regular : CapturedUnit -> str -> bool;
  (** [read_text(encoding="utf-8")] *)
  fs_text : CapturedUnit -> str -> result pyexn str;
}.

(** One facade call. *)
Inductive ctx_call :=
| CExecute (sql : str) (params : pyval)
| CExecuteMany (sql : str) (sets : list pyval)
| CQuery (sql : str) (params : pyval)
| CSql (relpath : str)
| CProgressGet (key : pyval) (dflt : option str)
| CProgressSet (key value : pyval)
| CTransaction
| CEnter (batch : nat)
| CExit (batch : nat) (failed : bool)
| CDdl (sql : str).

(** What a call returns. *)
Inductive ctx_value :=
| XUnit
| XCount (n : Z)
| XRows (rows : list (list pyval))
| XText (s : str)
| XOption (s : option str)
| XBatch (n : nat).

(** A migration's code: it returns, raises, or makes a call and continues with its
    outcome. *)
Inductive prog :=
| PReturn (v : pyval)
| PRaise (x : pyexn)
| PCall (c : ctx_call) (k : result pyexn ctx_value -> prog).

Definition BATCH_PHASE : str := "restartable_batch".

Section context.
Context {S : Type} {DR : Driver S} {UC : Unicode} {D : Dialect} {H : Host}.
Context (u : CapturedUnit).

Definition get_context : M S ContextState := gets w_context.
Definition put_context (c : ContextState) : M S unit := modify (set_context c).

(** ** Violations and failed batches *)
(* @src context.py batch_rolled_back *)
Definition batch_rolled_back : M S error :=
  do_latch latch_failure (mk_at MigrationFailedError "the database rolled the batch transaction back" BATCH_PHASE (Some (u_id u))).

(* @src context.py transaction_violation *)
Definition transaction_violation (detail phase : str) : M S error :=
  do_latch latch_violation (mk_at ContractViolationError detail phase (Some (u_id u))).

(* @src context.py check_transaction_identity *)
Definition check_transaction_identity (established : option str) (scope : str) : M S unit :=
  match established with
  | None => mret tt
  | Some _ =>
      current ← read_transaction_identity;
      if bool_decide (current = established) then mret tt
      else e ← transaction_violation ("the " ++ scope ++ " transaction identity changed") "transaction_identity";
           raise_error e
  end.

(** ** Admission of a call *)
(* @src context.py _BaseContext._admit_call *)
Definition admit_call (operation : str) : M S unit :=
  latch_check;;
  c ← get_context;
  if negb (cx_in_batch c) then mret tt
  else
    state ← batch_transaction_state;
    match state with
    | BT_ROLLED_BACK => e ← batch_rolled_back; raise_error e
    | BT_ENDED => e ← transaction_violation "the batch transaction ended inside the batch" BATCH_PHASE; raise_error e
    | BT_OPEN => mret tt
    end.

(* @src context.py _BaseContext._prepare *)
Definition prepare (sql operation : str) : M S Statement :=
  admit_call operation;;
  statement ← of_result (normalize sql);
  c ← get_context;
  of_check (admit_statement statement (u_mode u) (cx_in_batch c));;
  mret statement.

(** The default of [commit_capable]: restartable mode outside a batch. *)
(* @src context.py _BaseContext._guard_call *)
Definition guard_call {A} (operation phase : str) (commit_capable : option bool) (func : M S A) : M S A :=
  c ← get_context;
  let capable := default (mode_eqb (u_mode u) RESTARTABLE && negb (cx_in_batch c)) commit_capable in
  guarded operation phase (Some (u_id u)) capable func.

(** ** SQL *)
(* @src context.py _BaseContext.execute *)
Definition ctx_execute (sql : str) (params : pyval) : M S Z :=
  statement ← prepare sql "ctx.execute()";
  guard_call "execute" "migration_execution" None (execute statement params).

(* @src context.py _BaseContext.executemany *)
Definition ctx_executemany (sql : str) (sets : list pyval) : M S Z :=
  statement ← prepare sql "ctx.executemany()";
  if bool_decide (sets = []) then mret 0%Z
  else guard_call "executemany" "migration_execution" None (executemany statement sets).

(* @src context.py _BaseContext.query *)
Definition ctx_query (sql : str) (params : pyval) : M S (list (list pyval)) :=
  statement ← prepare sql "ctx.query()";
  guard_call "query" "migration_execution" None (query statement params).

(* @src context.py _BaseContext.sql *)
Definition ctx_sql (relpath : str) : M S str :=
  admit_call "ctx.sql()";;
  of_check (check_relative_path relpath);;
  when (fs_escapes u relpath) (raise_error (usage "ctx.sql() escapes the unit"));;
  when (negb (mem relpath (u_relpaths u))) (raise_error (usage "ctx.sql() is not a fingerprinted file"));;
  when (negb (fs_regular u relpath)) (raise_error (usage "ctx.sql() is not a regular file"));;
  of_result (fs_text u relpath).

(** ** Progress *)
(* @src context.py _check_progress_key *)
Definition check_progress_key (key : pyval) : result error str :=
  match key with
  | VStr [] => Err (usage "progress keys must be non-empty strings")
  | VStr s =>
      raise_if (PROGRESS_KEY_MAX_CHARS <? length s) (usage "progress key is too long");;
      raise_if (negb (forallb is_ascii s)) (usage "progress key must be ASCII");;
      Ok s
  | _ => Err (usage "progress keys must be non-empty strings")
  end.

(* @src context.py _check_progress_value *)
Definition check_progress_value (value : pyval) : result pyexn str :=
  match value with
  | VStr [] => Err (PyMigr8 (usage "progress values must be non-empty strings"))
  | VStr s =>
      bytes ← encode_or_raise s;
      raise_if (PROGRESS_VALUE_MAX_BYTES <? N.of_nat (length bytes))%N (PyMigr8 (usage "progress value is too long"));;
      Ok s
  | _ => Err (PyMigr8 (usage "progress values must be non-empty strings"))
  end.

(* @src context.py ProgressFacade.get *)
Definition ctx_progress_get (key : pyval) (dflt : option str) : M S (option str) :=
  admit_call "ctx.progress.get()";;
  key ← of_check (check_progress_key key);
  value ← guard_call "progress_get" "migration_execution" (Some false) (progress_get (u_id u) key);
  mret (match value with None => dflt | Some v => Some v end).

(* @src context.py ProgressFacade.set *)
Definition ctx_progress_set (key value : pyval) : M S unit :=
  admit_call "ctx.progress.set()";;
  key ← of_check (check_progress_key key);
  value ← of_result (check_progress_value value);
  c ← get_context;
  when (negb (cx_in_batch c))
    (raise_error (mk_id UsageError "ctx.progress.set() is only available inside a batch" (u_id u)));;
  guard_call "progress_set" "migration_execution" (Some false) (progress_set (u_id u) key value).

(** ** Batches *)
(* @src context.py RestartableContext._rollback_batch *)
Definition rollback_batch : M S unit :=
  try_except rollback (fun x => if is_Exception x then mret tt else raise x).

(* @src context.py RestartableContext._commit_batch *)
Definition commit_batch : M S unit :=
  try_except (durable_commit RESTARTABLE_BATCH (Some (u_id u)))
    (fun x =>
       if catches UnknownOutcomeError x || negb (is_Exception x) then raise x
       else raise_error (mk_at MigrationFailedError "batch commit was rejected" BATCH_PHASE (Some (u_id u)))).

(** The check on the transaction at the end of a batch, while the run is not
    latched: [true] when the batch is over and the method returns. *)
(* @src context.py 433-478 RestartableContext._finish_batch (if not latched) *)
Definition check_batch_end (established : option str) (failed : bool) : M S bool :=
  try_except
    (state ← batch_transaction_state;
     match state with
     | BT_ROLLED_BACK =>
         rollback_batch;;
         if failed then mret true else e ← batch_rolled_back; raise_error e
     | BT_ENDED =>
         e ← transaction_violation "the batch transaction ended before the batch did" BATCH_PHASE; raise_error e
     | BT_OPEN => check_transaction_identity established "batch";; mret false
     end)
    (fun x =>
       if catches ContractViolationError x || catches UnknownOutcomeError x then mret false
       else if catches MigrationFailedError x || negb (is_Exception x) then raise x
       else
         rollback_batch;;
         if failed then mret true
         else
           e ← do_latch latch_failure
                 (mk_at MigrationFailedError "batch transaction could not be checked before commit" BATCH_PHASE
                    (Some (u_id u)));
           raise_error e).

(** What follows the check: a latched run rolls back and raises, unless the batch's
    own exception is to go on; otherwise the batch commits or rolls back. *)
(* @src context.py 479-488 RestartableContext._finish_batch (after the check) *)
Definition end_batch (failed : bool) : M S unit :=
  l ← gets w_latch;
  let commit_or_rollback := if failed then rollback_batch else commit_batch in
  if latched l then
    when (negb (latch_is_unknown l)) rollback_batch;;
    if failed && bool_decide (l_state l = BATCH_FAILED) then mret tt
    else latch_check;; commit_or_rollback
  else commit_or_rollback.

(* @src context.py RestartableContext._finish_batch *)
Definition finish_batch (established : option str) (failed : bool) : M S unit :=
  l ← gets w_latch;
  over ← (if latched l then mret false else check_batch_end established failed);
  if (over : bool) then mret tt else end_batch failed.

(* @src context.py RestartableContext.transaction *)
Definition ctx_transaction : M S nat :=
  latch_check;;
  c ← get_context;
  put_context (MkContext (cx_in_batch c) (cx_open_batch c) (cx_batches c ++ [None]));;
  mret (length (cx_batches c)).

(* @src context.py _BatchContext.__enter__ *)
Definition batch_enter (batch : nat) : M S unit :=
  latch_check;;
  c ← get_context;
  when (cx_in_batch c) (raise_error (mk_id UsageError "ctx.transaction() blocks do not nest" (u_id u)));;
  open ← has_open_transaction;
  when open (raise_error (mk_id UsageError "a transaction is already open when entering ctx.transaction()" (u_id u)));;
  begin;;
  identity ← try_except establish_transaction_identity
    (fun x => if catches UnknownOutcomeError x || negb (is_Exception x) then raise x
              else rollback_batch;; raise x);
  c ← get_context;
  put_context (MkContext true (Some batch) (<[batch := identity]> (cx_batches c))).

(* @src context.py _BatchContext.__exit__ *)
Definition batch_exit (batch : nat) (failed : bool) : M S unit :=
  c ← get_context;
  put_context (MkContext false None (cx_batches c));;
  finish_batch (mjoin (cx_batches c !! batch)) failed.

(** ** DDL *)
(* @src context.py RestartableContext.ddl *)
Definition ctx_ddl (sql : str) : M S unit :=
  latch_check;;
  c ← get_context;
  when (cx_in_batch c)
    (raise_error (mk_id UsageError "ctx.ddl() is not available inside a batch" (u_id u)));;
  statement ← of_result (normalize sql);
  of_check (admit_ddl statement);;
  open ← has_open_transaction;
  when open (raise_error (mk_id UsageError "ctx.ddl() requires no open transaction" (u_id u)));;
  fire RESTARTABLE_DDL "before_ddl";;
  guard_call "DDL execution" "restartable_ddl" (Some true) (execute_ddl statement);;
  fire RESTARTABLE_DDL "after_ddl".

(** ** Running migration code *)

(** The atomic facade has no [transaction], [ddl] or [progress]. *)
Definition attribute_error : pyexn := PyException (builtin_exn "builtins.AttributeError").

Definition batch_call (m : M S ctx_value) : M S ctx_value :=
  if mode_eqb (u_mode u) RESTARTABLE then m else raise attribute_error.

(* @src context.py build_context *)
Definition run_call (c : ctx_call) : M S ctx_value :=
  match c with
  | CExecute sql params => n ← ctx_execute sql params; mret (XCount n)
  | CExecuteMany sql sets => n ← ctx_executemany sql sets; mret (XCount n)
  | CQuery sql params => rows ← ctx_query sql params; mret (XRows rows)
  | CSql relpath => text ← ctx_sql relpath; mret (XText text)
  | CProgressGet key dflt => batch_call (v ← ctx_progress_get key dflt; mret (XOption v))
  | CProgressSet key value => batch_call (ctx_progress_set key value;; mret XUnit)
  | CTransaction => batch_call (n ← ctx_transaction; mret (XBatch n))
  | CEnter n => batch_call (batch_enter n;; mret XUnit)
  | CExit n failed => batch_call (batch_exit n failed;; mret XUnit)
  | CDdl sql => batch_call (ctx_ddl sql;; mret XUnit)
  end.

(** The program sees every outcome of its calls. *)
Fixpoint run_prog (p : prog) : M S pyval :=
  match p with
  | PReturn v => mret v
  | PRaise x => raise x
  | PCall c k => fun w => let '(w', r) := run_call c w in run_prog (k r) w'
  end.

(** [with ctx.transaction(): body], as Python runs it: the body's exception is
    re-raised unless leaving the batch raises another one. *)
Definition with_transaction (body : (result pyexn pyval -> prog) -> prog) (k : result pyexn pyval -> prog) : prog :=
  PCall CTransaction (fun r =>
    match r with
    | Ok (XBatch n) =>
        PCall (CEnter n) (fun r =>
          match r with
          | Ok _ => body (fun out => PCall (CExit n (negb (is_ok out))) (fun r =>
                      match r with Ok _ => k out | Err x => k (Err x) end))
          | Err x => k (Err x)
          end)
    | Ok _ => k (Ok VNone)
    | Err x => k (Err x)
    end).
End context.
