(* ===== verification/Engine.v ===== *)
(** * The migrate run ([engine.py])

    The state machine of one run: planning, atomic and restartable migrations,
    and the ways a run can end. The run's result is the report in the final
    world. Migration code comes from the loader, which is a parameter: loading
    a unit either raises or yields the program its entry point runs. *)
From S2P Require Import Prelude PyStr Errors Latch Paths Manifest Model Fingerprint StateValidate SqlText.
From S2P Require Import Admission Metadata Checks World Adapter Context.
Open Scope str_scope.

(** [load_entry(...)], the import of the unit's entry point. *)
Class Loader := load_entry : CapturedUnit -> result pyexn prog.

(** Coroutines, generators and the like, among the values a call can return. *)
Class Deferred := deferred_kind : pyval -> bool.

Section engine.
Context {S : Type} {DR : Driver S} {UC : Unicode} {I : Interpreter} {D : Dialect} {H : Host} {L : Loader} {DF : Deferred}.
Context (b : bindings) (capture : Capture) (recover_id : option str).

(** ** Reporting *)
Definition get_report : M S RunReport := gets w_report.
Definition put_report (r : RunReport) : M S unit := modify (set_report r).

Definition add_executed (mid : str) : M S unit :=
  r ← get_report;
  put_report (MkReport (rp_exit_code r) (rp_executed r ++ [mid]) (rp_message r) (rp_warnings r) (rp_discarded r)
                (rp_failed r) (rp_phase r) (rp_recovery_id r) (rp_namespace r)).

Definition add_warnings (ws : list str) : M S unit :=
  r ← get_report;
  put_report (MkReport (rp_exit_code r) (rp_executed r) (rp_message r) (rp_warnings r ++ ws) (rp_discarded r)
                (rp_failed r) (rp_phase r) (rp_recovery_id r) (rp_namespace r)).

Definition set_recovery (mid : option str) : M S unit :=
  r ← get_report;
  put_report (MkReport (rp_exit_code r) (rp_executed r) (rp_message r) (rp_warnings r) (rp_discarded r)
                (rp_failed r) (rp_phase r) mid (rp_namespace r)).

Definition set_namespace (ns : str) : M S unit :=
  r ← get_report;
  put_report (MkReport (rp_exit_code r) (rp_executed r) (rp_message r) (rp_warnings r) (rp_discarded r)
                (rp_failed r) (rp_phase r) (rp_recovery_id r) (Some ns)).

(* @src engine.py Engine._note_discarded *)
Definition note_discarded (reason : str) : M S unit :=
  r ← get_report;
  put_report (MkReport (rp_exit_code r) (rp_executed r) (rp_message r) (rp_warnings r ++ [reason]) true
                (rp_failed r) (rp_phase r) (rp_recovery_id r) (rp_namespace r)).

(* @src engine.py Engine._fail *)
Definition fail (e : error) (code : Exit) (discarded : bool) : M S unit :=
  r ← get_report;
  put_report (MkReport code (rp_executed r) (Some (report e)) (rp_warnings r) discarded
                (e_migration_id e) (e_phase e) (rp_recovery_id r) (rp_namespace r));;
  modify set_reported.

(** ** Teardown *)

(** [for _attempt in range(2)]: a second attempt only after an interrupt. *)
Definition discard_attempts : M S unit :=
  let attempt (again : M S unit) : M S unit :=
    try_except (raw RDiscard) (fun x => if is_Exception x then mret tt else again) in
  attempt (attempt (mret tt)).

(* @src engine.py Engine._discard_quietly *)
Definition discard_quietly : M S bool :=
  held ← raw RConnectionHeld;
  discard_attempts;;
  mret (held : bool).

(* @src engine.py Engine._close_quietly *)
Definition close_quietly : M S unit :=
  try_except (raw RClose)
    (fun x =>
       if is_Exception x then mret tt
       else held ← discard_quietly;
            when held (note_discarded "closing the connection was interrupted")).

(* @src engine.py Engine._rollback_quietly *)
Definition rollback_quietly : M S unit :=
  l ← gets w_latch;
  if latch_is_unknown l then mret tt
  else try_except rollback (fun x => if is_Exception x then mret tt else raise x).

(* @src engine.py Engine._interruption_error *)
Definition interruption_error (started : bool) : error :=
  if started then mk_at MigrationFailedError "the run was interrupted while it was ending" "interrupted" None
  else mk_at MigrationFailedError "the run was interrupted before it started" "interrupted" None.

(* @src engine.py Engine._handle_interruption *)
Definition handle_interruption (x : pyexn) (connected : bool) : M S unit :=
  let e := match x with
           | PyInterrupt => mk_at MigrationFailedError "the run was interrupted" "interrupted" None
           | _ => mk_at MigrationFailedError "the run failed unexpectedly" "internal_error" None
           end in
  fail e MIGRATION_FAILED false;;
  when connected (rollback_quietly;; close_quietly).

(** [self.latch.error or (exc if isinstance(exc, Migr8Error) else None)]. *)
Definition terminal_error (l : RunLatch) (x : pyexn) : option error :=
  match l_error l with
  | Some e => Some e
  | None => match x with PyMigr8 e => Some e | _ => None end
  end.

(* @src engine.py Engine._terminate *)
Definition terminate (x : pyexn) (connected : bool) : M S unit :=
  l ← gets w_latch;
  match terminal_error l x with
  | None => handle_interruption x connected
  | Some e =>
      let code := exit_code e in
      let discarded := bool_decide (code = UNKNOWN_OUTCOME) in
      fail e code discarded;;
      when (is_instance e RecoveryRequiredError) (set_recovery (e_migration_id e));;
      if connected && discarded then discard_quietly;; mret tt
      else when connected close_quietly
  end.

(* @src engine.py Engine._settle_interrupted_teardown *)
Definition settle_interrupted_teardown : M S unit :=
  dropped ← discard_quietly;
  reported ← gets w_reported;
  l ← gets w_latch;
  started ← gets w_started;
  when (negb reported)
    (let e := default (interruption_error started) (l_error l) in
     let code := exit_code e in
     fail e code (dropped || bool_decide (code = UNKNOWN_OUTCOME)));;
  when dropped (note_discarded "the run was interrupted while it was ending").

(** ** Initialization and planning *)
(* @src engine.py Engine._admit_recovery_namespace *)
Definition admit_recovery_namespace (r : MetadataReport) : M S unit :=
  match recover_id with
  | None => mret tt
  | Some _ =>
      match mr_state r with
      | COMPLETE => mret tt
      | DAMAGED => raise_error (mk MetadataDamagedError "metadata is damaged, so --recover was not considered")
      | _ => raise_error (mk ValidationError "--recover requires an ACTIVE restartable migration")
      end
  end.

(* @src engine.py Engine._initialize_if_needed *)
Definition initialize_if_needed (r : MetadataReport) : M S unit :=
  match mr_state r with
  | DAMAGED => raise_error (mk MetadataDamagedError "migration metadata is damaged or incompatible")
  | COMPLETE => of_check (verify_bindings b (mr_meta r))
  | ABSENT | INCOMPLETE_COMPATIBLE =>
      initialize b;;
      r ← inspect_metadata;
      match mr_state r with
      | COMPLETE => of_check (verify_bindings b (mr_meta r))
      | _ => raise_error (mk MetadataDamagedError "metadata is not complete after initialization")
      end
  end.

(* @src engine.py Engine._build_plan *)
Definition plan_run : M S Plan :=
  snapshot ← read_snapshot true;
  plan ← of_result (build_plan capture snapshot);
  match recover_id with
  | None => of_result (require_no_recovery_needed plan)
  | Some rid => of_check (check_recovery_admission plan rid)
  end;;
  mret plan.

(** ** Invocation *)
(* @src loader.py check_result *)
Definition check_result (v : pyval) (mid : str) : result error unit :=
  raise_if (deferred_kind v) (mk_id UnitError "migrate(ctx) returned deferred work" mid);;
  raise_if (negb (bool_decide (v = VNone))) (mk_id UnitError "the entry point returns None" mid).

(* @src engine.py Engine._guarded *)
Definition engine_guarded {A} (u : CapturedUnit) (operation phase : str) (commit_capable : bool) (func : M S A) : M S A :=
  guarded operation phase (Some (u_id u)) commit_capable func.

(* @src engine.py Engine._invoke_sql *)
Definition invoke_sql (u : CapturedUnit) : M S unit :=
  admitted ← of_result (admit_sql_entry u "migration_execution");
  let statement := as_statement admitted in
  match as_category admitted with
  | ATOMIC_STATEMENT =>
      engine_guarded u "execute" "migration_execution" false (execute statement VNone);; mret tt
  | RESTARTABLE_PROCEDURAL =>
      engine_guarded u "execute" "migration_execution" true (execute statement VNone);; mret tt
  | SC_RESTARTABLE_DDL =>
      open ← has_open_transaction;
      when open (raise_error (mk_at MigrationFailedError "cannot run DDL with a transaction already open"
                                "migration_execution" (Some (u_id u))));;
      engine_guarded u "DDL execution" "restartable_ddl" true (execute_ddl statement)
  end.

(** A fresh facade for each migration. *)
(* @src engine.py Engine._invoke_python *)
Definition invoke_python (u : CapturedUnit) : M S unit :=
  p ← of_result (load_entry u);
  modify (set_context context_init);;
  v ← run_prog u p;
  of_check (check_result v (u_id u)).

(** [true] when a facade was made, so [batch_open] can be asked. *)
(* @src engine.py Engine._invoke *)
Definition invoke (u : CapturedUnit) : M S bool :=
  match u_language u with
  | SQL_LANG => invoke_sql u;; mret false
  | PYTHON => invoke_python u;; mret true
  end.

(* @src engine.py Engine._require_valid *)
Definition require_valid (u : CapturedUnit) : M S unit :=
  validity ← check_required_objects (m_required (u_definition u));
  add_warnings (v_warnings validity);;
  when (negb (bool_decide (v_failures validity = [])))
    (raise_error (mk_at MigrationFailedError "declared required objects are not valid" "final_validity" (Some (u_id u)))).

(* @src engine.py Engine._latched_or *)
Definition latched_or (l : RunLatch) (ordinary : error) : error := default ordinary (l_error l).

(** The handlers both kinds of migration share: [cleanup] runs before a violation,
    a failed migration or any other exception goes on as a failure. *)
(* @src engine.py 478-498 Engine._run_atomic (except clauses) *)
Definition migration_failed (cleanup : M S unit) (ordinary : error) {A} (x : pyexn) : M S A :=
  if catches UnknownOutcomeError x then raise x
  else if catches ContractViolationError x || catches MigrationFailedError x then cleanup;; raise x
  else if is_Exception x then
    cleanup;;
    l ← gets w_latch;
    raise_error (latched_or l ordinary)
  else raise x.

(* @src engine.py Engine._post_return_cleanup *)
Definition post_return_cleanup : M S unit :=
  l ← gets w_latch;
  if latch_is_unknown l then mret tt
  else if latched l then rollback_quietly
  else open ← has_open_transaction; when open rollback_quietly.

(** ** Migrations *)

(** What runs inside the atomic transaction, up to and including the SUCCESS row. *)
(* @src engine.py 457-477 Engine._run_atomic (try) *)
Definition atomic_work (u : CapturedUnit) (identity : option str) : M S unit :=
  invoke u;;
  latch_check;;
  require_valid u;;
  check_transaction_identity u identity "atomic";;
  insert_success_row (u_position u) (u_id u) (u_fingerprint u) (u_language u) (u_mode u).

(* @src engine.py Engine._run_atomic *)
Definition run_atomic (u : CapturedUnit) : M S unit :=
  begin;;
  identity ← establish_transaction_identity;
  try_except (atomic_work u identity)
    (migration_failed rollback_quietly
       (mk_at MigrationFailedError "atomic migration failed and was rolled back" "migration_execution" (Some (u_id u))));;
  durable_commit ATOMIC_COMPLETION (Some (u_id u)).

(** The committed admission of an attempt. *)
(* @src engine.py 522-538 Engine._run_restartable (admission) *)
Definition admit_attempt (u : CapturedUnit) (active : option HistoryRow) : M S unit :=
  match active with
  | None => insert_active_row (u_position u) (u_id u) (u_fingerprint u) (u_language u)
  | Some _ => update_active_attempt (u_id u) (u_fingerprint u) (u_language u)
  end.

(* @src engine.py Engine._run_restartable *)
Definition run_restartable (u : CapturedUnit) (active : option HistoryRow) : M S unit :=
  admit_attempt u active;;
  python ← try_except (invoke u)
    (migration_failed post_return_cleanup
       (mk_at MigrationFailedError "restartable migration failed; it remains ACTIVE" "migration_execution" (Some (u_id u))));
  latch_check;;
  c ← get_context;
  open ← (if (python : bool) && bool_decide (cx_open_batch c <> None) then mret true else has_open_transaction);
  when open
    (rollback_quietly;;
     raise_error (mk_at MigrationFailedError "returned with an open transaction" "post_return_state" (Some (u_id u))));;
  require_valid u;;
  complete_active_row (u_id u).

(** The ACTIVE row, when it is this unit's. *)
Definition active_for (plan : Plan) (u : CapturedUnit) : option HistoryRow :=
  match p_active plan with
  | Some r => if bool_decide (hr_id r = u_id u) then Some r else None
  | None => None
  end.

(* @src engine.py 424-447 Engine._execute (loop body) *)
Definition run_unit (plan : Plan) (u : CapturedUnit) : M S unit :=
  match u_mode u with
  | ATOMIC => run_atomic u
  | RESTARTABLE => run_restartable u (active_for plan u)
  end;;
  add_executed (u_id u).

(* @src engine.py Engine._execute *)
Definition execute_plan (plan : Plan) : M S unit := for_each_M (run_unit plan) (p_pending plan).

(** ** The run *)

(** Everything after [connect()] returned. *)
(* @src engine.py 169-183 Engine._run (connected) *)
Definition connected_run : M S unit :=
  set_namespace (b_namespace b);;
  raw RServerDescription;;
  raw RSessionIdentity;;
  raw RAcquireLock;;
  metadata ← inspect_metadata;
  admit_recovery_namespace metadata;;
  raw RPrepareStorage;;
  initialize_if_needed metadata;;
  plan ← plan_run;
  execute_plan plan.

(* @src engine.py 164-168 Engine._run (before the connection) *)
Definition open_run : M S unit :=
  modify set_started;;
  of_result (preflight capture);;
  raw RConnect.

(* @src engine.py Engine._run *)
Definition inner_run : M S unit := fun w =>
  match open_run w with
  | (w', Err x) => terminate x false w'
  | (w', Ok _) =>
      match connected_run w' with
      | (w'', Err x) => terminate x true w''
      | (w'', Ok _) => (modify set_reported;; close_quietly) w''
      end
  end.

(* @src engine.py Engine.run *)
Definition run : M S unit :=
  try_except inner_run (fun x => match x with PyInterrupt => settle_interrupted_teardown | _ => raise x end).

(** The world [Engine.__init__] sets up around a session. *)
(* @src engine.py Engine.__init__ *)
Definition initial_world (s : S) (runner : RunnerInfo) : World S :=
  MkWorld s [] latch_init true (Some runner) false context_init report_init false false.
End engine.
