(* ===== verification/History.v ===== *)
(** * What the engine's statements do to the durable record

    [World] passes the engine's own SQL to the driver as a [metadata_cmd]. Here is
    what each of those texts means on the rows of the history and progress
    tables, and what it does to a record that agrees with the manifest: the
    steps from one migration to the next. *)
From S2P Require Import Prelude PyStr Errors Latch Paths Manifest Model Fingerprint StateValidate SqlText.
From S2P Require Import Admission Metadata Checks World.
Open Scope str_scope.

(** The rows of the two tables a run's progress is recorded in. *)
Record MetaDB := MkDB {
  db_history : list HistoryRow;
  db_progress : list ProgressRow;
}.

#[export] Instance MetaDB_eq_dec : EqDecision MetaDB.
Proof. solve_decision. Defined.

(** ** The statements *)

(** [INSERT INTO m8_history (...) VALUES (...)], in the order of
    [_HISTORY_INSERT_COLUMNS]; [{now}] is the statement's time [t]. *)
(* @src adapters/base.py 685-721 Adapter._insert_history_sql *)
Definition inserted_row (t : timestamp) (status : Status) (first finished : bool)
    (seq : Z) (mid fingerprint language mode : str) (r : runner_binds) : HistoryRow :=
  MkHistory seq mid fingerprint fingerprint language mode (status_value status) (if first then Some 1%Z else None) (Some t) (Some t)
    (if finished then Some t else None) (rb_host r) (rb_user r) (rb_pid r) (rb_session r) (Some (rb_tool_version r)).

(** [WHERE migration_id = :migration_id AND status = 'ACTIVE']. *)
Definition is_active_row (mid : str) (row : HistoryRow) : bool :=
  bool_decide (hr_id row = mid) && is_active row.

(** The [SET] list of a new attempt: position, identity, mode, first fingerprint
    and start time are not in it. [NULL + 1] is [NULL]. *)
(* @src adapters/base.py 783-796 Adapter.update_active_attempt (SET list) *)
Definition attempted_row (t : timestamp) (fingerprint language : str) (r : runner_binds) (row : HistoryRow) : HistoryRow :=
  MkHistory (hr_seq row) (hr_id row) fingerprint (hr_first_fingerprint row) language (hr_mode row) (hr_status row)
    (Z.succ <$> hr_attempt row) (hr_started_at row) (Some t) (hr_finished_at row)
    (rb_host r) (rb_user r) (rb_pid r) (rb_session r) (Some (rb_tool_version r)).

(* @src adapters/base.py 812-819 Adapter.complete_active_row (SET list) *)
Definition completed_row (t : timestamp) (tool_version : str) (row : HistoryRow) : HistoryRow :=
  MkHistory (hr_seq row) (hr_id row) (hr_fingerprint row) (hr_first_fingerprint row) (hr_language row) (hr_mode row)
    (status_value ST_SUCCESS) (hr_attempt row) (hr_started_at row) (hr_last_attempt_at row) (Some t)
    (hr_runner_host row) (hr_runner_user row) (hr_runner_pid row) (hr_db_session row) (Some tool_version).

Definition has_key (mid key : str) (p : ProgressRow) : bool :=
  bool_decide (pr_id p = mid) && bool_decide (pr_key p = key).

(** [INSERT ... ON CONFLICT DO UPDATE], or the [MERGE] that does the same. *)
(* @src adapters/base.py 885-907 Adapter.progress_set (upsert) *)
Definition upsert_progress (t : timestamp) (mid key value : str) (rows : list ProgressRow) : list ProgressRow :=
  if existsb (has_key mid key) rows then
    map (fun p => if has_key mid key p then MkProgress (pr_id p) (pr_key p) value (Some t) else p) rows
  else rows ++ [MkProgress mid key value (Some t)].

Definition update_where (p : HistoryRow -> bool) (f : HistoryRow -> HistoryRow) (rows : list HistoryRow) : list HistoryRow :=
  map (fun r => if p r then f r else r) rows.

Definition apply_cmd (t : timestamp) (c : metadata_cmd) (db : MetaDB) : MetaDB :=
  match c with
  | InsertHistory status first finished seq mid fp lang mode r =>
      MkDB (db_history db ++ [inserted_row t status first finished seq mid fp lang mode r]) (db_progress db)
  | UpdateAttempt mid fp lang r =>
      MkDB (update_where (is_active_row mid) (attempted_row t fp lang r) (db_history db)) (db_progress db)
  | CompleteHistory mid tool_version =>
      MkDB (update_where (is_active_row mid) (completed_row t tool_version) (db_history db)) (db_progress db)
  | DeleteProgress mid =>
      MkDB (db_history db) (filter (fun p => negb (bool_decide (pr_id p = mid))) (db_progress db))
  | UpsertProgress mid key value => MkDB (db_history db) (upsert_progress t mid key value (db_progress db))
  | InsertMarker _ _ _ _ _ => db
  end.

(** A statement as the database stores it: some databases keep no empty text, and
    write NULL in the columns that admit it. *)
Definition null_runner (r : runner_binds) : runner_binds :=
  MkBinds (truthy (rb_host r)) (truthy (rb_user r)) (rb_pid r) (truthy (rb_session r)) (rb_tool_version r).

Definition null_empty (c : metadata_cmd) : metadata_cmd :=
  match c with
  | InsertHistory status first finished seq mid fp lang mode r =>
      InsertHistory status first finished seq mid fp lang mode (null_runner r)
  | UpdateAttempt mid fp lang r => UpdateAttempt mid fp lang (null_runner r)
  | _ => c
  end.

Definition stored_as (c c' : metadata_cmd) : Prop := c' = c \/ c' = null_empty c.

(** The number of rows a statement reports. *)
Definition affected (c : metadata_cmd) (db : MetaDB) : Z :=
  match c with
  | UpdateAttempt mid _ _ _ | CompleteHistory mid _ =>
      Z.of_nat (length (filter (is_active_row mid) (db_history db)))
  | DeleteProgress mid => Z.of_nat (length (filter (fun p => bool_decide (pr_id p = mid)) (db_progress db)))
  | _ => 1
  end.

(** ** The record of a run *)

(** Units a capture can hold: numbered from one, with ids of their own and
    fingerprints the tool accepts. *)
Record units_ok (units : list CapturedUnit) : Prop := {
  uk_position : forall i u, units !! i = Some u -> u_position u = (Z.of_nat i + 1)%Z;
  uk_ids : NoDup (map u_id units);
  uk_fingerprint : forall u, u ∈ units -> is_supported_fingerprint (u_fingerprint u) = true;
}.

Definition snapshot_of (db : MetaDB) : Snapshot := MkSnapshot (db_history db) (db_progress db) None.

(** The tables are well formed and agree with the first units: [dn] succeeded, [act]
    is ACTIVE. *)
Definition recorded (units : list CapturedUnit) (dn act : list HistoryRow) (db : MetaDB) : Prop :=
  snapshot_ok (snapshot_of db) dn act /\ agrees units dn act.

(** The ACTIVE row was admitted from the source the run executes. *)
Definition admitted_row (u : CapturedUnit) (a : HistoryRow) : Prop :=
  hr_fingerprint a = u_fingerprint u /\ hr_mode a = mode_value RESTARTABLE /\
  hr_language a = language_value (u_language u).

Section transitions.
Context (units : list CapturedUnit) (Hunits : units_ok units).
Implicit Types (dn act : list HistoryRow) (db : MetaDB) (u : CapturedUnit).

Lemma numbered_app rows r : numbered rows -> hr_seq r = (Z.of_nat (length rows) + 1)%Z -> numbered (rows ++ [r]).
Proof.
  rewrite !numbered_iff. intros Hn Hr i r' Hi. rewrite lookup_app in Hi.
  destruct (rows !! i) as [r0|] eqn:E; [injection Hi as <-; by apply Hn|].
  apply lookup_ge_None in E. rewrite list_lookup_singleton in Hi.
  destruct (i - length rows) eqn:Ei; [|done]. injection Hi as <-. rewrite Hr. lia.
Qed.

Lemma Forall2_ids {A} (R : HistoryRow -> A -> Prop) (f : A -> str) l us :
  (forall r x, R r x -> hr_id r = f x) -> Forall2 R l us -> map hr_id l = map f us.
Proof. intros HR HF. induction HF; simpl; [done|]. f_equal; auto. Qed.

(** The ids of the recorded rows are the ids of the units at their positions. *)
Lemma recorded_ids dn act : agrees units dn act -> map hr_id (dn ++ act) = map u_id (take (length (dn ++ act)) units).
Proof.
  intros [Hd Ha].
  apply (Forall2_ids _ u_id) in Hd; [|by intros ?? [? _]]. apply (Forall2_ids _ u_id) in Ha; [|by intros ?? [? _]].
  rewrite length_app, map_app, Hd, Ha, <-map_app, <-take_take_drop. done.
Qed.

(** What is left to prove of a record that agrees: its ids are the units' own. *)
Lemma recorded_intro dn act db :
  dn ++ act ≡ₚ db_history db -> agrees units dn act -> numbered (dn ++ act) -> Forall row_ok (dn ++ act) ->
  Forall (fun r => is_success r = true) dn -> Forall (fun r => is_active r = true) act -> length act <= 1 ->
  progress_ok act (db_progress db) -> recorded units dn act db.
Proof.
  intros. split; [|done]. split; simpl; try done. rewrite recorded_ids by done.
  pose proof (uk_ids _ Hunits) as Hnd. rewrite <-(take_drop (length (dn ++ act)) units), map_app in Hnd.
  by apply NoDup_app in Hnd as [? _].
Qed.

Lemma agrees_snoc dn act r u :
  agrees units dn act -> units !! length dn = Some u -> success_agrees r u -> agrees units (dn ++ [r]) [].
Proof.
  intros [Hd _] Hu Hr. split; simpl; [|constructor].
  rewrite length_app. simpl. rewrite Nat.add_1_r, (take_S_r _ _ _ Hu). apply Forall2_app; [done|]. by apply Forall2_cons; auto.
Qed.

Lemma agrees_active dn act r u :
  agrees units dn act -> units !! length dn = Some u -> active_agrees r u -> agrees units dn [r].
Proof.
  intros [Hd _] Hu Hr. split; simpl; [done|]. rewrite (drop_S _ _ _ Hu). by apply Forall2_cons; auto.
Qed.

Lemma recorded_numbered dn act db : recorded units dn act db -> numbered dn.
Proof.
  intros [[_ _ Hn _ _ _ _] _]. rewrite numbered_iff in *. intros i r Hr. apply Hn.
  rewrite lookup_app, Hr. done.
Qed.

(** A success row for the next unit, in place of the ACTIVE row if there is one. *)
Lemma recorded_success dn act db db' r u :
  recorded units dn act db -> units !! length dn = Some u -> success_agrees r u -> row_ok r ->
  hr_seq r = u_position u -> is_success r = true -> dn ++ [r] ≡ₚ db_history db' -> db_progress db' = [] ->
  recorded units (dn ++ [r]) [] db'.
Proof.
  intros Hrec Hu Hr Hok Hseq Hs Hp Hprog. pose proof Hrec as [[_ _ _ _ He (_ & Hds & _) _] Hag].
  apply recorded_intro; rewrite ?app_nil_r; try done.
  - by eapply agrees_snoc.
  - apply numbered_app; [by eapply recorded_numbered|]. rewrite Hseq. by apply (uk_position _ Hunits).
  - apply Forall_app in He as [He _]. apply Forall_app. auto.
  - apply Forall_app. auto.
  - simpl. lia.
  - rewrite Hprog. split; constructor.
Qed.

(** The ACTIVE row of the next unit. *)
Lemma recorded_active dn act db db' r u :
  recorded units dn act db -> units !! length dn = Some u -> active_agrees r u -> row_ok r ->
  hr_seq r = u_position u -> is_active r = true -> dn ++ [r] ≡ₚ db_history db' ->
  progress_ok [r] (db_progress db') -> recorded units dn [r] db'.
Proof.
  intros Hrec Hu Hr Hok Hseq Hs Hp Hprog. pose proof Hrec as [[_ _ _ _ He (_ & Hds & _) _] Hag].
  apply recorded_intro; try done.
  - by eapply agrees_active.
  - apply numbered_app; [by eapply recorded_numbered|]. rewrite Hseq. by apply (uk_position _ Hunits).
  - apply Forall_app in He as [He _]. apply Forall_app. auto.
  - auto.
Qed.

Lemma recorded_progress_nil dn db : recorded units dn [] db -> db_progress db = [].
Proof.
  intros [[_ _ _ _ _ _ [_ Hp]] _]. simpl in Hp. destruct (db_progress db) as [|p ps]; [done|].
  apply Forall_cons in Hp as [[_ He] _]. by apply Exists_nil in He.
Qed.

(** Progress rows only refer to the ACTIVE row's id. *)
Lemma progress_ok_id a a' ps : hr_id a' = hr_id a -> progress_ok [a] ps -> progress_ok [a'] ps.
Proof.
  intros Hid [Hnd Hps]. split; [done|]. eapply Forall_impl; [exact Hps|]. intros p [Hv He]. split; [done|].
  rewrite Exists_cons, Exists_nil in *. rewrite Hid. tauto.
Qed.

(** The ACTIVE row's own facts. *)
Lemma recorded_active_facts dn a db u :
  recorded units dn [a] db -> units !! length dn = Some u ->
  active_agrees a u /\ row_ok a /\ is_active a = true /\ hr_seq a = u_position u /\ progress_ok [a] (db_progress db).
Proof.
  intros [[_ _ Hn _ He (_ & _ & Ha & _) Hp] [_ Hag]] Hu. simpl in *.
  apply Forall_app in He as [_ He]. apply Forall_cons in He as [He _], Ha as [Ha _].
  rewrite (drop_S _ _ _ Hu) in Hag. simpl in Hag. apply Forall2_cons in Hag as [Hag _].
  refine (conj Hag (conj He (conj Ha (conj _ Hp)))). rewrite (uk_position _ Hunits _ _ Hu). eapply numbered_lookup; [done|].
  by rewrite lookup_app_r, Nat.sub_diag.
Qed.

(** The update of the ACTIVE row touches no other. *)
Lemma update_active dn a db f :
  dn ++ [a] ≡ₚ db_history db -> Forall (fun r => is_success r = true) dn -> is_active a = true ->
  dn ++ [f a] ≡ₚ update_where (is_active_row (hr_id a)) f (db_history db).
Proof.
  intros Hp Hd Ha. unfold update_where. rewrite <-Hp, map_app. simpl. unfold is_active_row at 2.
  rewrite Ha, bool_decide_eq_true_2 by done. simpl.
  assert (map (fun r => if is_active_row (hr_id a) r then f r else r) dn = dn) as ->; [|done].
  clear Hp. induction Hd as [|r l Hr _ IH]; [done|]. simpl. rewrite IH. unfold is_active_row.
  by rewrite (is_success_active _ Hr), andb_false_r.
Qed.

(** [insert_success_row]: the next atomic unit has succeeded. *)
Lemma insert_success_recorded t r dn db u :
  recorded units dn [] db -> units !! length dn = Some u -> u_mode u = ATOMIC ->
  exists row, recorded units (dn ++ [row]) []
    (apply_cmd t (InsertHistory ST_SUCCESS false true (u_position u) (u_id u) (u_fingerprint u)
       (language_value (u_language u)) (mode_value (u_mode u)) r) db).
Proof.
  intros Hrec Hu Hm. pose proof Hrec as [[_ Hp _ _ _ _ _] _]. rewrite app_nil_r in Hp.
  exists (inserted_row t ST_SUCCESS false true (u_position u) (u_id u) (u_fingerprint u)
            (language_value (u_language u)) (mode_value (u_mode u)) r).
  eapply recorded_success; try done.
  - assert (is_supported_fingerprint (u_fingerprint u) = true)
      by (apply (uk_fingerprint _ Hunits), (list_elem_of_lookup_2 _ _ _ Hu)).
    split; simpl; eauto. right. rewrite Hm. split_and!; done.
  - simpl. by rewrite Hp.
  - simpl. by apply recorded_progress_nil in Hrec.
Qed.

(** [insert_active_row]: the first attempt of the next restartable unit. *)
Lemma insert_active_recorded t r dn db u :
  recorded units dn [] db -> units !! length dn = Some u -> u_mode u = RESTARTABLE ->
  exists a, admitted_row u a /\ recorded units dn [a]
    (apply_cmd t (InsertHistory ST_ACTIVE true false (u_position u) (u_id u) (u_fingerprint u)
       (language_value (u_language u)) (mode_value RESTARTABLE) r) db).
Proof.
  intros Hrec Hu Hm. pose proof Hrec as [[_ Hp _ _ _ _ _] _]. rewrite app_nil_r in Hp.
  exists (inserted_row t ST_ACTIVE true false (u_position u) (u_id u) (u_fingerprint u)
            (language_value (u_language u)) (mode_value RESTARTABLE) r).
  split; [done|]. eapply recorded_active; try done.
  - assert (is_supported_fingerprint (u_fingerprint u) = true)
      by (apply (uk_fingerprint _ Hunits), (list_elem_of_lookup_2 _ _ _ Hu)).
    split; [simpl; eauto|by exists RESTARTABLE|done|done|]. left. split_and!; try done. exists 1%Z. split; [done|lia].
  - simpl. by rewrite Hp.
  - simpl. rewrite (recorded_progress_nil _ _ Hrec). split; constructor.
Qed.

(** [update_active_attempt]: a further attempt, admitted from the current source. *)
Lemma update_attempt_recorded t r dn a db u :
  recorded units dn [a] db -> units !! length dn = Some u ->
  exists a', admitted_row u a' /\ recorded units dn [a']
    (apply_cmd t (UpdateAttempt (u_id u) (u_fingerprint u) (language_value (u_language u)) r) db).
Proof.
  intros Hrec Hu. destruct (recorded_active_facts _ _ _ _ Hrec Hu) as ((Hid & Hmode & _) & Hok & Hact & Hseq & Hprog).
  pose proof Hrec as [[_ Hp _ _ _ (_ & Hd & _) _] _].
  assert (is_supported_fingerprint (u_fingerprint u) = true)
    by (apply (uk_fingerprint _ Hunits), (list_elem_of_lookup_2 _ _ _ Hu)).
  pose proof Hok as [_ _ _ Hfirst [(Hst & Hm & (n & Hn & Hle) & Hfin & Hstart)|(Hst & _)]].
  2:{ apply is_active_true in Hact. rewrite Hact in Hst. done. }
  exists (attempted_row t (u_fingerprint u) (language_value (u_language u)) r a).
  split; [by split_and!|]. eapply recorded_active; try done.
  - split; simpl; eauto. left. split_and!; try done. exists (Z.succ n). simpl. rewrite Hn. split; [done|lia].
  - simpl. rewrite <-Hid. by apply update_active.
  - by eapply progress_ok_id; [|exact Hprog].
Qed.

Lemma has_key_true mid key p : has_key mid key p = true <-> progress_key p = (mid, key).
Proof. unfold has_key, progress_key. rewrite andb_true_iff, !bool_decide_eq_true. split; [by intros [-> ->]|by intros [= -> ->]]. Qed.

(** The upsert keeps one row for each key. *)
Lemma upsert_keys t mid key value ps :
  NoDup (map progress_key ps) -> NoDup (map progress_key (upsert_progress t mid key value ps)).
Proof.
  intros Hnd. unfold upsert_progress. destruct (existsb _ ps) eqn:E.
  - rewrite map_map. erewrite map_ext; [exact Hnd|]. intros p. by destruct (has_key mid key p).
  - rewrite map_app. simpl. apply NoDup_app. split_and!; [done| |apply NoDup_singleton].
    intros k Hk Hk'. apply list_elem_of_singleton in Hk' as ->. apply list_elem_of_fmap in Hk as (p & Hp & Hin).
    assert (existsb (has_key mid key) ps = true) as Ht; [|congruence].
    apply existsb_exists. exists p. split; [by apply list_elem_of_In|]. by apply has_key_true.
Qed.

(** [progress_set] for the unit whose row is ACTIVE. *)
Lemma upsert_recorded t dn a db u key value :
  recorded units dn [a] db -> units !! length dn = Some u -> value <> [] ->
  recorded units dn [a] (apply_cmd t (UpsertProgress (u_id u) key value) db).
Proof.
  intros Hrec Hu Hv. destruct (recorded_active_facts _ _ _ _ Hrec Hu) as (Hag & Hok & Hact & Hseq & [Hnd Hps]).
  pose proof Hrec as [[_ Hp _ _ _ _ _] _].
  eapply recorded_active; try done. split; simpl; [by apply upsert_keys|].
  assert (Exists (fun r => hr_id r = u_id u) [a]) by (apply Exists_cons; left; apply Hag).
  unfold upsert_progress. destruct (existsb _ _).
  - apply Forall_map. eapply Forall_impl; [exact Hps|]. intros p [? ?].
    destruct (has_key (u_id u) key p); [by split|by split].
  - apply Forall_app. split; [done|]. by apply Forall_singleton.
Qed.

(** [complete_active_row]: ACTIVE to SUCCESS and the progress deleted, together. *)
Lemma complete_recorded t1 t2 version dn a db u :
  recorded units dn [a] db -> units !! length dn = Some u -> admitted_row u a ->
  exists row, recorded units (dn ++ [row]) []
    (apply_cmd t2 (DeleteProgress (u_id u)) (apply_cmd t1 (CompleteHistory (u_id u) version) db)).
Proof.
  intros Hrec Hu (Hfp & Hmode' & Hlang).
  destruct (recorded_active_facts _ _ _ _ Hrec Hu) as ((Hid & Hmode & _) & Hok & Hact & Hseq & [_ Hprog]).
  pose proof Hrec as [[_ Hp _ _ _ (_ & Hd & _) _] _].
  pose proof Hok as [Hl Hm Hf Hfirst [(Hst & _ & Hatt & Hfin & Hstart)|(Hst & _)]].
  2:{ apply is_active_true in Hact. rewrite Hact in Hst. done. }
  exists (completed_row t1 version a). eapply recorded_success; try done.
  - split_and!; simpl; try done. by rewrite Hmode', Hmode.
  - split; simpl; eauto. right. split_and!; try done. intros Ha. rewrite Hmode' in Ha. done.
  - simpl. rewrite <-Hid. by apply update_active.
  - simpl. apply filter_none. eapply Forall_impl; [exact Hprog|]. intros p [_ He].
    apply negb_false_iff, bool_decide_eq_true. apply Exists_cons in He as [He|He]; [congruence|by apply Exists_nil in He].
Qed.
End transitions.
