(* ===== verification/Safety.v ===== *)
(** * No call after an unknown outcome

    A logic for the run's effects that follows one thing through every function:
    the latch. [Inv] says that the latch is well typed and that no database call
    was ever made while it recorded an unknown outcome. The four specifications
    say what a computation promises about it, from weak to strong:
    - [safe]: keeps [Inv], whatever the latch is;
    - [fresh], [settled]: moreover, returning normally means no unknown outcome
      (from a run without one, and from any run);
    - [sound], [strict]: moreover, if the outcome became unknown, what is raised is
      an [UnknownOutcomeError] (likewise). *)
From S2P Require Import Prelude PyStr Errors Latch Paths Manifest Model Fingerprint StateValidate SqlText.
From S2P Require Import Admission Metadata Checks World Adapter Context Engine.
Open Scope str_scope.

(** The calls that submit nothing to the database. *)
Definition quiet (o : rawop) : bool :=
  match o with RDiscard | RConnectionHeld => true | _ => false end.

(** The error of a closed latch has the class its state stands for. *)
Definition latch_typed (l : RunLatch) : Prop :=
  match l_state l, l_error l with
  | OPEN, None => True
  | UNKNOWN, Some e => e_class e = UnknownOutcomeError
  | VIOLATION, Some e => e_class e = ContractViolationError
  | BATCH_FAILED, Some e => e_class e = MigrationFailedError
  | _, _ => False
  end.

Definition is_unknown (x : pyexn) : bool := catches UnknownOutcomeError x.

Section logic.
Context {S : Type} {DR : Driver S}.

Definition unknown (w : World S) : Prop := l_state (w_latch w) = UNKNOWN.

Record Inv (w : World S) : Prop := {
  inv_has : w_has_latch w = true;
  inv_typed : latch_typed (w_latch w);
  inv_trace : Forall (fun e => e.1 = UNKNOWN -> quiet e.2 = true) (w_trace w);
}.

Definition raises_unknown {A} (r : result pyexn A) : Prop :=
  exists x, r = Err x /\ is_unknown x = true.

Definition safe {A} (m : M S A) : Prop := forall w, Inv w -> Inv (m w).1.
Definition settled {A} (m : M S A) : Prop := forall w, Inv w -> Inv (m w).1 /\ (is_ok (m w).2 = true -> ~ unknown (m w).1).
Definition strict {A} (m : M S A) : Prop := forall w, Inv w -> Inv (m w).1 /\ (unknown (m w).1 -> raises_unknown (m w).2).
Definition fresh {A} (m : M S A) : Prop :=
  forall w, Inv w -> ~ unknown w -> Inv (m w).1 /\ (is_ok (m w).2 = true -> ~ unknown (m w).1).
Definition sound {A} (m : M S A) : Prop :=
  forall w, Inv w -> ~ unknown w -> Inv (m w).1 /\ (unknown (m w).1 -> raises_unknown (m w).2).

(** ** How the specifications relate *)
Lemma raises_not_ok {A} (r : result pyexn A) : raises_unknown r -> is_ok r = false.
Proof. by intros (x & -> & _). Qed.

Lemma unknown_dec (w : World S) : {unknown w} + {~ unknown w}.
Proof. unfold unknown. apply decide, _. Qed.

Lemma strict_sound {A} (m : M S A) : strict m -> sound m.
Proof. intros H w Hw _. by apply H. Qed.

Lemma strict_settled {A} (m : M S A) : strict m -> settled m.
Proof.
  intros H w Hw. destruct (H w Hw) as [Hi Hu]. split; [done|]. intros Hok Hun.
  apply Hu in Hun. apply raises_not_ok in Hun. congruence.
Qed.

Lemma sound_fresh {A} (m : M S A) : sound m -> fresh m.
Proof.
  intros H w Hw Hn. destruct (H w Hw Hn) as [Hi Hu]. split; [done|]. intros Hok Hun.
  apply Hu in Hun. apply raises_not_ok in Hun. congruence.
Qed.

Lemma settled_fresh {A} (m : M S A) : settled m -> fresh m.
Proof. intros H w Hw _. by apply H. Qed.

Lemma settled_safe {A} (m : M S A) : settled m -> safe m.
Proof. intros H w Hw. by apply H. Qed.

Lemma strict_safe {A} (m : M S A) : strict m -> safe m.
Proof. intros H w Hw. by apply H. Qed.

(** ** Sequencing *)
Ltac run_bind m w := unfold mbind, M_bind; destruct (m w) as [w1 [a|x]] eqn:E; simpl in *.

Lemma safe_bind {A B} (m : M S A) (k : A -> M S B) : safe m -> (forall a, safe (k a)) -> safe (m ≫= k).
Proof. intros Hm Hk w Hw. specialize (Hm w Hw). run_bind m w; [by apply Hk|done]. Qed.

Lemma settled_bind {A B} (m : M S A) (k : A -> M S B) : settled m -> (forall a, fresh (k a)) -> settled (m ≫= k).
Proof. intros Hm Hk w Hw. destruct (Hm w Hw) as [Hi Hu]. run_bind m w; [by apply Hk; auto|done]. Qed.

Lemma settled_bind_safe {A B} (m : M S A) (k : A -> M S B) : safe m -> (forall a, settled (k a)) -> settled (m ≫= k).
Proof. intros Hm Hk w Hw. specialize (Hm w Hw). run_bind m w; [by apply Hk|done]. Qed.

Lemma fresh_bind {A B} (m : M S A) (k : A -> M S B) : fresh m -> (forall a, fresh (k a)) -> fresh (m ≫= k).
Proof. intros Hm Hk w Hw Hn. destruct (Hm w Hw Hn) as [Hi Hu]. run_bind m w; [by apply Hk; auto|done]. Qed.

Lemma sound_bind {A B} (m : M S A) (k : A -> M S B) : sound m -> (forall a, sound (k a)) -> sound (m ≫= k).
Proof.
  intros Hm Hk w Hw Hn. destruct (Hm w Hw Hn) as [Hi Hu]. run_bind m w.
  - apply Hk; [done|]. intros Hun. apply Hu in Hun as (? & ? & _). done.
  - split; [done|]. intros Hun. apply Hu in Hun as (? & [= ->] & ?). by eexists.
Qed.

Lemma strict_bind {A B} (m : M S A) (k : A -> M S B) : strict m -> (forall a, sound (k a)) -> strict (m ≫= k).
Proof.
  intros Hm Hk w Hw. destruct (Hm w Hw) as [Hi Hu]. run_bind m w.
  - apply Hk; [done|]. intros Hun. apply Hu in Hun as (? & ? & _). done.
  - split; [done|]. intros Hun. apply Hu in Hun as (? & [= ->] & ?). by eexists.
Qed.

(** ** Exceptions *)
Lemma sound_try {A} (m : M S A) h :
  sound m -> (forall x, if is_unknown x then strict (h x) else sound (h x)) -> sound (try_except m h).
Proof.
  intros Hm Hh w Hw Hn. destruct (Hm w Hw Hn) as [Hi Hu]. unfold try_except.
  destruct (m w) as [w1 [a|x]] eqn:E; simpl in *.
  - split; [done|]. intros Hun. apply Hu in Hun as (? & ? & _). done.
  - specialize (Hh x). destruct (is_unknown x) eqn:Hx; [by apply Hh|].
    apply Hh; [done|]. intros Hun. apply Hu in Hun as (? & [= ->] & ?). congruence.
Qed.

Lemma settled_try {A} (m : M S A) h : settled m -> (forall x, settled (h x)) -> settled (try_except m h).
Proof.
  intros Hm Hh w Hw. destruct (Hm w Hw) as [Hi Hu]. unfold try_except.
  destruct (m w) as [w1 [a|x]] eqn:E; simpl in *; [done|by apply Hh].
Qed.

Lemma safe_try {A} (m : M S A) h : safe m -> (forall x, safe (h x)) -> safe (try_except m h).
Proof.
  intros Hm Hh w Hw. specialize (Hm w Hw). unfold try_except.
  destruct (m w) as [w1 [a|x]] eqn:E; simpl in *; [done|by apply Hh].
Qed.

(** ** Pure and local steps *)
Lemma safe_ret {A} (a : A) : safe (mret a).
Proof. by intros w Hw. Qed.
Lemma sound_ret {A} (a : A) : sound (mret a).
Proof. by intros w Hw Hn. Qed.
Lemma sound_of_result {A} (r : result pyexn A) : sound (of_result r).
Proof. by intros w Hw Hn. Qed.
Lemma sound_of_check {A} (r : result error A) : sound (of_check r).
Proof. apply sound_of_result. Qed.
Lemma sound_raise {A} x : sound (@raise S A x).
Proof. by intros w Hw Hn. Qed.
Lemma sound_gets {A} (f : World S -> A) : sound (gets f).
Proof. by intros w Hw Hn. Qed.
Lemma safe_of_result {A} (r : result pyexn A) : safe (of_result r).
Proof. by intros w Hw. Qed.
Lemma settled_raise {A} x : settled (@raise S A x).
Proof. by intros w Hw. Qed.
Lemma strict_raise_unknown {A} x : is_unknown x = true -> strict (@raise S A x).
Proof. intros Hx w Hw. split; [done|]. intros _. by exists x. Qed.

(** A field update that touches neither latch nor trace. *)
Definition inert (f : World S -> World S) : Prop :=
  forall w, w_latch (f w) = w_latch w /\ w_has_latch (f w) = w_has_latch w /\ w_trace (f w) = w_trace w.

Lemma inert_inv f w : inert f -> Inv w -> Inv (f w).
Proof. intros Hf []. destruct (Hf w) as (H1 & H2 & H3). split; by rewrite ?H1, ?H2, ?H3. Qed.

Lemma safe_modify f : inert f -> safe (modify f).
Proof. intros Hf w Hw. by apply inert_inv. Qed.

Lemma sound_modify f : inert f -> sound (modify f).
Proof.
  intros Hf w Hw Hn. split; [by apply inert_inv|]. intros Hun. destruct Hn. unfold unknown in *.
  simpl in Hun. by rewrite (proj1 (Hf w)) in Hun.
Qed.

Lemma inert_engine_txn b : inert (set_engine_txn b). Proof. by intros []. Qed.
Lemma inert_context c : inert (set_context c). Proof. by intros []. Qed.
Lemma inert_report r : inert (set_report r). Proof. by intros []. Qed.
Lemma inert_reported : inert set_reported. Proof. by intros []. Qed.
Lemma inert_started : inert set_started. Proof. by intros []. Qed.

(** ** Calls to the driver *)
Lemma raw_fields o w :
  w_latch (raw o w).1 = w_latch w /\ w_has_latch (raw o w).1 = w_has_latch w /\
  w_trace (raw o w).1 = (l_state (w_latch w), o) :: w_trace w.
Proof. unfold raw. by destruct (drv_step o (w_driver w)). Qed.

Lemma raw_inv o w : Inv w -> (~ unknown w \/ quiet o = true) -> Inv (raw o w).1.
Proof.
  intros [] Ho. destruct (raw_fields o w) as (Hl & Hh & Ht).
  split; rewrite ?Hl, ?Hh, ?Ht; [done|done|]. constructor; [|done]. simpl. unfold unknown in Ho. tauto.
Qed.

Lemma sound_raw o : sound (raw o).
Proof.
  intros w Hw Hn. split; [apply raw_inv; auto|]. intros Hun. destruct Hn. unfold unknown in *.
  by rewrite (proj1 (raw_fields o w)) in Hun.
Qed.

Lemma safe_raw_quiet o : quiet o = true -> safe (raw o).
Proof. intros Hq w Hw. apply raw_inv; auto. Qed.

Lemma sound_when b (m : M S unit) : sound m -> sound (when b m).
Proof. destruct b; [done|intros; apply sound_ret]. Qed.
Lemma safe_when b (m : M S unit) : safe m -> safe (when b m).
Proof. destruct b; [done|intros; apply safe_ret]. Qed.

Lemma sound_for_each {A} (f : A -> M S unit) l : (forall x, sound (f x)) -> sound (for_each_M f l).
Proof. intros H. induction l; simpl; [apply sound_ret|]. apply sound_bind; auto. Qed.

Lemma fresh_for_each {A} (f : A -> M S unit) l : (forall x, fresh (f x)) -> fresh (for_each_M f l).
Proof. intros H. induction l; simpl; [apply sound_fresh, sound_ret|]. apply fresh_bind; auto. Qed.
End logic.

Create HintDb safety.
#[export] Hint Resolve sound_ret sound_of_result sound_of_check sound_raise sound_gets sound_raw
  inert_engine_txn inert_context inert_report inert_reported inert_started : safety.

Section operations.
Context {S : Type} {DR : Driver S} {UC : Unicode} {D : Dialect}.
Implicit Type w : World S.

(** ** The latch *)
Lemma inv_set_latch l w : latch_typed l -> Inv w -> Inv (set_latch l w).
Proof. intros Hl []. by split. Qed.

Lemma latch_typed_with s e l :
  latch_typed l ->
  match s with
  | OPEN => False
  | UNKNOWN => e_class e = UnknownOutcomeError
  | VIOLATION => e_class e = ContractViolationError
  | BATCH_FAILED => e_class e = MigrationFailedError
  end -> latch_typed (latch_with s e l).
Proof. destruct l as [[] ?]; by destruct s. Qed.

Lemma unknown_latch_error w : Inv w -> unknown w -> exists e, check (w_latch w) = Err e /\ e_class e = UnknownOutcomeError.
Proof.
  intros [_ Ht _] Hu. unfold unknown in Hu. unfold latch_typed in Ht. rewrite Hu in Ht.
  unfold check. destruct (l_error (w_latch w)) as [e|]; [eauto|done].
Qed.

Lemma strict_latch_check : strict (S := S) latch_check.
Proof.
  intros w Hw. split; [done|]. intros Hun.
  destruct (unknown_latch_error w Hw Hun) as (e & He & Hc).
  exists (PyMigr8 e). split.
  - unfold latch_check, mbind, M_bind, gets, of_check, of_result, lift. simpl. by rewrite He.
  - unfold is_unknown. simpl. unfold is_instance. by rewrite Hc.
Qed.

(** Latching a violation or a failed batch, and an unknown outcome. *)
Lemma sound_latch_violation e : e_class e = ContractViolationError -> sound (S := S) (do_latch latch_violation e).
Proof.
  intros He w Hw Hn. split.
  - apply inv_set_latch; [|done]. apply latch_typed_with; [apply Hw|done].
  - intros Hun. destruct Hn. revert Hun. unfold unknown. simpl. unfold latch_violation, latch_with.
    by destruct (w_latch w) as [[] ?].
Qed.

Lemma sound_latch_failure e : e_class e = MigrationFailedError -> sound (S := S) (do_latch latch_failure e).
Proof.
  intros He w Hw Hn. split.
  - apply inv_set_latch; [|done]. apply latch_typed_with; [apply Hw|done].
  - intros Hun. destruct Hn. revert Hun. unfold unknown. simpl. unfold latch_failure, latch_with.
    by destruct (w_latch w) as [[] ?].
Qed.

(** ** The guard *)
Lemma strict_unknown_failure {A} e :
  e_class e = UnknownOutcomeError ->
  strict (has ← gets w_has_latch; when has (do_latch latch_unknown e;; mret tt);; @raise_error S A e).
Proof.
  intros He w Hw. unfold mbind, M_bind, gets. rewrite (inv_has w Hw). simpl. split.
  - apply inv_set_latch; [|done]. apply latch_typed_with; [apply Hw|done].
  - intros _. exists (PyMigr8 e). split; [done|]. unfold is_unknown. simpl. unfold is_instance. by rewrite He.
Qed.

(** Every guarded call is strict: after an unknown outcome it is refused with the
    latched error, and one that makes the outcome unknown says so. *)
Lemma strict_guarded {A} op ph mid cc (m : M S A) : sound m -> strict (guarded op ph mid cc m).
Proof.
  intros Hm w Hw.
  assert (guarded op ph mid cc m w = (latch_check;; try_except m (guard_failure op ph mid cc)) w) as ->.
  { unfold guarded, mbind, M_bind, gets. by rewrite (inv_has w Hw). }
  revert w Hw. apply strict_bind; [apply strict_latch_check|intros _].
  apply sound_try; [done|]. intros x.
  unfold is_unknown, guard_failure. destruct x as [e|d|]; simpl.
  - destruct (is_instance e UnknownOutcomeError) eqn:E; [by apply strict_raise_unknown|apply sound_raise].
  - destruct (ad_classify_call d cc); [apply sound_raise|]. apply strict_sound. by apply strict_unknown_failure.
  - destruct cc; [|apply sound_raise]. apply strict_sound. by apply strict_unknown_failure.
Qed.

Lemma sound_guarded {A} op ph mid cc (m : M S A) : sound m -> sound (guarded op ph mid cc m).
Proof. intros. by apply strict_sound, strict_guarded. Qed.

Lemma sound_guard_metadata {A} op ph mid cc (m : M S A) : sound m -> sound (guard_metadata op ph mid cc m).
Proof. apply sound_guarded. Qed.

End operations.

(** Follows the structure of a computation and leaves what has no rule. *)
Ltac sound :=
  repeat match goal with
  | |- sound (_ ≫= _) => apply sound_bind; [|intros ?]
  | |- sound (when _ _) => apply sound_when
  | |- sound (raise_error _) => apply sound_raise
  | |- sound (raw ?o) => exact (sound_raw o)
  | |- sound (guarded _ _ _ _ _) => notypeclasses refine (sound_guarded _ _ _ _ _ _)
  | |- sound (guard_metadata _ _ _ _ _) => notypeclasses refine (sound_guard_metadata _ _ _ _ _ _)
  | |- sound (modify _) => apply sound_modify
  | |- sound (match ?x with _ => _ end) => destruct x
  | |- sound (for_each_M _ _) => apply sound_for_each; intros ?
  | |- _ => progress auto with safety
  end.

Section adapter_sound.
Context {S : Type} {DR : Driver S} {UC : Unicode} {D : Dialect}.
Implicit Type w : World S.

(** ** The adapter *)
Lemma strict_has_open : strict (S := S) has_open_transaction.
Proof. exact (strict_guarded _ _ _ _ _ (sound_raw _)). Qed.
Lemma sound_has_open : sound (S := S) has_open_transaction.
Proof. apply strict_sound, strict_has_open. Qed.
Hint Resolve sound_has_open sound_guarded sound_guard_metadata : safety.

Lemma sound_commit : sound (S := S) commit. Proof. unfold commit. sound. Qed.
Lemma sound_rollback : sound (S := S) rollback. Proof. unfold rollback. sound. Qed.
Hint Resolve sound_commit sound_rollback : safety.
Lemma sound_begin : sound (S := S) begin. Proof. unfold begin. sound. Qed.
Lemma sound_fire bd ph : sound (S := S) (fire bd ph). Proof. exact (sound_raw _). Qed.
Hint Resolve sound_begin sound_fire : safety.
Lemma sound_durable_commit bd mid : sound (S := S) (durable_commit bd mid). Proof. unfold durable_commit. sound. Qed.
Lemma sound_exec c op ph mid : sound (S := S) (exec c op ph mid). Proof. unfold exec. sound. Qed.
Lemma sound_fetch o op ph mid : sound (S := S) (fetch o op ph mid). Proof. unfold fetch. sound. Qed.
Lemma sound_runner_binds : sound (S := S) runner_binds_of. Proof. unfold runner_binds_of. sound. Qed.
Hint Resolve sound_durable_commit sound_exec sound_fetch sound_runner_binds : safety.
Lemma sound_execute_in_transaction c op ph mid : sound (S := S) (metadata_execute_in_transaction c op ph mid).
Proof. unfold metadata_execute_in_transaction. sound. Qed.
Hint Resolve sound_execute_in_transaction : safety.

Lemma sound_insert_success_row a b c d e : sound (S := S) (insert_success_row a b c d e).
Proof. unfold insert_success_row. sound. Qed.
Lemma sound_insert_active_row a b c d : sound (S := S) (insert_active_row a b c d).
Proof. unfold insert_active_row. sound. Qed.
Lemma sound_update_active_attempt a b c : sound (S := S) (update_active_attempt a b c).
Proof. unfold update_active_attempt. sound. Qed.
Lemma sound_complete_active_row a : sound (S := S) (complete_active_row a).
Proof. unfold complete_active_row. sound. Qed.
Lemma sound_progress_get a b : sound (S := S) (progress_get a b).
Proof. unfold progress_get, fetch. sound. Qed.
Lemma sound_progress_set a b c : sound (S := S) (progress_set a b c).
Proof. unfold progress_set. sound. Qed.
Lemma sound_count a b : sound (S := S) (count a b). Proof. unfold count, fetch. sound. Qed.
Lemma sound_read_meta : sound (S := S) read_meta. Proof. unfold read_meta, fetch. sound. Qed.
Hint Resolve sound_count sound_read_meta : safety.

Lemma sound_inspect_marker present : sound (S := S) (inspect_marker present).
Proof.
  unfold inspect_marker. destruct (mem _ _); [|sound]. apply sound_try.
  - apply sound_bind; [sound|intros [meta rows]; sound].
  - intros x. destruct (is_unknown x) eqn:Hx.
    + destruct x; [by apply strict_raise_unknown|done..].
    + sound.
Qed.
Hint Resolve sound_inspect_marker : safety.

Lemma sound_inspect_metadata : sound (S := S) inspect_metadata.
Proof. unfold inspect_metadata. sound. Qed.
Lemma sound_create_metadata_object name : sound (S := S) (create_metadata_object name).
Proof. unfold create_metadata_object. sound. Qed.
Hint Resolve sound_create_metadata_object : safety.
Lemma sound_create_missing present name : sound (S := S) (create_missing present name).
Proof. unfold create_missing. sound. Qed.
Hint Resolve sound_create_missing : safety.
Lemma sound_initialize b : sound (S := S) (initialize b).
Proof. unfold initialize. sound. Qed.
Lemma sound_read_snapshot c : sound (S := S) (read_snapshot c). Proof. unfold read_snapshot. sound. Qed.
Lemma sound_execute st p : sound (S := S) (execute st p). Proof. unfold execute. sound. Qed.
Lemma sound_query st p : sound (S := S) (query st p). Proof. exact (sound_raw _). Qed.
Lemma sound_executemany st p : sound (S := S) (executemany st p). Proof. unfold executemany. sound. Qed.
Lemma sound_check_required r : sound (S := S) (check_required_objects r).
Proof. unfold check_required_objects. sound. Qed.

(** The rollback after rejected DDL: the submission itself never closes the latch. *)
Lemma sound_execute_ddl st : sound (S := S) (execute_ddl st).
Proof.
  unfold execute_ddl. destruct (ad_ddl_transaction st); [|sound].
  apply sound_bind; [sound|intros _]. apply sound_bind; [|intros _; sound].
  intros w Hw Hn. unfold try_except, mbind, M_bind.
  destruct (sound_raw (RExecute (st_text st) VNone) w Hw Hn) as [Hi _].
  assert (~ unknown (raw (RExecute (st_text st) VNone) w).1) as Hn'
    by (unfold unknown in *; by rewrite (proj1 (raw_fields _ w))).
  destruct (raw _ w) as [w1 [a|x]]; simpl in *; [done|].
  apply (sound_bind (when (definite_rejection x) rollback) (fun _ => raise x)); [sound|sound|done|done].
Qed.
End adapter_sound.

#[export] Hint Resolve sound_has_open sound_guarded sound_guard_metadata sound_commit sound_rollback sound_begin
  sound_fire sound_durable_commit sound_exec sound_fetch sound_runner_binds sound_execute_in_transaction
  sound_insert_success_row sound_insert_active_row sound_update_active_attempt sound_complete_active_row
  sound_progress_get sound_progress_set sound_inspect_metadata sound_initialize sound_read_snapshot
  sound_execute sound_query sound_executemany sound_check_required sound_execute_ddl : safety.

(** ** The facade *)
Section facade.
Context {S : Type} {DR : Driver S} {UC : Unicode} {D : Dialect} {H : Host}.
Context (u : CapturedUnit).
Implicit Type w : World S.

Lemma sound_batch_rolled_back : sound (S := S) (batch_rolled_back u).
Proof. by apply sound_latch_failure. Qed.
Lemma sound_transaction_violation detail ph : sound (S := S) (transaction_violation u detail ph).
Proof. by apply sound_latch_violation. Qed.
Lemma sound_batch_state : sound (S := S) batch_transaction_state.
Proof. exact (sound_raw RBatchState). Qed.
Hint Resolve sound_batch_rolled_back sound_transaction_violation sound_batch_state : safety.

Lemma sound_check_identity est sc : sound (S := S) (check_transaction_identity u est sc).
Proof. unfold check_transaction_identity, read_transaction_identity. sound. Qed.
Hint Resolve sound_check_identity : safety.

Lemma strict_admit_call op : strict (S := S) (admit_call u op).
Proof. unfold admit_call, get_context. apply strict_bind; [apply strict_latch_check|intros _]. sound. Qed.

Lemma strict_prepare sql op : strict (S := S) (prepare u sql op).
Proof. unfold prepare, get_context. apply strict_bind; [apply strict_admit_call|intros _]. sound. Qed.

Lemma sound_guard_call {A} op ph cc (m : M S A) : sound m -> sound (guard_call u op ph cc m).
Proof. intros. unfold guard_call, get_context. sound. Qed.

Lemma strict_execute sql p : strict (S := S) (ctx_execute u sql p).
Proof.
  unfold ctx_execute. apply strict_bind; [apply strict_prepare|intros st].
  apply sound_guard_call. sound.
Qed.
Lemma strict_executemany sql p : strict (S := S) (ctx_executemany u sql p).
Proof.
  unfold ctx_executemany. apply strict_bind; [apply strict_prepare|intros st].
  destruct (bool_decide _); [sound|]. apply sound_guard_call. sound.
Qed.
Lemma strict_query sql p : strict (S := S) (ctx_query u sql p).
Proof.
  unfold ctx_query. apply strict_bind; [apply strict_prepare|intros st].
  apply sound_guard_call. sound.
Qed.
Lemma strict_sql rel : strict (S := S) (ctx_sql u rel).
Proof. unfold ctx_sql. apply strict_bind; [apply strict_admit_call|intros _]. sound. Qed.
Lemma strict_progress_get key dflt : strict (S := S) (ctx_progress_get u key dflt).
Proof.
  unfold ctx_progress_get. apply strict_bind; [apply strict_admit_call|intros _].
  apply sound_bind; [sound|intros k]. apply sound_bind; [|sound]. apply sound_guard_call. sound.
Qed.
Lemma strict_progress_set key value : strict (S := S) (ctx_progress_set u key value).
Proof.
  unfold ctx_progress_set, get_context. apply strict_bind; [apply strict_admit_call|intros _].
  sound. apply sound_guard_call. sound.
Qed.

(** Rolling back a batch swallows every failure but an interrupt. *)
Lemma sound_rollback_batch : sound (S := S) rollback_batch.
Proof.
  unfold rollback_batch. intros w Hw Hn. unfold try_except, rollback, mbind, M_bind, modify.
  destruct (sound_raw RRollback w Hw Hn) as [Hi _].
  assert (~ unknown (raw RRollback w).1) as Hn' by (unfold unknown in *; by rewrite (proj1 (raw_fields _ w))).
  destruct (raw RRollback w) as [w1 [a|x]]; simpl in *.
  - split; [by apply (inert_inv _ _ (inert_engine_txn false))|done].
  - by destruct (is_Exception x).
Qed.
Hint Resolve sound_rollback_batch : safety.

Lemma sound_commit_batch : sound (S := S) (commit_batch u).
Proof.
  unfold commit_batch. apply sound_try; [sound|]. intros x.
  unfold is_unknown. destruct (catches UnknownOutcomeError x) eqn:E; simpl; [by apply strict_raise_unknown|sound].
Qed.
Hint Resolve sound_commit_batch : safety.

(** After the check an unknown outcome may be latched with nothing raised yet. *)
Definition checked (r : World S * result pyexn bool) : Prop :=
  Inv r.1 /\
  match r.2 with
  | Ok true => ~ unknown r.1
  | Ok false => True
  | Err x => unknown r.1 -> is_unknown x = true
  end.

Lemma sound_checked (m : M S bool) w : sound m -> Inv w -> ~ unknown w -> checked (m w).
Proof.
  intros Hm Hw Hn. destruct (Hm w Hw Hn) as [Hi Hu]. split; [done|].
  destruct (m w) as [w1 [[]|x]]; simpl in *; [|done|].
  - intros Hun. by apply Hu in Hun as (? & ? & _).
  - intros Hun. by apply Hu in Hun as (? & [= ->] & ?).
Qed.

Lemma check_batch_end_checked est failed w : Inv w -> ~ unknown w -> checked (check_batch_end u est failed w).
Proof.
  intros Hw Hn. unfold check_batch_end, try_except.
  match goal with |- context [match ?m w with _ => _ end] => assert (sound m) as Hm by sound; destruct (Hm w Hw Hn) as [Hi Hu]; destruct (m w) as [w1 [a|x]] eqn:E end; simpl in *.
  - split; [done|]. destruct a; [|done]. intros Hun. by apply Hu in Hun as (? & ? & _).
  - destruct (catches ContractViolationError x || catches UnknownOutcomeError x) eqn:Ex; [done|].
    apply orb_false_iff in Ex as [_ Ex].
    assert (~ unknown w1) as Hn1.
    { intros Hun. apply Hu in Hun as (? & [= ->] & Hx). unfold is_unknown in Hx. congruence. }
    apply sound_checked; [|done|done]. sound. by apply sound_latch_failure.
Qed.

Lemma strict_end_batch failed : strict (S := S) (end_batch u failed).
Proof.
  intros w Hw. destruct (unknown_dec w) as [Hun|Hn].
  - assert (end_batch u failed w = (latch_check;; (if failed then rollback_batch else commit_batch u)) w) as ->.
    { unfold end_batch, mbind, M_bind, gets. unfold latched, latch_is_unknown. unfold unknown in Hun.
      rewrite Hun. simpl. destruct failed; reflexivity. }
    revert w Hw Hun. intros w Hw _. revert w Hw. apply strict_bind; [apply strict_latch_check|].
    intros _. destruct failed; auto with safety.
  - revert w Hw Hn. change (sound (S := S) (end_batch u failed)). unfold end_batch. sound.
    all: try apply strict_sound, strict_latch_check.
Qed.

Lemma finish_batch_unfold est failed w :
  finish_batch u est failed w =
    if latched (w_latch w) then end_batch u failed w
    else match check_batch_end u est failed w with
         | (w1, Ok true) => (w1, Ok tt)
         | (w1, Ok false) => end_batch u failed w1
         | (w1, Err x) => (w1, Err x)
         end.
Proof.
  unfold finish_batch. unfold mbind, M_bind at 1, gets at 1. destruct (latched (w_latch w)); [done|].
  unfold M_bind at 1. destruct (check_batch_end u est failed w) as [? [[]|?]]; done.
Qed.

Lemma strict_finish_batch est failed : strict (S := S) (finish_batch u est failed).
Proof.
  intros w Hw. rewrite finish_batch_unfold. destruct (latched (w_latch w)) eqn:El; [by apply strict_end_batch|].
  assert (~ unknown w) as Hn by (unfold unknown; unfold latched in El; intros Hun; by rewrite Hun in El).
  destruct (check_batch_end_checked est failed w Hw Hn) as [Hi Hr].
  destruct (check_batch_end u est failed w) as [w1 [[]|x]]; simpl in *.
  - done.
  - by apply strict_end_batch.
  - split; [done|]. intros Hun. exists x. auto.
Qed.

(** Entering and leaving a batch, DDL, and every call of the facade. *)
Lemma sound_establish : sound (S := S) establish_transaction_identity.
Proof. exact (sound_guarded _ _ _ _ _ (sound_raw _)). Qed.

Lemma strict_transaction : strict (S := S) ctx_transaction.
Proof. apply strict_bind; [apply strict_latch_check|intros _]. unfold get_context, put_context. sound. Qed.

Lemma strict_enter n : strict (S := S) (batch_enter u n).
Proof.
  apply strict_bind; [apply strict_latch_check|intros _]. unfold get_context, put_context. sound.
  apply sound_try; [apply sound_establish|]. intros x.
  unfold is_unknown. destruct (catches UnknownOutcomeError x) eqn:E; simpl; [by apply strict_raise_unknown|sound].
Qed.

Lemma strict_modify_bind {A} f (m : M S A) : inert f -> strict m -> strict (modify f;; m).
Proof. intros Hf Hm w Hw. apply Hm. by apply (inert_inv f). Qed.

Lemma strict_gets_bind {A B} (f : World S -> A) (k : A -> M S B) : (forall a, strict (k a)) -> strict (a ← gets f; k a).
Proof. intros Hk w Hw. by apply Hk. Qed.

Lemma strict_exit n failed : strict (S := S) (batch_exit u n failed).
Proof.
  apply strict_gets_bind. intros c. apply strict_modify_bind; [apply inert_context|apply strict_finish_batch].
Qed.

Lemma strict_ddl sql : strict (S := S) (ctx_ddl u sql).
Proof.
  unfold ctx_ddl, get_context. apply strict_bind; [apply strict_latch_check|intros _].
  sound; apply sound_guard_call; sound.
Qed.

Lemma safe_map {A B} (m : M S A) (f : A -> B) : strict m -> safe (S := S) (a ← m; mret (f a)).
Proof. intros. apply safe_bind; [by apply strict_safe|intros; apply safe_ret]. Qed.

Lemma safe_batch_call m : safe (S := S) m -> safe (batch_call u m).
Proof. intros. unfold batch_call. destruct (mode_eqb _ _); [done|]. intros w Hw. done. Qed.

Lemma safe_run_call c : safe (S := S) (run_call u c).
Proof.
  destruct c; simpl; try apply safe_batch_call; apply safe_map;
    auto using strict_execute, strict_executemany, strict_query, strict_sql, strict_progress_get,
      strict_progress_set, strict_transaction, strict_enter, strict_exit, strict_ddl.
Qed.

(** Whatever the program does with the outcomes of its calls. *)
Lemma safe_run_prog p : safe (S := S) (run_prog u p).
Proof.
  induction p as [v|x|c k IH]; [apply safe_ret|by intros w Hw|].
  intros w Hw. simpl. pose proof (safe_run_call c w Hw). destruct (run_call u c w) as [w1 r]. by apply IH.
Qed.
End facade.

(** ** The engine *)
Section engine.
Context {S : Type} {DR : Driver S} {UC : Unicode} {I : Interpreter} {D : Dialect} {H : Host} {L : Loader} {DF : Deferred}.
Context (b : bindings) (capture : Capture) (recover_id : option str).
Implicit Type w : World S.

Lemma sound_put_report r : sound (S := S) (put_report r).
Proof. unfold put_report. sound. Qed.
Hint Resolve sound_put_report : safety.

Lemma safe_put_report r : safe (S := S) (put_report r).
Proof. apply safe_modify, inert_report. Qed.

(** Computations that only change the report change neither latch nor trace. *)
Lemma safe_gets_bind {A B} (f : World S -> A) (k : A -> M S B) : (forall a, safe (k a)) -> safe (a ← gets f; k a).
Proof. intros Hk w Hw. by apply Hk. Qed.

Lemma gets_bind {A B} (f : World S -> A) (k : A -> M S B) w : (a ← gets f; k a) w = k (f w) w.
Proof. done. Qed.

Lemma safe_report_fn (f : RunReport -> RunReport) : safe (S := S) (r ← get_report; put_report (f r)).
Proof. apply safe_gets_bind. intros. apply safe_put_report. Qed.

Lemma safe_fail e code discarded : safe (S := S) (fail e code discarded).
Proof.
  unfold fail. apply safe_gets_bind. intros r. apply safe_bind; [apply safe_put_report|].
  intros _. apply safe_modify, inert_reported.
Qed.

Lemma sound_fail e code discarded : sound (S := S) (fail e code discarded).
Proof. unfold fail, get_report. sound. Qed.

(** ** Teardown *)
Lemma safe_discard_quietly : safe (S := S) discard_quietly.
Proof.
  unfold discard_quietly, discard_attempts. apply safe_bind; [exact (safe_raw_quiet RConnectionHeld eq_refl)|intros held].
  apply safe_bind; [|intros; apply safe_ret].
  repeat (apply safe_try; [exact (safe_raw_quiet RDiscard eq_refl)|let y := fresh "y" in intros y; destruct (is_Exception y); [apply safe_ret|]]).
  apply safe_ret.
Qed.

Lemma safe_note_discarded reason : safe (S := S) (note_discarded reason).
Proof. apply safe_report_fn. Qed.

(** From a run whose outcome is known, anything sound is safe. *)
Definition tame {A} (m : M S A) : Prop := forall w, Inv w -> ~ unknown w -> Inv (m w).1.

Lemma sound_tame {A} (m : M S A) : sound m -> tame m.
Proof. intros Hm w Hw Hn. by apply Hm. Qed.
Lemma safe_tame {A} (m : M S A) : safe m -> tame m.
Proof. intros Hm w Hw _. by apply Hm. Qed.
Lemma fresh_tame {A} (m : M S A) : fresh m -> tame m.
Proof. intros Hm w Hw Hn. by apply Hm. Qed.

Lemma safe_unless_unknown {A} (m1 : M S A) (m2 : RunLatch -> M S A) :
  safe m1 -> (forall l, tame (m2 l)) -> safe (l ← gets w_latch; if latch_is_unknown l then m1 else m2 l).
Proof.
  intros H1 H2 w Hw. rewrite gets_bind. unfold latch_is_unknown.
  destruct (bool_decide _) eqn:E; [by apply H1|].
  apply H2; [done|]. by apply bool_decide_eq_false in E.
Qed.

Lemma tame_close_quietly : tame close_quietly.
Proof.
  intros w Hw Hn. unfold close_quietly, try_except.
  pose proof (raw_inv RClose w Hw (or_introl Hn)) as Hi.
  destruct (raw RClose w) as [w1 [[]|x]]; simpl in *; [done|].
  destruct (is_Exception x); [done|].
  revert w1 Hi. apply safe_bind; [apply safe_discard_quietly|].
  intros held. apply safe_when, safe_note_discarded.
Qed.

Lemma safe_rollback_quietly : safe (S := S) rollback_quietly.
Proof. apply (safe_unless_unknown _ (fun _ => _)); [apply safe_ret|]. intros _. apply sound_tame, sound_rollback_batch. Qed.

Lemma sound_rollback_quietly : sound (S := S) rollback_quietly.
Proof.
  intros w Hw Hn. unfold rollback_quietly, mbind, M_bind, gets.
  destruct (latch_is_unknown (w_latch w)) eqn:E.
  - unfold latch_is_unknown in E. by apply bool_decide_eq_true in E.
  - by apply sound_rollback_batch.
Qed.

Lemma tame_bind {A B} (m : M S A) (k : A -> M S B) : sound m -> (forall a, tame (k a)) -> tame (m ≫= k).
Proof.
  intros Hm Hk w Hw Hn. destruct (Hm w Hw Hn) as [Hi Hu]. unfold mbind, M_bind.
  destruct (m w) as [w1 [a|x]]; simpl in *; [|done].
  apply Hk; [done|]. intros Hun. by apply Hu in Hun as (? & ? & _).
Qed.

Lemma tame_handle_interruption x connected : tame (handle_interruption x connected).
Proof.
  unfold handle_interruption. apply tame_bind; [apply sound_fail|intros _].
  destruct connected; [|apply safe_tame, safe_ret].
  apply tame_bind; [apply sound_rollback_quietly|intros _; apply tame_close_quietly].
Qed.

Lemma unknown_error w : Inv w -> unknown w -> exists e, l_error (w_latch w) = Some e /\ exit_code e = UNKNOWN_OUTCOME.
Proof.
  intros [_ Ht _] Hu. unfold latch_typed in Ht. unfold unknown in Hu. rewrite Hu in Ht.
  destruct (l_error (w_latch w)) as [e|]; [|done]. exists e. split; [done|by apply exit_code_unknown].
Qed.

(** A run whose outcome is unknown is discarded: no rollback, no close. *)
Lemma safe_terminate x connected : safe (S := S) (terminate x connected).
Proof.
  intros w Hw. unfold terminate. rewrite gets_bind.
  destruct (unknown_dec w) as [Hun|Hn].
  - destruct (unknown_error w Hw Hun) as (e & He & Hc). unfold terminal_error. rewrite He. simpl.
    rewrite Hc. simpl. rewrite andb_true_r. revert w Hw Hun He.
    assert (safe (S := S) (fail e UNKNOWN_OUTCOME true;; when (is_instance e RecoveryRequiredError) (set_recovery (e_migration_id e));;
      if connected then discard_quietly;; mret tt else when connected close_quietly)) as Hs; [|intros; by apply Hs].
    apply safe_bind; [apply safe_fail|intros _]. apply safe_bind; [apply safe_when, safe_report_fn|intros _].
    destruct connected; [|apply safe_ret]. apply safe_bind; [apply safe_discard_quietly|intros; apply safe_ret].
  - destruct (terminal_error (w_latch w) x) as [e|]; [|by apply tame_handle_interruption].
    revert w Hw Hn. apply tame_bind; [apply sound_fail|intros _].
    apply tame_bind; [unfold set_recovery, get_report; sound|intros _].
    destruct (_ && _); [apply safe_tame, safe_bind; [apply safe_discard_quietly|intros; apply safe_ret]|].
    destruct connected; [apply tame_close_quietly|apply safe_tame, safe_ret].
Qed.

Lemma safe_settle : safe (S := S) settle_interrupted_teardown.
Proof.
  unfold settle_interrupted_teardown. apply safe_bind; [apply safe_discard_quietly|intros dropped].
  do 3 (apply safe_gets_bind; intros ?). apply safe_bind; [apply safe_when, safe_fail|intros _].
  apply safe_when, safe_note_discarded.
Qed.

(** ** Migrations *)
Lemma safe_invoke c : safe (S := S) (invoke c).
Proof.
  unfold invoke. destruct (u_language c).
  - apply safe_bind; [|intros; apply safe_ret]. unfold invoke_sql.
    apply safe_bind; [apply safe_of_result|intros adm]. destruct (as_category adm).
    + apply safe_bind; [|intros; apply safe_ret]. apply strict_safe, strict_guarded, sound_execute.
    + apply safe_bind; [apply strict_safe, strict_has_open|intros open].
      apply safe_bind; [apply safe_when, settled_safe, settled_raise|intros _].
      apply strict_safe, strict_guarded, sound_execute_ddl.
    + apply safe_bind; [|intros; apply safe_ret]. apply strict_safe, strict_guarded, sound_execute.
  - apply safe_bind; [|intros; apply safe_ret]. unfold invoke_python.
    apply safe_bind; [apply safe_of_result|intros p].
    apply safe_bind; [apply safe_modify, inert_context|intros _].
    apply safe_bind; [apply safe_run_prog|intros v; apply safe_of_result].
Qed.

Lemma settled_migration_failed cleanup ordinary {A} x :
  safe cleanup -> settled (S := S) (migration_failed cleanup ordinary (A := A) x).
Proof.
  intros Hc. unfold migration_failed.
  destruct (catches UnknownOutcomeError x); [apply settled_raise|].
  destruct (_ || _); [apply settled_bind_safe; [done|intros; apply settled_raise]|].
  destruct (is_Exception x); [|apply settled_raise].
  apply settled_bind_safe; [done|intros _]. apply settled_bind_safe; [by intros w Hw|].
  intros l. apply settled_raise.
Qed.

Lemma safe_post_return_cleanup : safe (S := S) post_return_cleanup.
Proof.
  apply (safe_unless_unknown _ (fun l => if latched l then rollback_quietly else _)); [apply safe_ret|].
  intros l. destruct (latched l); [by apply safe_tame, safe_rollback_quietly|]. apply tame_bind; [apply sound_has_open|intros open].
  apply safe_tame, safe_when, safe_rollback_quietly.
Qed.

Lemma sound_require_valid c : sound (S := S) (require_valid c).
Proof. unfold require_valid, add_warnings, get_report. sound. Qed.
Hint Resolve sound_require_valid sound_establish sound_check_identity : safety.

Lemma settled_atomic_work c identity : settled (S := S) (atomic_work c identity).
Proof.
  unfold atomic_work. apply settled_bind_safe; [apply safe_invoke|intros _].
  apply strict_settled, strict_bind; [apply strict_latch_check|intros _]. sound.
Qed.

Lemma fresh_run_atomic c : fresh (S := S) (run_atomic c).
Proof.
  unfold run_atomic. apply fresh_bind; [apply sound_fresh; sound|intros _].
  apply fresh_bind; [apply sound_fresh; sound|intros identity].
  apply fresh_bind; [|intros _; apply sound_fresh; sound].
  apply settled_fresh, settled_try; [apply settled_atomic_work|].
  intros x. apply settled_migration_failed, safe_rollback_quietly.
Qed.

Lemma fresh_run_restartable c active : fresh (S := S) (run_restartable c active).
Proof.
  unfold run_restartable. apply fresh_bind.
  { apply sound_fresh. unfold admit_attempt. sound. }
  intros _. apply settled_fresh. apply settled_bind_safe.
  { apply safe_try; [apply safe_invoke|]. intros x. apply settled_safe, settled_migration_failed, safe_post_return_cleanup. }
  intros python. apply strict_settled, strict_bind; [apply strict_latch_check|intros _].
  unfold get_context. sound. apply sound_rollback_quietly.
Qed.

Lemma fresh_execute_plan plan : fresh (S := S) (execute_plan plan).
Proof.
  apply fresh_for_each. intros c. unfold run_unit. apply fresh_bind.
  - destruct (u_mode c); [apply fresh_run_atomic|apply fresh_run_restartable].
  - intros _. apply sound_fresh. unfold add_executed, get_report. sound.
Qed.

(** ** The run *)
Lemma fresh_connected_run : fresh (S := S) (connected_run b capture recover_id).
Proof.
  assert (forall m, sound (S := S) (initialize_if_needed b m)) as Hinit.
  { intros m. unfold initialize_if_needed. sound. }
  assert (sound (S := S) (plan_run capture recover_id)) as Hplan.
  { unfold plan_run. sound. }
  unfold connected_run, set_namespace, get_report.
  repeat (apply fresh_bind; [apply sound_fresh; first [by auto with safety|sound]|intros ?]).
  2: apply fresh_execute_plan.
  all: unfold admit_recovery_namespace; sound.
Qed.

Lemma safe_inner_run w : Inv w -> ~ unknown w -> Inv (inner_run b capture recover_id w).1.
Proof.
  intros Hw Hn. unfold inner_run.
  assert (sound (S := S) (open_run capture)) as Ho by (unfold open_run; sound).
  destruct (Ho w Hw Hn) as [Hi Hu].
  destruct (open_run capture w) as [w1 [[]|x]]; simpl in *; [|by apply safe_terminate].
  assert (~ unknown w1) as Hn1 by (intros Hun; by apply Hu in Hun as (? & ? & _)).
  destruct (fresh_connected_run w1 Hi Hn1) as [Hi2 Hu2].
  destruct (connected_run b capture recover_id w1) as [w2 [[]|x]]; simpl in *; [|by apply safe_terminate].
  apply (tame_bind (modify set_reported) (fun _ => close_quietly)); [sound|intros; apply tame_close_quietly|done|auto].
Qed.

Lemma run_inv w : Inv w -> ~ unknown w -> Inv (run b capture recover_id w).1.
Proof.
  intros Hw Hn. unfold run, try_except. pose proof (safe_inner_run w Hw Hn).
  destruct (inner_run b capture recover_id w) as [w1 [[]|x]]; simpl in *; [done|].
  destruct x; [done|done|by apply safe_settle].
Qed.

Lemma initial_inv (s : S) runner : Inv (initial_world s runner).
Proof. by split. Qed.

End engine.
