(* ===== verification/Frame.v ===== *)
(** * What a computation leaves alone

    A predicate on worlds that survives certain driver calls, the latch, the
    engine-transaction flag and the facade's own state survives every function
    built from them. [keeps P m] says so for one computation; the lemmas here
    establish it once for the adapter, the facade and migration code, for every
    such [P]. The report's and the durable state's theorems are instances. *)
From S2P Require Import Prelude PyStr Errors Latch Paths Manifest Model Fingerprint StateValidate SqlText.
From S2P Require Import Admission Metadata Checks World Adapter Context Engine.
Open Scope str_scope.

(** The calls migration code of a unit can cause. Only restartable code has any
    transaction control or progress writes, and the latter are under its own id and not empty. *)
Definition unit_op (u : CapturedUnit) (o : rawop) : bool :=
  match o with
  | RHasOpen | RBatchState | REstablishIdentity | RReadIdentity
  | RExecute _ _ | RExecuteMany _ _ | RQuery _ _ | RProgressGet _ _ => true
  | RBegin | RCommit | RRollback | RFire _ _ => mode_eqb (u_mode u) RESTARTABLE
  | RMetadata (UpsertProgress mid _ value) =>
      bool_decide (mid = u_id u) && negb (bool_decide (value = [])) && mode_eqb (u_mode u) RESTARTABLE
  | _ => false
  end.

(** The calls that inspect the namespace. *)
Definition inspect_op (o : rawop) : bool :=
  match o with RObjectsPresent | RDefinitionProblems _ | RCount _ | RReadMarker => true | _ => false end.

(** The calls that inspect the namespace and create its tables. *)
Definition namespace_op (o : rawop) : bool :=
  inspect_op o ||
  match o with
  | RCreateObject _ | RPrepareStorage | RBegin | RCommit | RRollback | RHasOpen | RFire _ _ | RMetadata (InsertMarker _ _ _ _ _) => true
  | _ => false
  end.

(** The calls before the first migration. *)
Definition setup_op (o : rawop) : bool :=
  match o with
  | RConnect | RAcquireLock | RServerDescription | RSessionIdentity | RReadSnapshot _ => true
  | _ => namespace_op o
  end.

(** The calls that end a run. *)
Definition teardown_op (o : rawop) : bool :=
  match o with
  | RRollback | RClose | RDiscard | RConnectionHeld | RHasOpen => true
  | _ => false
  end.

(** The engine's own calls around a migration, the history statements aside. *)
Definition around_op (o : rawop) : bool :=
  match o with
  | RHasOpen | RBegin | RRollback | REstablishIdentity | RReadIdentity | RSessionIdentity
  | RCheckRequired _ | RFire _ _ => true
  | _ => false
  end.

Section logic.
Context {S : Type} {DR : Driver S}.
Implicit Types (P : World S -> Prop) (w : World S).

Definition keeps {A} P (m : M S A) : Prop := forall w, P w -> P (m w).1.

(** [P] survives the [allowed] calls and the run's own variables. *)
Record stable (allowed : rawop -> bool) P : Prop := {
  st_raw o w : allowed o = true -> P w -> P (raw o w).1;
  st_latch l w : P w -> P (set_latch l w);
  st_txn b w : P w -> P (set_engine_txn b w);
  st_context c w : P w -> P (set_context c w);
}.

Lemma stable_weaken ok ok' P : (forall o, ok' o = true -> ok o = true) -> stable ok P -> stable ok' P.
Proof. intros Hs []. split; auto. Qed.

(** ** The structure of computations *)
Section structure.
Context (P : World S -> Prop).

Lemma keeps_bind {A B} (m : M S A) (k : A -> M S B) : keeps P m -> (forall a, keeps P (k a)) -> keeps P (m ≫= k).
Proof.
  intros Hm Hk w Hw. specialize (Hm w Hw). unfold mbind, M_bind.
  destruct (m w) as [w1 [a|x]]; simpl in *; [by apply Hk|done].
Qed.
Lemma keeps_try {A} (m : M S A) h : keeps P m -> (forall x, keeps P (h x)) -> keeps P (try_except m h).
Proof.
  intros Hm Hk w Hw. specialize (Hm w Hw). unfold try_except.
  destruct (m w) as [w1 [a|x]]; simpl in *; [done|by apply Hk].
Qed.
Lemma keeps_ret {A} (a : A) : keeps P (mret a).
Proof. by intros w Hw. Qed.
Lemma keeps_of_result {A} (r : result pyexn A) : keeps P (of_result r).
Proof. by intros w Hw. Qed.
Lemma keeps_of_result_bind {A B} (r : result pyexn A) (k : A -> M S B) :
  (forall a, r = Ok a -> keeps P (k a)) -> keeps P (a ← of_result r; k a).
Proof. intros Hk w Hw. unfold mbind, M_bind, of_result. destruct r as [a|x]; [by apply Hk|done]. Qed.
Lemma keeps_of_check {A} (r : result error A) : keeps P (of_check r).
Proof. by intros w Hw. Qed.
Lemma keeps_raise {A} x : keeps P (@raise S A x).
Proof. by intros w Hw. Qed.
Lemma keeps_gets {A} (f : World S -> A) : keeps P (gets f).
Proof. by intros w Hw. Qed.
Lemma keeps_modify f : (forall w, P w -> P (f w)) -> keeps P (modify f).
Proof. intros Hf w Hw. by apply Hf. Qed.
Lemma keeps_when b (m : M S unit) : (b = true -> keeps P m) -> keeps P (when b m).
Proof. destruct b; [auto|intros _; apply keeps_ret]. Qed.
Lemma keeps_for_each {A} (f : A -> M S unit) l : (forall x, x ∈ l -> keeps P (f x)) -> keeps P (for_each_M f l).
Proof.
  intros Hf. induction l; simpl; [apply keeps_ret|].
  apply keeps_bind; [apply Hf; set_solver|intros _]. apply IHl. intros. apply Hf. set_solver.
Qed.
End structure.

Lemma keeps_raw ok P o : stable ok P -> ok o = true -> keeps P (raw o).
Proof. intros HP Ho w Hw. by apply (st_raw ok). Qed.
Lemma keeps_do_latch ok P f e : stable ok P -> keeps P (do_latch f e).
Proof. intros HP w Hw. simpl. by apply (st_latch ok). Qed.
Lemma keeps_set_txn ok P b : stable ok P -> keeps P (modify (set_engine_txn b)).
Proof. intros HP. apply keeps_modify. intros. by apply (st_txn ok). Qed.
Lemma keeps_set_context ok P c : stable ok P -> keeps P (modify (set_context c)).
Proof. intros HP. apply keeps_modify. intros. by apply (st_context ok). Qed.
Lemma keeps_latch_check P : keeps P latch_check.
Proof. by intros w Hw. Qed.
End logic.

Create HintDb frame.
#[export] Hint Resolve keeps_ret keeps_of_result keeps_of_check keeps_raise keeps_gets keeps_latch_check
  keeps_do_latch keeps_set_txn keeps_set_context : frame.

(** Follows the structure of a computation; a call must be allowed by computation
    or by a hypothesis. *)
Ltac keeps :=
  repeat match goal with
  | |- keeps _ (_ ≫= _) => apply keeps_bind; [|intros ?]
  | |- keeps _ (when _ _) => apply keeps_when; intros ?
  | |- keeps _ (try_except _ _) => apply keeps_try; [|intros ?]
  | |- keeps _ (raise_error _) => apply keeps_raise
  | HP : stable ?ok ?P |- keeps ?P (raw ?o) => refine (keeps_raw ok P o HP _)
  | |- keeps _ (match ?x with _ => _ end) => destruct x
  | |- keeps _ (for_each_M _ _) => apply keeps_for_each; intros ? ?
  | |- _ => progress (eauto with frame)
  end.

Section adapter.
Context {S : Type} {DR : Driver S} {UC : Unicode} {D : Dialect}.
Context (ok : rawop -> bool) (P : World S -> Prop) (HP : stable ok P).

Lemma keeps_guarded {A} op ph mid cc (m : M S A) : keeps P m -> keeps P (guarded op ph mid cc m).
Proof. intros Hm. unfold guarded, guard_failure. keeps. Qed.
Lemma keeps_guard_metadata {A} op ph mid cc (m : M S A) : keeps P m -> keeps P (guard_metadata op ph mid cc m).
Proof. apply keeps_guarded. Qed.
Lemma keeps_commit : ok RCommit = true -> keeps P commit.
Proof. intros. unfold commit. keeps. Qed.
Lemma keeps_rollback : ok RRollback = true -> keeps P rollback.
Proof. intros. unfold rollback. keeps. Qed.
Lemma keeps_has_open : ok RHasOpen = true -> keeps P has_open_transaction.
Proof. intros. apply keeps_guarded. keeps. Qed.
Lemma keeps_begin : ok RHasOpen = true -> ok RBegin = true -> keeps P begin.
Proof. intros. unfold begin. keeps; auto using keeps_has_open. apply keeps_guarded. keeps. Qed.
Lemma keeps_fire bd ph : ok (RFire bd ph) = true -> keeps P (fire bd ph).
Proof. intros. unfold fire. keeps. Qed.
Lemma keeps_durable_commit bd mid :
  ok RCommit = true -> (forall ph, ok (RFire bd ph) = true) -> keeps P (durable_commit bd mid).
Proof. intros. unfold durable_commit. keeps; auto using keeps_fire, keeps_guarded, keeps_commit. Qed.
Lemma keeps_exec c op ph mid : ok (RMetadata c) = true -> keeps P (exec c op ph mid).
Proof. intros. apply keeps_guarded. keeps. Qed.
Lemma keeps_fetch o op ph mid : ok o = true -> keeps P (fetch o op ph mid).
Proof. intros. apply keeps_guarded. keeps. Qed.
Lemma keeps_runner_binds : ok RSessionIdentity = true -> keeps P runner_binds_of.
Proof. intros. unfold runner_binds_of. keeps. Qed.
Lemma keeps_progress_get mid key : ok (RProgressGet mid key) = true -> keeps P (progress_get mid key).
Proof. intros. unfold progress_get. keeps. by refine (keeps_fetch (RProgressGet mid key) _ _ _ _). Qed.
Lemma keeps_progress_set mid key v : ok (RMetadata (UpsertProgress mid key v)) = true -> keeps P (progress_set mid key v).
Proof. intros. unfold progress_set. keeps. by apply keeps_exec. Qed.
Lemma keeps_execute_ddl st :
  ok RHasOpen = true -> ok RBegin = true -> ok RRollback = true -> ok RCommit = true ->
  (forall ph, ok (RFire RESTARTABLE_DDL ph) = true) -> ok (RExecute (st_text st) VNone) = true ->
  keeps P (execute_ddl st).
Proof. intros. unfold execute_ddl. keeps; auto using keeps_begin, keeps_rollback, keeps_durable_commit. Qed.
Lemma keeps_check_required r : ok (RCheckRequired r) = true -> keeps P (check_required_objects r).
Proof. intros. unfold check_required_objects. keeps. apply keeps_guarded. keeps. Qed.

Lemma keeps_read_snapshot c : ok (RReadSnapshot c) = true -> keeps P (read_snapshot c).
Proof. intros. apply keeps_guarded. keeps. Qed.

(** ** Inspection and initialization *)
Lemma keeps_count t present : ok (RCount t) = true -> keeps P (count t present).
Proof. intros. unfold count. keeps. by refine (keeps_fetch (RCount t) _ _ _ _). Qed.

Lemma keeps_inspect_metadata (Hok : forall o, inspect_op o = true -> ok o = true) : keeps P inspect_metadata.
Proof.
  unfold inspect_metadata, inspect_marker, read_meta.
  keeps; try (refine (keeps_fetch _ _ _ _ _)); try apply keeps_count; try apply keeps_guarded; keeps; auto.
Qed.

Lemma keeps_initialize b (Hok : forall o, namespace_op o = true -> ok o = true) : keeps P (initialize b).
Proof.
  assert (keeps P begin) by (apply keeps_begin; auto).
  assert (forall bd mid, keeps P (durable_commit bd mid)) by (intros; apply keeps_durable_commit; auto).
  unfold initialize, create_missing, create_metadata_object.
  keeps; try (apply keeps_exec; auto); repeat (apply keeps_guarded; keeps); auto.
Qed.
End adapter.

(** ** The facade and migration code *)
Section facade.
Context {S : Type} {DR : Driver S} {UC : Unicode} {I : Interpreter} {D : Dialect} {H : Host} {L : Loader} {DF : Deferred}.
Context (u : CapturedUnit).
Context (P : World S -> Prop) (HP : stable (unit_op u) P).

Let has_open : keeps P has_open_transaction := keeps_has_open _ P HP eq_refl.
Hint Resolve has_open : core.

Lemma keeps_guard_call {A} op ph cc (m : M S A) : keeps P m -> keeps P (guard_call u op ph cc m).
Proof. intros. unfold guard_call, get_context. keeps. by apply (keeps_guarded _ P HP). Qed.

Lemma keeps_check_identity est sc : keeps P (check_transaction_identity u est sc).
Proof.
  unfold check_transaction_identity, read_transaction_identity, transaction_violation. keeps.
  apply (keeps_guarded _ P HP). keeps.
Qed.

Lemma keeps_establish : keeps P establish_transaction_identity.
Proof. apply (keeps_guarded _ P HP). keeps. Qed.

Lemma keeps_admit_call op : keeps P (admit_call u op).
Proof. unfold admit_call, get_context, batch_transaction_state, batch_rolled_back, transaction_violation. keeps. Qed.

Lemma keeps_prepare sql op : keeps P (prepare u sql op).
Proof. unfold prepare, get_context. keeps. apply keeps_admit_call. Qed.

Lemma keeps_sql_calls :
  (forall sql p, keeps P (ctx_execute u sql p)) /\ (forall sql p, keeps P (ctx_executemany u sql p)) /\
  (forall sql p, keeps P (ctx_query u sql p)).
Proof.
  unfold ctx_execute, ctx_executemany, ctx_query, execute, executemany, query.
  split_and!; intros; keeps; try apply keeps_prepare; apply keeps_guard_call; keeps.
Qed.

Lemma keeps_ctx_sql rel : keeps P (ctx_sql u rel).
Proof. unfold ctx_sql. keeps. apply keeps_admit_call. Qed.

Lemma keeps_ctx_progress_get key dflt : keeps P (ctx_progress_get u key dflt).
Proof.
  unfold ctx_progress_get. keeps; [apply keeps_admit_call|]. apply keeps_guard_call.
  by apply (keeps_progress_get _ P HP).
Qed.

Lemma mode_restartable m : mode_eqb m RESTARTABLE = true -> m = RESTARTABLE.
Proof. by destruct m. Qed.

(** The value that reaches the progress table is not empty. *)
Lemma check_progress_value_Ok value v : check_progress_value value = Ok v -> v <> [].
Proof.
  unfold check_progress_value. destruct value as [|z|[|c s]|]; try done.
  unfold mbind. destruct (encode_or_raise _) as [bytes|x]; [|done]. simpl.
  unfold raise_if. case_bool_decide || destruct (_ <? _)%N; simpl; congruence.
Qed.

(** *** What only restartable code has *)
Section restartable.
Context (Hmode : u_mode u = RESTARTABLE).

Let control o : match o with RBegin | RCommit | RRollback | RFire _ _ => true | _ => false end = true -> unit_op u o = true.
Proof. destruct o; try done; simpl; by rewrite Hmode. Qed.
Let begin_ : keeps P begin.
Proof. apply (keeps_begin _ P HP); [done|by apply control]. Qed.
Let rollback_ : keeps P rollback.
Proof. apply (keeps_rollback _ P HP). by apply control. Qed.
Let commit_ bd mid : keeps P (durable_commit bd mid).
Proof. apply (keeps_durable_commit _ P HP); intros; by apply control. Qed.
Let fire_ bd ph : keeps P (fire bd ph).
Proof. apply (keeps_fire _ P HP). by apply control. Qed.
Hint Resolve begin_ rollback_ commit_ fire_ : core.

Lemma keeps_unit_ddl st : keeps P (execute_ddl st).
Proof. apply (keeps_execute_ddl _ P HP); intros; first [done|by apply control]. Qed.

Lemma keeps_ctx_progress_set key value : keeps P (ctx_progress_set u key value).
Proof.
  unfold ctx_progress_set, get_context.
  apply keeps_bind; [apply keeps_admit_call|intros _]. apply keeps_bind; [keeps|intros k].
  intros w Hw. unfold mbind at 1, M_bind at 1, of_result at 1.
  destruct (check_progress_value value) as [v|x] eqn:Hv; [|done]. revert w Hw.
  change (keeps P (c ← gets w_context;
    when (negb (cx_in_batch c)) (raise_error (mk_id UsageError "ctx.progress.set() is only available inside a batch" (u_id u)));;
    guard_call u "progress_set" "migration_execution" (Some false) (progress_set (u_id u) k v))).
  keeps. apply keeps_guard_call. apply (keeps_progress_set _ P HP). simpl.
  rewrite bool_decide_eq_true_2, bool_decide_eq_false_2, Hmode by eauto using check_progress_value_Ok. done.
Qed.

Lemma keeps_batches :
  keeps P rollback_batch /\ keeps P (commit_batch u) /\ (forall est failed, keeps P (check_batch_end u est failed)) /\
  (forall failed, keeps P (end_batch u failed)).
Proof.
  assert (keeps P rollback_batch) as Hr by (unfold rollback_batch; keeps; auto).
  assert (keeps P (commit_batch u)) as Hc by (unfold commit_batch; keeps; auto).
  split_and!; [done|done|intros est failed|intros failed].
  - unfold check_batch_end, batch_transaction_state, batch_rolled_back, transaction_violation.
    keeps; auto using keeps_check_identity.
  - unfold end_batch. keeps; auto.
Qed.

Lemma keeps_batch_exit n failed : keeps P (batch_exit u n failed).
Proof.
  destruct keeps_batches as (_ & _ & Hc & He).
  unfold batch_exit, get_context, put_context, finish_batch. keeps; auto.
Qed.

Lemma keeps_batch_enter n : keeps P (batch_enter u n).
Proof.
  destruct keeps_batches as (Hr & _). unfold batch_enter, get_context, put_context.
  keeps; auto using keeps_establish.
Qed.

Lemma keeps_ctx_ddl sql : keeps P (ctx_ddl u sql).
Proof.
  unfold ctx_ddl, get_context. keeps; auto. apply keeps_guard_call, keeps_unit_ddl.
Qed.

End restartable.

Lemma keeps_run_call c : keeps P (run_call u c).
Proof.
  destruct keeps_sql_calls as (? & ? & ?).
  destruct c; simpl; unfold batch_call; try (destruct (mode_eqb (u_mode u) RESTARTABLE) eqn:Hm; [apply mode_restartable in Hm|apply keeps_raise]);
    unfold ctx_transaction, get_context, put_context; keeps;
    eauto using keeps_ctx_sql, keeps_ctx_progress_get, keeps_batch_enter, keeps_batch_exit, keeps_ctx_ddl,
      keeps_ctx_progress_set.
Qed.

Lemma keeps_run_prog p : keeps P (run_prog u p).
Proof.
  induction p as [v|x|c k IH]; [by intros w Hw|by intros w Hw|].
  intros w Hw. simpl. pose proof (keeps_run_call c w Hw). destruct (run_call u c w) as [w1 r]. by apply IH.
Qed.

(** Whatever the migration's code does, it keeps [P]. *)
Lemma keeps_invoke : keeps P (invoke u).
Proof.
  unfold invoke. destruct (u_language u); (apply keeps_bind; [|intros; apply keeps_ret]).
  - unfold invoke_sql, execute, engine_guarded. apply keeps_of_result_bind. intros a Ha.
    pose proof (admit_sql_entry_category _ _ _ Ha) as Hcat.
    destruct (as_category a); keeps; auto; apply (keeps_guarded _ P HP); keeps. apply keeps_unit_ddl, Hcat.
  - unfold invoke_python. keeps. apply keeps_run_prog.
Qed.
End facade.

(** ** Teardown *)
Section teardown.
Context {S : Type} {DR : Driver S}.
Context (P : World S -> Prop).
Context (Hraw : forall o, teardown_op o = true -> keeps P (raw o)) (Htxn : forall b, keeps P (modify (set_engine_txn b))).

Lemma keeps_discard_quietly : keeps P discard_quietly.
Proof. unfold discard_quietly, discard_attempts. keeps; first [exact (Hraw RConnectionHeld eq_refl)|exact (Hraw RDiscard eq_refl)]. Qed.

Lemma keeps_rollback_quietly : keeps P rollback_quietly.
Proof. unfold rollback_quietly, rollback. keeps; exact (Hraw RRollback eq_refl). Qed.

Context (Hnote : forall reason, keeps P (note_discarded reason)) (Hrecovery : forall mid, keeps P (set_recovery mid)).

Lemma keeps_close_quietly : keeps P close_quietly.
Proof. unfold close_quietly. keeps; first [exact (Hraw RClose eq_refl)|apply keeps_discard_quietly]. Qed.

Context (Hfail : forall e code discarded, keeps P (fail e code discarded)).

Lemma keeps_terminate x connected : keeps P (terminate x connected).
Proof.
  unfold terminate, handle_interruption.
  keeps; auto using keeps_discard_quietly, keeps_close_quietly, keeps_rollback_quietly.
Qed.

Lemma keeps_settle : keeps P settle_interrupted_teardown.
Proof. unfold settle_interrupted_teardown. keeps; auto using keeps_discard_quietly. Qed.
End teardown.

Lemma stable_rollback_quietly {S} {DR : Driver S} (P : World S -> Prop) : stable teardown_op P -> keeps P rollback_quietly.
Proof.
  intros HP. apply keeps_rollback_quietly; [intros o Ho; by apply (keeps_raw teardown_op)|intros; by apply (keeps_set_txn teardown_op)].
Qed.

(** ** The engine

    For a predicate that every call keeps: what is not about the database. *)
Section engine.
Context {S : Type} {DR : Driver S} {UC : Unicode} {I : Interpreter} {D : Dialect} {H : Host} {L : Loader} {DF : Deferred}.
Context (P : World S -> Prop) (HP : stable (fun _ => true) P).
Context (Hwarn : forall ws, keeps P (add_warnings ws)).

Let rollback_q : keeps P rollback_quietly.
Proof. by apply stable_rollback_quietly, (stable_weaken (fun _ => true)). Qed.
Let invoke_ u : keeps P (invoke u).
Proof. by apply keeps_invoke, (stable_weaken (fun _ => true)). Qed.
Let identity_ u est sc : keeps P (check_transaction_identity u est sc).
Proof. by apply keeps_check_identity, (stable_weaken (fun _ => true)). Qed.
Let has_open : keeps P has_open_transaction := keeps_has_open _ P HP eq_refl.
Let begin_ : keeps P begin := keeps_begin _ P HP eq_refl eq_refl.
Let rollback_ : keeps P rollback := keeps_rollback _ P HP eq_refl.
Let binds_ : keeps P runner_binds_of := keeps_runner_binds _ P HP eq_refl.
Let commit_ bd mid : keeps P (durable_commit bd mid).
Proof. by apply (keeps_durable_commit _ P HP). Qed.
Let exec_ c op ph mid : keeps P (exec c op ph mid).
Proof. by apply (keeps_exec _ P HP). Qed.
Let required_ r : keeps P (check_required_objects r).
Proof. by apply (keeps_check_required _ P HP). Qed.
Let establish_ : keeps P establish_transaction_identity.
Proof. apply (keeps_guarded _ P HP). exact (keeps_raw _ P REstablishIdentity HP eq_refl). Qed.
Hint Resolve rollback_q invoke_ identity_ has_open begin_ rollback_ binds_ commit_ exec_ required_ establish_ : core.

Lemma keeps_migration_failed cleanup ordinary {A} x :
  keeps P cleanup -> keeps P (migration_failed (A := A) cleanup ordinary x).
Proof. intros. unfold migration_failed. keeps. Qed.

Lemma keeps_run_atomic u : keeps P (run_atomic u).
Proof.
  unfold run_atomic, atomic_work, require_valid, insert_success_row.
  keeps; auto using keeps_migration_failed.
Qed.

Lemma keeps_run_restartable u active : keeps P (run_restartable u active).
Proof.
  unfold run_restartable, admit_attempt, insert_active_row, update_active_attempt, complete_active_row,
    metadata_execute_in_transaction, require_valid, get_context.
  keeps; auto. apply keeps_migration_failed. unfold post_return_cleanup. keeps; auto.
Qed.

Lemma keeps_run_mode u plan :
  keeps P (match u_mode u with ATOMIC => run_atomic u | RESTARTABLE => run_restartable u (active_for plan u) end).
Proof. destruct (u_mode u); [apply keeps_run_atomic|apply keeps_run_restartable]. Qed.

Lemma keeps_plan_run capture recover_id : keeps P (plan_run capture recover_id).
Proof. unfold plan_run. keeps. by apply (keeps_read_snapshot _ P HP). Qed.
End engine.

(** ** The run in three parts *)
Section parts.
Context {S : Type} {DR : Driver S} {UC : Unicode} {I : Interpreter} {D : Dialect} {H : Host} {L : Loader} {DF : Deferred}.
Context (b : bindings) (capture : Capture) (recover_id : option str).

(** From the connection to an initialized namespace. *)
Definition prepare_run : M S unit :=
  set_namespace (b_namespace b);;
  raw RServerDescription;;
  raw RSessionIdentity;;
  raw RAcquireLock;;
  metadata ← inspect_metadata;
  admit_recovery_namespace recover_id metadata;;
  raw RPrepareStorage;;
  initialize_if_needed b metadata.

Lemma connected_run_parts w :
  connected_run b capture recover_id w =
    (prepare_run;; plan ← plan_run capture recover_id; execute_plan plan) w.
Proof.
  unfold connected_run, prepare_run. unfold mbind at 1 10, M_bind at 1 10.
  unfold mbind, M_bind.
  repeat (match goal with |- context [match ?m ?v with (_, _) => _ end] => destruct (m v) as [? [?|?]] end; try done).
Qed.

Lemma keeps_prepare_run (P : World S -> Prop) ok :
  stable ok P -> (forall o, setup_op o = true -> ok o = true) -> (forall ns, keeps P (set_namespace ns)) -> keeps P prepare_run.
Proof.
  intros HP Hok Hns. unfold prepare_run, admit_recovery_namespace, initialize_if_needed.
  assert (forall o, namespace_op o = true -> ok o = true) as Hns' by (intros [] ?; apply Hok; done).
  assert (forall o, inspect_op o = true -> ok o = true) as Hin by (intros [] ?; apply Hok; done).
  keeps; try (by apply (keeps_inspect_metadata ok)); try (by apply (keeps_initialize ok));
    refine (keeps_raw ok P _ HP _); by apply Hok.
Qed.
End parts.
