(* ===== verification/Triple.v ===== *)
(** * Triples on the session's state

    A Hoare logic for the run's monad that looks only at the driver's state: from a
    session where [P] holds, a computation that returns leaves [Q], one that
    raises leaves [E]. What a computation leaves alone comes from [Frame]. *)
From S2P Require Import Prelude PyStr Errors Latch Paths Manifest Model Fingerprint StateValidate SqlText.
From S2P Require Import Admission Metadata Checks World Adapter Context Engine Frame.
Open Scope str_scope.

Section triples.
Context {S : Type} {DR : Driver S} {UC : Unicode} {D : Dialect}.

Definition triple {A} (P : S -> Prop) (m : M S A) (Q : A -> S -> Prop) (E : S -> Prop) : Prop :=
  forall w, P (w_driver w) ->
    match m w with
    | (w', Ok a) => Q a (w_driver w')
    | (w', Err _) => E (w_driver w')
    end.

(** A predicate on the session as one on worlds. *)
Definition on_driver (P : S -> Prop) (w : World S) : Prop := P (w_driver w).

Lemma triple_bind {A B} P (m : M S A) Q (k : A -> M S B) R E :
  triple P m Q E -> (forall a, triple (Q a) (k a) R E) -> triple P (m ≫= k) R E.
Proof.
  intros Hm Hk w Hw. specialize (Hm w Hw). unfold mbind, M_bind.
  destruct (m w) as [w1 [a|x]]; [by apply Hk|done].
Qed.

Lemma triple_conseq {A} (P P' : S -> Prop) (m : M S A) (Q Q' : A -> S -> Prop) (E E' : S -> Prop) :
  triple P' m Q' E' -> (forall s, P s -> P' s) -> (forall a s, Q' a s -> Q a s) -> (forall s, E' s -> E s) ->
  triple P m Q E.
Proof.
  intros Hm HP HQ HE w Hw. specialize (Hm w (HP _ Hw)). destruct (m w) as [w1 [a|x]]; auto.
Qed.

Lemma triple_keeps {A} P (m : M S A) : keeps (on_driver P) m -> triple P m (fun _ => P) P.
Proof. intros Hm w Hw. specialize (Hm w Hw). by destruct (m w) as [w1 [a|x]]. Qed.

(** The same when the result tells nothing about the session. *)
Lemma triple_seq {A B} P (m : M S A) (Q : S -> Prop) (k : A -> M S B) R E :
  triple P m (fun _ => Q) E -> (forall a, triple Q (k a) R E) -> triple P (m ≫= k) R E.
Proof. intros Hm Hk. by eapply triple_bind. Qed.

(** One more computation in the middle that keeps the precondition. *)
Lemma triple_step {A B} (P : S -> Prop) (m : M S A) (k : A -> M S B) R (E : S -> Prop) :
  keeps (on_driver P) m -> (forall s, P s -> E s) -> (forall a, triple P (k a) R E) -> triple P (m ≫= k) R E.
Proof.
  intros Hm HE Hk. eapply triple_bind; [|exact Hk].
  eapply triple_conseq; [by apply triple_keeps| | |]; auto.
Qed.

Lemma triple_last {A} (P : S -> Prop) (m : M S A) (E : S -> Prop) :
  keeps (on_driver P) m -> (forall s, P s -> E s) -> triple P m (fun _ => P) E.
Proof. intros. eapply triple_conseq; [by apply triple_keeps| | |]; auto. Qed.

Lemma triple_try {A} P (m : M S A) h Q E E' :
  triple P m Q E' -> (forall x, triple E' (h x) Q E) -> triple P (try_except m h) Q E.
Proof.
  intros Hm Hh w Hw. specialize (Hm w Hw). unfold try_except.
  destruct (m w) as [w1 [a|x]]; [done|by apply Hh].
Qed.

Lemma triple_raw P o (Q : reply o -> S -> Prop) (E : S -> Prop) :
  (forall s, P s -> let '(s', r) := drv_step o s in match r with Ok a => Q a s' | Err _ => E s' end) ->
  triple P (raw o) Q E.
Proof.
  intros H w Hw. specialize (H _ Hw). unfold raw. by destruct (drv_step o (w_driver w)) as [s' [a|x]].
Qed.

Lemma triple_guarded {A} op ph mid cc (m : M S A) P Q (E : S -> Prop) :
  triple P m Q E -> (forall s, P s -> E s) -> triple P (guarded op ph mid cc m) Q E.
Proof.
  intros Hm HE w Hw. unfold guarded, mbind, M_bind, gets.
  assert (triple P (try_except m (guard_failure op ph mid cc)) Q E) as Ht.
  { eapply triple_try; [exact Hm|]. intros x w1 Hw1. unfold guard_failure.
    destruct x as [e|d|]; [done| |]; simpl.
    - destruct (ad_classify_call d cc); [done|]. unfold mbind, M_bind, gets. simpl. by destruct (w_has_latch w1).
    - destruct cc; [|done]. unfold mbind, M_bind, gets. simpl. by destruct (w_has_latch w1). }
  destruct (w_has_latch w); simpl; [|by apply Ht].
  unfold latch_check, mbind, M_bind, gets, of_check, of_result. simpl.
  destruct (check (w_latch w)) as [[]|e]; [by apply Ht|by apply HE].
Qed.

Lemma triple_then_txn P (m : M S unit) Q b E :
  triple P m (fun _ => Q) E -> triple P (m;; modify (set_engine_txn b)) (fun _ => Q) E.
Proof. intros Hm. eapply triple_bind; [exact Hm|]. intros [] w Hw. exact Hw. Qed.
Lemma triple_ret {A} P (a : A) E : triple P (mret a) (fun _ => P) E.
Proof. by intros w Hw. Qed.
Lemma triple_of_result {A B} (P : S -> Prop) (r : result pyexn A) (k : A -> M S B) Q (E : S -> Prop) :
  (forall a, r = Ok a -> triple P (k a) Q E) -> (forall s, P s -> E s) -> triple P (a ← of_result r; k a) Q E.
Proof. intros Hk HE w Hw. unfold mbind, M_bind, of_result. destruct r as [a|x]; [by apply (Hk a)|by apply HE]. Qed.
Lemma triple_assoc {A B C} P (m : M S A) (k : A -> M S B) (h : B -> M S C) Q E :
  triple P (a ← m; b ← k a; h b) Q E -> triple P (b ← (a ← m; k a); h b) Q E.
Proof.
  intros Hm w Hw. specialize (Hm w Hw). revert Hm. unfold mbind, M_bind. by destruct (m w) as [w1 [a|x]].
Qed.
Lemma triple_raise {A} (P : S -> Prop) x Q (E : S -> Prop) : (forall s, P s -> E s) -> triple P (@raise S A x) Q E.
Proof. intros H w Hw. by apply H. Qed.
Lemma triple_pure {A} (P : Prop) (P' : S -> Prop) (m : M S A) Q E :
  (P -> triple P' m Q E) -> triple (fun s => P /\ P' s) m Q E.
Proof. intros H w [Hp Hw]. by apply H. Qed.
Lemma triple_exists {A B} (P : B -> S -> Prop) (m : M S A) Q E :
  (forall x, triple (P x) m Q E) -> triple (fun s => exists x, P x s) m Q E.
Proof. intros H w [x Hw]. by apply (H x). Qed.
End triples.

(** ** The whole run

    What the connected part leaves, in success and in failure, and the end of a run
    keeps, the run leaves. *)
Section run_triple.
Context {S : Type} {DR : Driver S} {UC : Unicode} {I : Interpreter} {D : Dialect} {H : Host} {L : Loader} {DF : Deferred}.
Context (b : bindings) (capture : Capture) (recover_id : option str).
Context (E : S -> Prop) (HE : stable teardown_op (on_driver E)).

Lemma keeps_ending :
  (forall x c, keeps (on_driver E) (terminate x c)) /\ keeps (on_driver E) settle_interrupted_teardown /\
  keeps (on_driver E) close_quietly.
Proof.
  assert (forall o, teardown_op o = true -> keeps (on_driver E) (raw o)) as Hraw
    by (intros o Ho; by apply (keeps_raw teardown_op)).
  split_and!.
  - intros x c. apply keeps_terminate; [exact Hraw|..]; intros; intros v Hv; exact Hv.
  - apply keeps_settle; [exact Hraw|..]; intros; intros v Hv; exact Hv.
  - apply keeps_close_quietly; [exact Hraw|..]; intros; intros v Hv; exact Hv.
Qed.

Lemma triple_run P P1 :
  triple P (open_run capture) (fun _ => P1) E ->
  triple P1 (connected_run b capture recover_id) (fun _ => E) E ->
  forall w, P (w_driver w) -> E (w_driver (run b capture recover_id w).1).
Proof.
  intros Hopen Hconn w Hw. destruct keeps_ending as (Hterm & Hsettle & Hclose).
  assert (E (w_driver (inner_run b capture recover_id w).1)) as Hin.
  { unfold inner_run. pose proof (Hopen w Hw) as Ho.
    destruct (open_run capture w) as [w1 [[]|x]]; [|by apply (Hterm x false w1)].
    pose proof (Hconn w1 Ho) as Hc.
    destruct (connected_run b capture recover_id w1) as [w2 [[]|x]]; [by apply (Hclose (set_reported w2))|by apply (Hterm x true w2)]. }
  unfold run, try_except. destruct (inner_run b capture recover_id w) as [w1 [[]|x]]; [done|].
  destruct x; [done|done|by apply Hsettle].
Qed.

(** A failed migration leaves what its failure and the cleanup leave. *)
Lemma triple_migration_failed cleanup ordinary {A} x (Q : A -> S -> Prop) :
  keeps (on_driver E) cleanup -> triple E (migration_failed cleanup ordinary x) Q E.
Proof.
  intros Hc. unfold migration_failed, raise_error.
  destruct (catches UnknownOutcomeError x); [by apply triple_raise|].
  destruct (_ || _).
  { apply triple_step; [done|done|]. intros _. by apply triple_raise. }
  destruct (is_Exception x); [|by apply triple_raise].
  apply triple_step; [done|done|intros _]. apply triple_step; [keeps|done|intros l]. by apply triple_raise.
Qed.

Lemma keeps_rollback_E : keeps (on_driver E) rollback_quietly.
Proof. by apply stable_rollback_quietly. Qed.

Lemma keeps_cleanup_E : keeps (on_driver E) post_return_cleanup.
Proof. unfold post_return_cleanup. keeps; try apply keeps_rollback_E. by apply (keeps_has_open teardown_op). Qed.
End run_triple.
