(* ===== verification/Protocol.v ===== *)
(** * The order of a run's calls

    What a run may ask of the database session, and when, as a state machine over
    its calls and their answers: [phase] and [advance]. Every run, whatever the
    migrations do and the database answers, follows it. The theorems on the
    order of calls are then facts about its words. The calls and answers are
    kept by [logged], a driver around any driver. *)
From S2P Require Import Prelude PyStr Errors Latch Paths Manifest Model Fingerprint StateValidate SqlText.
From S2P Require Import Admission Metadata Checks World Adapter Context Engine Frame Triple.
Open Scope str_scope.

(** ** Calls and answers *)
Inductive event := Event (o : rawop) (r : result pyexn (reply o)).

Definition ev_op (e : event) : rawop := match e with Event o _ => o end.

(** A driver that also keeps what it was asked and answered, the latest first. *)
#[export] Instance logged {S} {DR : Driver S} : Driver (S * list event) := fun o s =>
  let '(s', r) := drv_step o s.1 in ((s', Event o r :: s.2), r).

(** ** The phases of a run

    [Running]'s flag says that the last call opened a transaction. *)
Inductive phase :=
| Closed
| Connected
| Setup
| Between (plan : Plan) (rest : list CapturedUnit)
| InAtomic (plan : Plan) (u : CapturedUnit) (rest : list CapturedUnit)
| Recorded (plan : Plan) (u : CapturedUnit) (rest : list CapturedUnit)
| Admitting (plan : Plan) (u : CapturedUnit) (rest : list CapturedUnit)
| AdmittedUnit (plan : Plan) (u : CapturedUnit) (rest : list CapturedUnit)
| Running (plan : Plan) (u : CapturedUnit) (rest : list CapturedUnit) (begun : bool)
| Completed (plan : Plan) (u : CapturedUnit) (rest : list CapturedUnit)
| Cleared (plan : Plan) (u : CapturedUnit) (rest : list CapturedUnit)
| Ending.

Section protocol.
Context (capture : Capture).

(** The history statements a unit is due. *)
Definition success_of (u : CapturedUnit) (c : metadata_cmd) : bool :=
  match c with
  | InsertHistory ST_SUCCESS false true seq mid fp lang mode _ =>
      bool_decide (seq = u_position u /\ mid = u_id u /\ fp = u_fingerprint u /\
                   lang = language_value (u_language u) /\ mode = mode_value (u_mode u))
  | _ => false
  end.

Definition admission_of (plan : Plan) (u : CapturedUnit) (c : metadata_cmd) : bool :=
  match active_for plan u, c with
  | None, InsertHistory ST_ACTIVE true false seq mid fp lang mode _ =>
      bool_decide (seq = u_position u /\ mid = u_id u /\ fp = u_fingerprint u /\
                   lang = language_value (u_language u) /\ mode = mode_value RESTARTABLE)
  | Some _, UpdateAttempt mid fp lang _ =>
      bool_decide (mid = u_id u /\ fp = u_fingerprint u /\ lang = language_value (u_language u))
  | _, _ => false
  end.

Definition counts_rows (c : metadata_cmd) : bool :=
  match c with UpdateAttempt _ _ _ _ | CompleteHistory _ _ => true | _ => false end.

(** After a statement that must change one row anything else ends the run. *)
Definition took_effect (c : metadata_cmd) (r : result pyexn Z) : bool :=
  match r with
  | Ok n => if counts_rows c then (n =? 1)%Z else true
  | Err _ => false
  end.

Definition to (ok : bool) (ph : phase) : option phase := Some (if ok then ph else Ending).

Definition on_metadata (ph : phase) (c : metadata_cmd) (r : result pyexn Z) : option phase :=
  let ok := took_effect c r in
  match ph with
  | Setup => if namespace_op (RMetadata c) then Some Setup else None
  | InAtomic plan u rest => if success_of u c then to ok (Recorded plan u rest) else None
  | Admitting plan u rest => if admission_of plan u c then to ok (AdmittedUnit plan u rest) else None
  | Running plan u rest begun =>
      match c with
      | CompleteHistory mid _ => if begun && bool_decide (mid = u_id u) then to ok (Completed plan u rest) else None
      | _ => if unit_op u (RMetadata c) then Some (Running plan u rest false) else None
      end
  | Completed plan u rest =>
      match c with
      | DeleteProgress mid => if bool_decide (mid = u_id u) then to ok (Cleared plan u rest) else None
      | _ => None
      end
  | _ => None
  end.

(** Calls that only look, for the engine's own checks after a migration. *)
Definition looks (o : rawop) : bool :=
  match o with RSessionIdentity | RCheckRequired _ => true | _ => false end.

Definition on_call (ph : phase) (o : rawop) (ok : bool) : option phase :=
  match ph with
  | Closed => match o with RConnect => to ok Connected | _ => None end
  | Connected =>
      match o with
      | RServerDescription | RSessionIdentity => to ok Connected
      | RAcquireLock => to ok Setup
      | _ => None
      end
  | Setup => if namespace_op o then Some Setup else None
  | Between plan rest =>
      match o, rest with
      | RFire _ _, _ => to ok ph
      | RSessionIdentity, _ :: _ => to ok ph
      | RBegin, u :: rest =>
          to ok (match u_mode u with ATOMIC => InAtomic plan u rest | RESTARTABLE => Admitting plan u rest end)
      | _, _ => None
      end
  | InAtomic _ u _ => if unit_op u o || looks o then Some ph else None
  | Recorded plan _ rest =>
      match o with RFire _ _ => to ok ph | RCommit => to ok (Between plan rest) | _ => None end
  | Admitting _ _ _ => match o with RSessionIdentity => to ok ph | _ => None end
  | AdmittedUnit plan u rest =>
      match o with RFire _ _ => to ok ph | RCommit => to ok (Running plan u rest false) | _ => None end
  | Running plan u rest _ =>
      if unit_op u o || looks o
      then Some (Running plan u rest (ok && match o with RBegin => true | _ => false end)) else None
  | Completed _ _ _ => None
  | Cleared plan _ rest =>
      match o with RFire _ _ => to ok ph | RCommit => to ok (Between plan rest) | _ => None end
  | Ending => None
  end.

(** One call and its answer. The calls that end a session are admitted anywhere, and
    so is the question whether a transaction is open; a rollback outside a
    restartable migration and the setup ends the run. *)
Definition advance (ph : phase) (e : event) : option phase :=
  match e with
  | Event RClose _ | Event RDiscard _ | Event RConnectionHeld _ => Some Ending
  | Event RHasOpen _ => Some ph
  | Event RRollback _ =>
      Some (match ph with Setup => Setup | Running plan u rest _ => Running plan u rest false | _ => Ending end)
  | Event (RReadSnapshot _) r =>
      match ph with
      | Setup =>
          Some (match r with
                | Ok snap => match build_plan capture snap with Ok p => Between p (p_pending p) | Err _ => Ending end
                | Err _ => Ending
                end)
      | _ => None
      end
  | Event (RMetadata c) r => on_metadata ph c r
  | Event o r => on_call ph o (is_ok r)
  end.

Fixpoint phase_of (log : list event) : option phase :=
  match log with
  | [] => Some Closed
  | e :: log => ph ← phase_of log; advance ph e
  end.

(** ** Triples over the phase *)
Section follows.
Context {S : Type} {DR : Driver S} {UC : Unicode} {I : Interpreter} {D : Dialect} {H : Host} {L : Loader} {DF : Deferred}.

Definition at_phase (F : phase -> Prop) (s : S * list event) : Prop := exists ph, phase_of s.2 = Some ph /\ F ph.
Definition accepted : S * list event -> Prop := at_phase (fun _ => True).

Lemma at_accepted F s : at_phase F s -> accepted s.
Proof. intros (ph & ? & _). by exists ph. Qed.

Lemma logged_step o (s : S * list event) :
  exists s' r, drv_step o s = ((s', Event o r :: s.2), r).
Proof. unfold drv_step at 1, logged. destruct (drv_step o s.1) as [s' r]. by exists s', r. Qed.

Lemma stable_at ok (F : phase -> Prop) :
  (forall o r ph, ok o = true -> F ph -> exists ph', advance ph (Event o r) = Some ph' /\ F ph') ->
  stable ok (on_driver (at_phase F)).
Proof.
  intros Hstep. split; [|done..]. intros o w Ho (ph & Hph & HF). unfold on_driver, raw.
  destruct (logged_step o (w_driver w)) as (s' & r & ->). destruct (Hstep o r ph Ho HF) as (ph' & Ha & HF').
  exists ph'. split; [|done]. simpl. by rewrite Hph.
Qed.

Lemma triple_call o (F : phase -> Prop) (Q : reply o -> phase -> Prop) :
  (forall r ph, F ph -> exists ph', advance ph (Event o r) = Some ph' /\ forall a, r = Ok a -> Q a ph') ->
  triple (at_phase F) (raw o) (fun a => at_phase (Q a)) accepted.
Proof.
  intros Hstep. apply triple_raw. intros s (ph & Hph & HF).
  destruct (logged_step o s) as (s' & r & ->). destruct (Hstep r ph HF) as (ph' & Ha & HQ).
  assert (phase_of (Event o r :: s.2) = Some ph') as Hp by (simpl; by rewrite Hph).
  destruct r as [a|x]; exists ph'; auto.
Qed.

Lemma stable_accepted : stable teardown_op (on_driver accepted).
Proof. apply stable_at. intros [] r ph Ho _; try done; simpl; eauto. Qed.

(** In one phase, to the next. *)
Abbreviation at_ ph := (at_phase (eq ph)).

Lemma triple_next o ph (Q : reply o -> phase -> Prop) :
  (forall r, exists ph', advance ph (Event o r) = Some ph' /\ forall a, r = Ok a -> Q a ph') ->
  triple (at_ ph) (raw o) (fun a => at_phase (Q a)) accepted.
Proof. intros Hstep. apply triple_call. intros r ? <-. apply Hstep. Qed.

Lemma stable_stay ok ph :
  (forall o r, ok o = true -> advance ph (Event o r) = Some ph) -> stable ok (on_driver (at_ ph)).
Proof. intros Hs. apply stable_at. intros o r ? Ho <-. exists ph. eauto. Qed.

Lemma triple_has_open F : triple (at_phase F) has_open_transaction (fun _ => at_phase F) accepted.
Proof.
  apply triple_last; [|apply at_accepted].
  apply (keeps_has_open (fun o => match o with RHasOpen => true | _ => false end)); [|done].
  apply stable_at. intros [] r ph Ho HF; try done. by exists ph.
Qed.

Lemma proto_begin F (Q : phase -> Prop) :
  (forall ph ok, F ph -> exists ph', on_call ph RBegin ok = Some ph' /\ (ok = true -> Q ph')) ->
  triple (at_phase F) begin (fun _ => at_phase Q) accepted.
Proof.
  intros Hb. unfold begin.
  apply triple_step; [keeps|apply at_accepted|intros open]. apply triple_step; [keeps|apply at_accepted|intros _].
  eapply triple_seq; [apply triple_has_open|intros held].
  apply triple_step; [keeps|apply at_accepted|intros _].
  apply triple_then_txn. apply triple_guarded; [|apply at_accepted].
  apply (triple_call RBegin F (fun _ => Q)). intros r ph HF.
  destruct (Hb ph (is_ok r) HF) as (ph' & Ha & HQ). exists ph'. split; [done|]. intros a ->. by apply HQ.
Qed.

Lemma triple_metadata c op tag mid ph ph' :
  (forall r, on_metadata ph c r = to (took_effect c r) ph') ->
  triple (at_ ph) (exec c op tag mid)
    (fun n s => at_phase (fun p => p = if took_effect c (Ok n) then ph' else Ending) s) accepted.
Proof.
  intros Hc. unfold exec. apply triple_guarded; [|apply at_accepted].
  apply (triple_next (RMetadata c) ph (fun n p => p = if took_effect c (Ok n) then ph' else Ending)).
  intros r. exists (if took_effect c r then ph' else Ending). split; [apply Hc|by intros n ->].
Qed.

(** A durable commit, with the hooks before and after it. *)
Lemma triple_commit bd mid ph ph' :
  (forall b' tag ok, on_call ph (RFire b' tag) ok = to ok ph) -> (forall ok, on_call ph RCommit ok = to ok ph') ->
  (forall b' tag ok, exists p, on_call ph' (RFire b' tag) ok = Some p /\ (ok = true -> p = ph')) ->
  triple (at_ ph) (durable_commit bd mid) (fun _ => at_ ph') accepted.
Proof.
  intros Hf1 Hc Hf2. unfold durable_commit, fire. eapply triple_seq with (Q := at_ ph).
  { apply (triple_next (RFire bd "before_commit") ph (fun _ => eq ph)). intros r. simpl. rewrite Hf1. eexists. split; [done|by intros a ->]. }
  intros _. eapply triple_seq with (Q := at_ ph').
  { apply triple_guarded; [|apply at_accepted]. unfold commit. apply triple_then_txn.
    apply (triple_next RCommit ph (fun _ => eq ph')). intros r. simpl. rewrite Hc. eexists. split; [done|by intros a ->]. }
  intros _. apply (triple_next (RFire bd "after_commit") ph' (fun _ => eq ph')).
  intros r. destruct (Hf2 bd "after_commit" (is_ok r)) as (p & Hp & Hok). exists p. split; [done|].
  intros a ->. by rewrite Hok.
Qed.

Lemma triple_binds F :
  (forall r ph, F ph -> exists ph', advance ph (Event RSessionIdentity r) = Some ph' /\ (is_ok r = true -> F ph')) ->
  triple (at_phase F) runner_binds_of (fun _ => at_phase F) accepted.
Proof.
  intros Hs. unfold runner_binds_of. apply triple_step; [keeps|apply at_accepted|intros runner].
  eapply triple_seq with (Q := at_phase F).
  - apply (triple_call RSessionIdentity F (fun _ => F)). intros r ph HF. destruct (Hs r ph HF) as (ph' & ? & HF').
    exists ph'. split; [done|]. intros a ->. by apply HF'.
  - intros session. apply triple_last; [keeps|apply at_accepted].
Qed.

(** ** Migrations *)
Section migration.
Context (plan : Plan) (u : CapturedUnit) (rest : list CapturedUnit).

Let E_stable : stable teardown_op (on_driver accepted) := stable_accepted.
Let cleanup_ : keeps (on_driver accepted) post_return_cleanup := keeps_cleanup_E _ E_stable.
Let rollback_ : keeps (on_driver accepted) rollback_quietly := keeps_rollback_E _ E_stable.

Lemma keeps_look F : stable looks (on_driver (at_phase F)) ->
  keeps (on_driver (at_phase F)) (require_valid u).
Proof.
  intros Hst. unfold require_valid, add_warnings, get_report, put_report. keeps. by apply (keeps_check_required looks).
Qed.

(** *** Atomic *)
Let in_atomic := at_ (InAtomic plan u rest).

Lemma stable_in_atomic : u_mode u = ATOMIC -> stable (fun o => unit_op u o || looks o) (on_driver in_atomic).
Proof.
  intros Hm. apply stable_stay. intros o r Ho.
  destruct o; try done; simpl in *; rewrite ?Hm in *; try done.
  destruct c; try done. simpl in Ho. by rewrite andb_false_r in Ho.
Qed.

Lemma proto_insert_success : u_mode u = ATOMIC ->
  triple in_atomic (insert_success_row (u_position u) (u_id u) (u_fingerprint u) (u_language u) (u_mode u))
    (fun _ => at_ (Recorded plan u rest)) accepted.
Proof.
  intros Hm. unfold insert_success_row. eapply triple_seq; [apply triple_binds; intros r ? <-; by eexists|intros r].
  eapply triple_bind; [apply triple_metadata with (ph' := Recorded plan u rest)|].
  - intros r'. simpl. by rewrite bool_decide_eq_true_2.
  - intros n. eapply triple_conseq; [apply triple_ret with (E := fun _ => False)|intros s Hs; exact Hs| |done].
    intros _ s (ph & ? & ->). by eexists.
Qed.

Lemma proto_run_atomic : u_mode u = ATOMIC ->
  triple (at_ (Between plan (u :: rest))) (run_atomic u) (fun _ => at_ (Between plan rest)) accepted.
Proof.
  intros Hm. pose proof (stable_in_atomic Hm) as Hst.
  assert (stable (unit_op u) (on_driver in_atomic)) as Hst1 by (eapply stable_weaken, Hst; intros o Ho; cbn beta; by rewrite Ho).
  assert (stable looks (on_driver in_atomic)) as Hst2.
  { eapply stable_weaken, Hst. intros o Ho. cbn beta. by rewrite Ho, orb_true_r. }
  unfold run_atomic. eapply triple_seq with (Q := in_atomic).
  { apply proto_begin. intros ? ok <-. simpl. rewrite Hm. eexists. split; [done|by intros ->]. }
  intros _. apply triple_step; [by apply (keeps_establish u)|apply at_accepted|intros identity].
  eapply triple_seq with (Q := at_ (Recorded plan u rest)).
  - apply triple_try with (E' := accepted); [|intros x; by apply triple_migration_failed].
    unfold atomic_work.
    apply triple_step; [by apply keeps_invoke|apply at_accepted|intros _].
    apply triple_step; [keeps|apply at_accepted|intros _].
    apply triple_step; [by apply keeps_look|apply at_accepted|intros _].
    apply triple_step; [by apply (keeps_check_identity u)|apply at_accepted|intros _].
    by apply proto_insert_success.
  - intros _. apply triple_commit; [done|done|]. intros bd tag ok. eexists. split; [done|by intros ->].
Qed.

(** *** Restartable *)
Let running := at_phase (fun ph => exists begun, ph = Running plan u rest begun).

Lemma stable_running : stable (fun o => unit_op u o || looks o) (on_driver running).
Proof.
  apply stable_at. intros o r ph Ho [begun ->].
  destruct o; try done; cbn [advance on_call] in *; try rewrite Ho; eauto.
  destruct c; try done. cbn [on_metadata]. rewrite orb_false_r in Ho. rewrite Ho. eauto.
Qed.

Lemma proto_metadata_execute c op tag mid (F : phase -> Prop) ph ph' :
  (forall ph0 ok, F ph0 -> exists p, on_call ph0 RBegin ok = Some p /\ (ok = true -> p = ph)) ->
  (forall r, on_metadata ph c r = to (took_effect c r) ph') -> counts_rows c = true ->
  triple (at_phase F) (metadata_execute_in_transaction c op tag mid) (fun _ => at_ ph') accepted.
Proof.
  intros Hb Hc Hcount. unfold metadata_execute_in_transaction.
  eapply triple_seq; [apply (proto_begin F (eq ph)); intros ph0 ok HF|intros _].
  { destruct (Hb ph0 ok HF) as (p & ? & Hp). exists p. split; [done|]. intros Hok. by rewrite (Hp Hok). }
  eapply triple_bind; [apply triple_metadata with (ph' := ph')|intros n].
  - done.
  - unfold took_effect. rewrite Hcount. unfold when. destruct (n =? 1)%Z; simpl.
    + eapply triple_conseq; [apply triple_ret with (E := fun _ => False)|intros s Hs; exact Hs| |done].
      intros _ s (? & ? & ->). by eexists.
    + eapply triple_conseq with (P' := accepted) (Q' := fun _ _ => False); [|apply at_accepted|done|intros s Hs; exact Hs].
      apply triple_step; [by apply (keeps_rollback teardown_op)|done|intros _]. by apply triple_raise.
Qed.

Lemma proto_admit_attempt : u_mode u = RESTARTABLE ->
  triple (at_ (Between plan (u :: rest))) (admit_attempt u (active_for plan u)) (fun _ => running) accepted.
Proof.
  intros Hm.
  assert (triple (at_ (AdmittedUnit plan u rest)) (durable_commit RESTARTABLE_ADMISSION (Some (u_id u))) (fun _ => running) accepted) as Hcommit.
  { eapply triple_conseq; [apply triple_commit with (ph' := Running plan u rest false)|intros s Hs; exact Hs| |intros s Hs; exact Hs].
    - done.
    - done.
    - intros bd tag ok. simpl. rewrite Hm. simpl. rewrite andb_false_r. eauto.
    - intros _ s (ph & ? & <-). eexists. eauto. }
  unfold admit_attempt. destruct (active_for plan u) as [a|] eqn:Hact.
  - unfold update_active_attempt.
    eapply triple_seq; [apply triple_binds; intros r ? <-; eexists; split; [done|by intros ->]|intros r].
    eapply triple_seq; [|intros _; exact Hcommit].
    apply proto_metadata_execute with (ph := Admitting plan u rest); [| |done].
    + intros ? ok <-. simpl. rewrite Hm. eexists. split; [done|by intros ->].
    + intros r'. cbn [on_metadata]. unfold admission_of. rewrite Hact, bool_decide_eq_true_2 by done. done.
  - unfold insert_active_row. eapply triple_seq with (Q := at_ (Admitting plan u rest)).
    { apply proto_begin. intros ? ok <-. simpl. rewrite Hm. eexists. split; [done|by intros ->]. }
    intros _. eapply triple_seq; [apply triple_binds; intros r ? <-; eexists; split; [done|by intros ->]|intros r].
    eapply triple_seq; [|intros _; exact Hcommit].
    eapply triple_conseq; [apply triple_metadata with (ph' := AdmittedUnit plan u rest)|intros s Hs; exact Hs| |intros s Hs; exact Hs].
    + intros r'. cbn [on_metadata]. unfold admission_of. rewrite Hact, bool_decide_eq_true_2 by done. done.
    + intros n s (ph & ? & ->). by eexists.
Qed.

Lemma proto_complete : u_mode u = RESTARTABLE ->
  triple running (complete_active_row (u_id u)) (fun _ => at_ (Between plan rest)) accepted.
Proof.
  intros Hm. unfold complete_active_row. eapply triple_seq.
  { apply triple_binds. intros r ph [begun ->]. cbn [advance on_call]. rewrite orb_true_r. eauto. }
  intros r. eapply triple_seq with (Q := at_ (Completed plan u rest)).
  { apply proto_metadata_execute with (ph := Running plan u rest true); [| |done].
    - intros ph0 ok [begun ->]. simpl. rewrite Hm. eexists. split; [done|by intros ->].
    - intros r'. simpl. by rewrite bool_decide_eq_true_2. }
  intros _. eapply triple_bind; [apply triple_metadata with (ph' := Cleared plan u rest)|intros n].
  { intros r'. simpl. by rewrite bool_decide_eq_true_2. }
  eapply triple_conseq with (P' := at_ (Cleared plan u rest)); [|by intros s (ph & ? & ->); eexists|intros n' s Hs; exact Hs|intros s Hs; exact Hs].
  apply triple_commit; [done|done|]. intros bd tag ok. eexists. split; [done|by intros ->].
Qed.

Lemma proto_run_restartable : u_mode u = RESTARTABLE ->
  triple (at_ (Between plan (u :: rest))) (run_restartable u (active_for plan u)) (fun _ => at_ (Between plan rest)) accepted.
Proof.
  intros Hm. pose proof stable_running as Hst.
  assert (stable (unit_op u) (on_driver running)) as Hst1 by (eapply stable_weaken, Hst; intros o Ho; cbn beta; by rewrite Ho).
  assert (stable looks (on_driver running)) as Hst2.
  { eapply stable_weaken, Hst. intros o Ho. cbn beta. by rewrite Ho, orb_true_r. }
  unfold run_restartable. eapply triple_seq; [by apply proto_admit_attempt|intros _].
  eapply triple_seq with (Q := running).
  { apply triple_try with (E' := accepted); [|intros x; by apply triple_migration_failed].
    apply triple_last; [by apply keeps_invoke|apply at_accepted]. }
  intros python. apply triple_step; [keeps|apply at_accepted|intros _].
  apply triple_step; [unfold get_context; keeps|apply at_accepted|intros c].
  eapply triple_seq with (Q := running).
  { destruct (_ && _); [apply triple_ret|apply triple_has_open]. }
  intros open. eapply triple_seq with (Q := running).
  { destruct open; [|apply triple_ret]. simpl.
    eapply triple_conseq with (P' := accepted) (Q' := fun _ _ => False); [|apply at_accepted|done|intros s Hs; exact Hs].
    apply triple_step; [done|done|intros _]. by apply triple_raise. }
  intros _. apply triple_step; [by apply keeps_look|apply at_accepted|intros _]. by apply proto_complete.
Qed.
End migration.

(** ** The run *)
Lemma proto_units plan us :
  triple (at_ (Between plan us)) (for_each_M (run_unit plan) us) (fun _ => at_ (Between plan [])) accepted.
Proof.
  induction us as [|u us IH]; simpl; [apply triple_ret|].
  eapply triple_seq; [|intros _; exact IH]. unfold run_unit. eapply triple_seq with (Q := at_ (Between plan us)).
  - destruct (u_mode u) eqn:Hm; [by apply proto_run_atomic|by apply proto_run_restartable].
  - intros _. apply triple_last; [|apply at_accepted].
    unfold add_executed, get_report, put_report. keeps; by apply keeps_modify.
Qed.

Lemma proto_plan_run recover_id :
  triple (at_ Setup) (plan_run capture recover_id) (fun plan => at_ (Between plan (p_pending plan))) accepted.
Proof.
  unfold plan_run.
  eapply triple_bind with (Q := fun snap => at_phase (fun ph => forall p, build_plan capture snap = Ok p -> ph = Between p (p_pending p))).
  { apply triple_guarded; [|apply at_accepted].
    apply (triple_next (RReadSnapshot true) Setup (fun snap ph => forall p, build_plan capture snap = Ok p -> ph = Between p (p_pending p))).
    intros r. eexists. split; [done|]. by intros snap -> p ->. }
  intros snap. apply triple_of_result; [|apply at_accepted]. intros plan Hplan.
  eapply triple_conseq with (P' := at_ (Between plan (p_pending plan))); [|intros s (ph & ? & Hph)|intros p s Hs; exact Hs|intros s Hs; exact Hs].
  2:{ exists ph. split; [done|]. symmetry. auto. }
  apply triple_step; [keeps|apply at_accepted|intros _]. intros w Hw. exact Hw.
Qed.

Lemma proto_prepare_run b recover_id :
  triple (at_ Connected) (prepare_run b recover_id) (fun _ => at_ Setup) accepted.
Proof.
  assert (stable namespace_op (on_driver (at_ Setup))) as Hst.
  { apply stable_stay. intros o r Ho. destruct o; try done. simpl in *. by destruct c. }
  unfold prepare_run, admit_recovery_namespace, initialize_if_needed.
  eapply triple_seq with (Q := at_ Connected); [apply triple_last; [by intros w Hw|apply at_accepted]|intros _].
  eapply triple_seq with (Q := at_ Connected).
  { apply (triple_next RServerDescription Connected (fun _ => eq Connected)). intros r. eexists. split; [done|by intros a ->]. }
  intros _. eapply triple_seq with (Q := at_ Connected).
  { apply (triple_next RSessionIdentity Connected (fun _ => eq Connected)). intros r. eexists. split; [done|by intros a ->]. }
  intros _. eapply triple_seq with (Q := at_ Setup).
  { apply (triple_next RAcquireLock Connected (fun _ => eq Setup)). intros r. eexists. split; [done|by intros a ->]. }
  intros _. apply triple_last; [|apply at_accepted].
  assert (forall o, inspect_op o = true -> namespace_op o = true) as Hin by (intros o Ho; unfold namespace_op; by rewrite Ho).
  keeps; try (by apply (keeps_inspect_metadata namespace_op)); try (by apply (keeps_initialize namespace_op)).
Qed.
End follows.
End protocol.

(** The run [b capture recover_id] over any driver, with its log. *)
Section runs.
Context {S : Type} {DR : Driver S} {UC : Unicode} {I : Interpreter} {D : Dialect} {H : Host} {L : Loader} {DF : Deferred}.
Context (b : bindings) (capture : Capture) (recover_id : option str).

(** The calls of a run and their answers, the latest first. *)
Definition run_log (s : S) (runner : RunnerInfo) : list event :=
  (w_driver (run b capture recover_id (initial_world (s, []) runner)).1).2.

Lemma run_accepted (s : S) runner : accepted capture (w_driver (run b capture recover_id (initial_world (s, []) runner)).1).
Proof.
  eapply triple_run with (P := at_phase capture (eq Closed)) (P1 := at_phase capture (eq Connected)).
  - apply stable_accepted.
  - unfold open_run. apply triple_step; [by intros w Hw|apply at_accepted|intros _].
    apply triple_step; [by intros w Hw|apply at_accepted|intros _].
    apply (triple_next capture RConnect Closed (fun _ => eq Connected)). intros r. eexists. split; [done|by intros a ->].
  - intros w Hw. rewrite connected_run_parts. revert w Hw.
    change (triple (at_phase capture (eq Connected))
      (prepare_run b recover_id;; plan ← plan_run capture recover_id; execute_plan plan) (fun _ => accepted capture) (accepted capture)).
    eapply triple_seq; [apply proto_prepare_run|intros _]. eapply triple_bind; [apply proto_plan_run|intros plan].
    eapply triple_conseq; [apply proto_units|intros ? Hs; exact Hs|intros a s0; apply at_accepted|intros ? Hs; exact Hs].
  - by exists Closed.
Qed.

End runs.
