(* ===== verification/Order.v ===== *)
(** * What the order of calls guarantees

    Facts about the words of the protocol of [Protocol], and so about the calls of
    every run: no work before the lock and the plan, one transaction for an atomic
    migration, completions in the order of the manifest. *)
From S2P Require Import Prelude PyStr Errors Latch Paths Manifest Model Fingerprint StateValidate SqlText.
From S2P Require Import Admission Metadata Checks World Adapter Context Engine Frame Triple Protocol.
Open Scope str_scope.

(** Everything but connecting, describing the session, the lock itself, the question
    whether a transaction is open, and the end of a session. *)
Definition needs_lock (o : rawop) : bool :=
  match o with
  | RConnect | RServerDescription | RSessionIdentity | RAcquireLock | RHasOpen
  | RRollback | RClose | RDiscard | RConnectionHeld => false
  | _ => true
  end.

(** What belongs to a migration: its text, its progress and its history rows. *)
Definition needs_plan (o : rawop) : bool :=
  match o with
  | RExecute _ _ | RExecuteMany _ _ | RQuery _ _ | RProgressGet _ _ | RCheckRequired _
  | RBatchState | REstablishIdentity | RReadIdentity => true
  | RMetadata (InsertMarker _ _ _ _ _) => false
  | RMetadata _ => true
  | _ => false
  end.

(** The migration an event records as successful. *)
Definition completes (e : event) : option str :=
  match e with
  | Event (RMetadata (InsertHistory ST_SUCCESS _ _ _ mid _ _ _ _)) (Ok _) => Some mid
  | Event (RMetadata (CompleteHistory mid _)) (Ok n) => if (n =? 1)%Z then Some mid else None
  | _ => None
  end.

(** In the order they were recorded. *)
Definition completed (log : list event) : list str := rev (omap completes log).

Section words.
Context (capture : Capture).

Definition lock_taken (log : list event) : Prop := Event RAcquireLock (Ok tt) ∈ log.

Definition planned (log : list event) (plan : Plan) : Prop :=
  exists c snap, Event (RReadSnapshot c) (Ok snap) ∈ log /\ build_plan capture snap = Ok plan.

(** The plan of a phase and the units not recorded yet. *)
Definition progress_of (ph : phase) : option (Plan * list CapturedUnit) :=
  match ph with
  | Between plan rest | Recorded plan _ rest | Completed plan _ rest | Cleared plan _ rest => Some (plan, rest)
  | InAtomic plan u rest | Admitting plan u rest | AdmittedUnit plan u rest | Running plan u rest _ => Some (plan, u :: rest)
  | _ => None
  end.

Definition has_lock (ph : phase) : bool :=
  match ph with Closed | Connected | Ending => false | _ => true end.

(** What the calls so far tell in each phase. *)
Record knows (log : list event) (ph : phase) : Prop := {
  kn_lock : has_lock ph = true -> lock_taken log;
  kn_plan plan rest : progress_of ph = Some (plan, rest) ->
    planned log plan /\ completed log ++ map u_id rest = map u_id (p_pending plan);
  kn_none : progress_of ph = None -> ph <> Ending -> completed log = [];
  kn_done : completed log = [] \/ exists plan, planned log plan /\ completed log `prefix_of` map u_id (p_pending plan);
}.

Lemma planned_cons e log plan : planned log plan -> planned (e :: log) plan.
Proof. intros (c & snap & ? & ?). exists c, snap. split; [by right|done]. Qed.

Lemma completed_cons e log : completed (e :: log) = completed log ++ option_list (completes e).
Proof. unfold completed. simpl. by destruct (completes e); simpl; rewrite ?app_nil_r. Qed.

(** How one call moves the plan on. *)
Lemma on_call_progress ph o ok ph' pr :
  on_call ph o ok = Some ph' -> progress_of ph' = Some pr -> progress_of ph = Some pr.
Proof.
  destruct ph; simpl; intros Ha Hp; simplify_eq; try done; unfold to in *;
    repeat case_match; simplify_eq; try done; simpl in *; congruence.
Qed.

Lemma success_completes u c n : success_of u c = true -> completes (Event (RMetadata c) (Ok n)) = Some (u_id u).
Proof.
  destruct c as [[] [] [] | | | | |]; try done. simpl. intros (_ & -> & _)%bool_decide_eq_true. done.
Qed.

Lemma on_metadata_progress ph c r ph' plan rest :
  on_metadata ph c r = Some ph' -> progress_of ph' = Some (plan, rest) ->
  (progress_of ph = Some (plan, rest) /\ completes (Event (RMetadata c) r) = None) \/
  (exists u, progress_of ph = Some (plan, u :: rest) /\ completes (Event (RMetadata c) r) = Some (u_id u)).
Proof.
  destruct ph as [| | | |p u k| |p u k| |p u k bg|p u k| |]; try done; cbn [on_metadata]; intros Ha Hp.
  - destruct (namespace_op _); by simplify_eq.
  - destruct (success_of u c) eqn:Hs; [|done]. unfold to in Ha. simplify_eq.
    destruct r as [n|x]; [|done]. assert (counts_rows c = false) as Hc by (by destruct c).
    simpl in Hp. rewrite Hc in Hp. simplify_eq/=. right. exists u. split; [done|]. by apply success_completes.
  - destruct (admission_of p u c) eqn:Hs; [|done]. unfold to in Ha. simplify_eq. left.
    destruct (took_effect c r); [|done]. split; [done|].
    unfold admission_of in Hs. destruct (active_for p u), c as [[]| | | | |]; done.
  - destruct c as [| |mid v| |mid key v|]; simpl in Ha; try done; [|left; case_match; by simplify_eq].
    destruct (_ && _) eqn:Hb; [|done]. apply andb_true_iff in Hb as [_ ->%bool_decide_eq_true].
    unfold to, took_effect in Ha. destruct r as [n|x]; simplify_eq/=.
    destruct (n =? 1)%Z; simplify_eq/=. right. by exists u.
  - destruct c; try done. case_bool_decide; [|done]. unfold to in Ha. simplify_eq.
    destruct (took_effect _ r); [|done]. by left.
Qed.

Lemma advance_progress ph e ph' plan rest :
  advance capture ph e = Some ph' -> progress_of ph' = Some (plan, rest) ->
  (ph = Setup /\ completes e = None /\ rest = p_pending plan /\
     exists c snap, e = Event (RReadSnapshot c) (Ok snap) /\ build_plan capture snap = Ok plan) \/
  (progress_of ph = Some (plan, rest) /\ completes e = None) \/
  (exists u, progress_of ph = Some (plan, u :: rest) /\ completes e = Some (u_id u)).
Proof.
  intros Ha Hp. destruct e as [o r].
  destruct o; cbn [advance] in Ha; try (right; left; split; [|done]; by eapply on_call_progress);
    try (simplify_eq; done).
  - destruct ph; try done. left. split_and!; try done; destruct r as [snap|x]; simplify_eq/=; try done;
      destruct (build_plan capture snap) eqn:Hb; simplify_eq/=; eauto.
  - right. destruct (on_metadata_progress _ _ _ _ _ _ Ha Hp) as [?|?]; [by left|by right].
  - destruct ph; simplify_eq/=; right; left; done.
  - simplify_eq. right. by left.
Qed.

Lemma advance_completes ph e ph' mid :
  advance capture ph e = Some ph' -> completes e = Some mid -> exists pr, progress_of ph' = Some pr.
Proof.
  destruct e as [o r]. destruct o; try done. cbn [advance]. intros Ha Hc. destruct r as [n|x]; [|by destruct c as [[]| | | | |]].
  destruct ph as [| | | |p u k| |p u k| |p u k bg|p u k| |]; try done; cbn [on_metadata] in Ha.
  - by destruct c as [[]| | | | |].
  - destruct (success_of u c) eqn:Hs; [|done]. destruct c as [[]| | | | |]; unfold to in Ha; simplify_eq/=. eauto.
  - destruct (admission_of p u c) eqn:Hs; [|done]. unfold admission_of in Hs.
    destruct (active_for p u), c as [[]| | | | |]; done.
  - destruct c as [[]| | | | |]; try done. unfold completes, to, took_effect in *. simpl in Ha.
    destruct (n =? 1)%Z; [|done]. destruct (_ && _); simplify_eq. eauto.
  - by destruct c as [[]| | | | |].
Qed.

Lemma advance_lock ph e ph' :
  advance capture ph e = Some ph' -> has_lock ph' = true -> has_lock ph = true \/ e = Event RAcquireLock (Ok tt).
Proof.
  intros Ha Hl. destruct ph; [right| |by left..|].
  - destruct e as [[] r]; simplify_eq/=; try done. unfold to in Ha. destruct (is_ok r); by simplify_eq.
  - destruct e as [[] r]; simplify_eq/=; try done; unfold to in Ha; destruct r as [[]|]; simplify_eq/=; by auto.
  - destruct e as [[] r]; by simplify_eq/=.
Qed.

Lemma advance_early ph e ph' :
  advance capture ph e = Some ph' -> progress_of ph' = None -> ph' <> Ending -> progress_of ph = None /\ ph <> Ending.
Proof.
  intros Ha Hp He. destruct (progress_of ph) as [pr|] eqn:Hpr.
  - exfalso. destruct e as [o r]. destruct ph; try done; destruct o; simplify_eq/=; try done;
      unfold to in *; repeat case_match; simplify_eq/=.
  - split; [done|]. intros ->. by destruct e as [[] r]; simplify_eq/=.
Qed.

Lemma phase_knows log ph : phase_of capture log = Some ph -> knows log ph.
Proof.
  revert ph. induction log as [|e log IH]; intros ph'; simpl.
  { intros [= <-]. split; try done. by left. }
  destruct (phase_of capture log) as [ph|]; [|done]. simpl. intros Ha. destruct (IH ph eq_refl) as [Hl Hp Hn Hd].
  assert (forall plan rest, progress_of ph' = Some (plan, rest) ->
    planned (e :: log) plan /\ completed (e :: log) ++ map u_id rest = map u_id (p_pending plan)) as Hp'.
  { intros plan rest Hpr. rewrite completed_cons.
    destruct (advance_progress _ _ _ _ _ Ha Hpr) as [(-> & -> & -> & c & snap & -> & Hb)|[[Hpr' ->]|(u & Hpr' & ->)]].
    - rewrite Hn by done. split; [|done]. exists c, snap. split; [by left|done].
    - destruct (Hp _ _ Hpr') as [Hq <-]. split; [by apply planned_cons|]. simpl. by rewrite app_nil_r.
    - destruct (Hp _ _ Hpr') as [Hq <-]. split; [by apply planned_cons|]. simpl. by rewrite <-app_assoc. }
  split.
  - intros Hl'. destruct (advance_lock _ _ _ Ha Hl') as [?| ->]; [right; by apply Hl|by left].
  - exact Hp'.
  - intros Hpr He. destruct (advance_early _ _ _ Ha Hpr He) as [Hpr' He']. rewrite completed_cons, Hn by done.
    destruct (completes e) as [mid|] eqn:Hc; [|done]. destruct (advance_completes _ _ _ _ Ha Hc) as [pr ?]. congruence.
  - destruct (progress_of ph') as [[plan rest]|] eqn:Hpr.
    { right. exists plan. destruct (Hp' plan rest eq_refl) as [? <-]. split; [done|]. by exists (map u_id rest). }
    destruct (completes e) as [mid|] eqn:Hc; [destruct (advance_completes _ _ _ _ Ha Hc) as [pr ?]; congruence|].
    rewrite completed_cons, Hc. simpl. rewrite app_nil_r. destruct Hd as [?|(plan & ? & ?)]; [by left|].
    right. exists plan. split; [by apply planned_cons|done].
Qed.
End words.

(** ** One transaction for an atomic migration *)
Definition controls (o : rawop) : bool :=
  match o with RBegin | RCommit | RRollback => true | _ => false end.

(** The calls between the SUCCESS row and the commit. *)
Definition waits (e : event) : bool :=
  match ev_op e with RFire _ _ | RHasOpen => true | _ => false end.

(** The SUCCESS row is the last thing in [during], the hooks aside. *)
Definition ends_in_success (u : CapturedUnit) (during : list event) : Prop :=
  exists hooks c n body, during = hooks ++ Event (RMetadata c) (Ok n) :: body /\
    success_of u c = true /\ forallb waits hooks = true.

Lemma waits_success u e during : waits e = true -> ends_in_success u during -> ends_in_success u (e :: during).
Proof. intros He (hooks & c & n & body & -> & Hs & Hh). exists (e :: hooks), c, n, body. simpl. by rewrite He. Qed.

Lemma advance_in_atomic capture plan u rest e during ph :
  u_mode u = ATOMIC -> controls (ev_op e) = false -> advance capture (InAtomic plan u rest) e = Some ph ->
  ph = InAtomic plan u rest \/ (ph = Recorded plan u rest /\ ends_in_success u (e :: during)) \/ ph = Ending.
Proof.
  intros Hm He Ha. destruct e as [o r].
  destruct o; simplify_eq/=; try done; try rewrite Hm in Ha; simplify_eq/=; auto.
  destruct (success_of u c) eqn:Hs; [|done]. unfold to in Ha. destruct (took_effect c r) eqn:Ht; simplify_eq; auto.
  right; left. split; [done|]. destruct r as [n|x]; [|done]. by exists [], c, n, during.
Qed.

Lemma atomic_transaction capture plan u rest pre during ph :
  u_mode u = ATOMIC -> phase_of capture pre = Some (InAtomic plan u rest) ->
  Forall (fun e => controls (ev_op e) = false) during -> phase_of capture (during ++ pre) = Some ph ->
  ph = InAtomic plan u rest \/ (ph = Recorded plan u rest /\ ends_in_success u during) \/ ph = Ending.
Proof.
  intros Hm Hpre. revert ph. induction during as [|e during IH]; intros ph' Hctl; simpl.
  { rewrite Hpre. intros [= <-]. by left. }
  apply Forall_cons in Hctl as [He Hctl]. destruct (phase_of capture (during ++ pre)) as [ph|]; [|done].
  simpl. intros Ha. destruct (IH ph Hctl eq_refl) as [->|[[-> Hs]| ->]].
  - by apply (advance_in_atomic capture plan u rest e).
  - right. destruct e as [o r]. destruct o; simplify_eq/=; try done; try (by right);
      try unfold to in Ha; try (destruct (is_ok r)); simplify_eq/=; try (by right); left; (split; [done|]); by apply waits_success.
  - right; right. by destruct e as [[] r]; simplify_eq/=.
Qed.

(** ** Runs *)

(** Every event of a log, with what came before it. *)
Fixpoint each_after (Q : list event -> event -> Prop) (log : list event) : Prop :=
  match log with
  | [] => True
  | e :: pre => Q pre e /\ each_after Q pre
  end.

Lemma each_after_phase capture (Q : list event -> event -> Prop) log ph :
  (forall pre e ph ph', phase_of capture pre = Some ph -> advance capture ph e = Some ph' -> Q pre e) ->
  phase_of capture log = Some ph -> each_after Q log.
Proof.
  intros HQ. revert ph. induction log as [|e log IH]; intros ph'; simpl; [done|].
  destruct (phase_of capture log) as [ph|] eqn:Hph; [|done]. simpl. intros Ha. eauto.
Qed.

Lemma advance_needs capture ph e ph' :
  advance capture ph e = Some ph' ->
  (needs_lock (ev_op e) = true -> has_lock ph = true) /\
  (needs_plan (ev_op e) = true -> exists pr, progress_of ph = Some pr).
Proof.
  intros Ha. destruct e as [o r]. destruct ph; (split; intros Hn; [|try (simpl; eauto; fail)]); try done;
    destruct o; simplify_eq/=; try done; by destruct c; simplify_eq/=.
Qed.

Section runs.
Context {S : Type} {DR : Driver S} {UC : Unicode} {I : Interpreter} {D : Dialect} {H : Host} {L : Loader} {DF : Deferred}.
Context (b : bindings) (capture : Capture) (recover_id : option str).

(** Nothing is done before the lock is held and the plan made. In the calls of any
    run, whatever needs the lock comes after an acquisition that succeeded, and
    every call of a migration (its statements, its progress, its history
    rows) after a read of the rows from which a plan was built. *)
Lemma no_work_before_plan (s : S) runner :
  each_after (fun pre e =>
      (needs_lock (ev_op e) = true -> lock_taken pre) /\
      (needs_plan (ev_op e) = true -> exists plan, planned capture pre plan))
    (run_log b capture recover_id s runner).
Proof.
  destruct (run_accepted b capture recover_id s runner) as (ph & Hph & _).
  eapply each_after_phase; [|exact Hph]. intros pre e p p' Hp Ha.
  destruct (phase_knows _ _ _ Hp) as [Hl Hpl _ _]. destruct (advance_needs _ _ _ _ Ha) as [H1 H2]. split.
  - intros Hn. by apply Hl, H1.
  - intros Hn. destruct (H2 Hn) as [[plan rest] Hpr]. exists plan. by apply (Hpl plan rest).
Qed.

(** Migrations are recorded in the order of the manifest. The migrations a run
    records as successful, in the order it does so, are the first of those its
    plan had pending: none is skipped, repeated or taken out of turn. *)
Lemma completed_in_order (s : S) runner :
  completed (run_log b capture recover_id s runner) = [] \/
  exists plan, planned capture (run_log b capture recover_id s runner) plan /\
    completed (run_log b capture recover_id s runner) `prefix_of` map u_id (p_pending plan).
Proof. destruct (run_accepted b capture recover_id s runner) as (ph & Hph & _). by destruct (phase_knows _ _ _ Hph). Qed.

End runs.
