(* ===== verification/Outcome.v ===== *)
(** * What a run reports

    The end of a run: it always returns, its report is decided by the latch when
    something was latched, and success is reported only by a run that did
    everything it planned. *)
From S2P Require Import Prelude PyStr Errors Latch Paths Manifest Model Fingerprint StateValidate SqlText.
From S2P Require Import Admission Metadata Checks World History Adapter Context Engine Safety Frame.
Open Scope str_scope.

Section outcome.
Context {S : Type} {DR : Driver S} {UC : Unicode} {I : Interpreter} {D : Dialect} {H : Host} {L : Loader} {DF : Deferred}.
Context (b : bindings) (capture : Capture) (recover_id : option str).
Implicit Type w : World S.

(** ** The report of a failure *)

(** The error a run that raised [x] ends with: what was latched outranks it. *)
Definition failure_of (l : RunLatch) (x : pyexn) : error :=
  default (mk_at MigrationFailedError
             (match x with PyInterrupt => "the run was interrupted" | _ => "the run failed unexpectedly" end)
             (match x with PyInterrupt => "interrupted" | _ => "internal_error" end) None)
    (terminal_error l x).

(** The report says that the run failed with [e], and the latch is [l]. *)
Record reports (e : error) (l : RunLatch) (w : World S) : Prop := {
  rs_reported : w_reported w = true;
  rs_code : rp_exit_code (w_report w) = exit_code e;
  rs_message : rp_message (w_report w) = Some (report e);
  rs_discarded : exit_code e = UNKNOWN_OUTCOME -> rp_discarded (w_report w) = true;
  rs_latch : w_latch w = l;
}.

(** Neither the database nor the rest of the teardown changes it. *)
Lemma reports_teardown e l :
  (forall o, teardown_op o = true -> keeps (reports e l) (raw o)) /\
  (forall f, keeps (reports e l) (modify (set_engine_txn f))) /\
  (forall reason, keeps (reports e l) (note_discarded reason)) /\
  (forall mid, keeps (reports e l) (set_recovery mid)).
Proof.
  split_and!.
  - intros o _ w []. unfold raw. destruct (drv_step o (w_driver w)). by split.
  - intros f w []. by split.
  - intros reason w []. by split.
  - intros mid w []. by split.
Qed.

(** Once the failure is recorded, whatever follows in the teardown keeps it. *)
Lemma fail_then e code d (k : M S unit) w :
  code = exit_code e -> (exit_code e = UNKNOWN_OUTCOME -> d = true) -> keeps (reports e (w_latch w)) k ->
  reports e (w_latch w) ((fail e code d;; k) w).1.
Proof. intros -> Hd Hk. apply Hk. by split. Qed.

Lemma terminate_reports x connected w : reports (failure_of (w_latch w) x) (w_latch w) (terminate x connected w).1.
Proof.
  unfold terminate. rewrite gets_bind. unfold failure_of.
  destruct (terminal_error (w_latch w) x) as [e|]; simpl.
  - destruct (reports_teardown e (w_latch w)) as (Hraw & Htxn & Hnote & Hrec).
    apply fail_then; [done|by intros ->|].
    keeps; auto using keeps_discard_quietly, keeps_close_quietly.
  - destruct (reports_teardown (mk_at MigrationFailedError
             (match x with PyInterrupt => "the run was interrupted" | _ => "the run failed unexpectedly" end)
             (match x with PyInterrupt => "interrupted" | _ => "internal_error" end) None) (w_latch w)) as (Hraw & Htxn & Hnote & _).
    unfold handle_interruption. destruct x; (apply fail_then; [done|done|]);
      keeps; auto using keeps_rollback_quietly, keeps_close_quietly.
Qed.

(** ** Every step of the teardown ends *)

(** A computation that returns, or is interrupted. *)
Definition calm {A} (m : M S A) : Prop := forall w x, (m w).2 = Err x -> x = PyInterrupt.

(** Whether a connection is held is an attribute of the adapter. *)
Context (Hheld : forall s : S, is_ok (drv_step RConnectionHeld s).2 = true).

Definition returns {A} (m : M S A) : Prop := forall w, is_ok (m w).2 = true.

Lemma returns_held : returns (raw RConnectionHeld).
Proof.
  intros w. unfold raw. specialize (Hheld (w_driver w)). by destruct (drv_step RConnectionHeld (w_driver w)).
Qed.

Lemma returns_bind {A B} (m : M S A) (k : A -> M S B) : returns m -> (forall a, returns (k a)) -> returns (m ≫= k).
Proof. intros Hm Hk w. specialize (Hm w). unfold mbind, M_bind. destruct (m w) as [w1 [a|x]]; [apply Hk|done]. Qed.
Lemma returns_try {A} (m : M S A) h : (forall x, returns (h x)) -> returns (try_except m h).
Proof. intros Hh w. unfold try_except. destruct (m w) as [w1 [a|x]]; [done|apply Hh]. Qed.
Lemma calm_bind {A B} (m : M S A) (k : A -> M S B) : calm m -> (forall a, calm (k a)) -> calm (m ≫= k).
Proof.
  intros Hm Hk w x. specialize (Hm w). unfold mbind, M_bind. destruct (m w) as [w1 [a|y]]; [apply Hk|].
  intros [= ->]. by apply Hm.
Qed.
Lemma returns_calm {A} (m : M S A) : returns m -> calm m.
Proof. intros Hm w x Hx. specialize (Hm w). by rewrite Hx in Hm. Qed.
Lemma returns_ret {A} (a : A) : returns (mret a).
Proof. by intros w. Qed.
Lemma returns_when c (m : M S unit) : returns m -> returns (when c m).
Proof. by destruct c. Qed.

Lemma returns_discard_quietly : returns discard_quietly.
Proof.
  apply returns_bind; [apply returns_held|intros held]. apply returns_bind; [|intros; apply returns_ret].
  unfold discard_attempts. repeat (apply returns_try; let y := fresh in intros y; destruct (is_Exception y); [apply returns_ret|]). apply returns_ret.
Qed.

Lemma returns_close_quietly : returns close_quietly.
Proof.
  apply returns_try. intros x. destruct (is_Exception x); [done|].
  apply returns_bind; [apply returns_discard_quietly|]. intros held. by apply returns_when.
Qed.

Lemma calm_rollback_quietly : calm rollback_quietly.
Proof.
  intros w x. unfold rollback_quietly. rewrite gets_bind. destruct (latch_is_unknown _); [done|].
  unfold try_except. destruct (rollback w) as [w1 [a|y]]; [done|]. destruct y; simpl; by intros [= <-].
Qed.

Lemma calm_terminate x connected : calm (terminate x connected).
Proof.
  unfold terminate. apply calm_bind; [by intros ??|intros l]. destruct (terminal_error l x) as [e|].
  - apply returns_calm. apply returns_bind; [done|intros _]. apply returns_bind; [by apply returns_when|intros _].
    destruct (_ && _); [apply returns_bind; [apply returns_discard_quietly|done]|].
    apply returns_when, returns_close_quietly.
  - unfold handle_interruption. apply calm_bind; [by intros ??|intros _]. destruct connected; [|by intros ??].
    apply calm_bind; [apply calm_rollback_quietly|intros _]. apply returns_calm, returns_close_quietly.
Qed.

(** ** What a run that raises nothing has done *)
Definition everything (_ : rawop) : bool := true.

(** A predicate on the report and the latch object survives every call. *)
Lemma stable_report (P : RunReport -> Prop) : stable everything (fun w => P (w_report w)).
Proof. split; try done. intros o w _ Hw. unfold raw. by destruct (drv_step o (w_driver w)). Qed.

Lemma stable_has_latch : stable everything (fun w => w_has_latch w = true).
Proof. split; try done. intros o w _ Hw. unfold raw. by destruct (drv_step o (w_driver w)). Qed.

Definition executed_is (l : list str) w : Prop := rp_executed (w_report w) = l.

Lemma executed_warnings l ws : keeps (executed_is l) (add_warnings ws).
Proof. by intros w Hw. Qed.

(** One id for each migration that was carried out, in order. *)
Lemma executed_units plan us w w' :
  for_each_M (run_unit plan) us w = (w', Ok tt) ->
  rp_executed (w_report w') = rp_executed (w_report w) ++ map u_id us.
Proof.
  revert w. induction us as [|u us IH]; intros w; simpl; [intros [= <-]; by rewrite app_nil_r|].
  unfold mbind at 1, M_bind at 1. destruct (run_unit plan u w) as [w1 [[]|x]] eqn:Hu; [|done].
  intros ->%IH. unfold run_unit, mbind at 1, M_bind at 1 in Hu.
  pose proof (keeps_run_mode _ (stable_report (fun r => rp_executed r = rp_executed (w_report w)))
    (executed_warnings _) u plan w eq_refl) as Hk.
  match type of Hk with context [fst ?t] => destruct t as [w2 [[]|x]] end; [|done].
  simpl in *. injection Hu as <-. simpl. by rewrite Hk, <-app_assoc.
Qed.

(** ** The latch of a run that raises nothing *)

Lemma typed_open l : latch_typed l -> check l = Ok tt -> l_state l = OPEN.
Proof. unfold latch_typed, check. by destruct (l_state l), (l_error l). Qed.

(** A guarded call that returns found the latch open and left it so. *)
Lemma guarded_open {A} op ph mid cc (m : M S A) w w' a :
  (forall v, w_latch (m v).1 = w_latch v) -> Inv w ->
  guarded op ph mid cc m w = (w', Ok a) -> l_state (w_latch w') = OPEN.
Proof.
  intros Hm [Hl Ht _]. unfold guarded. rewrite gets_bind, Hl. simpl.
  unfold latch_check, mbind, M_bind, gets, of_check, of_result, try_except. simpl.
  destruct (check (w_latch w)) as [[]|e] eqn:Hc; [|done]. simpl. specialize (Hm w).
  destruct (m w) as [w1 [r|x]]; simpl in Hm.
  - intros [= <- <-]. rewrite Hm. by apply typed_open.
  - unfold guard_failure. destruct x as [e|d|]; [done| |]; simpl.
    + destruct (ad_classify_call d cc); [done|]. unfold mbind, M_bind, gets. simpl. by destruct (w_has_latch w1).
    + destruct cc; [|done]. unfold mbind, M_bind, gets. simpl. by destruct (w_has_latch w1).
Qed.

Lemma raw_latch o w : w_latch (raw o w).1 = w_latch w.
Proof. unfold raw. by destruct (drv_step o (w_driver w)). Qed.

Lemma commit_latch w : w_latch (commit w).1 = w_latch w.
Proof.
  unfold commit, mbind, M_bind. pose proof (raw_latch RCommit w). by destruct (raw RCommit w) as [w1 [[]|x]].
Qed.

(** [opens m]: from a run whose outcome is known, returning means that the latch is
    open; [opens_any m]: from any run. *)
Definition opens {A} (m : M S A) : Prop :=
  forall w w' a, Inv w -> ~ unknown w -> m w = (w', Ok a) -> l_state (w_latch w') = OPEN.
Definition opens_any {A} (m : M S A) : Prop := forall w w' a, Inv w -> m w = (w', Ok a) -> l_state (w_latch w') = OPEN.

Lemma opens_any_opens {A} (m : M S A) : opens_any m -> opens m.
Proof. intros Hm w w' a Hw _. by apply Hm. Qed.

Lemma opens_bind {A B} (m : M S A) (k : A -> M S B) : fresh m -> (forall a, opens (k a)) -> opens (m ≫= k).
Proof.
  intros Hm Hk w w' a Hw Hn. destruct (Hm w Hw Hn) as [Hi Hu]. unfold mbind, M_bind.
  destruct (m w) as [w1 [r|x]]; [|done]. apply Hk; auto.
Qed.

Lemma opens_any_bind {A B} (m : M S A) (k : A -> M S B) : safe m -> (forall a, opens_any (k a)) -> opens_any (m ≫= k).
Proof.
  intros Hm Hk w w' a Hw. specialize (Hm w Hw). unfold mbind, M_bind.
  destruct (m w) as [w1 [r|x]]; [by apply Hk|done].
Qed.

Lemma opens_any_settled {A B} (m : M S A) (k : A -> M S B) : Safety.settled m -> (forall a, opens (k a)) -> opens_any (m ≫= k).
Proof.
  intros Hm Hk w w' a Hw. destruct (Hm w Hw) as [Hi Hu]. unfold mbind, M_bind.
  destruct (m w) as [w1 [r|x]]; [|done]. apply Hk; auto.
Qed.

(** What follows leaves an open latch alone. *)
Lemma opens_then {A B} (m : M S A) (k : A -> M S B) :
  opens m -> (forall a, keeps (fun w => l_state (w_latch w) = OPEN) (k a)) -> opens (m ≫= k).
Proof.
  intros Hm Hk w w' a Hw Hn. specialize (Hm w). unfold mbind, M_bind. destruct (m w) as [w1 [r|x]]; [|done].
  intros Hkw. specialize (Hk r w1 (Hm _ _ Hw Hn eq_refl)). by rewrite Hkw in Hk.
Qed.

Lemma opens_durable_commit bd mid : opens (durable_commit bd mid).
Proof.
  intros w w' a Hw Hn. unfold durable_commit, mbind, M_bind.
  destruct (sound_fire bd "before_commit" w Hw Hn) as [Hi _].
  destruct (fire bd "before_commit" w) as [w1 [[]|x]]; [|done]. simpl in *.
  destruct (guarded _ _ _ _ _ w1) as [w2 [[]|x]] eqn:Hg; [|done].
  apply guarded_open in Hg; [|apply commit_latch|done].
  intros Hf. pose proof (raw_latch (RFire bd "after_commit") w2) as Hl. unfold fire in Hf.
  rewrite Hf in Hl. simpl in Hl. by rewrite Hl.
Qed.

Lemma opens_run_atomic u : opens (run_atomic u).
Proof.
  unfold run_atomic. apply opens_bind; [apply sound_fresh; sound|intros _].
  apply opens_bind; [apply sound_fresh, sound_establish|intros identity].
  apply opens_bind; [|intros _; apply opens_durable_commit].
  apply settled_fresh, settled_try; [apply settled_atomic_work|].
  intros x. apply settled_migration_failed, safe_rollback_quietly.
Qed.

Lemma opens_run_restartable u active : opens (run_restartable u active).
Proof.
  unfold run_restartable. apply opens_bind; [apply sound_fresh; unfold admit_attempt; sound|intros _].
  apply opens_any_opens, opens_any_bind.
  { apply safe_try; [apply safe_invoke|]. intros x. apply settled_safe, settled_migration_failed, safe_post_return_cleanup. }
  intros python. apply opens_any_settled; [apply strict_settled, strict_latch_check|intros _].
  unfold get_context, complete_active_row.
  repeat match goal with |- opens (_ ≫= _) => apply opens_bind; [apply sound_fresh|intros ?] end;
    try apply opens_durable_commit; sound; first [apply sound_rollback_quietly|apply sound_require_valid].
Qed.

Lemma open_units plan us w w' :
  Inv w -> l_state (w_latch w) = OPEN -> for_each_M (run_unit plan) us w = (w', Ok tt) -> l_state (w_latch w') = OPEN.
Proof.
  assert (forall u, fresh (run_unit plan u)) as Hf.
  { intros u. apply fresh_bind; [destruct (u_mode u); [apply fresh_run_atomic|apply fresh_run_restartable]|].
    intros _. apply sound_fresh. unfold add_executed, get_report, put_report. sound. }
  assert (forall u, opens (run_unit plan u)) as Ho.
  { intros u. apply opens_then; [|by intros _ v].
    destruct (u_mode u); [apply opens_run_atomic|apply opens_run_restartable]. }
  revert w. induction us as [|u us IH]; intros w Hw Hopen; simpl; [by intros [= <-]|].
  unfold mbind, M_bind. assert (~ unknown w) as Hn by (unfold unknown; by rewrite Hopen).
  specialize (Ho u w). destruct (Hf u w Hw Hn) as [Hi _].
  destruct (run_unit plan u w) as [w1 [[]|x]]; [|done]. apply IH; [done|]. by eapply Ho.
Qed.

Lemma open_plan_run w w' plan : Inv w -> plan_run capture recover_id w = (w', Ok plan) -> l_state (w_latch w') = OPEN.
Proof.
  intros Hw. unfold plan_run, mbind, M_bind. destruct (read_snapshot true w) as [w1 [snap|x]] eqn:Hr; [|done].
  apply guarded_open in Hr; [|exact (raw_latch (RReadSnapshot true))|done].
  unfold of_result. destruct (build_plan capture snap) as [p|x]; [|done].
  destruct recover_id; simpl; [destruct (check_recovery_admission _ _)|destruct (require_no_recovery_needed _)]; simpl; try done;
    by intros [= <- _].
Qed.

(** ** The whole run *)

(** The report before a failure is recorded. *)
Definition unreported (r : RunReport) : Prop := rp_exit_code r = OK /\ rp_message r = None.

Lemma unreported_connected w : unreported (w_report w) -> unreported (w_report (connected_run b capture recover_id w).1).
Proof.
  intros Hw. rewrite connected_run_parts. revert w Hw. pose proof (stable_report unreported) as Hst.
  change (keeps (fun w => unreported (w_report w)) (prepare_run b recover_id;; plan ← plan_run capture recover_id; execute_plan plan)).
  apply keeps_bind; [by apply (keeps_prepare_run b recover_id _ everything); [|done|intros ns w Hw]|intros _].
  apply keeps_bind; [by apply keeps_plan_run|intros plan]. unfold execute_plan. apply keeps_for_each. intros u _.
  unfold run_unit. apply keeps_bind; [|by intros _ w Hw].
  apply keeps_run_mode; [done|]. by intros ws w Hw.
Qed.

Lemma connected_run_open w w' :
  Inv w -> ~ unknown w -> connected_run b capture recover_id w = (w', Ok tt) -> l_state (w_latch w') = OPEN.
Proof.
  intros Hw Hn. rewrite connected_run_parts. unfold mbind, M_bind.
  assert (sound (prepare_run b recover_id)) as Hp.
  { unfold prepare_run, set_namespace, get_report, put_report, admit_recovery_namespace, initialize_if_needed. sound. }
  destruct (Hp w Hw Hn) as [Hi Hu]. destruct (prepare_run b recover_id w) as [w1 [[]|x]]; [|done]. simpl in *.
  assert (~ unknown w1) as Hn1 by (intros Hun; by apply Hu in Hun as (? & ? & _)).
  assert (sound (plan_run capture recover_id)) as Hs by (unfold plan_run; sound).
  destruct (Hs w1 Hi Hn1) as [Hi2 _].
  destruct (plan_run capture recover_id w1) as [w2 [plan|x]] eqn:Hplan; [|done]. simpl in *.
  apply open_units; [done|]. exact (open_plan_run _ _ _ Hi Hplan).
Qed.

(** A failure is recorded: the latched one if there is one. *)
Definition failed (w' : World S) : Prop :=
  exists e l, reports e l w' /\ forall e', l_error l = Some e' -> e' = e.

(** How a run ends: after everything it planned, or with a recorded failure. *)
Inductive ended (w w' : World S) : Prop :=
| ended_well w1 w2
    (e_open : open_run capture w = (w1, Ok tt))
    (e_connected : connected_run b capture recover_id w1 = (w2, Ok tt))
    (e_close : w' = (close_quietly (set_reported w2)).1)
    (e_latch : l_state (w_latch w') = OPEN /\ unreported (w_report w') /\ w_reported w' = true)
| ended_badly (e_failed : failed w').

Lemma terminal_first l x e' : l_error l = Some e' -> failure_of l x = e'.
Proof. intros He. unfold failure_of, terminal_error. by rewrite He. Qed.

Lemma inner_run_ended w :
  Inv w -> ~ unknown w -> unreported (w_report w) ->
  let '(w', r) := inner_run b capture recover_id w in
  (r = Ok tt /\ ended w w') \/ (r = Err PyInterrupt /\ failed w').
Proof.
  intros Hw Hn Hrep. unfold inner_run.
  assert (forall v x c, let '(w', r) := terminate x c v in (r = Ok tt /\ ended w w') \/ (r = Err PyInterrupt /\ failed w')) as Hbad.
  { intros v x c. pose proof (terminate_reports x c v) as Hr. pose proof (calm_terminate x c v) as Hc.
    assert (failed (terminate x c v).1) as Hf.
    { exists (failure_of (w_latch v) x), (w_latch v). split; [done|]. intros e' He. symmetry. by apply terminal_first. }
    destruct (terminate x c v) as [w' [[]|y]]; simpl in *.
    - left. split; [done|by apply ended_badly].
    - right. by rewrite (Hc y eq_refl). }
  assert (sound (open_run capture)) as Ho by (unfold open_run; sound).
  destruct (Ho w Hw Hn) as [Hi Hu].
  assert (keeps (fun w => unreported (w_report w)) (open_run capture)) as Hk.
  { pose proof (stable_report unreported) as Hst. unfold open_run.
    apply keeps_bind; [by intros v Hv|intros _]. apply keeps_bind; [keeps|intros _].
    exact (keeps_raw everything _ RConnect Hst eq_refl). }
  specialize (Hk w Hrep). destruct (open_run capture w) as [w1 [[]|x]] eqn:Eopen; [|apply Hbad]. simpl in *.
  assert (~ unknown w1) as Hn1 by (intros Hun; by apply Hu in Hun as (? & ? & _)).
  pose proof (connected_run_open w1) as Hopen. pose proof (unreported_connected w1 Hk) as Hrep2.
  destruct (connected_run b capture recover_id w1) as [w2 [[]|x]] eqn:Econn; [|apply Hbad].
  specialize (Hopen w2 Hi Hn1 eq_refl). simpl in Hrep2.
  unfold mbind, M_bind, modify. pose proof (returns_close_quietly (set_reported w2)) as Hret.
  assert (keeps (fun w => l_state (w_latch w) = OPEN /\ unreported (w_report w) /\ w_reported w = true) close_quietly) as Hkc.
  { apply keeps_close_quietly.
    - intros o _ v (? & ? & ?). unfold raw. destruct (drv_step o (w_driver v)). by split_and!.
    - by intros reason v (? & ? & ?). }
  specialize (Hkc (set_reported w2) (conj Hopen (conj Hrep2 eq_refl))).
  destruct (close_quietly (set_reported w2)) as [w3 [[]|x]] eqn:Eclose; [|done].
  left. split; [done|]. eapply ended_well; [done|done|by rewrite Eclose|done].
Qed.

Lemma returns_settle : returns settle_interrupted_teardown.
Proof.
  unfold settle_interrupted_teardown. apply returns_bind; [apply returns_discard_quietly|intros dropped].
  apply returns_bind; [by intros v|intros rep]. apply returns_bind; [by intros v|intros l].
  apply returns_bind; [by intros v|intros started]. apply returns_bind; [by apply returns_when|intros _]. by apply returns_when.
Qed.

(** An interrupt of the teardown leaves the outcome the run reached. *)
Lemma settle_failed w : failed w -> failed (settle_interrupted_teardown w).1.
Proof.
  intros (e & l & Hr & Hfirst). exists e, l. split; [|done]. revert w Hr.
  destruct (reports_teardown e l) as (Hraw & Htxn & Hnote & Hrec).
  unfold settle_interrupted_teardown. change (keeps (reports e l) settle_interrupted_teardown).
  apply keeps_bind; [by apply keeps_discard_quietly|intros dropped].
  intros w Hw. rewrite !gets_bind, (rs_reported _ _ _ Hw). revert w Hw.
  change (keeps (reports e l) (mret tt;; when dropped (note_discarded "the run was interrupted while it was ending"))).
  keeps.
Qed.

Lemma run_ended (s : S) runner :
  let '(w', r) := run b capture recover_id (initial_world s runner) in r = Ok tt /\ ended (initial_world s runner) w'.
Proof.
  unfold run, try_except.
  pose proof (inner_run_ended (initial_world s runner) (initial_inv s runner) ltac:(done) ltac:(done)) as Hin.
  destruct (inner_run b capture recover_id (initial_world s runner)) as [w1 [[]|x]].
  - by destruct Hin as [?|[? ?]].
  - destruct Hin as [[? ?]|[Hr Hf]]; [done|]. injection Hr as ->.
    pose proof (returns_settle w1) as Hret. pose proof (settle_failed w1 Hf) as Hf'.
    destruct (settle_interrupted_teardown w1) as [w2 [[]|y]]; [|done]. split; [done|by apply ended_badly].
Qed.
End outcome.

(** The report is the latch's, when something is latched. *)
Definition report_decided {S : Type} (w : World S) : Prop :=
  match l_state (w_latch w) with
  | OPEN => rp_exit_code (w_report w) = OK <-> rp_message (w_report w) = None
  | UNKNOWN => rp_exit_code (w_report w) = UNKNOWN_OUTCOME /\ rp_discarded (w_report w) = true
  | VIOLATION => rp_exit_code (w_report w) = CONTRACT_VIOLATION
  | BATCH_FAILED => rp_exit_code (w_report w) = MIGRATION_FAILED
  end /\
  (l_error (w_latch w) <> None -> rp_message (w_report w) = report <$> l_error (w_latch w)).

