(* ===== verification/Durable.v ===== *)
(** * What a run leaves in the database

    The durable tables under a run. [Storage] observes what is committed and what
    the session sees; [StorageLaws] is what the driver and the server are
    documented to do to the two. The triples follow a run's committed record from
    one migration to the next, on every path out of every function. *)
From S2P Require Import Prelude PyStr Errors Latch Paths Manifest Model Fingerprint StateValidate SqlText.
From S2P Require Import Admission Metadata Checks World History Adapter Context Engine Safety Frame Triple Outcome.
Open Scope str_scope.

(** ** The database behind the session *)
Class Storage (S : Type) := {
  durable : S -> MetaDB;      (* committed *)
  working : S -> MetaDB;      (* what this session sees, and a commit would keep *)
  in_txn : S -> bool;         (* a transaction is open *)
}.

(** The calls that may end a transaction: commit, those with text of the migration,
    and the creation of an object, which some databases commit by itself. *)
Definition may_end_txn (o : rawop) : bool :=
  match o with
  | RCommit | RExecute _ _ | RExecuteMany _ _ | RQuery _ _ | RCreateObject _ => true
  | _ => false
  end.

Definition is_metadata (o : rawop) : bool := match o with RMetadata _ => true | _ => false end.

(** An engine statement, executed or not: it takes effect as its text says or not at
    all (an empty text of a column that admits NULL may be stored as NULL); inside
    an open transaction it commits nothing, outside of one it may commit at once. *)
Definition executes {S} {ST : Storage S} (c : metadata_cmd) (s s' : S) (ok : bool) : Prop :=
  exists t c', stored_as c c' /\ let db := apply_cmd t c' (working s) in
    (durable s' = durable s \/ (in_txn s = false /\ durable s' = db)) /\
    (working s' = durable s \/ working s' = working s \/ working s' = db) /\
    (ok = true -> working s' = db /\ (in_txn s = true -> in_txn s' = true)).

Lemma executes_nothing {S} {ST : Storage S} c (s : S) : executes c s s false.
Proof. exists 0%Z, c. split; [by left|]. split_and!; auto; done. Qed.

Lemma executes_as {S} {ST : Storage S} t c (s s' : S) ok :
  durable s' = durable s \/ (in_txn s = false /\ durable s' = apply_cmd t c (working s)) ->
  working s' = apply_cmd t c (working s) -> (in_txn s = true -> in_txn s' = true) -> executes c s s' ok.
Proof. intros Hd Hw Ht. exists t, c. split; [by left|]. split_and!; auto. Qed.

(** What is assumed of the database, whether a call returns or raises:
    - migration code's statements do not write the engine's tables, but may commit
      or roll back what is pending; so may a commit that fails, and the creation of
      an object;
    - an acknowledged commit has committed;
    - an engine statement [executes];
    - every other call commits nothing, though it may lose what is pending;
    - a test hook is no database call. *)
Class StorageLaws (S : Type) {DR : Driver S} {ST : Storage S} : Prop := {
  law_ends o s : may_end_txn o = true ->
    let s' := (drv_step o s).1 in
    (durable s' = durable s \/ durable s' = working s) /\ (working s' = durable s \/ working s' = working s);
  law_commit s s' : drv_step RCommit s = (s', Ok tt) -> durable s' = working s /\ working s' = working s;
  law_metadata c s :
    let '(s', r) := drv_step (RMetadata c) s in executes c s s' (is_ok r);
  law_other o s : may_end_txn o = false -> is_metadata o = false ->
    let s' := (drv_step o s).1 in
    durable s' = durable s /\ (working s' = durable s \/ working s' = working s);
  law_begin s s' : drv_step RBegin s = (s', Ok tt) -> in_txn s' = true;
  law_fire bd ph s : let s' := (drv_step (RFire bd ph) s).1 in durable s' = durable s /\ working s' = working s;
  law_snapshot b s s' snap : drv_step (RReadSnapshot b) s = (s', Ok snap) ->
    s_history snap ≡ₚ db_history (working s) /\ s_progress snap ≡ₚ db_progress (working s);
}.

(** ** Following the record through a run *)
Section durable.
Context {S : Type} {DR : Driver S} {ST : Storage S} {LAWS : StorageLaws S}.
Context {UC : Unicode} {I : Interpreter} {D : Dialect} {H : Host} {L : Loader} {DF : Deferred}.

Definition dur (P : MetaDB -> Prop) (s : S) : Prop := P (durable s).
Definition both (P : MetaDB -> Prop) (s : S) : Prop := P (durable s) /\ P (working s).

(** Nothing is pending. *)
Definition settled (P : MetaDB -> Prop) (s : S) : Prop := working s = durable s /\ P (durable s).

Lemma settled_both P s : settled P s -> both P s.
Proof. intros [Hw Hd]. split; [done|by rewrite Hw]. Qed.

Lemma both_dur P s : both P s -> dur P s.
Proof. by intros []. Qed.

Lemma raw_driver o (w : World S) : w_driver (raw o w).1 = (drv_step o (w_driver w)).1.
Proof. unfold raw. by destruct (drv_step o (w_driver w)). Qed.

(** Committed and visible rows stay in [P] when the engine's statements keep it. *)
Lemma stable_both ok P :
  (forall c c', stored_as c c' -> ok (RMetadata c) = true -> forall t db, P db -> P (apply_cmd t c' db)) ->
  stable ok (on_driver (both P)).
Proof.
  intros Hc. split; [|done..]. intros o w Ho [Hd Hw]. unfold on_driver, both. rewrite raw_driver.
  destruct (is_metadata o) eqn:Em.
  - destruct o; try done. specialize (law_metadata c (w_driver w)) as Hl.
    destruct (drv_step (RMetadata c) (w_driver w)) as [s' r]. destruct Hl as (t & c' & Hs & Hl1 & Hl2 & _).
    specialize (Hc _ _ Hs Ho t _ Hw). simpl. split.
    + destruct Hl1 as [->|[_ ->]]; done.
    + destruct Hl2 as [->|[->| ->]]; done.
  - destruct (may_end_txn o) eqn:Es.
    + destruct (law_ends o (w_driver w) Es) as [Hl1 Hl2]. split; [by destruct Hl1 as [->| ->]|by destruct Hl2 as [->| ->]].
    + destruct (law_other o (w_driver w) Es Em) as [-> Hl2]. split; [done|by destruct Hl2 as [->| ->]].
Qed.

(** Calls that commit nothing. *)
Lemma stable_dur ok P :
  (forall o, ok o = true -> may_end_txn o = false /\ is_metadata o = false) -> stable ok (on_driver (dur P)).
Proof.
  intros Hc. split; [|done..]. intros o w Ho Hd. unfold on_driver, dur. rewrite raw_driver.
  destruct (Hc _ Ho) as [Hs Hm]. by destruct (law_other o (w_driver w) Hs Hm) as [-> _].
Qed.

Lemma stable_setup P : stable setup_op (on_driver (both P)).
Proof. apply stable_both. by intros [] c' [->| ->]. Qed.
Lemma stable_around P : stable around_op (on_driver (both P)).
Proof. apply stable_both. by intros [] c' [->| ->]. Qed.
Lemma stable_teardown P : stable teardown_op (on_driver (both P)).
Proof. apply stable_both. by intros [] c' [->| ->]. Qed.
Lemma stable_teardown_dur P : stable teardown_op (on_driver (dur P)).
Proof. apply stable_dur. by intros []. Qed.
Hint Resolve stable_setup stable_around stable_teardown stable_teardown_dur : core.

(** A transaction is open and nothing was written in it. *)
Lemma triple_begin P : triple (both P) begin (fun _ s => both P s /\ in_txn s = true) (dur P).
Proof.
  unfold begin.
  apply triple_step; [keeps|apply both_dur|intros open]. apply triple_step; [keeps|apply both_dur|intros _].
  apply triple_step; [by apply (keeps_has_open setup_op)|apply both_dur|intros held].
  apply triple_step; [keeps|apply both_dur|intros _].
  apply triple_then_txn. apply triple_guarded; [|apply both_dur].
  intros w Hw. pose proof (st_raw _ _ (stable_setup P) RBegin w eq_refl Hw) as Hk.
  unfold raw in *. pose proof (law_begin (w_driver w)) as Hb.
  destruct (drv_step RBegin (w_driver w)) as [s' [[]|x]]; simpl in *; [|by apply both_dur].
  split; [done|by apply Hb].
Qed.

(** A durable commit makes what the session saw the committed record. A commit that
    fails, or whose reply is lost, leaves one of the two. *)
Lemma triple_durable_commit (A B : MetaDB -> Prop) bd mid :
  triple (fun s => A (durable s) /\ B (working s)) (durable_commit bd mid) (fun _ => settled B)
    (dur (fun db => A db \/ B db)).
Proof.
  assert (forall (P : MetaDB -> MetaDB -> Prop) ph, triple (fun s => P (durable s) (working s)) (fire bd ph)
    (fun _ s => P (durable s) (working s)) (fun s => P (durable s) (working s))) as Hfire.
  { intros P ph w Hw. unfold fire, raw. pose proof (law_fire bd ph (w_driver w)) as Hf.
    destruct (drv_step _ (w_driver w)) as [s' [a|x]]; simpl in *; destruct Hf as [Hf1 Hf2]; by rewrite Hf1, Hf2. }
  unfold durable_commit. eapply triple_bind with (Q := fun _ s => A (durable s) /\ B (working s)).
  { eapply triple_conseq; [apply (Hfire (fun d w => A d /\ B w))|auto|auto|]. unfold dur. tauto. }
  intros _. eapply triple_seq with (Q := settled B).
  2:{ intros []. eapply triple_conseq; [apply (Hfire (fun d w => w = d /\ B d))|..]; unfold settled, dur; tauto. }
  apply triple_guarded; [|unfold dur; tauto].
  unfold commit. apply triple_then_txn.
  intros w [Hw1 Hw2]. unfold raw. pose proof (law_commit (w_driver w)) as Hok.
  pose proof (law_ends RCommit (w_driver w) eq_refl) as [Hs _].
  destruct (drv_step RCommit (w_driver w)) as [s' [[]|x]]; simpl in *.
  - unfold settled. destruct (Hok s' eq_refl) as [-> ->]. done.
  - unfold dur. destruct Hs as [->| ->]; auto.
Qed.

(** An engine statement, wherever it runs. *)
Lemma triple_exec (A B : MetaDB -> Prop) c op ph mid :
  (forall t c' db, stored_as c c' -> A db -> B (apply_cmd t c' db)) ->
  triple (both A) (exec c op ph mid) (fun _ s => (A (durable s) \/ B (durable s)) /\ B (working s))
    (dur (fun db => A db \/ B db)).
Proof.
  intros Hc. apply triple_guarded; [|unfold dur, both; tauto].
  intros w [Hw1 Hw2]. unfold raw. pose proof (law_metadata c (w_driver w)) as Hl.
  destruct (drv_step (RMetadata c) (w_driver w)) as [s' r]. destruct Hl as (t & c' & Hs & Hl1 & _ & Hl3).
  specialize (Hc t _ _ Hs Hw2). unfold dur. destruct r as [n|x]; simpl in *.
  - destruct (Hl3 eq_refl) as [-> _]. split; [|done]. destruct Hl1 as [->|[_ ->]]; auto.
  - destruct Hl1 as [->|[_ ->]]; auto.
Qed.

(** The same inside an open transaction: nothing is committed yet. *)
Lemma triple_exec_txn (A B C : MetaDB -> Prop) c op ph mid :
  (forall t c' db, stored_as c c' -> B db -> C (apply_cmd t c' db)) ->
  triple (fun s => (A (durable s) /\ B (working s)) /\ in_txn s = true) (exec c op ph mid)
    (fun _ s => (A (durable s) /\ C (working s)) /\ in_txn s = true) (dur A).
Proof.
  intros Hc. apply triple_guarded; [|unfold dur; tauto].
  intros w [[Hw1 Hw2] Ht]. unfold raw. pose proof (law_metadata c (w_driver w)) as Hl.
  destruct (drv_step (RMetadata c) (w_driver w)) as [s' r]. destruct Hl as (t & c' & Hs & Hl1 & _ & Hl3).
  specialize (Hc t _ _ Hs Hw2). unfold dur. rewrite Ht in *.
  assert (durable s' = durable (w_driver w)) as Hd by (by destruct Hl1 as [?|[? ?]]).
  destruct r as [n|x]; simpl in *; rewrite Hd; [|done].
  destruct (Hl3 eq_refl) as [-> Hin]. auto.
Qed.

(** ** One migration *)
Section migrations.
Context (units : list CapturedUnit) (Hunits : units_ok units).

(** A record that extends the successful rows [dn]. *)
Definition extends (dn : list HistoryRow) (db : MetaDB) : Prop :=
  exists dn' act, dn `prefix_of` dn' /\ recorded units dn' act db.

(** The unit's ACTIVE row was admitted by this run. *)
Definition attempting (dn : list HistoryRow) (u : CapturedUnit) (db : MetaDB) : Prop :=
  exists a, admitted_row u a /\ recorded units dn [a] db.

(** One more row than [dn] succeeded, and nothing is ACTIVE. *)
Definition one_more (dn : list HistoryRow) (db : MetaDB) : Prop :=
  exists row, recorded units (dn ++ [row]) [] db.

Lemma extends_refl dn act db : recorded units dn act db -> extends dn db.
Proof. intros. exists dn, act. split; [done|done]. Qed.
Lemma extends_attempting dn u db : attempting dn u db -> extends dn db.
Proof. intros (a & _ & ?). by eapply extends_refl. Qed.
Lemma extends_more dn db : one_more dn db -> extends dn db.
Proof. intros (row & ?). exists (dn ++ [row]), []. split; [by exists [row]|done]. Qed.
Lemma extends_weaken dn row db : extends (dn ++ [row]) db -> extends dn db.
Proof. intros (dn' & act & [k ->] & ?). exists ((dn ++ [row]) ++ k), act. split; [|done]. exists (row :: k). by rewrite <-app_assoc. Qed.
Hint Resolve extends_refl extends_attempting extends_more : core.

Lemma triple_or_dur (A B C : MetaDB -> Prop) : (forall db, A db -> C db) -> (forall db, B db -> C db) ->
  forall s, dur (fun db => A db \/ B db) s -> dur C s.
Proof. unfold dur. intros ? ? s []; auto. Qed.

Context (dn : list HistoryRow) (u : CapturedUnit) (Hu : units !! length dn = Some u).
Let E := dur (extends dn).
Implicit Type P : MetaDB -> Prop.

Let both_E P : (forall db, P db -> extends dn db) -> forall s, both P s -> E s.
Proof. intros HP s [Hd _]. by apply HP. Qed.

Let stable_E : stable teardown_op (on_driver E) := stable_teardown_dur (extends dn).
Let rollback_E : keeps (on_driver E) rollback_quietly := keeps_rollback_E E stable_E.
Let cleanup_E : keeps (on_driver E) post_return_cleanup := keeps_cleanup_E E stable_E.

Lemma keeps_begin_both P : keeps (on_driver (both P)) begin.
Proof. apply (keeps_begin around_op); [apply stable_around|done|done]. Qed.

Lemma keeps_establish_both P : keeps (on_driver (both P)) establish_transaction_identity.
Proof.
  apply (keeps_guarded around_op); [apply stable_around|].
  exact (keeps_raw around_op _ REstablishIdentity (stable_around P) eq_refl).
Qed.

Lemma keeps_require_valid P : keeps (on_driver (both P)) (require_valid u).
Proof.
  unfold require_valid, add_warnings, get_report, put_report. pose proof (stable_around P) as Hst. keeps.
  by apply (keeps_check_required around_op).
Qed.

(** ** Atomic *)
Let at_clean := both (recorded units dn []).

Lemma triple_insert_success : u_mode u = ATOMIC ->
  triple at_clean (insert_success_row (u_position u) (u_id u) (u_fingerprint u) (u_language u) (u_mode u))
    (fun _ s => extends dn (durable s) /\ one_more dn (working s)) E.
Proof.
  intros Hm. unfold insert_success_row, at_clean.
  apply triple_step; [by apply (keeps_runner_binds around_op)|apply both_E; eauto|intros r].
  eapply triple_bind; [|intros n; apply triple_ret].
  eapply triple_conseq; [apply (triple_exec (recorded units dn []) (one_more dn))|auto| |].
  - intros t c' db [->| ->] Hdb; by apply insert_success_recorded.
  - intros _ s [[?|?] ?]; eauto.
  - apply triple_or_dur; eauto.
Qed.

Lemma triple_atomic_work identity : u_mode u = ATOMIC ->
  triple at_clean (atomic_work u identity) (fun _ s => extends dn (durable s) /\ one_more dn (working s)) E.
Proof.
  intros Hm. assert (stable (unit_op u) (on_driver at_clean)) as Hst.
  { apply stable_both. intros [| | | |mid key value|] c' [->| ->]; try done; simpl; by rewrite Hm, andb_false_r. }
  unfold atomic_work.
  apply triple_step; [by apply keeps_invoke|apply both_E; eauto|intros _].
  apply triple_step; [keeps|apply both_E; eauto|intros _].
  apply triple_step; [apply keeps_require_valid|apply both_E; eauto|intros _].
  apply triple_step; [by apply keeps_check_identity|apply both_E; eauto|intros _].
  by apply triple_insert_success.
Qed.

Lemma triple_run_atomic : u_mode u = ATOMIC ->
  triple at_clean (run_atomic u) (fun _ => settled (one_more dn)) E.
Proof.
  intros Hm. unfold run_atomic.
  apply triple_step; [apply keeps_begin_both|apply both_E; eauto|intros _]. apply triple_step; [apply keeps_establish_both|apply both_E; eauto|intros identity].
  eapply triple_bind.
  { eapply triple_try; [by apply triple_atomic_work|]. intros x. by apply triple_migration_failed. }
  intros []. eapply triple_conseq; [apply (triple_durable_commit (extends dn) (one_more dn))|auto|auto|].
  apply triple_or_dur; eauto.
Qed.

(** ** Restartable *)

(** A first attempt starts from a clean record, a further one from the unit's own
    ACTIVE row. *)
Definition admissible (active : option HistoryRow) (db : MetaDB) : Prop :=
  match active with
  | None => recorded units dn [] db
  | Some _ => exists a, recorded units dn [a] db
  end.

Lemma admissible_extends active db : admissible active db -> extends dn db.
Proof. destruct active; simpl; [intros [a ?]|]; eauto. Qed.
Hint Resolve admissible_extends : core.

(** One update of an ACTIVE row in a transaction of its own, still uncommitted. *)
Lemma triple_metadata_execute (A C : MetaDB -> Prop) c op ph mid :
  (forall t c' db, stored_as c c' -> A db -> C (apply_cmd t c' db)) ->
  triple (both A) (metadata_execute_in_transaction c op ph mid)
    (fun _ s => (A (durable s) /\ C (working s)) /\ in_txn s = true) (dur A).
Proof.
  intros Hc. unfold metadata_execute_in_transaction.
  eapply triple_seq; [apply triple_begin|]. intros _. eapply triple_seq.
  { eapply triple_conseq; [apply (triple_exec_txn A A C c op ph mid Hc)|unfold both; auto|intros n s Hs; exact Hs|auto]. }
  intros n. unfold when. destruct (negb _); [|apply triple_ret].
  eapply triple_conseq with (P' := dur A) (Q' := fun _ _ => False) (E' := dur A); [|unfold dur; tauto|done|auto].
  apply triple_step; [apply (keeps_rollback teardown_op); [apply stable_teardown_dur|done]|auto|intros _]. by apply triple_raise.
Qed.

Lemma triple_admit_attempt active : u_mode u = RESTARTABLE ->
  triple (both (admissible active)) (admit_attempt u active) (fun _ => both (attempting dn u)) E.
Proof.
  intros Hm.
  assert (triple (fun s => extends dn (durable s) /\ attempting dn u (working s)) (durable_commit RESTARTABLE_ADMISSION (Some (u_id u)))
    (fun _ => both (attempting dn u)) E) as Hcommit.
  { eapply triple_conseq; [apply (triple_durable_commit (extends dn) (attempting dn u))|auto|by intros _ s ?%settled_both|].
    apply triple_or_dur; eauto. }
  destruct active as [a0|]; simpl.
  - unfold update_active_attempt.
    apply triple_step; [by apply (keeps_runner_binds around_op)|apply both_E, (admissible_extends (Some a0))|intros r].
    eapply triple_seq; [|intros _; exact Hcommit].
    eapply triple_conseq; [apply (triple_metadata_execute (admissible (Some a0)) (attempting dn u))|auto| |].
    + intros t c' db [->| ->] [a Hdb]; by eapply update_attempt_recorded.
    + intros _ s [[[a Ha] ?] _]. eauto.
    + unfold E, dur. intros s [a Ha]. eauto.
  - unfold insert_active_row. apply triple_step; [apply keeps_begin_both|apply both_E; eauto|intros _].
    apply triple_step; [by apply (keeps_runner_binds around_op)|apply both_E; eauto|intros r].
    eapply triple_seq; [|intros _; exact Hcommit].
    eapply triple_conseq; [apply (triple_exec (recorded units dn []) (attempting dn u))|auto| |].
    + intros t c' db [->| ->] Hdb; by apply insert_active_recorded.
    + intros _ s [[?|?] ?]; eauto.
    + apply triple_or_dur; eauto.
Qed.

(** The row is completed but its progress still there. *)
Definition half_complete (version : str) (db : MetaDB) : Prop :=
  exists t db', attempting dn u db' /\ db = apply_cmd t (CompleteHistory (u_id u) version) db'.

Lemma triple_complete : triple (both (attempting dn u)) (complete_active_row (u_id u)) (fun _ => settled (one_more dn)) E.
Proof.
  unfold complete_active_row.
  apply triple_step; [by apply (keeps_runner_binds around_op)|apply both_E; eauto|intros r].
  eapply triple_seq.
  { eapply triple_conseq;
      [apply (triple_metadata_execute (attempting dn u) (half_complete (rb_tool_version r)))|intros s Hs; exact Hs|intros n s Hs; exact Hs|unfold E, dur; eauto].
    intros t c' db [->| ->] Hdb; by exists t, db. }
  intros _. eapply triple_seq.
  { eapply triple_conseq; [apply (triple_exec_txn (attempting dn u) (half_complete (rb_tool_version r)) (one_more dn))|intros s Hs; exact Hs|intros n s Hs; exact Hs|unfold E, dur; eauto].
    intros t c' db [->| ->] (t' & db' & (a & Ha & Hdb) & ->); by eapply complete_recorded. }
  intros _. eapply triple_conseq; [apply (triple_durable_commit (attempting dn u) (one_more dn))|tauto|auto|].
  apply triple_or_dur; eauto.
Qed.

Lemma triple_run_restartable active : u_mode u = RESTARTABLE ->
  triple (both (admissible active)) (run_restartable u active) (fun _ => settled (one_more dn)) E.
Proof.
  intros Hm.
  assert (stable (unit_op u) (on_driver (both (attempting dn u)))) as Hst.
  { apply stable_both. intros [| | | |mid key value|] c' [->| ->]; try done; simpl.
    all: rewrite !andb_true_iff, negb_true_iff, bool_decide_eq_true, bool_decide_eq_false.
    all: intros [[-> Hv] _] t db (a & Ha & Hdb); exists a; split; [done|]; by apply upsert_recorded. }
  unfold run_restartable. eapply triple_seq; [by apply triple_admit_attempt|intros _].
  eapply triple_seq with (Q := both (attempting dn u)).
  { eapply triple_try; [apply triple_last with (E := E); [by apply keeps_invoke|apply both_E; eauto]|].
    intros x. by apply triple_migration_failed. }
  intros python. apply triple_step; [keeps|apply both_E; eauto|intros _].
  apply triple_step; [unfold get_context; keeps|apply both_E; eauto|intros c].
  apply triple_step; [|apply both_E; eauto|intros open].
  { destruct (python && _); [keeps|]. by apply (keeps_has_open teardown_op). }
  eapply triple_seq with (Q := both (attempting dn u)).
  { destruct open; [|apply triple_ret]. simpl. apply triple_step; [apply stable_rollback_quietly, stable_teardown|apply both_E; eauto|intros _].
    apply triple_raise, both_E. eauto. }
  intros _. apply triple_step; [apply keeps_require_valid|apply both_E; eauto|intros _]. apply triple_complete.
Qed.

(** Either kind of migration takes the record one row further. *)
Lemma triple_run_unit plan :
  (u_mode u = ATOMIC -> active_for plan u = None) ->
  triple (both (admissible (active_for plan u))) (run_unit plan u) (fun _ => settled (one_more dn)) E.
Proof.
  intros Hatomic. unfold run_unit. eapply triple_seq with (Q := settled (one_more dn)).
  - destruct (u_mode u) eqn:Hm; [|by apply triple_run_restartable].
    rewrite (Hatomic eq_refl). by apply triple_run_atomic.
  - intros _. apply triple_last; [|intros s [_ ?]; unfold E, dur; eauto].
    unfold add_executed, get_report, put_report. keeps; by apply keeps_modify.
Qed.
End migrations.

(** ** The plan and the run *)
Section run.
Context (b : bindings) (capture : Capture) (recover_id : option str) (Hunits : units_ok (c_units capture)).
#[local] Abbreviation units := (c_units capture).

(** Every unit has a successful row, and [dn] are the first of them. *)
Definition complete (dn : list HistoryRow) (db : MetaDB) : Prop :=
  exists dn', dn `prefix_of` dn' /\ length dn' = length units /\ recorded units dn' [] db.

Lemma complete_extends dn db : complete dn db -> extends units dn db.
Proof. intros (dn' & ? & _ & ?). by exists dn', []. Qed.

Lemma drop_cons_lookup {A} n (l : list A) x k : drop n l = x :: k -> l !! n = Some x /\ drop (n + 1) l = k.
Proof.
  intros Hd. split; [by rewrite <-(Nat.add_0_r n), <-lookup_drop, Hd|]. by rewrite <-drop_drop, Hd.
Qed.

(** The next unit, then the rest. *)
Lemma triple_units_cons plan u us dn :
  units !! length dn = Some u -> (u_mode u = ATOMIC -> active_for plan u = None) ->
  (forall row, triple (settled (recorded units (dn ++ [row]) [])) (for_each_M (run_unit plan) us)
     (fun _ => settled (complete (dn ++ [row]))) (dur (extends units (dn ++ [row])))) ->
  triple (settled (admissible units dn (active_for plan u))) (for_each_M (run_unit plan) (u :: us))
    (fun _ => settled (complete dn)) (dur (extends units dn)).
Proof.
  intros Hu Hatomic Hrest. simpl. eapply triple_seq.
  { eapply triple_conseq; [by apply (triple_run_unit _ Hunits dn u Hu plan)|apply settled_both|intros n s Hs; exact Hs|auto]. }
  intros _. eapply triple_conseq with (P' := fun s => exists row, settled (recorded units (dn ++ [row]) []) s).
  2:{ intros s [? [row ?]]. exists row. by split. }
  2:{ intros n s Hs. exact Hs. }
  2:{ intros s Hs. exact Hs. }
  apply triple_exists. intros row. eapply triple_conseq; [apply (Hrest row)|auto| |].
  - intros _ s [? (dn' & [k ->] & ? & ?)]. split; [done|]. exists ((dn ++ [row]) ++ k). split_and!; try done.
    exists (row :: k). by rewrite <-app_assoc.
  - intros s. apply extends_weaken.
Qed.

(** From a clean record: the units left, one by one. *)
Lemma triple_units plan us dn :
  drop (length dn) units = us -> Forall (fun c => active_for plan c = None) us ->
  triple (settled (recorded units dn [])) (for_each_M (run_unit plan) us) (fun _ => settled (complete dn))
    (dur (extends units dn)).
Proof.
  revert dn. induction us as [|u us IH]; intros dn Hdrop Hact.
  - eapply triple_conseq; [apply triple_ret with (E := fun _ => False)|intros s Hs; exact Hs| |done].
    intros _ s [? Hd]. split; [done|]. exists dn. split_and!; [done| |done].
    assert (length units <= length dn) by (rewrite <-Nat.sub_0_le, <-length_drop, Hdrop; done).
    destruct Hd as [_ Hag%agrees_length]. rewrite app_nil_r in Hag. lia.
  - apply drop_cons_lookup in Hdrop as [Hu Hdrop]. apply Forall_cons in Hact as [Hnone Hact].
    pose proof (triple_units_cons plan u us dn Hu) as Hc. rewrite Hnone in Hc. apply Hc; [done|].
    intros row. apply IH; [|done]. by rewrite length_app.
Qed.

(** The ACTIVE row belongs to the first unit left and to no other. *)
Lemma active_for_rest snapshot dn act u us :
  agrees units dn act -> drop (length dn) units = u :: us ->
  active_for (the_plan capture snapshot dn act) u = head act /\
  Forall (fun c => active_for (the_plan capture snapshot dn act) c = None) us.
Proof.
  intros Hag Hdrop. pose proof (uk_ids _ Hunits) as Hnd.
  rewrite <-(take_drop (length dn) units), map_app, Hdrop in Hnd. apply NoDup_app in Hnd as (_ & _ & Hnd).
  simpl in Hnd. apply NoDup_cons in Hnd as [Hni _].
  unfold active_for, the_plan. simpl. destruct act as [|a act]; simpl; [split; [done|]; by apply Forall_true|].
  destruct Hag as [_ Hag]. rewrite Hdrop in Hag. simpl in Hag. apply Forall2_cons in Hag as [[Hid _] _].
  split; [by rewrite bool_decide_eq_true_2|]. apply Forall_forall. intros c Hc.
  rewrite bool_decide_eq_false_2; [done|]. intros Heq. apply Hni. rewrite <-Hid, Heq. by apply list_elem_of_fmap_2.
Qed.

Lemma triple_execute_plan snapshot dn act :
  snapshot_ok snapshot dn act -> agrees units dn act ->
  triple (settled (recorded units dn act)) (execute_plan (the_plan capture snapshot dn act))
    (fun _ => settled (complete dn)) (dur (extends units dn)).
Proof.
  intros Hok Hag. unfold execute_plan. simpl. destruct act as [|a act].
  { apply triple_units; [done|]. by apply Forall_true. }
  pose proof Hag as [_ Ha]. destruct (drop (length dn) units) as [|u us] eqn:Hdrop; simpl in Ha; [by inversion Ha|].
  destruct (active_for_rest snapshot dn (a :: act) u us Hag Hdrop) as [Hfst Hrest].
  assert (act = []) as ->.
  { destruct (so_prefix _ _ _ Hok) as (_ & _ & _ & Hl). destruct act; [done|]. simpl in Hl. lia. }
  apply Forall2_cons in Ha as [(_ & Hmode & _) _]. apply drop_cons_lookup in Hdrop as [Hu Hdrop].
  eapply triple_conseq; [apply (triple_units_cons _ u us dn Hu)| |intros n s Hs; exact Hs|auto].
  - by rewrite Hmode.
  - intros row. apply triple_units; [|done]. by rewrite length_app.
  - intros s [? ?]. split; [done|]. rewrite Hfst. by exists a.
Qed.

(** ** The three parts of a run *)

(** Before the plan nothing changes in the record. *)
Lemma triple_prepare_run db0 :
  triple (both (fun db => db = db0)) (prepare_run b recover_id) (fun _ => both (fun db => db = db0)) (dur (fun db => db = db0)).
Proof.
  apply triple_last; [|apply both_dur]. by apply (keeps_prepare_run b recover_id _ setup_op); [apply stable_setup|done|intros ns w Hw].
Qed.

(** The plan is built from the committed rows. *)
Lemma triple_plan_run db0 :
  triple (both (fun db => db = db0)) (plan_run capture recover_id)
    (fun plan s => (exists snapshot dn act, plan = the_plan capture snapshot dn act /\ snapshot_ok snapshot dn act /\
                      recorded units dn act db0) /\ both (fun db => db = db0) s)
    (dur (fun db => db = db0)).
Proof.
  pose proof (both_dur (fun db => db = db0)) as HE. unfold plan_run.
  eapply triple_bind with (Q := fun snapshot s =>
    (s_history snapshot ≡ₚ db_history db0 /\ s_progress snapshot ≡ₚ db_progress db0) /\ both (fun db => db = db0) s).
  { apply triple_guarded; [|done]. intros w [Hd Hw]. pose proof (law_snapshot true (w_driver w)) as Hl.
    pose proof (law_other (RReadSnapshot true) (w_driver w) eq_refl eq_refl) as Ho.
    unfold raw. destruct (drv_step _ (w_driver w)) as [s' [snap|x]]; simpl in *; destruct Ho as [Hd' Hw'].
    - rewrite <-Hw. split; [by eapply Hl|]. unfold both. rewrite Hd', Hd. split; [done|].
      destruct Hw' as [->| ->]; congruence.
    - unfold dur. congruence. }
  intros snapshot. apply triple_pure. intros [Hh Hp]. apply triple_of_result; [|done].
  intros plan (dn & act & Hok & Hag & ->)%build_plan_Ok.
  apply triple_step; [keeps|done|intros _].
  intros w Hw. split; [|exact Hw]. exists snapshot, dn, act. split_and!; [done|done|].
  split; [|done]. by eapply snapshot_ok_rows_only.
Qed.

(** What a run may leave, from the committed record [db0]. *)
Definition run_leaves (db0 db : MetaDB) : Prop :=
  db = db0 \/ exists dn act, recorded units dn act db0 /\ extends units dn db.

Lemma triple_planned_run db0 plan :
  triple (fun s => (exists snapshot dn act, plan = the_plan capture snapshot dn act /\ snapshot_ok snapshot dn act /\
                      recorded units dn act db0) /\ both (fun db => db = db0) s)
    (execute_plan plan)
    (fun _ => dur (fun db => exists dn act, recorded units dn act db0 /\ complete dn db /\
                     p_pending plan = drop (length dn) units))
    (dur (run_leaves db0)).
Proof.
  apply triple_pure. intros (snapshot & dn & act & -> & Hok & Hrec). pose proof Hrec as [_ Hag].
  eapply triple_conseq; [by apply (triple_execute_plan snapshot dn act)| | |].
  - intros s [Hd Hw]. split; [congruence|by rewrite Hd].
  - intros _ s [_ Hc]. by exists dn, act.
  - intros s Hs. right. by exists dn, act.
Qed.

Lemma triple_connected_run db0 :
  triple (both (fun db => db = db0)) (connected_run b capture recover_id) (fun _ => dur (run_leaves db0)) (dur (run_leaves db0)).
Proof.
  assert (forall s, dur (fun db => db = db0) s -> dur (run_leaves db0) s) as Hleave by (intros s Hs; by left).
  enough (triple (both (fun db => db = db0)) (prepare_run b recover_id;; plan ← plan_run capture recover_id; execute_plan plan)
    (fun _ => dur (run_leaves db0)) (dur (run_leaves db0))) as Ht.
  { intros w Hw. rewrite connected_run_parts. by apply Ht. }
  eapply triple_seq; [eapply triple_conseq; [apply triple_prepare_run|intros s Hs; exact Hs|intros n s Hs; exact Hs|exact Hleave]|intros _].
  eapply triple_bind; [eapply triple_conseq; [apply triple_plan_run|intros s Hs; exact Hs|intros n s Hs; exact Hs|exact Hleave]|intros plan].
  eapply triple_conseq; [apply triple_planned_run|intros s Hs; exact Hs| |intros s Hs; exact Hs].
  intros _ s (dn & act & Hrec & Hc & _). right. exists dn, act. split; [done|by apply complete_extends].
Qed.

Lemma keeps_open_run db0 : keeps (on_driver (both (fun db => db = db0))) (open_run capture).
Proof.
  unfold open_run. apply keeps_bind; [by intros w Hw|intros _]. apply keeps_bind; [by intros w Hw|intros _].
  exact (keeps_raw setup_op _ RConnect (stable_setup _) eq_refl).
Qed.

Lemma run_leaves_record db0 w :
  both (fun db => db = db0) (w_driver w) -> dur (run_leaves db0) (w_driver (run b capture recover_id w).1).
Proof.
  apply (triple_run b capture recover_id (dur (run_leaves db0)) (stable_teardown_dur _) _ (both (fun db => db = db0)));
    [|apply triple_connected_run].
  apply triple_last; [apply keeps_open_run|]. intros s [Hd _]. by left.
Qed.

(** A run that reports success has completed the record. *)
Lemma connected_run_completes db0 w w' :
  both (fun db => db = db0) (w_driver w) -> connected_run b capture recover_id w = (w', Ok tt) ->
  exists dn act, recorded units dn act db0 /\ complete dn (durable (w_driver w')) /\
    rp_executed (w_report w') = rp_executed (w_report w) ++ map u_id (drop (length dn) units).
Proof.
  intros Hw. rewrite connected_run_parts. unfold mbind, M_bind.
  pose proof (triple_prepare_run db0 w Hw) as Hp.
  pose proof (stable_report (fun r => rp_executed r = rp_executed (w_report w))) as Hst.
  pose proof (keeps_prepare_run b recover_id _ everything Hst (fun _ _ => eq_refl) (fun ns v Hv => Hv) w eq_refl) as He1.
  destruct (prepare_run b recover_id w) as [w1 [[]|x]]; [|done]. simpl in He1.
  pose proof (triple_plan_run db0 w1 Hp) as Hq.
  pose proof (keeps_plan_run _ Hst capture recover_id w1 He1) as He2.
  destruct (plan_run capture recover_id w1) as [w2 [plan|x]]; [|done]. simpl in He2.
  pose proof (triple_planned_run db0 plan w2 Hq) as Hr. intros Hx. rewrite Hx in Hr.
  destruct Hr as (dn & act & Hrec & Hc & Hpend). exists dn, act. split_and!; [done|done|].
  rewrite <-Hpend, <-He2. by apply executed_units in Hx.
Qed.
End run.
End durable.

(** C1: restarting is always safe. From any committed record, through any run
    (whatever the migrations do or raise, whatever calls fail, lose their reply
    or are interrupted), the committed record is
    in the end either unchanged, or it was well formed and agreed with the
    manifest, and still does: the rows that had succeeded are untouched and come
    first, further rows are those of the next units in order, and at most the
    next one is ACTIVE. A record the plan refuses is never written to. *)
Theorem run_keeps_record {S : Type} {DR : Driver S} {ST : Storage S} {LAWS : StorageLaws S} {UC : Unicode} {I : Interpreter}
    {D : Dialect} {H : Host} {L : Loader} {DF : Deferred} b capture recover_id (s : S) runner
    (Hunits : units_ok (c_units capture)) (Hfresh : working s = durable s) :
  durable (w_driver (run b capture recover_id (initial_world s runner)).1) = durable s \/
  exists dn act dn' act', recorded (c_units capture) dn act (durable s) /\ dn `prefix_of` dn' /\
    recorded (c_units capture) dn' act' (durable (w_driver (run b capture recover_id (initial_world s runner)).1)).
Proof.
  destruct (run_leaves_record b capture recover_id Hunits (durable s) (initial_world s runner)) as [Hd|Hd].
  - by split.
  - left. exact Hd.
  - right. destruct Hd as (dn & act & Hrec & dn' & act' & Hpre & Hrec'). by exists dn, act, dn', act'.
Qed.

(** A run that reports success leaves a record with a successful row for every unit. *)
Lemma run_success {S : Type} {DR : Driver S} {ST : Storage S} {LAWS : StorageLaws S} {UC : Unicode} {I : Interpreter}
    {D : Dialect} {H : Host} {L : Loader} {DF : Deferred} b capture recover_id (s : S) runner w' r
    (Hunits : units_ok (c_units capture)) (Hfresh : working s = durable s)
    (Hheld : forall s : S, is_ok (drv_step RConnectionHeld s).2 = true) :
  run b capture recover_id (initial_world s runner) = (w', r) -> rp_exit_code (w_report w') = OK ->
  exists dn act dn', recorded (c_units capture) dn act (durable s) /\ dn `prefix_of` dn' /\
    length dn' = length (c_units capture) /\ recorded (c_units capture) dn' [] (durable (w_driver w')) /\
    db_progress (durable (w_driver w')) = [] /\ rp_executed (w_report w') = map u_id (drop (length dn) (c_units capture)).
Proof.
  intros Hrun Hexit. pose proof (run_ended b capture recover_id Hheld s runner) as He. rewrite Hrun in He. destruct He as [-> He].
  destruct He as [w1 w2 Hopen Hconn -> _|(e & l & Hr & _)].
  2:{ rewrite (rs_code _ _ _ Hr) in Hexit. unfold exit_code in Hexit. by destruct (e_class e). }
  pose proof (keeps_open_run capture (durable s) (initial_world s runner) (conj eq_refl Hfresh)) as Hb.
  pose proof (stable_report (fun r => rp_executed r = [])) as Hst.
  assert (keeps (fun w => rp_executed (w_report w) = []) (open_run capture)) as Hk.
  { unfold open_run. apply keeps_bind; [by intros v Hv|intros _]. apply keeps_bind; [keeps|intros _].
    exact (keeps_raw everything _ RConnect Hst eq_refl). }
  specialize (Hk (initial_world s runner) eq_refl). rewrite Hopen in Hb, Hk. simpl in *.
  destruct (connected_run_completes b capture recover_id Hunits (durable s) w1 w2 Hb Hconn) as (dn & act & Hrec & (dn' & Hpre & Hlen & Hrec') & Hex).
  destruct (keeps_ending _ (stable_teardown_dur (fun db => db = durable (w_driver w2)))) as (_ & _ & Hclose).
  assert (keeps (fun w => rp_executed (w_report w) = rp_executed (w_report w2)) close_quietly) as Hkc.
  { pose proof (stable_report (fun r => rp_executed r = rp_executed (w_report w2))) as Hst2.
    apply keeps_close_quietly; [intros o _; by apply (keeps_raw everything)|by intros reason v Hv]. }
  specialize (Hclose (set_reported w2) eq_refl). specialize (Hkc (set_reported w2) eq_refl).
  unfold on_driver, dur in Hclose. rewrite Hclose. simpl in Hkc. rewrite Hkc, Hex, Hk.
  exists dn, act, dn'. split_and!; try done. by apply (recorded_progress_nil (c_units capture) dn').
Qed.

(** C3: exit code 0 means done. A run that reports success leaves a committed
    record in which every unit of the manifest has its successful row, in order,
    nothing is ACTIVE and no progress is left; and the migrations it reports as
    executed are exactly those that had no successful row before, in order. *)
Theorem run_ok_complete {S : Type} {DR : Driver S} {ST : Storage S} {LAWS : StorageLaws S} {UC : Unicode} {I : Interpreter}
    {D : Dialect} {H : Host} {L : Loader} {DF : Deferred} b capture recover_id (s : S) runner
    (Hunits : units_ok (c_units capture)) (Hfresh : working s = durable s)
    (Hheld : forall s : S, is_ok (drv_step RConnectionHeld s).2 = true)
    (Hexit : rp_exit_code (w_report (run b capture recover_id (initial_world s runner)).1) = OK) :
  exists dn act dn', recorded (c_units capture) dn act (durable s) /\ dn `prefix_of` dn' /\
    length dn' = length (c_units capture) /\ recorded (c_units capture) dn' [] (durable (w_driver (run b capture recover_id (initial_world s runner)).1)) /\
    db_progress (durable (w_driver (run b capture recover_id (initial_world s runner)).1)) = [] /\
    rp_executed (w_report (run b capture recover_id (initial_world s runner)).1) = map u_id (drop (length dn) (c_units capture)).
Proof.
  destruct (run b capture recover_id (initial_world s runner)) as [w' r] eqn:Hrun. by eapply run_success.
Qed.

Lemma drop_suffix {A} n m (l : list A) : n <= m -> drop m l `suffix_of` drop n l.
Proof.
  intros Hle. exists (take (m - n) (drop n l)). replace (drop m l) with (drop (m - n) (drop n l)) by (rewrite drop_drop; f_equal; lia).
  by rewrite take_drop.
Qed.

(** What a plan becomes over a run. *)
Lemma plan_after_run {S : Type} {DR : Driver S} {ST : Storage S} {LAWS : StorageLaws S} {UC : Unicode} {I : Interpreter}
    {D : Dialect} {H : Host} {L : Loader} {DF : Deferred} b capture recover_id (s : S) runner snap0 snap p0
    (Hunits : units_ok (c_units capture)) (Hfresh : working s = durable s)
    (Hrows0 : s_history snap0 ≡ₚ db_history (durable s) /\ s_progress snap0 ≡ₚ db_progress (durable s))
    (Hplan : build_plan capture snap0 = Ok p0)
    (Hrows : s_history snap ≡ₚ db_history (durable (w_driver (run b capture recover_id (initial_world s runner)).1)) /\
             s_progress snap ≡ₚ db_progress (durable (w_driver (run b capture recover_id (initial_world s runner)).1)))
    (Hlayout : layout_ok snap) :
  exists p, build_plan capture snap = Ok p /\ p_pending p `suffix_of` p_pending p0.
Proof.
  destruct Hrows as [Hh Hp]. destruct Hrows0 as [Hh0 Hp0].
  apply build_plan_Ok in Hplan as (dn0 & act0 & Hok0 & Hag0 & ->).
  assert (snapshot_ok (snapshot_of (durable s)) dn0 act0) as Hok by (by eapply snapshot_ok_rows_only).
  assert (extends (c_units capture) dn0 (durable (w_driver (run b capture recover_id (initial_world s runner)).1)))
    as (dn & act & Hpre & Hok' & Hag').
  { destruct (run_leaves_record b capture recover_id Hunits (durable s) (initial_world s runner)) as [Hd|Hd].
    - by split.
    - rewrite Hd. exists dn0, act0. by split.
    - destruct Hd as (dn & act & [Hok2 _] & Hext). by destruct (snapshot_ok_unique _ _ _ _ _ Hok Hok2) as [-> _]. }
  assert (snapshot_ok snap dn act) as Hsnap by (exact (snapshot_ok_rows_only (snapshot_of _) snap dn act (symmetry Hh) (symmetry Hp) Hlayout Hok')).
  destruct (build_plan_shape capture snap dn act Hsnap) as [[Hb _]|[Hn _]]; [|done].
  eexists. split; [exact Hb|]. apply drop_suffix. by apply prefix_length.
Qed.

(** C4: the next run finds its way. If the record was one a plan could be built
    from, then after any run, however it ended, a plan can again be built from the
    rows that are then committed, and what it has left to do is the tail of what
    there was to do before: nothing recorded is run again, nothing is skipped. *)
Theorem rerun_resumes {S : Type} {DR : Driver S} {ST : Storage S} {LAWS : StorageLaws S} {UC : Unicode} {I : Interpreter}
    {D : Dialect} {H : Host} {L : Loader} {DF : Deferred} b capture recover_id (s : S) runner snap0 snap p0
    (Hunits : units_ok (c_units capture)) (Hfresh : working s = durable s)
    (Hrows0 : s_history snap0 ≡ₚ db_history (durable s) /\ s_progress snap0 ≡ₚ db_progress (durable s))
    (Hplan : build_plan capture snap0 = Ok p0)
    (Hrows : s_history snap ≡ₚ db_history (durable (w_driver (run b capture recover_id (initial_world s runner)).1)) /\
             s_progress snap ≡ₚ db_progress (durable (w_driver (run b capture recover_id (initial_world s runner)).1)))
    (Hlayout : layout_ok snap) :
  exists p, build_plan capture snap = Ok p /\ p_pending p `suffix_of` p_pending p0.
Proof. by eapply (plan_after_run b capture recover_id s runner snap0 snap p0). Qed.
