(* ===== verification/Crash.v ===== *)
(** * A process that dies

    A driver around any driver that answers the first calls and then no more: what
    is committed at that point is what the dead process leaves. The laws of the
    database hold for it, so what holds after any run holds after any crash, and
    the next process finds its way from there. *)
From S2P Require Import Prelude PyStr Errors Latch Paths Manifest Model Fingerprint StateValidate SqlText.
From S2P Require Import Admission Metadata Checks World History Adapter Context Engine Safety Frame Triple Outcome Durable.
Open Scope str_scope.

(** A session and the number of calls left to it. *)
Record Mortal (S : Type) := MkMortal { mo_session : S; mo_calls : nat }.
Arguments MkMortal {_} _ _.
Arguments mo_session {_} _.
Arguments mo_calls {_} _.

Section mortal.
Context {S : Type} {DR : Driver S} {ST : Storage S} {LAWS : StorageLaws S}.

#[export] Instance mortal_driver : Driver (Mortal S) := fun o m =>
  match mo_calls m with
  | 0 => (m, Err PyInterrupt)
  | Datatypes.S n => let '(s', r) := drv_step o (mo_session m) in (MkMortal s' n, r)
  end.

#[export] Instance mortal_storage : Storage (Mortal S) := {
  durable m := durable (mo_session m);
  working m := working (mo_session m);
  in_txn m := in_txn (mo_session m);
}.

Lemma mortal_step o (m : Mortal S) :
  drv_step o m = (m, Err PyInterrupt) \/
  exists n, mo_calls m = Datatypes.S n /\
    drv_step o m = (MkMortal (drv_step o (mo_session m)).1 n, (drv_step o (mo_session m)).2).
Proof.
  unfold drv_step at 1 2, mortal_driver. destruct (mo_calls m) as [|n]; [by left|right].
  exists n. split; [done|]. by destruct (drv_step o (mo_session m)) as [s' r].
Qed.

#[export] Instance mortal_laws : StorageLaws (Mortal S).
Proof.
  split; cbn [durable working in_txn mortal_storage].
  - intros o m Ho. destruct (mortal_step o m) as [->|(n & _ & ->)]; simpl; [by auto|]. by apply law_ends.
  - intros m m'. destruct (mortal_step RCommit m) as [->|(n & _ & ->)]; [done|].
    destruct (drv_step RCommit (mo_session m)) as [s' r] eqn:Hs. simpl. intros [= <- ->]. by apply law_commit.
  - intros c m. pose proof (law_metadata c (mo_session m)) as Hl.
    destruct (mortal_step (RMetadata c) m) as [->|(n & _ & ->)].
    + destruct (drv_step (RMetadata c) (mo_session m)) as [s' r]. destruct Hl as (t & c' & Hs & _). exists t, c'. simpl. split_and!; auto; done.
    + by destruct (drv_step (RMetadata c) (mo_session m)) as [s' r].
  - intros o m Hs Hm. destruct (mortal_step o m) as [->|(n & _ & ->)]; simpl; [by auto|]. by apply law_other.
  - intros m m'. destruct (mortal_step RBegin m) as [->|(n & _ & ->)]; [done|].
    destruct (drv_step RBegin (mo_session m)) as [s' r] eqn:Hs. simpl. intros [= <- ->]. by eapply law_begin.
  - intros bd ph m. destruct (mortal_step (RFire bd ph) m) as [->|(n & _ & ->)]; simpl; [done|]. by apply law_fire.
  - intros c m m' snap. destruct (mortal_step (RReadSnapshot c) m) as [->|(n & _ & ->)]; [done|].
    destruct (drv_step (RReadSnapshot c) (mo_session m)) as [s' r] eqn:Hs. simpl. intros [= <- ->]. by eapply law_snapshot.
Qed.

End mortal.
