(* ===== verification/Memory.v ===== *)
(** * A database in memory

    A concrete driver: one session with transactions over the engine's tables,
    which answers every call and runs no migration text. It shows that what
    [StorageLaws] assumes of a database can be had, and the theorems' witnesses
    run on it. [mm_lost] makes the next commit lose its reply: it commits, or not,
    and raises the driver's error. *)
From S2P Require Import Prelude PyStr Errors Latch Paths Manifest Model Fingerprint StateValidate SqlText.
From S2P Require Import Admission Metadata Checks World History Adapter Context Engine Safety Frame Triple Protocol Order Outcome Durable Crash.
Open Scope str_scope.

Record Memory := MkMemory {
  mm_durable : MetaDB;
  mm_working : MetaDB;
  mm_txn : bool;
  mm_objects : list str;
  mm_marker : option MetaRow;
  mm_held : bool;
  mm_lost : option bool;      (* the fate of the next commit, if its reply is to be lost *)
}.

Definition set_data (d w : MetaDB) (txn : bool) (m : Memory) : Memory :=
  MkMemory d w txn (mm_objects m) (mm_marker m) (mm_held m) (mm_lost m).

Definition drop_pending (held : bool) (m : Memory) : Memory :=
  MkMemory (mm_durable m) (mm_durable m) false (mm_objects m) (mm_marker m) held (mm_lost m).

Definition lost_reply : pyexn := PyException (CommitOutcomeUnknown None).

(** The clock stands still. *)
Definition memory_now : timestamp := 0%Z.

Definition memory_metadata (c : metadata_cmd) (m : Memory) : Memory * Z :=
  let w := apply_cmd memory_now c (mm_working m) in
  let marker := match c with
                | InsertMarker v a p lb ns => Some (MkMeta v a p lb ns (Some memory_now))
                | _ => mm_marker m
                end in
  (MkMemory (if mm_txn m then mm_durable m else w) w (mm_txn m) (mm_objects m) marker (mm_held m) (mm_lost m),
   affected c (mm_working m)).

Definition memory_commit (m : Memory) : Memory * result pyexn unit :=
  match mm_lost m with
  | None => (set_data (mm_working m) (mm_working m) false m, Ok tt)
  | Some applied =>
      let db := if applied then mm_working m else mm_durable m in
      (MkMemory db db false (mm_objects m) (mm_marker m) (mm_held m) None, Err lost_reply)
  end.

#[export] Instance memory_driver : Driver Memory := fun o m =>
  match o return Memory * result pyexn (reply o) with
  | RConnect => (drop_pending true m, Ok tt)
  | RAcquireLock | RPrepareStorage => (m, Ok tt)
  | RClose | RDiscard => (drop_pending false m, Ok tt)
  | RConnectionHeld => (m, Ok (mm_held m))
  | RServerDescription => (m, Ok ("memory" : str))
  | RSessionIdentity => (m, Ok None)
  | RObjectsPresent => (m, Ok (mm_objects m))
  | RDefinitionProblems _ => (m, Ok [])
  | RCreateObject name =>
      (MkMemory (mm_durable m) (mm_working m) (mm_txn m) (mm_objects m ++ [name]) (mm_marker m) (mm_held m) (mm_lost m), Ok tt)
  | RCount table =>
      (m, Ok (if bool_decide (table = META_TABLE) then (match mm_marker m with Some _ => 1%Z | None => 0%Z end)
              else if bool_decide (table = HISTORY_TABLE) then Z.of_nat (length (db_history (mm_working m)))
              else Z.of_nat (length (db_progress (mm_working m)))))
  | RReadMarker => (m, Ok (match mm_marker m with Some r => [Ok r] | None => [] end))
  | RReadSnapshot _ => (m, Ok (MkSnapshot (db_history (mm_working m)) (db_progress (mm_working m)) (mm_marker m)))
  | RMetadata c => let '(m', n) := memory_metadata c m in (m', Ok n)
  | RProgressGet mid key =>
      (m, Ok (map pr_value (filter (has_key mid key) (db_progress (mm_working m)))))
  | RBegin => (set_data (mm_durable m) (mm_working m) true m, Ok tt)
  | RCommit => memory_commit m
  | RRollback => (set_data (mm_durable m) (mm_durable m) false m, Ok tt)
  | RHasOpen => (m, Ok (mm_txn m))
  | RBatchState => (m, Ok (if mm_txn m then BT_OPEN else BT_ROLLED_BACK))
  | REstablishIdentity | RReadIdentity => (m, Ok None)
  | RExecute _ _ | RExecuteMany _ _ => (m, Ok 0%Z)
  | RQuery _ _ => (m, Ok [])
  | RCheckRequired _ => (m, Ok (MkValidity [] []))
  | RProbeLiveness _ => (m, Ok ("unknown" : str, "no diagnostic" : str))
  | RFire _ _ => (m, Ok tt)
  end.

#[export] Instance memory_storage : Storage Memory := {
  durable := mm_durable;
  working := mm_working;
  in_txn := mm_txn;
}.

(** It keeps what [StorageLaws] asks for. *)
#[export] Instance memory_laws : StorageLaws Memory.
Proof.
  split.
  - intros [] m; try done; intros _; unfold drv_step; simpl; auto.
    unfold memory_commit. destruct (mm_lost m) as [[]|]; simpl; auto.
  - intros m m'. unfold drv_step. simpl. unfold memory_commit.
    destruct (mm_lost m); [done|]. by intros [= <-].
  - intros c m. unfold drv_step. simpl. apply (executes_as memory_now); simpl; destruct (mm_txn m); auto.
  - intros [] m; try done; unfold drv_step; simpl; auto.
  - intros m m'. unfold drv_step. simpl. by intros [= <-].
  - done.
  - intros c m m' snap. unfold drv_step. simpl. by intros [= <- <-].
Qed.

Lemma memory_held_total (m : Memory) : is_ok (drv_step RConnectionHeld m).2 = true.
Proof. done. Qed.

(** A fresh session on committed rows. *)
Definition memory_on (db : MetaDB) : Memory := MkMemory db db false [] None false None.

(** ** A demonstration

    Three migrations: an atomic statement, a restartable index and a restartable
    Python migration that records its progress in a batch. *)
Definition demo_unit (n : Z) (mid : str) (l : Language) (m : Mode) (text : bytes) : CapturedUnit :=
  MkUnit (MkMigration n mid mid l m "up.sql" [] [mid]) [("up.sql", NFile text)] ("fp1:" ++ repeat 97%N 64) ["up.sql"] false.

Definition demo_capture : Capture :=
  let units := [demo_unit 1 "one" SQL_LANG ATOMIC "INSERT INTO t VALUES (1);";
                demo_unit 2 "two" SQL_LANG RESTARTABLE "CREATE INDEX i ON t (x);";
                demo_unit 3 "three" PYTHON RESTARTABLE "def migrate(ctx): pass"] in
  MkCapture (MkManifest ["m.toml"] [] (map u_definition units)) units false.

(** One batch that executes a statement and records where it got to. *)
Definition demo_prog : prog :=
  with_transaction (fun k =>
    PCall (CExecute "UPDATE t SET x = 2" VNone) (fun _ =>
      PCall (CProgressSet (VStr "cursor") (VStr "10")) (fun _ => k (Ok VNone))))
    (fun r => match r with Ok _ => PReturn VNone | Err x => PRaise x end).

Definition demo_host : Host := {|
  fs_escapes _ _ := false;
  fs_regular _ _ := true;
  fs_text _ _ := Ok [];
|}.

Definition demo_runner : RunnerInfo := MkRunner "host" "user" 1 "1.0" "run".
Definition demo_bindings : bindings := MkBindings "main" "file" "lock".

#[local] Existing Instances ascii_unicode ascii_interpreter sqlite_dialect demo_host.
#[local] Instance demo_loader : Loader := fun _ => Ok demo_prog.
#[local] Instance demo_deferred : Deferred := fun _ => false.

Definition demo_run (m : Memory) : World Memory * result pyexn unit :=
  run demo_bindings demo_capture None (initial_world m demo_runner).

Definition empty_db : MetaDB := MkDB [] [].

(** The first commit of the run that writes history loses its reply, applied or not. *)
Definition with_lost (applied : bool) (m : Memory) : Memory :=
  MkMemory (mm_durable m) (mm_working m) (mm_txn m) CREATION_ORDER (Some (MkMeta 1 "sqlite" "file" "lock" "main" None))
    (mm_held m) (Some applied).

Definition statuses (w : World Memory) : list (str * str) :=
  map (fun r => (hr_id r, hr_status r)) (db_history (mm_durable (w_driver w))).

Example demo_run_ok :
  let w := (demo_run (memory_on empty_db)).1 in
  rp_exit_code (w_report w) = OK /\ rp_executed (w_report w) = ["one"; "two"; "three"] /\
  statuses w = [("one", "SUCCESS"); ("two", "SUCCESS"); ("three", "SUCCESS")] :> list (str * str).
Proof. vm_compute. done. Qed.

Example demo_run_lost applied :
  let w := (demo_run (with_lost applied (memory_on empty_db))).1 in
  rp_exit_code (w_report w) = UNKNOWN_OUTCOME /\ rp_discarded (w_report w) = true /\
  statuses w = if applied then [("one", "SUCCESS")] : list (str * str) else [].
Proof. destruct applied; vm_compute; done. Qed.

(** The calls of that run, as the protocol sees them. *)
Example demo_order :
  let log := run_log demo_bindings demo_capture None (memory_on empty_db) demo_runner in
  completed log = ["one"; "two"; "three"] /\ phase_of demo_capture log = Some Ending /\
  length (List.filter (fun e => match ev_op e with RCommit => true | _ => false end) log) = 12.
Proof. vm_compute. done. Qed.

(** The process dies after so many calls: how far it gets. *)
Definition crash_run (calls : nat) : World (Mortal Memory) * result pyexn unit :=
  run demo_bindings demo_capture None (initial_world (MkMortal (memory_on empty_db) calls) demo_runner).

Definition crash_statuses (calls : nat) : list (str * str) :=
  map (fun r => (hr_id r, hr_status r)) (db_history (durable (w_driver (crash_run calls).1))).

Example demo_crash :
  crash_statuses 50 = [] /\ crash_statuses 60 = [("one", "SUCCESS")] /\
  crash_statuses 70 = [("one", "SUCCESS"); ("two", "ACTIVE")] :> list (str * str).
Proof. vm_compute. done. Qed.

(** ** Witnesses of the theorems on whole runs *)
Lemma demo_units : units_ok (c_units demo_capture).
Proof.
  split.
  - intros [|[|[|i]]] u; simpl; by intros [= <-].
  - apply (bool_decide_unpack _). vm_compute. done.
  - intros u Hu. repeat (apply elem_of_cons in Hu as [->|Hu]; [by vm_compute|]). by apply elem_of_nil in Hu.
Qed.


(** The first commit's reply is lost. *)
Lemma run_keeps_record_witness :
  durable (w_driver (demo_run (with_lost true (memory_on empty_db))).1) = empty_db \/
  exists dn act dn' act', recorded (c_units demo_capture) dn act empty_db /\ dn `prefix_of` dn' /\
    recorded (c_units demo_capture) dn' act' (durable (w_driver (demo_run (with_lost true (memory_on empty_db))).1)).
Proof.
  exact (run_keeps_record demo_bindings demo_capture None (with_lost true (memory_on empty_db)) demo_runner demo_units eq_refl).
Defined.

Lemma run_ok_complete_witness :
  exists dn act dn', recorded (c_units demo_capture) dn act empty_db /\ dn `prefix_of` dn' /\
    length dn' = length (c_units demo_capture) /\
    recorded (c_units demo_capture) dn' [] (durable (w_driver (demo_run (memory_on empty_db)).1)) /\
    db_progress (durable (w_driver (demo_run (memory_on empty_db)).1)) = [] /\
    rp_executed (w_report (demo_run (memory_on empty_db)).1) = map u_id (drop (length dn) (c_units demo_capture)).
Proof.
  refine (run_ok_complete demo_bindings demo_capture None (memory_on empty_db) demo_runner demo_units eq_refl memory_held_total _).
  vm_compute. reflexivity.
Defined.

(** After a lost reply to the first unit's commit, which was applied. *)
Lemma rerun_resumes_witness :
  exists p, build_plan demo_capture (snapshot_of (durable (w_driver (demo_run (with_lost true (memory_on empty_db))).1))) = Ok p /\
    p_pending p `suffix_of` c_units demo_capture.
Proof.
  refine (rerun_resumes demo_bindings demo_capture None (with_lost true (memory_on empty_db)) demo_runner
            (snapshot_of empty_db) (snapshot_of _) (the_plan demo_capture (snapshot_of empty_db) [] [])
            demo_units eq_refl (conj (reflexivity _) (reflexivity _)) _ (conj (reflexivity _) (reflexivity _)) _).
  - vm_compute. reflexivity.
  - intros mt. done.
Defined.

