(* ===== verification/Staging.v ===== *)
(** * Capturing and staging units ([staging.py])

    A unit's directory is a file tree; a capture fingerprints it in place, staging
    copies its files into a fresh tree and fingerprints the copy. Permission bits
    and the removal of the staging directory do not change what is read and are
    left out. SHA-256 is a parameter. *)
From S2P Require Import Prelude PyStr Text Errors Paths Manifest Model Fingerprint.
Open Scope str_scope.

Definition os_error (name : str) : pyexn := PyException (builtin_exn name).

(** ** Writing into a tree *)

Definition set_entry (name : str) (n : node) (es : list (str * node)) : list (str * node) :=
  if existsb (fun e => bool_decide (e.1 = name)) es
  then map (fun e => if bool_decide (e.1 = name) then (name, n) else e) es
  else es ++ [(name, n)].

Definition get_entry (name : str) (es : list (str * node)) : option node :=
  snd <$> find (fun e => bool_decide (e.1 = name)) es.

(** [destination.parent.mkdir(parents=True, exist_ok=True)], then the file is opened
    for writing; what is in the way of a directory or of the file raises. *)
Fixpoint put_file (parts : path) (data : bytes) (es : list (str * node)) : result pyexn (list (str * node)) :=
  match parts with
  | [] => Err (os_error "builtins.IsADirectoryError")
  | [name] =>
      match get_entry name es with
      | Some (NDir _) => Err (os_error "builtins.IsADirectoryError")
      | _ => Ok (set_entry name (NFile data) es)
      end
  | d :: rest =>
      sub ← match get_entry d es with
            | Some (NDir sub) => Ok sub
            | None => Ok []
            | Some _ => Err (os_error "builtins.FileExistsError")
            end;
      sub ← put_file rest data sub;
      Ok (set_entry d (NDir sub) es)
  end.

Section staging.
Context {UC : Unicode} (sha256_hex : bytes -> str).

(* @src staging.py _fingerprint_unit *)
Definition fingerprint_unit (d : MigrationDef) (root : list (str * node)) : result pyexn (str * list str) :=
  files ← scan_unit root;
  let relpaths := map f_relpath files in
  raise_if (negb (bool_decide (m_entry d ∈ relpaths))) (PyMigr8 (mk UnitError "entry is not a regular file inside its unit"));;
  fingerprint ← compute sha256_hex (MkInput (language_value (m_language d)) (mode_value (m_mode d)) (m_entry d)
                                      (required_pairs d) (map (fun f => (f_relpath f, f_data f)) files));
  Ok (fingerprint, relpaths).

(** What the unit directories hold. *)
Context (disk : path -> list (str * node)).

(* @src staging.py capture_in_place *)
Definition capture_in_place (m : Manifest) : result pyexn Capture :=
  units ← map_result (fun d =>
            '(fingerprint, relpaths) ← fingerprint_unit d (disk (m_unit_dir d));
            Ok (MkUnit d (disk (m_unit_dir d)) fingerprint relpaths false)) (mf_migrations m);
  Ok (MkCapture m units false).

(** [f"{definition.position:05d}"]. *)
(* @src staging.py _staged_dir_name *)
Definition staged_dir_name (d : MigrationDef) : str := zero_pad 5 (dec (Z.to_N (m_position d))).

(** One file of the copy: opened without following links, checked again. *)
(* @src staging.py 111-127 _copy_unit (loop body) *)
Definition copy_file (source : list (str * node)) (target : list (str * node)) (item : UnitFile) :
    result pyexn (list (str * node)) :=
  let parts := split_on slash (f_relpath item) in
  data ← match lookup_node (NDir source) parts with
         | Some (NFile data) => Ok data
         | Some NSymlink => Err (os_error "builtins.OSError")
         | Some _ => Err (PyMigr8 (mk UnitError "unit file is not a regular file"))
         | None => Err (os_error "builtins.FileNotFoundError")
         end;
  put_file parts data target.

(** Into a directory of its own, which must not be there yet. *)
(* @src staging.py _copy_unit *)
Definition copy_unit (source : list (str * node)) (taken : bool) : result pyexn (list (str * node)) :=
  files ← scan_unit source;
  raise_if taken (os_error "builtins.FileExistsError");;
  fold_result (copy_file source) [] files.

(** The staging directory so far, and the units. *)
(* @src staging.py 88-100 stage (loop body) *)
Definition stage_unit (st : list (str * node) * list CapturedUnit) (d : MigrationDef) :
    result pyexn (list (str * node) * list CapturedUnit) :=
  let '(root, units) := st in
  let name := staged_dir_name d in
  copied ← copy_unit (disk (m_unit_dir d)) (existsb (fun e => bool_decide (e.1 = name)) root);
  '(fingerprint, relpaths) ← fingerprint_unit d copied;
  Ok (root ++ [(name, NDir copied)], units ++ [MkUnit d copied fingerprint relpaths true]).

(* @src staging.py stage *)
Definition stage (m : Manifest) : result pyexn Capture :=
  '(_, units) ← fold_result stage_unit ([], []) (mf_migrations m);
  Ok (MkCapture m units true).
End staging.

(** ** File trees

    What a host's directory can hold: entry names are distinct, not empty and
    without slashes. *)
Fixpoint tree_ok (n : node) : bool :=
  match n with
  | NDir es =>
      bool_decide (NoDup es.*1) &&
      forallb (fun e => negb (bool_decide (e.1 = [])) && negb (bool_decide (slash ∈ e.1)) && tree_ok e.2) es
  | _ => true
  end.

Lemma tree_ok_dir es :
  tree_ok (NDir es) = true <->
  NoDup es.*1 /\ forall e, e ∈ es -> e.1 <> [] /\ (slash ∉ e.1) /\ tree_ok e.2 = true.
Proof.
  simpl. rewrite andb_true_iff, bool_decide_eq_true, forallb_forall. setoid_rewrite <-list_elem_of_In.
  split; intros [Hn He]; (split; [done|]); intros e Hin; specialize (He e Hin).
  - rewrite !andb_true_iff, !negb_true_iff, !bool_decide_eq_false in He. tauto.
  - rewrite !andb_true_iff, !negb_true_iff, !bool_decide_eq_false. tauto.
Qed.

Lemma get_entry_In name n es : NoDup es.*1 -> get_entry name es = Some n <-> (name, n) ∈ es.
Proof.
  unfold get_entry. induction es as [|[m x] es IH]; simpl; intros Hnd.
  { split; [done|by intros ?%elem_of_nil]. }
  apply NoDup_cons in Hnd as [Hni Hnd]. rewrite elem_of_cons. case_bool_decide as Hm; simpl.
  - subst. split; [intros [= ->]; by left|]. intros [[= ->]|Hin]; [done|].
    destruct Hni. apply list_elem_of_fmap. by exists (name, n).
  - rewrite IH by done. split; [by right|]. intros [[= -> ->]|?]; [done|done].
Qed.

Lemma lookup_dir es c p : lookup_node (NDir es) (c :: p) = (n ← get_entry c es; lookup_node n p).
Proof. unfold get_entry. simpl. by destruct (find _ es). Qed.

(** The regular files of a tree by their components. *)
Fixpoint leafpaths (n : node) : list (path * bytes) :=
  match n with
  | NFile data => [([], data)]
  | NDir es => concat (map (fun e => map (fun q => (e.1 :: q.1, q.2)) (leafpaths e.2)) es)
  | NSymlink | NSpecial => []
  end.

Lemma elem_of_leafpaths n p d : tree_ok n = true -> (p, d) ∈ leafpaths n <-> lookup_node n p = Some (NFile d).
Proof.
  revert p. induction n as [x|es IH| |] using node_ind'; intros p Hok.
  - simpl. rewrite list_elem_of_singleton. destruct p; naive_solver.
  - apply tree_ok_dir in Hok as [Hnd Hes]. rewrite Forall_forall in IH.
    assert ((p, d) ∈ leafpaths (NDir es) <-> exists e q, e ∈ es /\ p = e.1 :: q /\ (q, d) ∈ leafpaths e.2) as ->.
    { simpl. rewrite list_elem_of_In, in_concat. setoid_rewrite in_map_iff. split.
      - intros (l & (e & <- & He) & (q & [= <- <-] & Hq)%in_map_iff). exists e, q.1.
        rewrite !list_elem_of_In. by destruct q.
      - intros (e & q & He & -> & Hq). eexists. split; [exists e; split; [done|by apply list_elem_of_In]|].
        apply in_map_iff. exists (q, d). split; [done|by apply list_elem_of_In]. }
    split.
    + intros ([name n] & q & He & -> & Hq). rewrite lookup_dir. cbn [fst].
      rewrite (proj2 (get_entry_In name n es Hnd)) by done. simpl. apply (IH (name, n)); [done| |done]. by apply (Hes (name, n)).
    + destruct p as [|c q]; [done|]. rewrite lookup_dir. intros (n & Hn & Hq)%bind_Some.
      apply get_entry_In in Hn; [|done]. exists (c, n), q. split_and!; [done|done|].
      apply (IH (c, n)); [done|by apply (Hes (c, n))|done].
  - simpl. destruct p; split; try done; by intros ?%elem_of_nil.
  - simpl. destruct p; split; try done; by intros ?%elem_of_nil.
Qed.

Lemma NoDup_leafpaths n : tree_ok n = true -> NoDup (leafpaths n).
Proof.
  induction n as [x|es IH| |] using node_ind'; intros Hok; simpl; [apply NoDup_singleton| |constructor..].
  apply tree_ok_dir in Hok as [Hnd Hes]. induction IH as [|e es He IH IH2]; simpl; [constructor|].
  rewrite fmap_cons in Hnd. apply NoDup_cons in Hnd as [Hni Hnd]. apply NoDup_app. split_and!.
  - apply NoDup_fmap_2; [intros [] []; naive_solver|]. apply He. by apply (Hes e); left.
  - intros [p d] (q & [= -> ->] & Hq)%list_elem_of_fmap Hin.
    apply list_elem_of_In, in_concat in Hin as (l & (e' & <- & He')%in_map_iff & (q' & [= Heq _ _] & _)%in_map_iff).
    apply Hni. rewrite <-Heq. apply list_elem_of_fmap. exists e'. by rewrite list_elem_of_In.
  - apply IH2; [done|]. intros e' ?. apply Hes. by right.
Qed.

Lemma leaves_leafpaths rel n : leaves rel n = map (fun q => (foldl rel_join rel q.1, q.2)) (leafpaths n).
Proof.
  revert rel. induction n as [x|es IH| |] using node_ind'; intros rel; simpl; try done.
  rewrite concat_map, map_map. f_equal. apply map_ext_in. intros e He%list_elem_of_In.
  rewrite Forall_forall in IH. rewrite (IH e He), map_map. done.
Qed.

Lemma last_cons {A} (c x : A) p : List.last (c :: p) x = List.last p c.
Proof.
  assert (forall q (y z : A) p, List.last (q :: p) y = List.last (q :: p) z) as Hd.
  { intros q y z p'. revert q. induction p' as [|q' p' IH]; intros q; [done|]. apply (IH q'). }
  destruct p as [|q p]; [done|]. apply (Hd q x c p).
Qed.

(** ** When a scan succeeds *)
Section scans.
Context {UC : Unicode}.

(** What [scan_entry] asks of the entry itself. *)
Definition entry_ok (rel name : str) (n : node) : Prop :=
  match n with
  | NFile _ => existsb (fun suffix => ends_with suffix name) FORBIDDEN_FILE_SUFFIXES = false /\
               is_ok (check_relative_path rel) = true
  | NDir _ => (name ∉ FORBIDDEN_DIR_NAMES) /\ is_ok (check_relative_path rel) = true
  | NSymlink | NSpecial => False
  end.

(** The same of everything below it. *)
Definition below_ok (rel name : str) (n : node) : Prop :=
  forall p m, lookup_node n p = Some m -> entry_ok (foldl rel_join rel p) (List.last p name) m.

Lemma map_result_is_ok {E A B} (f : A -> result E B) l :
  is_ok (map_result f l) = true <-> forall x, x ∈ l -> is_ok (f x) = true.
Proof.
  induction l as [|x l IH]; simpl; [split; [by intros _ x ?%elem_of_nil|done]|]. setoid_rewrite elem_of_cons.
  destruct (f x) as [y|e] eqn:Hf; simpl.
  - transitivity (is_ok (map_result f l) = true); [by destruct (map_result f l)|]. rewrite IH. split; [|by auto].
    intros H z [->|Hz]; [by rewrite Hf|by apply H].
  - split; [done|]. intros H. specialize (H x (or_introl eq_refl)). by rewrite Hf in H.
Qed.

Lemma scan_children_is_ok (g : str * node -> result error (list UnitFile)) es :
  is_ok (fs ← map_result snd (sort_by name_leb (map (fun e => (e.1, g e)) es)); Ok (concat fs)) = true <->
  forall e, e ∈ es -> is_ok (g e) = true.
Proof.
  transitivity (is_ok (map_result snd (sort_by name_leb (map (fun e => (e.1, g e)) es))) = true).
  { by destruct (map_result _ _). }
  rewrite map_result_is_ok. setoid_rewrite (elem_of_sort_by _ _ _). setoid_rewrite list_elem_of_fmap. split.
  - intros H e He. apply (H (e.1, g e)). by exists e.
  - intros H x (e & -> & He). by apply H.
Qed.

Lemma below_ok_dir rel name es : NoDup es.*1 ->
  below_ok rel name (NDir es) <->
  entry_ok rel name (NDir es) /\ forall e, e ∈ es -> below_ok (rel_join rel e.1) e.1 e.2.
Proof.
  intros Hnd. split.
  - intros H. split; [by apply (H [])|]. intros [c n] He p m Hm. simpl in *.
    specialize (H (c :: p) m). rewrite lookup_dir, (proj2 (get_entry_In c n es Hnd) He), last_cons in H.
    by apply H.
  - intros [H0 H] [|c p] m Hm; [by injection Hm as <-|]. rewrite lookup_dir in Hm.
    apply bind_Some in Hm as (n & Hn & Hm). apply get_entry_In in Hn; [|done].
    rewrite last_cons. by apply (H (c, n) Hn p m).
Qed.

Lemma scan_entry_is_ok n rel name : tree_ok n = true -> is_ok (scan_entry rel name n) = true <-> below_ok rel name n.
Proof.
  revert rel name. induction n as [x|es IH| |] using node_ind'; intros rel name Hok.
  - transitivity (entry_ok rel name (NFile x)).
    + cbn [scan_entry entry_ok]. unfold raise_if.
      destruct (existsb (fun suffix => ends_with suffix name) _); cbn -[check_relative_path existsb]; [naive_solver|].
      destruct (check_relative_path rel); simpl; naive_solver.
    + split; [|by intros H; apply (H [])]. intros H [|c p] m Hm; [by injection Hm as <-|done].
  - apply tree_ok_dir in Hok as [Hnd Hes]. rewrite below_ok_dir by done. cbn [scan_entry entry_ok].
    transitivity ((name ∉ FORBIDDEN_DIR_NAMES) /\ is_ok (check_relative_path rel) = true /\
                  forall e, e ∈ es -> is_ok (scan_entry (rel_join rel e.1) e.1 e.2) = true).
    + rewrite <-scan_children_is_ok. unfold raise_if. case_bool_decide; simpl; [naive_solver|].
      destruct (check_relative_path rel); simpl; naive_solver.
    + rewrite Forall_forall in IH. split; intros H; split_and!; try apply H.
      * intros e He. apply IH; [done|by apply Hes|by apply H].
      * intros e He. apply (IH e He); [by apply Hes|by apply H].
  - simpl. split; [done|]. intros H. by destruct (H [] NSymlink eq_refl).
  - simpl. split; [done|]. intros H. by destruct (H [] NSpecial eq_refl).
Qed.

(** A scan succeeds when everything below the root is in order. *)
Lemma scan_dir_is_ok es : tree_ok (NDir es) = true ->
  is_ok (scan_dir es) = true <->
  forall p m, p <> [] -> lookup_node (NDir es) p = Some m -> entry_ok (foldl rel_join [] p) (List.last p []) m.
Proof.
  intros [Hnd Hes]%tree_ok_dir. unfold scan_dir.
  rewrite (scan_children_is_ok (fun e => scan_entry e.1 e.1 e.2)). split.
  - intros H [|c p] m Hne Hm; [done|]. rewrite lookup_dir in Hm. apply bind_Some in Hm as (n & Hn & Hm).
    apply get_entry_In in Hn; [|done]. specialize (H (c, n) Hn). apply scan_entry_is_ok in H; [|by apply (Hes (c, n))].
    rewrite last_cons. by apply (H p m).
  - intros H [c n] He. apply scan_entry_is_ok; [by apply (Hes (c, n))|]. intros p m Hm. simpl in *.
    specialize (H (c :: p) m). rewrite lookup_dir, (proj2 (get_entry_In c n es Hnd) He), last_cons in H.
    by apply H.
Qed.
End scans.

(** ** The copy

    What a partial copy holds is in the source, with the same contents. *)
Definition same_kind (n n' : node) : Prop :=
  match n, n' with
  | NFile d, NFile d' => d = d'
  | NDir _, NDir _ => True
  | _, _ => False
  end.

Definition part_of (n s : node) : Prop :=
  forall p m, lookup_node n p = Some m -> exists m', lookup_node s p = Some m' /\ same_kind m m'.

Lemma part_of_dir es ses :
  part_of (NDir es) (NDir ses) <->
  forall c n, get_entry c es = Some n -> exists n', get_entry c ses = Some n' /\ part_of n n'.
Proof.
  split.
  - intros H c n Hn. destruct (H [c] n) as (n' & Hn' & Hk).
    { rewrite lookup_dir, Hn. done. }
    rewrite lookup_dir in Hn'. apply bind_Some in Hn' as (n2 & Hn2 & [= ->]). exists n'. split; [done|].
    intros p m Hm. destruct (H (c :: p) m) as (m' & Hm' & Hk').
    { rewrite lookup_dir, Hn. done. }
    rewrite lookup_dir, Hn2 in Hm'. eauto.
  - intros H [|c p] m Hm; [injection Hm as <-; by exists (NDir ses)|].
    rewrite lookup_dir in Hm. apply bind_Some in Hm as (n & Hn & Hm).
    destruct (H _ _ Hn) as (n' & Hn' & Hp). rewrite lookup_dir, Hn'. by apply Hp.
Qed.

Lemma get_set_entry c d n es :
  get_entry c (set_entry d n es) = if bool_decide (c = d) then Some n else get_entry c es.
Proof.
  unfold set_entry. destruct (existsb _ es) eqn:Hex.
  - induction es as [|[m x] es IH]; [done|]. simpl in Hex. unfold get_entry in *. simpl.
    destruct (decide (m = d)) as [->|Hmd].
    + rewrite (bool_decide_eq_true_2 (d = d)) by done. simpl.
      destruct (decide (c = d)) as [->|Hc]; [by rewrite !bool_decide_eq_true_2 by done|].
      rewrite (bool_decide_eq_false_2 (c = d)), !(bool_decide_eq_false_2 (d = c)) by done.
      clear - Hc. induction es as [|[m' y] es IH]; [done|]. simpl.
      destruct (decide (m' = d)) as [->|]; [rewrite (bool_decide_eq_true_2 (d = d)) by done|rewrite (bool_decide_eq_false_2 (m' = d)) by done]; simpl.
      * rewrite !(bool_decide_eq_false_2 (d = c)) by done. apply IH.
      * case_bool_decide; [done|]. apply IH.
    + rewrite (bool_decide_eq_false_2 (m = d)) in Hex |- * by done. simpl in *.
      destruct (decide (m = c)) as [->|].
      * rewrite bool_decide_eq_true_2 by done. by rewrite bool_decide_eq_false_2.
      * rewrite bool_decide_eq_false_2 by done. by apply IH.
  - unfold get_entry. rewrite <-not_true_iff_false in Hex.
    induction es as [|[m x] es IH]; simpl in *.
    + destruct (decide (c = d)) as [->|]; [by rewrite !bool_decide_eq_true_2|].
      by rewrite !bool_decide_eq_false_2.
    + destruct (decide (m = d)) as [->|Hmd]; [destruct Hex; by rewrite bool_decide_eq_true_2|].
      destruct (decide (m = c)) as [->|].
      * rewrite bool_decide_eq_true_2 by done. by rewrite bool_decide_eq_false_2.
      * rewrite bool_decide_eq_false_2 by done. apply IH. intros He. apply Hex. by rewrite He, orb_true_r.
Qed.

Lemma set_entry_names d n es : (set_entry d n es).*1 = if existsb (fun e => bool_decide (e.1 = d)) es then es.*1 else es.*1 ++ [d].
Proof.
  unfold set_entry. destruct (existsb _ es); [|by rewrite fmap_app].
  induction es as [|[m x] es IH]; [done|]. csimpl. f_equal; [by case_bool_decide|apply IH].
Qed.

Lemma set_entry_In d n es e :
  NoDup es.*1 -> e ∈ set_entry d n es -> e = (d, n) \/ e ∈ es.
Proof.
  unfold set_entry. intros Hnd. destruct (existsb _ es).
  - rewrite list_elem_of_fmap. intros (e' & -> & He'). case_bool_decide; auto.
  - rewrite elem_of_app, list_elem_of_singleton. tauto.
Qed.

Lemma tree_ok_set_entry d n es :
  tree_ok (NDir es) = true -> tree_ok n = true -> d <> [] -> (slash ∉ d) -> tree_ok (NDir (set_entry d n es)) = true.
Proof.
  rewrite !tree_ok_dir. intros [Hnd Hes] Hn Hd Hs. split.
  - rewrite set_entry_names. destruct (existsb _ es) eqn:Hex; [done|]. apply NoDup_app. split_and!; [done| |apply NoDup_singleton].
    intros x Hx ->%list_elem_of_singleton. apply not_true_iff_false in Hex. apply Hex, existsb_exists.
    apply list_elem_of_fmap in Hx as (e & -> & He). exists e. rewrite <-list_elem_of_In. by rewrite bool_decide_eq_true_2.
  - intros e [->|He]%set_entry_In; [done|by apply Hes|done].
Qed.

Lemma tree_ok_get es c n : tree_ok (NDir es) = true -> get_entry c es = Some n -> c <> [] /\ (slash ∉ c) /\ tree_ok n = true.
Proof. intros [Hnd Hes]%tree_ok_dir Hn%get_entry_In; [by apply (Hes (c, n))|done]. Qed.

Lemma part_of_kind n s : part_of n s -> same_kind n s.
Proof. intros H. by destruct (H [] n eq_refl) as (m & [= <-] & Hk). Qed.

(** The files of a node that may be missing. *)
Definition opt_files (o : option node) (q : path) (x : bytes) : Prop :=
  exists n, o = Some n /\ lookup_node n q = Some (NFile x).

(** [es'] is [es] with the file [d] added at [p], within the source. *)
Definition file_added (p : path) (d : bytes) (es ses es' : list (str * node)) : Prop :=
  tree_ok (NDir es') = true /\ part_of (NDir es') (NDir ses) /\
  forall q x, lookup_node (NDir es') q = Some (NFile x) <-> (q = p /\ x = d) \/ lookup_node (NDir es) q = Some (NFile x).

(** Replacing one entry of a directory. *)
Lemma file_added_entry c p d es ses n' sn :
  tree_ok (NDir es) = true -> tree_ok (NDir ses) = true -> part_of (NDir es) (NDir ses) ->
  get_entry c ses = Some sn -> part_of n' sn -> tree_ok n' = true ->
  (forall q x, lookup_node n' q = Some (NFile x) <-> (q = p /\ x = d) \/ opt_files (get_entry c es) q x) ->
  file_added (c :: p) d es ses (set_entry c n' es).
Proof.
  intros Hok Hsok Hpart Hsn Hpn Hokn Hin. destruct (tree_ok_get _ _ _ Hsok Hsn) as (Hc & Hslash & _).
  rewrite part_of_dir in Hpart. split_and!; [by apply tree_ok_set_entry| |].
  - apply part_of_dir. intros c' n. rewrite get_set_entry. case_bool_decide; [|apply Hpart].
    intros [= <-]. subst. eauto.
  - intros [|c' q] x; [by naive_solver|]. rewrite !lookup_dir, get_set_entry.
    case_bool_decide as Hcc; [|naive_solver]. subst. simpl. rewrite Hin, bind_Some. unfold opt_files. naive_solver.
Qed.

(** The directory a file is written below: there already, or fresh. *)
Lemma open_sub c es ses ssub :
  tree_ok (NDir es) = true -> part_of (NDir es) (NDir ses) -> get_entry c ses = Some (NDir ssub) ->
  exists sub,
    match get_entry c es with
    | Some (NDir sub) => Ok sub
    | None => Ok []
    | Some _ => Err (os_error "builtins.FileExistsError")
    end = Ok sub /\
    tree_ok (NDir sub) = true /\ part_of (NDir sub) (NDir ssub) /\
    forall q x, lookup_node (NDir sub) q = Some (NFile x) <-> opt_files (get_entry c es) q x.
Proof.
  intros Hok Hpart Hsn. rewrite part_of_dir in Hpart. unfold opt_files. destruct (get_entry c es) as [n|] eqn:Hg.
  - destruct (Hpart _ _ Hg) as (n' & Hn' & Hp). simplify_eq. pose proof (part_of_kind _ _ Hp).
    destruct n as [|sub| |]; [done| |done|done]. exists sub.
    split_and!; [done|by eapply tree_ok_get|done|naive_solver].
  - exists []. split_and!; [done..| |].
    + intros [|] m Hm; [injection Hm as <-; by eexists|done].
    + intros q x. split; [by destruct q|naive_solver].
Qed.

Lemma file_leaf q d x : lookup_node (NFile d) q = Some (NFile x) <-> q = [] /\ x = d.
Proof. destruct q; simpl; naive_solver. Qed.

(** Writing a file of the source into a part of the source succeeds, leaves a part
    of the source, and adds that file and no other. *)
Lemma put_file_spec p d es ses :
  p <> [] -> tree_ok (NDir es) = true -> tree_ok (NDir ses) = true -> part_of (NDir es) (NDir ses) ->
  lookup_node (NDir ses) p = Some (NFile d) ->
  exists es', put_file p d es = Ok es' /\ file_added p d es ses es'.
Proof.
  revert es ses. induction p as [|c p IH]; intros es ses Hne Hok Hsok Hpart Hlk; [done|]. clear Hne.
  rewrite lookup_dir in Hlk. apply bind_Some in Hlk as (sn & Hsn & Hlk). destruct p as [|c2 p].
  - injection Hlk as ->. pose proof Hpart as Hp. rewrite part_of_dir in Hp.
    exists (set_entry c (NFile d) es). split.
    { simpl. destruct (get_entry c es) as [n|] eqn:Hg; [|done].
      destruct (Hp _ _ Hg) as (n' & Hn' & Hk%part_of_kind). by destruct n; simplify_eq. }
    apply (file_added_entry _ _ _ _ _ _ (NFile d)); try done.
    { intros p m Hm. destruct p; [|done]. injection Hm as <-. by eexists. }
    intros q x. rewrite file_leaf. split; [tauto|]. intros [?|(n & Hn & Hq)]; [done|].
    destruct (Hp _ _ Hn) as (n' & Hn' & Hnp). simplify_eq. destruct (Hnp _ _ Hq) as (m & Hm & Hk).
    destruct m; try done. simpl in Hk. subst. by apply file_leaf.
  - destruct sn as [|ssub| |]; [done| |done|done].
    destruct (open_sub c es ses ssub) as (sub & Hsub & Hsubok & Hsubp & Hsubl); [done..|].
    pose proof (tree_ok_get _ _ _ Hsok Hsn) as (_ & _ & Hssub).
    destruct (IH sub ssub) as (sub' & Hput & Hok' & Hp' & Hl'); [done..|].
    exists (set_entry c (NDir sub') es). split.
    { apply (bind_Ok (fun sub => sub ← put_file (c2 :: p) d sub; Ok (set_entry c (NDir sub) es))).
      exists sub. split; [done|]. apply bind_Ok. eauto. }
    apply (file_added_entry _ _ _ _ _ _ (NDir ssub)); try done. intros q x. by rewrite Hl', Hsubl.
Qed.

(** *** The paths of a scan are the paths of the tree *)
Lemma lookup_good n p m : tree_ok n = true -> lookup_node n p = Some m -> Forall (fun c => c <> [] /\ (slash ∉ c)) p.
Proof.
  revert n. induction p as [|c p IH]; intros n Hok Hm; [constructor|]. destruct n as [|es| |]; try done.
  rewrite lookup_dir in Hm. apply bind_Some in Hm as (n & Hn & Hm).
  destruct (tree_ok_get _ _ _ Hok Hn) as (? & ? & ?). constructor; [done|]. by eapply IH.
Qed.

Lemma foldl_rel_join p : Forall (fun c => c <> [] /\ (slash ∉ c)) p -> foldl rel_join [] p = join "/" p.
Proof.
  assert (forall p rel, rel <> [] -> Forall (fun c => c <> [] /\ (slash ∉ c)) p -> foldl rel_join rel p = join "/" (rel :: p)) as Hrel.
  { intros q. induction q as [|c p' IH]; intros rel Hrel Hp; [done|]. apply Forall_cons in Hp as [_ Hp].
    change (foldl rel_join (rel_join rel c) p' = rel ++ "/" ++ join "/" (c :: p')). rewrite IH; [|by unfold rel_join; destruct rel|done].
    destruct rel as [|x rel]; [done|]. unfold rel_join. destruct p'; simpl; [done|]. by rewrite <-!app_assoc. }
  destruct p as [|c p]; [done|]. intros Hp. apply Forall_cons in Hp as [[? ?] Hp]. by apply (Hrel p c).
Qed.

Lemma unit_leaves_lookup es rel d : tree_ok (NDir es) = true ->
  (rel, d) ∈ unit_leaves es <-> exists p, rel = join "/" p /\ lookup_node (NDir es) p = Some (NFile d).
Proof.
  intros Hok. change (unit_leaves es) with (leaves [] (NDir es)). rewrite leaves_leafpaths.
  rewrite list_elem_of_fmap. split.
  - intros ([p x] & [= -> ->] & Hp). apply elem_of_leafpaths in Hp; [|done]. exists p. split; [|done].
    eapply foldl_rel_join, lookup_good; done.
  - intros (p & -> & Hp). exists (p, d). rewrite elem_of_leafpaths by done. split; [|done].
    rewrite foldl_rel_join; [done|]. by eapply lookup_good.
Qed.

Lemma split_join_lookup es p n : tree_ok (NDir es) = true -> lookup_node (NDir es) p = Some n -> p <> [] ->
  split_on slash (join "/" p) = p.
Proof.
  intros Hok Hp Hne. apply split_join; [done|]. eapply Forall_impl; [by eapply lookup_good|]. by intros ? [].
Qed.

Lemma unit_leaves_perm es es' : tree_ok (NDir es) = true -> tree_ok (NDir es') = true ->
  (forall q x, lookup_node (NDir es') q = Some (NFile x) <-> lookup_node (NDir es) q = Some (NFile x)) ->
  unit_leaves es' ≡ₚ unit_leaves es.
Proof.
  intros Hok Hok' Heq. change (leaves [] (NDir es') ≡ₚ leaves [] (NDir es)). rewrite !leaves_leafpaths.
  apply fmap_Permutation, NoDup_Permutation; [by apply NoDup_leafpaths..|].
  intros [p x]. by rewrite !elem_of_leafpaths.
Qed.

Section copies.
Context {UC : Unicode}.

(** The loop over the scanned files. *)
Lemma copy_files_spec source l t :
  tree_ok (NDir source) = true -> tree_ok (NDir t) = true -> part_of (NDir t) (NDir source) ->
  (forall item, item ∈ l -> exists p, f_relpath item = join "/" p /\ p <> [] /\ lookup_node (NDir source) p = Some (NFile (f_data item))) ->
  exists t', fold_result (copy_file source) t l = Ok t' /\ tree_ok (NDir t') = true /\ part_of (NDir t') (NDir source) /\
    forall q x, lookup_node (NDir t') q = Some (NFile x) <->
      (exists item, item ∈ l /\ q = split_on slash (f_relpath item) /\ x = f_data item) \/ lookup_node (NDir t) q = Some (NFile x).
Proof.
  intros Hsok. revert t. induction l as [|item l IH]; intros t Hok Hpart Hl.
  { exists t. split_and!; [done..|]. intros q x. split; [by right|]. by intros [(? & ?%elem_of_nil & _)|?]. }
  destruct (Hl item) as (p & Hrel & Hne & Hp); [by left|].
  pose proof (split_join_lookup _ _ _ Hsok Hp Hne) as Hsplit.
  destruct (put_file_spec p (f_data item) t source) as (t1 & Hput & Hok1 & Hpart1 & Hl1); [done..|].
  destruct (IH t1) as (t' & Hfold & Hok' & Hpart' & Hl'); [done..| |].
  { intros i Hi. apply Hl. by right. }
  exists t'. split_and!; [|done..|].
  - assert (copy_file source t item = Ok t1) as Hcopy by (unfold copy_file; rewrite Hrel, Hsplit, Hp; exact Hput).
    simpl. by rewrite Hcopy.
  - intros q x. rewrite Hl', Hl1. setoid_rewrite elem_of_cons. rewrite <-Hsplit, <-Hrel. naive_solver.
Qed.

Lemma entry_ok_kind rel name n n' : same_kind n n' -> entry_ok rel name n' -> entry_ok rel name n.
Proof. by destruct n, n'. Qed.

Lemma file_pairs_perm fs fs' : map file_pair fs ≡ₚ map file_pair fs' -> fs ≡ₚ fs'.
Proof.
  assert (forall fs, map (fun q => MkUnitFile q.1 q.2) (map file_pair fs) = fs) as Hinv.
  { intros l. induction l as [|[] l IH]; simpl; [done|]. by rewrite IH. }
  intros Hp. rewrite <-(Hinv fs), <-(Hinv fs'). by apply (fmap_Permutation (fun q : str * bytes => MkUnitFile q.1 q.2)).
Qed.

Lemma scan_dir_leaves es fs : scan_dir es = Ok fs -> map file_pair fs ≡ₚ unit_leaves es.
Proof.
  unfold scan_dir. intros (out & Hout & [= <-])%bind_Ok. apply (scan_children_Ok _ (fun e => e.1)) in Hout; [apply Hout|].
  apply Forall_forall. eauto using scan_entry_Ok.
Qed.

Lemma collisions_NoDup fs r : check_no_case_collisions (map f_relpath fs) = Ok r -> NoDup (map f_relpath fs).
Proof.
  unfold check_no_case_collisions. intros (m & Hm & _)%bind_Ok.
  apply NoDup_fmap_1 with (f := casefold). by apply (case_collisions_from ∅ (map f_relpath fs)); exists m.
Qed.

(** A part of a scanned unit with all its files scans to the same list. *)
Lemma scan_unit_copy es es' files :
  tree_ok (NDir es) = true -> tree_ok (NDir es') = true -> part_of (NDir es') (NDir es) ->
  (forall q x, lookup_node (NDir es') q = Some (NFile x) <-> lookup_node (NDir es) q = Some (NFile x)) ->
  scan_unit es = Ok files -> scan_unit es' = Ok files.
Proof.
  intros Hok Hok' Hpart Heq Hscan. unfold scan_unit in Hscan.
  apply bind_Ok in Hscan as (fs & Hfs%lift_Ok & Hscan). apply bind_Ok in Hscan as ([] & Hne%lift_Ok & Hscan).
  apply bind_Ok in Hscan as (sorted & Hsort & Hscan). apply bind_Ok in Hscan as ([] & Hcol & [= <-]).
  assert (is_ok (scan_dir es') = true) as Hsok.
  { apply scan_dir_is_ok; [done|]. intros p m Hp Hm. destruct (Hpart _ _ Hm) as (m' & Hm' & Hk).
    eapply entry_ok_kind; [done|]. apply (proj1 (scan_dir_is_ok es Hok)); [by rewrite Hfs|done..]. }
  destruct (scan_dir es') as [fs'|] eqn:Hfs'; [|done].
  assert (fs ≡ₚ fs') as Hperm.
  { apply file_pairs_perm. rewrite (scan_dir_leaves _ _ Hfs), (scan_dir_leaves _ _ Hfs'). symmetry. by apply unit_leaves_perm. }
  destruct (sort_by_utf8_total f_relpath fs fs' sorted) as [sorted' Hsort']; [done..|].
  apply lift_Ok in Hcol. pose proof (collisions_NoDup _ _ Hcol) as Hnd.
  assert (sorted' = sorted) as ->.
  { symmetry. eapply (sort_by_utf8_perm f_relpath fs fs'); [done| |done..].
    apply sort_by_utf8_Ok in Hsort as [Hp _]. by rewrite <-Hp. }
  unfold scan_unit. rewrite Hfs'. simpl. apply raise_if_Ok in Hne. rewrite bool_decide_eq_false in Hne.
  rewrite bool_decide_eq_false_2 by (intros ->; by apply Permutation_nil_r in Hperm). simpl. rewrite Hsort'. simpl.
  by rewrite Hcol.
Qed.
(** A copy scans like its source, and fails only where the source's scan fails. *)
Lemma copy_unit_scan es :
  tree_ok (NDir es) = true ->
  match copy_unit es false with
  | Ok copied => scan_unit copied = scan_unit es
  | Err e => scan_unit es = Err e
  end.
Proof.
  intros Hok. unfold copy_unit. destruct (scan_unit es) as [files|e] eqn:Hscan; [|done]. simpl.
  assert (map file_pair files ≡ₚ unit_leaves es) as Hleaves.
  { unfold scan_unit in Hscan. inv_ok. apply lift_Ok in Hr. rewrite <-(scan_dir_leaves _ _ Hr).
    apply sort_by_utf8_Ok in Hr1 as [Hp _]. by apply fmap_Permutation. }
  destruct (copy_files_spec es files []) as (t & -> & Htok & Htpart & Hfiles); [done..| | |].
  - intros [|c p] m Hm; [injection Hm as <-; by exists (NDir es)|done].
  - intros item Hi. assert (file_pair item ∈ unit_leaves es) as Hin by (rewrite <-Hleaves; by apply list_elem_of_fmap_2).
    apply unit_leaves_lookup in Hin as (p & Hp & Hl); [|done]. exists p. split_and!; [done|by intros ->|done].
  - apply (scan_unit_copy es t files); [done..| |done]. intros q x. rewrite Hfiles. split.
    + intros [(item & Hi & -> & ->)|Hq]; [|by destruct q].
      assert (file_pair item ∈ unit_leaves es) as Hin by (rewrite <-Hleaves; by apply list_elem_of_fmap_2).
      apply unit_leaves_lookup in Hin as (p & -> & Hl); [|done].
      rewrite (split_join_lookup es p _ Hok Hl); [done|by intros ->].
    + intros Hq. left. assert ((join "/" q, x) ∈ map file_pair files) as Hin.
      { rewrite Hleaves. apply unit_leaves_lookup; eauto. }
      apply list_elem_of_fmap in Hin as (item & [= Hrel ->] & Hi). exists item. split_and!; [done| |done].
      rewrite <-Hrel. symmetry. apply (split_join_lookup es q _ Hok Hq). by intros ->.
Qed.
End copies.

(** *** A staged capture describes the working tree

    What a capture says of each unit: its definition, fingerprint and paths, and the
    files in the directory it will be run from. *)
Definition described {UC : Unicode} (u : CapturedUnit) : MigrationDef * str * list str * result pyexn (list UnitFile) :=
  (u_definition u, u_fingerprint u, u_relpaths u, scan_unit (u_source u)).

Definition description {UC : Unicode} (r : result pyexn Capture) :=
  c ← r; Ok (c_manifest c, map described (c_units c)).

Section staging_agrees.
Context {UC : Unicode} (sha256_hex : bytes -> str) (disk : path -> list (str * node)).

#[local] Arguments stage_unit : simpl never.

Lemma fingerprint_unit_scan d es es' :
  scan_unit es = scan_unit es' -> fingerprint_unit sha256_hex d es = fingerprint_unit sha256_hex d es'.
Proof. unfold fingerprint_unit. by intros ->. Qed.

Lemma staged_dir_name_inj d d' :
  (0 <= m_position d)%Z -> (0 <= m_position d')%Z -> staged_dir_name d = staged_dir_name d' -> m_position d = m_position d'.
Proof. unfold staged_dir_name. intros H H' Hz%zero_pad_dec_inj. lia. Qed.

Definition capture_unit (d : MigrationDef) : result pyexn CapturedUnit :=
  '(fingerprint, relpaths) ← fingerprint_unit sha256_hex d (disk (m_unit_dir d));
  Ok (MkUnit d (disk (m_unit_dir d)) fingerprint relpaths false).

(** One step of [stage] against one step of [capture_in_place]. *)
Lemma stage_unit_agrees root units d :
  tree_ok (NDir (disk (m_unit_dir d))) = true -> (staged_dir_name d ∉ root.*1) ->
  match capture_unit d with
  | Ok u => exists copied u', described u' = described u /\
      stage_unit sha256_hex disk (root, units) d = Ok (root ++ [(staged_dir_name d, NDir copied)], units ++ [u'])
  | Err e => stage_unit sha256_hex disk (root, units) d = Err e
  end.
Proof.
  intros Hok Hfresh. unfold stage_unit. rewrite (not_true_is_false (existsb _ root)).
  2: { intros (e & He & Heq%bool_decide_eq_true)%existsb_exists. apply Hfresh. rewrite <-Heq.
       by apply list_elem_of_fmap_2, list_elem_of_In. }
  pose proof (copy_unit_scan _ Hok) as Hcopy. unfold capture_unit.
  destruct (copy_unit _ false) as [copied|e]; simpl.
  - rewrite (fingerprint_unit_scan d _ _ Hcopy). destruct (fingerprint_unit _ _ _) as [[fp rels]|e]; [|done].
    simpl. eexists _, _. split; [|done]. unfold described. simpl. by rewrite Hcopy.
  - unfold fingerprint_unit. by rewrite Hcopy.
Qed.

Lemma stage_units_agree l root units :
  (forall d, d ∈ l -> tree_ok (NDir (disk (m_unit_dir d))) = true) ->
  NoDup (root.*1 ++ map staged_dir_name l) ->
  (st ← fold_result (stage_unit sha256_hex disk) (root, units) l; Ok (map described st.2)) =
  (us ← map_result capture_unit l; Ok (map described units ++ map described us)).
Proof.
  revert root units. induction l as [|d l IH]; intros root units Hok Hnd; simpl; [by rewrite app_nil_r|].
  pose proof (stage_unit_agrees root units d) as Hstep. destruct (capture_unit d) as [u|e] eqn:Hu; simpl.
  - destruct Hstep as (copied & u' & Hd & ->); [by apply Hok; left| |].
    { apply NoDup_app in Hnd as (_ & Hnd & _). intros Hin. apply (Hnd _ Hin). by left. }
    simpl. rewrite IH.
    + destruct (map_result capture_unit l); simpl; [|done]. rewrite map_app. simpl. rewrite Hd. by rewrite <-app_assoc.
    + intros d' ?. apply Hok. by right.
    + rewrite fmap_app, <-app_assoc. exact Hnd.
  - rewrite Hstep; [done|by apply Hok; left|].
    apply NoDup_app in Hnd as (_ & Hnd & _). intros Hin. apply (Hnd _ Hin). by left.
Qed.

(** C30: staging changes where a unit is read from and nothing else. When the unit
    directories are well-formed file trees and the positions of the manifest are
    distinct (as the loader numbers them), [migrate]'s [stage] and [validate]'s
    [capture_in_place] give the same outcome: the same first error, or the same
    manifest with, for every unit, the same definition, the same fingerprint, the
    same paths, and in the staged directory exactly the files, with their bytes,
    of the working tree. *)
Theorem stage_agrees m
    (Hdisk : forall d, d ∈ mf_migrations m -> tree_ok (NDir (disk (m_unit_dir d))) = true)
    (Hpos : Forall (fun d => (0 <= m_position d)%Z) (mf_migrations m))
    (Hdistinct : NoDup (map m_position (mf_migrations m))) :
  description (stage sha256_hex disk m) = description (capture_in_place sha256_hex disk m).
Proof.
  assert (NoDup (map staged_dir_name (mf_migrations m))) as Hnames.
  { clear Hdisk. revert Hpos Hdistinct. induction (mf_migrations m) as [|d l IH]; simpl; intros Hp Hd; [constructor|].
    apply Forall_cons in Hp as [Hp0 Hp]. apply NoDup_cons in Hd as [Hni Hd]. constructor; [|by apply IH].
    intros (d' & Heq & Hd')%list_elem_of_fmap. apply Hni. rewrite Forall_forall in Hp.
    rewrite (staged_dir_name_inj d d' Hp0 (Hp d' Hd') Heq). by apply list_elem_of_fmap_2. }
  pose proof (stage_units_agree (mf_migrations m) [] [] Hdisk Hnames) as H.
  unfold description, stage, capture_in_place. fold capture_unit.
  destruct (fold_result _ _ _) as [[root units]|e], (map_result _ _) as [us|e']; simpl in *; congruence.
Qed.
End staging_agrees.

(** Two units, one with a nested directory, staged and captured. *)
Definition sample_disk (p : path) : list (str * node) :=
  if bool_decide (p = ["u1"]) then [("up.sql", NFile "SELECT 1"); ("data", NDir [("b.txt", NFile [66%N]); ("a.txt", NFile [])])]
  else if bool_decide (p = ["u2"]) then [("up.py", NFile "pass")] else [].
Definition sample_manifest : Manifest :=
  MkManifest ["m"; "m.toml"] ["m"]
    [MkMigration 1 "one" "u1" SQL_LANG ATOMIC "up.sql" [] ["u1"];
     MkMigration 2 "two" "u2" PYTHON RESTARTABLE "up.py" [MkRequired "table" "t"] ["u2"]].

Definition sample_hash (b : bytes) : str := dec (blen b).

Lemma stage_agrees_witness :
  is_ok (@stage ascii_unicode sample_hash sample_disk sample_manifest) = true /\
  @description ascii_unicode (@stage ascii_unicode sample_hash sample_disk sample_manifest) =
  @description ascii_unicode (@capture_in_place ascii_unicode sample_hash sample_disk sample_manifest).
Proof.
  split; [vm_compute; reflexivity|]. apply (@stage_agrees ascii_unicode sample_hash sample_disk sample_manifest).
  - intros d [-> | [-> | []%elem_of_nil]%elem_of_cons]%elem_of_cons; vm_compute; reflexivity.
  - repeat constructor; vm_compute; discriminate.
  - apply (bool_decide_unpack _). vm_compute. exact I.
Defined.
