(* ===== verification/Sources.v ===== *)
(** * From the manifest file to what a run is given

    The composition of loading, capturing and planning: a capture of a loaded
    manifest is numbered as the history expects it. *)
From S2P Require Import Prelude PyStr Text Errors Paths Manifest Model Fingerprint History Staging.
Open Scope str_scope.

Section sources.
Context {UC : Unicode} (sha256_hex : bytes -> str) (disk : path -> list (str * node)).

(** The unit was fingerprinted from some directory. *)
Definition fingerprinted (u : CapturedUnit) : Prop :=
  exists es, fingerprint_unit sha256_hex (u_definition u) es = Ok (u_fingerprint u, u_relpaths u).

Definition captured (l : list MigrationDef) (units : list CapturedUnit) : Prop :=
  map u_definition units = l /\ Forall fingerprinted units.

Lemma capture_captured m c : capture_in_place sha256_hex disk m = Ok c -> captured (mf_migrations m) (c_units c).
Proof.
  unfold capture_in_place. intros (units & Hu%map_result_Ok & [= <-])%bind_Ok. simpl.
  induction Hu as [|d u l units Hd _ [IH1 IH2]]; [by split|]. apply bind_Ok in Hd as ([fp rels] & Hfp & [= <-]).
  split; simpl; [by rewrite IH1|]. constructor; [|done]. by exists (disk (m_unit_dir d)).
Qed.

Lemma stage_captured m c : stage sha256_hex disk m = Ok c -> captured (mf_migrations m) (c_units c).
Proof.
  unfold stage. intros ([root units] & Hf & [= <-])%bind_Ok. simpl.
  apply (fold_result_ind (fun l st => captured l st.2) _ ([], []) (mf_migrations m) (root, units)) in Hf; [done|by split|].
  intros l d [r us] [r' us'] [H1 H2] Hs. unfold stage_unit in Hs. simpl in *.
  apply bind_Ok in Hs as (copied & _ & Hs). apply bind_Ok in Hs as ([fp rels] & Hfp & [= <- <-]).
  split; [by rewrite map_app, H1|]. apply Forall_app. split; [done|]. repeat constructor. by exists copied.
Qed.

Lemma captured_ok utf8_decode toml_loads h manifest_path content m units
    (Hsha : forall b, length (sha256_hex b) = 64 /\ forallb lower_hex (sha256_hex b) = true) :
  load utf8_decode toml_loads h manifest_path content = Ok m -> captured (mf_migrations m) units -> units_ok units.
Proof.
  intros [Hpos Hids]%load_numbered [Hdefs Hfp]. split.
  - intros i u Hu. apply (Hpos i). by rewrite <-Hdefs, list_lookup_fmap, Hu.
  - rewrite <-Hdefs, map_map in Hids. exact Hids.
  - rewrite Forall_forall in Hfp. intros u (es & Hu)%Hfp. unfold fingerprint_unit in Hu. inv_ok.
    eapply compute_supported; [done|]. done.
Qed.

(** What a run is given is what its theorems assume. However a loaded manifest is
    captured, staged or in place, its units are numbered from 1 in the manifest's
    order, their ids are distinct, and their fingerprints are ones the snapshot
    checks accept, given a digest of 64 lower-case hexadecimal digits. *)
Lemma captured_units_ok utf8_decode toml_loads h manifest_path content m c
    (Hsha : forall b, length (sha256_hex b) = 64 /\ forallb lower_hex (sha256_hex b) = true)
    (Hload : load utf8_decode toml_loads h manifest_path content = Ok m)
    (Hcapture : stage sha256_hex disk m = Ok c \/ capture_in_place sha256_hex disk m = Ok c) :
  units_ok (c_units c).
Proof. destruct Hcapture; eauto using captured_ok, stage_captured, capture_captured. Qed.
End sources.

(** The sample manifest of [Manifest], staged from its own tree. *)
Definition sample_units (p : path) : list (str * node) :=
  match lookup_node (h_fs sample_host) p with Some (NDir es) => es | _ => [] end.

Lemma captured_units_ok_witness :
  exists m c, sample_load = Ok m /\ @stage ascii_unicode (fun _ => repeat 48%N 64) sample_units m = Ok c /\
    length (c_units c) = 2 /\ units_ok (c_units c).
Proof.
  eexists _, _. split; [vm_compute; reflexivity|]. split; [vm_compute; reflexivity|]. split; [reflexivity|].
  eapply (@captured_units_ok ascii_unicode (fun _ => repeat 48%N 64) sample_units Some (fun _ => Some sample_document) sample_host
    ["p"; "manifest.toml"] (Some [])).
  - by intros.
  - vm_compute. reflexivity.
  - left. vm_compute. reflexivity.
Defined.
