(* ===== verification/Config.v ===== *)
(** * Configuration ([config.py])

    What a configuration file may say, over the parsed TOML document. The file
    itself, UTF-8 decoding, the TOML parser and [Path.resolve] are parameters; the
    environment is an association list. *)
From S2P Require Import Prelude PyStr Errors Paths Manifest.
Open Scope str_scope.

(* @src config.py PASSWORD_ENV *)
Definition PASSWORD_ENV : str := "MIGR8_PASSWORD".
(* @src config.py _TOP_LEVEL_KEYS *)
Definition CONFIG_KEYS : list str := ["database"; "lock"; "oracle"; "postgres"; "sqlite"].
(* @src config.py _DATABASE_KEYS *)
Definition DATABASE_KEYS : list str := ["adapter"; "dsn"; "user"; "target_schema"; "path"].
(* @src config.py _LOCK_KEYS *)
Definition LOCK_KEYS : list str := ["provider"; "package"; "id"; "timeout_seconds"].
(* @src config.py LOCK_ID_MIN *)
Definition LOCK_ID_MIN : Z := 0.
(* @src config.py LOCK_ID_MAX *)
Definition LOCK_ID_MAX : Z := 1073741823.

(* @src config.py LockConfig *)
Record LockConfig := MkLock {
  lk_provider : str;
  lk_timeout_seconds : Z;
  lk_id : option Z;
  lk_package : option str;
}.

(* @src config.py 40-50 Config *)
Record Config := MkConfig {
  cf_path : path;
  cf_adapter : str;
  cf_dsn : option str;
  cf_user : option str;
  cf_target_schema : option str;
  cf_database_path : option path;
  cf_lock : LockConfig;
  cf_options : list (str * list (str * toml));
}.

(** [os.environ.get(PASSWORD_ENV) or None]: an empty value counts as none. *)
(* @src config.py Config.password *)
Definition password (environ : list (str * str)) : option str :=
  truthy (snd <$> find (fun kv => bool_decide (kv.1 = PASSWORD_ENV)) environ).

Definition cerr (label : str) : error := mk ConfigError label.

(* @src config.py _require_str *)
Definition config_str (value : option toml) (what : str) : result error str :=
  match value with
  | Some (TStr (c :: s)) => Ok (c :: s)
  | _ => Err (cerr (what ++ " must be a non-empty string"))
  end.

(* @src config.py _require_int *)
Definition config_int (value : toml) (what : str) : result error Z :=
  match value with
  | TInt z => Ok z
  | _ => Err (cerr (what ++ " must be an integer"))
  end.

(** [if value is not None: value = _require_str(value, what)]. *)
Definition optional_str (key what : str) (t : list (str * toml)) : result error (option str) :=
  match table_get key t with
  | None => Ok None
  | Some v => s ← config_str (Some v) what; Ok (Some s)
  end.

(* @src config.py _build_lock *)
Definition build_lock (section : option toml) : result error LockConfig :=
  match section with
  | None => Err (cerr "missing the [lock] table")
  | Some (TTable t) =>
      raise_if (unknown_keys LOCK_KEYS t) (cerr "[lock] has unknown keys");;
      provider ← config_str (table_get "provider" t) "lock.provider";
      timeout ← match table_get "timeout_seconds" t with
                | None => Err (cerr "lock.timeout_seconds is required")
                | Some v => config_int v "lock.timeout_seconds"
                end;
      raise_if (timeout <? 0)%Z (cerr "lock.timeout_seconds must not be negative");;
      lock_id ← match table_get "id" t with
                | None => Ok None
                | Some v =>
                    z ← config_int v "lock.id";
                    raise_if (negb ((LOCK_ID_MIN <=? z) && (z <=? LOCK_ID_MAX))%Z) (cerr "lock.id out of range");;
                    Ok (Some z)
                end;
      package ← optional_str "package" "lock.package" t;
      Ok (MkLock provider timeout lock_id package)
  | Some _ => Err (cerr "[lock] must be a table")
  end.

(** The pieces of a path text that [Path] keeps, and whether it is absolute. *)
Definition path_parts (text : str) : path :=
  List.filter (fun p => negb (bool_decide (p = []) || bool_decide (p = "."))) (split_on slash text).
Definition path_absolute (text : str) : bool := starts_with "/" text.

(** A path in the file is relative to the file's directory. *)
Definition locate (realpath : path -> path) (parent : path) (text : str) : path :=
  if path_absolute text then path_parts text else realpath (parent ++ path_parts text).

(* @src config.py 93-99 load (database.path) *)
Definition database_path (realpath : path -> path) (parent : path) (t : list (str * toml)) : result error (option path) :=
  text ← optional_str "path" "database.path" t;
  Ok (option_map (locate realpath parent) text).

Definition ADAPTER_TABLES : list str := ["oracle"; "postgres"; "sqlite"].

(* @src config.py 103-110 load (adapter tables) *)
Definition adapter_tables (document : list (str * toml)) : result error (list (str * list (str * toml))) :=
  fold_result (fun options name =>
    match table_get name document with
    | None => Ok options
    | Some (TTable t) => Ok (options ++ [(name, t)])
    | Some _ => Err (cerr ("[" ++ name ++ "] must be a table"))
    end) [] ADAPTER_TABLES.

(** What [load] makes of the parsed document. *)
(* @src config.py 70-124 load (document) *)
Definition config_of (realpath : path -> path) (config_path : path) (document : list (str * toml)) : result error Config :=
  raise_if (unknown_keys CONFIG_KEYS document) (cerr "unknown top-level tables");;
  database ← match table_get "database" document with
             | Some (TTable t) => Ok t
             | _ => Err (cerr "missing the [database] table")
             end;
  raise_if (unknown_keys DATABASE_KEYS database) (cerr "[database] has unknown keys");;
  adapter ← config_str (table_get "adapter" database) "database.adapter";
  dsn ← optional_str "dsn" "database.dsn" database;
  user ← optional_str "user" "database.user" database;
  target_schema ← optional_str "target_schema" "database.target_schema" database;
  database_path ← database_path realpath (take (length config_path - 1) config_path) database;
  lock ← build_lock (table_get "lock" document);
  options ← adapter_tables document;
  Ok (MkConfig config_path adapter dsn user target_schema database_path lock options).

(* @src config.py load *)
Definition load_config (utf8_decode : bytes -> option str) (toml_loads : str -> option (list (str * toml)))
    (realpath : path -> path) (is_file : path -> bool) (config_path : path) (content : bytes) : result error Config :=
  raise_if (negb (is_file config_path)) (cerr "not a regular file");;
  text ← match utf8_decode content with Some s => Ok s | None => Err (cerr "not valid UTF-8") end;
  document ← match toml_loads text with Some d => Ok d | None => Err (cerr "not valid TOML") end;
  config_of realpath config_path document.

(** ** What an accepted configuration says *)

(** An optional key: absent, or a non-empty string. *)
Definition says (t : list (str * toml)) (key : str) (value : option str) : Prop :=
  table_get key t = TStr <$> value /\ value <> Some [].

Definition known (allowed : list str) (t : list (str * toml)) : Prop := forall kv, kv ∈ t -> kv.1 ∈ allowed.

Record lock_says (t : list (str * toml)) (l : LockConfig) : Prop := {
  ls_keys : known LOCK_KEYS t;
  ls_provider : table_get "provider" t = Some (TStr (lk_provider l)) /\ lk_provider l <> [];
  ls_timeout : table_get "timeout_seconds" t = Some (TInt (lk_timeout_seconds l)) /\ (0 <= lk_timeout_seconds l)%Z;
  ls_id : table_get "id" t = TInt <$> lk_id l /\ forall z, lk_id l = Some z -> (0 <= z < 2 ^ 30)%Z;
  ls_package : says t "package" (lk_package l);
}.

Record config_says (realpath : path -> path) (config_path : path) (document : list (str * toml)) (c : Config) : Prop := {
  cs_keys : known CONFIG_KEYS document;
  cs_path : cf_path c = config_path;
  cs_database : exists t, table_get "database" document = Some (TTable t) /\ known DATABASE_KEYS t /\
    table_get "adapter" t = Some (TStr (cf_adapter c)) /\ cf_adapter c <> [] /\
    says t "dsn" (cf_dsn c) /\ says t "user" (cf_user c) /\ says t "target_schema" (cf_target_schema c) /\
    exists text, says t "path" text /\
      cf_database_path c = option_map (locate realpath (take (length config_path - 1) config_path)) text;
  cs_lock : exists t, table_get "lock" document = Some (TTable t) /\ lock_says t (cf_lock c);
  cs_options : cf_options c = omap (fun name => match table_get name document with Some (TTable t) => Some (name, t) | _ => None end)
                                ADAPTER_TABLES;
  cs_tables : forall name v, name ∈ ADAPTER_TABLES -> table_get name document = Some v -> exists t, v = TTable t;
}.

(** ** Lemmas *)
Lemma unknown_keys_false allowed t : unknown_keys allowed t = false <-> known allowed t.
Proof.
  unfold unknown_keys, known. induction t as [|kv t IH]; simpl; [split; [by intros _ kv ?%elem_of_nil|done]|].
  rewrite orb_false_iff, negb_false_iff, bool_decide_eq_true, IH. split.
  - intros [? ?] kv' [->|?]%elem_of_cons; auto.
  - intros Hk. split; [apply Hk; by left|]. intros kv' ?. apply Hk. by right.
Qed.

Lemma config_str_Ok v what s : config_str v what = Ok s <-> v = Some (TStr s) /\ s <> [].
Proof. destruct v as [[[|c s']| | | | |]|]; simpl; naive_solver. Qed.

Lemma optional_str_Ok key what t v : optional_str key what t = Ok v <-> says t key v.
Proof.
  unfold optional_str, says. destruct (table_get key t) as [x|]; [|destruct v; simpl; naive_solver].
  rewrite bind_Ok. split.
  - intros (s & [[= ->] Hne]%config_str_Ok & [= <-]). split; [done|congruence].
  - intros [Hx Hne]. destruct v as [s|]; [|done]. simpl in Hx. injection Hx as ->.
    exists s. split; [|done]. apply config_str_Ok. split; [done|congruence].
Qed.

Lemma config_int_Ok v what z : config_int v what = Ok z <-> v = TInt z.
Proof. destruct v; simpl; naive_solver. Qed.

Lemma timeout_Ok t e z :
  match table_get "timeout_seconds" t with None => Err e | Some v => config_int v "lock.timeout_seconds" end = Ok z <->
  table_get "timeout_seconds" t = Some (TInt z).
Proof. destruct (table_get _ t) as [v|]; [rewrite config_int_Ok|]; naive_solver. Qed.

Lemma lock_id_Ok t i :
  match table_get "id" t with
  | None => Ok None
  | Some v =>
      z ← config_int v "lock.id";
      raise_if (negb ((LOCK_ID_MIN <=? z) && (z <=? LOCK_ID_MAX))%Z) (cerr "lock.id out of range");;
      Ok (Some z)
  end = Ok i <->
  table_get "id" t = TInt <$> i /\ forall z, i = Some z -> (0 <= z < 2 ^ 30)%Z.
Proof.
  destruct (table_get _ t) as [v|]; [|destruct i; naive_solver].
  rewrite bind_Ok. setoid_rewrite config_int_Ok. setoid_rewrite raise_then_Ok.
  unfold LOCK_ID_MIN, LOCK_ID_MAX. split.
  - intros (z & -> & Hr & [= <-]). split; [done|]. intros ? [= <-].
    rewrite negb_false_iff, andb_true_iff, !Z.leb_le in Hr. lia.
  - intros [Hv Hr]. destruct i as [z|]; [|done]. injection Hv as ->. specialize (Hr z eq_refl).
    exists z. split_and!; [done| |done]. rewrite negb_false_iff, andb_true_iff, !Z.leb_le. lia.
Qed.

Lemma build_lock_Ok section l :
  build_lock section = Ok l <-> exists t, section = Some (TTable t) /\ lock_says t l.
Proof.
  unfold build_lock. destruct section as [[| | | | |t]|]; try (split; [done|by intros (? & ? & ?)]).
  rewrite raise_then_Ok, unknown_keys_false, bind_Ok. setoid_rewrite config_str_Ok.
  setoid_rewrite bind_Ok. setoid_rewrite timeout_Ok. setoid_rewrite raise_then_Ok.
  setoid_rewrite bind_Ok. setoid_rewrite lock_id_Ok. setoid_rewrite bind_Ok. setoid_rewrite optional_str_Ok.
  setoid_rewrite Z.ltb_ge. split.
  - intros (Hk & p & Hp & tm & Ht & Hneg & i & Hi & pk & Hpk & [= <-]). exists t. split; [done|by split].
  - intros (? & [= <-] & [Hk Hp [Ht Hneg] Hi Hpk]). destruct l as [p tm i pk]. split; [done|].
    exists p. split; [done|]. exists tm. split_and!; [done..|]. exists i. split; [done|]. by exists pk.
Qed.

Lemma tables_Ok document names acc out :
  fold_result (fun options name =>
    match table_get name document with
    | None => Ok options
    | Some (TTable t) => Ok (options ++ [(name, t)])
    | Some _ => Err (cerr ("[" ++ name ++ "] must be a table"))
    end) acc names = Ok out <->
  out = acc ++ omap (fun name => match table_get name document with Some (TTable t) => Some (name, t) | _ => None end) names /\
  forall name v, name ∈ names -> table_get name document = Some v -> exists t, v = TTable t.
Proof.
  revert acc. induction names as [|name names IH]; intros acc; simpl.
  { rewrite app_nil_r. split; [intros [= <-]; split; [done|by intros ? ? ?%elem_of_nil]|by intros [-> _]]. }
  setoid_rewrite elem_of_cons.
  destruct (table_get name document) as [[| | | | |t]|] eqn:Hn; simpl;
    try (split; [done|]; intros [_ Ht]; destruct (Ht name _ (or_introl eq_refl) Hn); done); rewrite IH.
  - rewrite <-app_assoc. simpl. split; intros [-> Ht]; (split; [done|]); [|intros ? ? ?; apply Ht; by right].
    intros name' v [->|?] Hv; [|by eapply Ht]. rewrite Hn in Hv. injection Hv as <-. by exists t.
  - split; intros [-> Ht]; (split; [done|]); [|intros ? ? ?; apply Ht; by right].
    intros name' v [->|?] Hv; [congruence|by eapply Ht].
Qed.

Lemma database_Ok document (e : error) t :
  match table_get "database" document with Some (TTable t) => Ok t | _ => Err e end = Ok t <->
  table_get "database" document = Some (TTable t).
Proof. destruct (table_get _ document) as [[]|]; naive_solver. Qed.

Lemma database_path_Ok realpath parent t p :
  database_path realpath parent t = Ok p <-> exists text, says t "path" text /\ p = option_map (locate realpath parent) text.
Proof. unfold database_path. rewrite bind_Ok. setoid_rewrite optional_str_Ok. naive_solver. Qed.

Lemma adapter_tables_Ok document out :
  adapter_tables document = Ok out <->
  out = omap (fun name => match table_get name document with Some (TTable t) => Some (name, t) | _ => None end) ADAPTER_TABLES /\
  forall name v, name ∈ ADAPTER_TABLES -> table_get name document = Some v -> exists t, v = TTable t.
Proof. apply tables_Ok. Qed.

Lemma config_of_Ok realpath config_path document c :
  config_of realpath config_path document = Ok c <-> config_says realpath config_path document c.
Proof.
  unfold config_of. rewrite raise_then_Ok, unknown_keys_false, bind_Ok.
  setoid_rewrite database_Ok. setoid_rewrite raise_then_Ok. setoid_rewrite unknown_keys_false.
  setoid_rewrite bind_Ok. setoid_rewrite config_str_Ok. split.
  - intros (Hk & t & Ht & Hkt & a & Ha & (dsn & Hdsn%optional_str_Ok & (user & Huser%optional_str_Ok &
      (schema & Hschema%optional_str_Ok & (p & Hp%database_path_Ok & (l & Hl%build_lock_Ok &
      (o & [-> Ho]%adapter_tables_Ok & [= <-])%bind_Ok)%bind_Ok)%bind_Ok)%bind_Ok)%bind_Ok)%bind_Ok).
    destruct Ha, Hp as (? & ? & ?). split; eauto 20.
  - intros [Hk Hpath (t & Ht & Hkt & Ha & Hne & Hdsn & Huser & Hschema & Hp) Hl Ho Htab].
    split; [done|]. exists t. split_and!; [done..|]. exists (cf_adapter c). split; [done|].
    apply bind_Ok. exists (cf_dsn c). split; [by apply optional_str_Ok|].
    apply bind_Ok. exists (cf_user c). split; [by apply optional_str_Ok|].
    apply bind_Ok. exists (cf_target_schema c). split; [by apply optional_str_Ok|].
    apply bind_Ok. exists (cf_database_path c). split; [by apply database_path_Ok|].
    apply bind_Ok. exists (cf_lock c). split; [by apply build_lock_Ok|].
    apply bind_Ok. exists (cf_options c). split; [by apply adapter_tables_Ok|]. by destruct c; cbn in Hpath; subst.
Qed.

(** C34: an accepted configuration is what its file says. [load] returns [c] exactly
    when the file decodes and parses to a document with no unknown table or key,
    the adapter and the lock provider are non-empty strings, the timeout an
    integer not below zero, the lock id an integer of 30 bits if there is one,
    every other text absent or not empty, and [c] holds just that, a relative
    database path resolved against the file's directory. No key for a password
    is known. *)
Theorem load_config_iff utf8_decode toml_loads realpath is_file config_path content c :
  load_config utf8_decode toml_loads realpath is_file config_path content = Ok c <->
  is_file config_path = true /\
  exists text document, utf8_decode content = Some text /\ toml_loads text = Some document /\
    config_says realpath config_path document c.
Proof.
  unfold load_config. rewrite raise_then_Ok, negb_false_iff.
  destruct (utf8_decode content) as [text|]; [|simpl; naive_solver].
  simpl. destruct (toml_loads text) as [document|] eqn:Htoml; [|split; [intros [_ Hf]; discriminate Hf|intros (_ & ? & ? & [= <-] & ? & _); congruence]].
  simpl. rewrite config_of_Ok. naive_solver.
Qed.

(** No key of an accepted [database] or [lock] table can carry a password. *)
Example no_password_key : "password" ∉ DATABASE_KEYS ++ LOCK_KEYS.
Proof. apply (bool_decide_unpack _). vm_compute. done. Qed.
