(* ===== verification/Effects.v ===== *)
(** * State and exceptions

    The monad of the adapters' own methods: a function from the session to a new
    one and a value or an exception, with Python's [try] in its forms; what a
    method that returns has done; and frames, what a method leaves alone. *)
From S2P Require Import Prelude Errors.

Create HintDb methods.

Definition EM (T A : Type) : Type := T -> T * result pyexn A.

#[export] Instance EM_ret {T} : MRet (EM T) := fun A a s => (s, Ok a).
#[export] Instance EM_bind {T} : MBind (EM T) := fun A B k m s =>
  match m s with
  | (s', Ok a) => k a s'
  | (s', Err x) => (s', Err x)
  end.

Section operations.
Context {T : Type}.

Definition s_raise {A} (x : pyexn) : EM T A := fun s => (s, Err x).
Definition s_raise_error {A} (e : error) : EM T A := s_raise (PyMigr8 e).
Definition s_gets {A} (f : T -> A) : EM T A := fun s => (s, Ok (f s)).
Definition s_modify (f : T -> T) : EM T unit := fun s => (f s, Ok tt).
Definition s_of_result {A} (r : result pyexn A) : EM T A := fun s => (s, r).
Definition s_when (b : bool) (m : EM T unit) : EM T unit := if b then m else mret tt.

Definition s_try {A} (m : EM T A) (h : pyexn -> EM T A) : EM T A := fun s =>
  match m s with
  | (s', Ok a) => (s', Ok a)
  | (s', Err x) => h x s'
  end.

(** [try: m finally: f]: an exception of [f] replaces the outcome of [m]. *)
Definition s_finally {A} (m : EM T A) (f : EM T unit) : EM T A := fun s =>
  let '(s1, r) := m s in
  let '(s2, r') := f s1 in
  match r' with Ok _ => (s2, r) | Err x => (s2, Err x) end.

Fixpoint s_map {A B} (f : A -> EM T B) (l : list A) : EM T (list B) :=
  match l with
  | [] => mret []
  | x :: l => y ← f x; ys ← s_map f l; mret (y :: ys)
  end.

End operations.

(** ** Methods that return *)
Section returns.
Context {T : Type}.

Lemma sm_bind_Ok {A B} (m : EM T A) (k : A -> EM T B) (s s' : T) b :
  (m ≫= k) s = (s', Ok b) -> exists s1 a, m s = (s1, Ok a) /\ k a s1 = (s', Ok b).
Proof. unfold mbind, EM_bind. destruct (m s) as [s1 [a|x]]; [by eauto|done]. Qed.

Lemma sm_result_Ok {A} (r : result pyexn A) (s s' : T) a : s_of_result r s = (s', Ok a) -> s' = s /\ r = Ok a.
Proof. by intros [= <- ->]. Qed.

(** A part [K] of the state that every step keeps, and what a step says of it. *)
Lemma s_map_Ok {A B X} (K : T -> X) (f : A -> EM T B) (Q : X -> A -> B -> Prop) l (s s' : T) ys :
  (forall x s1 s2 y, f x s1 = (s2, Ok y) -> K s2 = K s1 /\ Q (K s1) x y) ->
  s_map f l s = (s', Ok ys) -> K s' = K s /\ Forall2 (Q (K s)) l ys.
Proof.
  intros Hf. revert s s' ys. induction l as [|x l IH]; intros s s' ys; simpl; [by intros [= <- <-]|].
  intros (s1 & y & [H1 Hq]%Hf & (s2 & ys' & [H2 Hqs]%IH & [= <- <-])%sm_bind_Ok)%sm_bind_Ok.
  rewrite H1 in *. split; [congruence|by constructor].
Qed.
End returns.

(** ** What a method leaves alone

    [framed R m]: however [m] ends, the session it leaves is in relation [R] with the
    one it met. For a preorder [R] it is enough that the calls keep [R]. *)
Section framed.
Context {T : Type}.

Definition framed (R : T -> T -> Prop) {A} (m : EM T A) : Prop := forall s, R s (m s).1.

Context (R : T -> T -> Prop) `{!PreOrder R}.

Lemma framed_pure {A} (m : EM T A) : (forall s, (m s).1 = s) -> framed R m.
Proof. intros Hm s. by rewrite Hm. Qed.

Lemma framed_bind {A B} (m : EM T A) (k : A -> EM T B) : framed R m -> (forall a, framed R (k a)) -> framed R (m ≫= k).
Proof.
  intros Hm Hk s. specialize (Hm s). unfold mbind, EM_bind. destruct (m s) as [s1 [a|x]]; [|done].
  etrans; [exact Hm|]. apply Hk.
Qed.

(** As [framed_bind], for the values that the first part can return. *)
Lemma framed_bind_Ok {A B} (m : EM T A) (k : A -> EM T B) :
  framed R m -> (forall s s' a, m s = (s', Ok a) -> framed R (k a)) -> framed R (m ≫= k).
Proof.
  intros Hm Hk s. specialize (Hm s). specialize (Hk s). unfold mbind, EM_bind. destruct (m s) as [s1 [a|x]]; [|done].
  etrans; [exact Hm|]. by apply (Hk s1 a eq_refl).
Qed.

Lemma framed_of_result {A B} (r : result pyexn A) (k : A -> EM T B) :
  (forall a, r = Ok a -> framed R (k a)) -> framed R (a ← s_of_result r; k a).
Proof. intros Hk s. unfold mbind, EM_bind, s_of_result. destruct r as [a|x]; [by apply Hk|done]. Qed.

Lemma framed_try {A} (m : EM T A) h : framed R m -> (forall x, framed R (h x)) -> framed R (s_try m h).
Proof.
  intros Hm Hh s. specialize (Hm s). unfold s_try. destruct (m s) as [s1 [a|x]]; [done|].
  etrans; [exact Hm|]. apply Hh.
Qed.

Lemma framed_finally {A} (m : EM T A) f : framed R m -> framed R f -> framed R (s_finally m f).
Proof.
  intros Hm Hf s. specialize (Hm s). unfold s_finally. destruct (m s) as [s1 r]. specialize (Hf s1).
  destruct (f s1) as [s2 [u|x]]; by etrans.
Qed.

Lemma framed_when b (m : EM T unit) : framed R m -> framed R (s_when b m).
Proof. intros Hm. destruct b; [done|by apply framed_pure]. Qed.

Lemma framed_map {A B} (f : A -> EM T B) l : (forall x, framed R (f x)) -> framed R (s_map f l).
Proof.
  intros Hf. induction l as [|x l IH]; simpl; [by apply framed_pure|].
  apply framed_bind; [apply Hf|]. intros y. apply framed_bind; [done|]. intros ys. by apply framed_pure.
Qed.

Lemma framed_modify f : (forall s, R s (f s)) -> framed R (s_modify f).
Proof. intros Hf s. apply Hf. Qed.
End framed.

(** Takes a method apart down to its calls; the database [methods] knows methods. *)
Ltac frame_pure := solve [apply framed_pure; [apply _|done]].
Ltac frame_step :=
  match goal with
  | |- framed _ (mret _) => frame_pure
  | |- framed _ (s_raise _) => frame_pure
  | |- framed _ (s_raise_error _) => frame_pure
  | |- framed _ (s_gets _) => frame_pure
  | |- framed _ (s_of_result _) => frame_pure
  | |- framed _ (mbind _ _) => apply framed_bind; [apply _| |intros]
  | |- framed _ (s_try _ _) => apply framed_try; [apply _| |intros]
  | |- framed _ (s_finally _ _) => apply framed_finally; [apply _| |]
  | |- framed _ (s_when _ _) => apply framed_when; [apply _|]
  | |- framed _ (s_map _ _) => apply framed_map; [apply _|intros]
  | |- framed _ (match ?x with _ => _ end) => destruct x
  | |- framed _ _ => solve [auto with methods]
  end.
Ltac frame_steps := repeat frame_step.
