(* ===== verification/Dbapi.v ===== *)
(** * The Python DB-API as the adapters use it

    Parameters of a call, values and rows that come back, and the exceptions of
    Python itself that a wrong access raises. *)
From S2P Require Import Prelude PyStr Text Errors Paths Manifest Model World Statements.
Open Scope str_scope.

(** The second argument of [execute]. *)
Inductive sql_params :=
| NoParams                        (* not given *)
| Named (l : bindings_list)       (* a dict of the engine *)
| Positional (l : list pyval)     (* a tuple *)
| WithNames (v : pyval) (l : list str)   (* a tuple of a value and a list of texts *)
| Author (v : pyval).             (* an object of migration code, as it is *)

Definition key_error : pyexn := PyException (builtin_exn "builtins.KeyError").
Definition index_error : pyexn := PyException (builtin_exn "builtins.IndexError").
(** Not an outcome of the code: the polling loop did not end within its fuel
    ([acquire_lock_ends] shows that it does). *)
Definition out_of_fuel : pyexn := PyException (builtin_exn "out of fuel").

(** [row[i]]. *)
Definition cell (row : list pyval) (i : nat) : result pyexn pyval :=
  match row !! i with Some v => Ok v | None => Err index_error end.

Lemma cell_Ok row i v : cell row i = Ok v <-> row !! i = Some v.
Proof. unfold cell. destruct (row !! i); naive_solver. Qed.

(** A Python truth test. *)
Definition py_truth (v : pyval) : bool :=
  match v with VNone => false | VInt z => negb (z =? 0)%Z | VStr s => negb (bool_decide (s = [])) | VOther _ => true end.

(** [row[0]] of an optional row, [None] where either is. *)
Definition row_value (row : option (list pyval)) : result pyexn pyval :=
  match row with Some row => cell row 0 | None => Ok VNone end.

(** [text or ""]. *)
Definition or_empty (v : pyval) : pyval := if py_truth v then v else VStr [].

(** ** The fields of a recorded session identity *)
(** [part.split("=", 1)] of a part that has the sign. *)
Definition split_field (part : str) : list (str * str) :=
  match split_on 61%N part with
  | key :: ((_ :: _) as rest) => [(key, join "=" rest)]
  | _ => []
  end.

(** A key given twice has its last value. *)
Definition session_fields (db_session : str) : list (str * str) := rev (concat (map split_field (split_on 44%N db_session))).

Section bind.
Context {PR : PyRuntime}.

(** [int(rows[0][0])]. *)
Definition first_int (rows : list (list pyval)) : result pyexn Z :=
  match rows with [] => Err index_error | row :: _ => v ← cell row 0; py_int v end.

(** [bind_params(params, empty=...)]. *)
(* @src adapters/base.py bind_params *)
Definition bind_params (empty : sql_params) (v : pyval) : sql_params :=
  match v with
  | VNone => empty
  | VOther n => if obj_collection n then Author v else Positional [v]
  | _ => Positional [v]
  end.

(** [int(value)] of a TOML value; [float_int] is for the values that [toml] does not
    tell apart. *)
Definition toml_int (float_int : result pyexn Z) (v : toml) : result pyexn Z :=
  match v with
  | TInt z => Ok z
  | TBool b => Ok (if b then 1 else 0)%Z
  | TStr s => match int_of_text s with Some z => Ok z | None => Err value_error end
  | TOther => float_int
  | TArr _ | TTable _ => Err type_error
  end.
End bind.
