(* ===== verification/Catalog.v ===== *)
(** * Comparing a catalogue with the supported layout

    What the inspections of PostgreSQL and Oracle share: the loop over the tables
    present, and the CHECK conditions of a table as rows of a dictionary. *)
From S2P Require Import Prelude PyStr Text Errors Paths Manifest Model SqlText Admission Metadata Effects.
Open Scope str_scope.

Lemma and_iff_both (P Q P' Q' : Prop) : (P <-> P') -> (Q <-> Q') -> (P /\ Q <-> P' /\ Q').
Proof. tauto. Qed.

Lemma unless_nil (b : bool) (x : str) : (if b then [] else [x]) = [] <-> b = true.
Proof. by destruct b. Qed.

(** ** The tables present *)
Definition present_of {A} (present : list str) (l : list (str * A)) : list (str * A) :=
  List.filter (fun kv => mem kv.1 present) l.

Lemma in_filter {A} (p : A -> bool) l x : x ∈ List.filter p l <-> x ∈ l /\ p x = true.
Proof. by rewrite !list_elem_of_In, filter_In. Qed.

Lemma present_in {A} (present : list str) (l : list (str * A)) kv :
  kv ∈ present_of present l <-> kv ∈ l /\ kv.1 ∈ present.
Proof. unfold present_of. by rewrite in_filter, mem_true. Qed.

(** A loop over the tables present reports nothing when each of them is in order, by
    a part [K] of the session that the queries leave alone. *)
Lemma present_Ok {S X A} (K : S -> X) (f : str -> A -> EM S (list str)) (Q : X -> str -> A -> Prop) present l s s' found :
  (forall table x s1 s2 ps, f table x s1 = (s2, Ok ps) -> K s2 = K s1 /\ (ps = [] <-> Q (K s1) table x)) ->
  s_map (fun kv => f kv.1 kv.2) (present_of present l) s = (s', Ok found) ->
  K s' = K s /\ (concat found = [] <-> forall table x, (table, x) ∈ l -> table ∈ present -> Q (K s) table x).
Proof.
  intros Hf Hs. apply (s_map_Ok K _ (fun d kv ps => ps = [] <-> Q d kv.1 kv.2)) in Hs as [Hd Hall]; [|by intros; apply Hf].
  split; [done|]. transitivity (forall kv, kv ∈ present_of present l -> Q (K s) kv.1 kv.2).
  - rewrite concat_nil. induction Hall as [|kv ps kvs found Hkv _ IH]; [split; [by intros _ ? ?%elem_of_nil|done]|].
    rewrite Forall_cons, IH, Hkv. setoid_rewrite elem_of_cons. naive_solver.
  - setoid_rewrite present_in. split; [|by intros H [table x] [? ?]; apply H].
    intros H table x Hin Hp. by apply (H (table, x)).
Qed.

(** ** CHECK conditions *)
Section conditions.
Context {UC : Unicode} {A E : Type} (fold : str -> str) (renderings : list (str * str)).
Context (is_check : A -> bool) (text : A -> result E (option str)) (enforced : A -> bool).

(** The condition that a constraint stores, in canonical form. *)
Definition stores (c : A) (condition : str) : Prop :=
  exists t, text c = Ok t /\ stored_condition fold renderings (t, enforced c) = Some condition.

(** Every CHECK is a NOT NULL or an enforced one of the layout's, and the layout's
    are there. *)
Definition checks_ok (constraints : list A) (expected : list str) : Prop :=
  (forall c, c ∈ constraints -> is_check c = true -> exists condition, stores c condition /\
     (is_not_null_condition condition = true \/ (condition ∈ expected /\ enforced c = true))) /\
  (forall condition, condition ∈ expected -> exists c, c ∈ constraints /\ is_check c = true /\ stores c condition /\
     is_not_null_condition condition = false).

Definition checks_of (constraints : list A) : result E (list stored_check) :=
  map_result (fun c => t ← text c; Ok (t, enforced c)) (List.filter is_check constraints).

Lemma checks_of_in constraints checks row : checks_of constraints = Ok checks ->
  row ∈ checks <-> exists c, c ∈ constraints /\ is_check c = true /\ text c = Ok row.1 /\ row.2 = enforced c.
Proof.
  intros Hs. rewrite (map_result_in _ _ _ _ Hs). split.
  - intros (c & [? ?]%in_filter & (t & Ht & [= <-])%bind_Ok). by exists c.
  - intros (c & Hc & Hk & Ht & Hv). exists c. rewrite in_filter, Ht. simpl. rewrite <-Hv. by destruct row.
Qed.

Lemma checks_exact constraints checks expected : checks_of constraints = Ok checks ->
  check_problems fold renderings checks expected = [] <-> checks_ok constraints expected.
Proof.
  intros Hs. rewrite check_problems_none. unfold checks_ok. apply and_iff_both; split.
  - intros Hrows c Hc Hk. destruct (map_result_in_l _ _ _ c Hs) as (row & (t & Ht & [= <-])%bind_Ok & Hin); [by apply in_filter|].
    destruct (Hrows _ Hin) as (condition & Hst & Hor). exists condition. split; [by exists t|exact Hor].
  - intros Hall row (c & Hc & Hk & Ht & Hv)%(checks_of_in _ _ _ Hs). destruct (Hall c Hc Hk) as (condition & (t & Ht' & Hst) & Hor).
    exists condition. rewrite Ht in Ht'. injection Ht' as <-. rewrite <-Hv in Hst, Hor. destruct row. split; [exact Hst|exact Hor].
  - intros Hexp condition Hin. destruct (Hexp condition Hin) as (row & (c & Hc & Hk & Ht & Hv)%(checks_of_in _ _ _ Hs) & Hst & Hn).
    exists c. split_and!; [done..| |done]. exists row.1. split; [done|]. rewrite <-Hv. by destruct row.
  - intros Hexp condition Hin. destruct (Hexp condition Hin) as (c & Hc & Hk & (t & Ht & Hst) & Hn).
    exists (t, enforced c). split; [|done]. apply (checks_of_in _ _ _ Hs). by exists c.
Qed.
End conditions.
