(* ===== verification/Contract.v ===== *)
(** * Adapters and the contract of a session

    What the proofs that an adapter keeps [StorageLaws] share: metadata rows as the
    values that a driver returns, and what a call may do to the committed and the
    pending rows. *)
From S2P Require Import Prelude PyStr Text Errors Latch Paths Manifest Model Fingerprint StateValidate SqlText Admission Metadata World.
From S2P Require Import Statements History Durable Effects.
Open Scope str_scope.

(** ** Rows as values *)

(** How a driver returns a time column. *)
Class TimeColumn := val_time : option timestamp -> pyval.

Section values.
Context {PR : PyRuntime} {T : TimeColumn}.

Definition history_values (r : HistoryRow) : list pyval :=
  [VInt (hr_seq r); VStr (hr_id r); VStr (hr_fingerprint r); VStr (hr_first_fingerprint r); VStr (hr_language r);
   VStr (hr_mode r); VStr (hr_status r); val_int (hr_attempt r); val_time (hr_started_at r);
   val_time (hr_last_attempt_at r); val_time (hr_finished_at r); val_str (hr_runner_host r);
   val_str (hr_runner_user r); val_int (hr_runner_pid r); val_str (hr_db_session r); val_str (hr_tool_version r)].

Definition progress_columns (p : ProgressRow) : list pyval :=
  [VStr (pr_id p); VStr (pr_key p); VStr (pr_value p); val_time (pr_updated_at p)].

Context (Htime : forall t, parse_iso_timestamp (val_time t) = Ok t).

Lemma text_val_str o : py_text_or_none (val_str o) = Ok o.
Proof. by destruct o. Qed.

Lemma int_val_int o : py_int_or_none (val_int o) = Ok o.
Proof. by destruct o. Qed.

(** What was stored is read back. *)
Lemma history_row_values r : history_row (history_values r) = Ok r.
Proof.
  unfold history_row, history_values. rewrite !Htime, !text_val_str, !int_val_int. by destruct r.
Qed.

Lemma progress_row_columns p : progress_row (progress_columns p) = Ok p.
Proof. unfold progress_row, progress_columns. rewrite Htime. by destruct p. Qed.
End values.

Lemma map_result_inverse {E A B} (f : B -> result E A) (g : A -> B) l : (forall x, f (g x) = Ok x) -> map_result f (map g l) = Ok l.
Proof. intros Hfg. induction l as [|x l IH]; simpl; [done|]. by rewrite Hfg; simpl; rewrite IH. Qed.

(** ** Calls and commits *)
(** Nothing is committed; what is pending stays or is lost. *)
Definition commits_nothing {S} {ST : Storage S} (s s' : S) : Prop :=
  durable s' = durable s /\ (working s' = durable s \/ working s' = working s).

(** Whatever was pending may be committed or lost, and nothing else. *)
Definition may_commit {S} {ST : Storage S} (s s' : S) : Prop :=
  (durable s' = durable s \/ durable s' = working s) /\ (working s' = durable s \/ working s' = working s).

Section commits.
Context {L : Type} {ST : Storage L}.

Lemma commits_nothing_refl (s : L) : commits_nothing s s.
Proof. split; auto. Qed.

Lemma commits_nothing_trans (s1 s2 s3 : L) : commits_nothing s1 s2 -> commits_nothing s2 s3 -> commits_nothing s1 s3.
Proof. unfold commits_nothing. intros [H1 [H2|H2]] [H3 [H4|H4]]; rewrite H3, H4; split; auto; congruence. Qed.

Lemma quiet_may_commit (s s' : L) : commits_nothing s s' -> may_commit s s'.
Proof. intros [? ?]. split; auto. Qed.

Lemma may_commit_after (s1 s2 s3 : L) :
  durable s2 = durable s1 -> working s2 = working s1 -> may_commit s2 s3 -> may_commit s1 s3.
Proof. unfold may_commit. by intros -> ->. Qed.

Lemma may_commit_refl (s : L) : may_commit s s.
Proof. split; auto. Qed.

Lemma may_commit_nothing (s s' : L) : working s = durable s -> may_commit s s' -> commits_nothing s s'.
Proof. unfold may_commit, commits_nothing. intros ->. naive_solver. Qed.

End commits.

Lemma bind_ret_state {T A B} (m : EM T A) (f : A -> B) s : (mbind (fun a => mret (f a)) m s).1 = (m s).1.
Proof. unfold mbind, EM_bind. by destruct (m s) as [s1 [a|x]]. Qed.
