(* ===== verification/Imports.v ===== *)
(** * Importing a Python unit ([loader.py])

    [sys.modules] as the loader uses it: the private namespace of a unit, the entry
    module imported in it, and its removal. Names are dotted paths; a directory is
    the list of its components. *)
From S2P Require Import Prelude PyStr Text Errors Paths Effects.
From stdpp Require Import gmap.
Open Scope str_scope.

(** A registered module: a package made here, with its [__path__]; the entry module,
    with its package and file; or one that other code has imported. *)
Inductive module :=
| Namespace (dir : path)
| Source (package : str) (file : path)
| Imported (n : N).

(** The interpreter's state that the loader changes. *)
Record Process := MkProcess {
  sys_modules : gmap str module;
  dont_write_bytecode : bool;
}.

(** What is Python's: whether a file has a loader, what executing a module does and
    the callable that it then has as [migrate], if any; what kind of function that is. *)
Class Importer (F : Type) := {
  spec_found : str -> path -> bool;
  exec_module : str -> path -> EM Process (option F);
  deferred_function : F -> bool;
}.

Definition set_modules (f : gmap str module -> gmap str module) (p : Process) : Process :=
  MkProcess (f (sys_modules p)) (dont_write_bytecode p).

(* @src loader.py PACKAGE_PREFIX *)
Definition PACKAGE_PREFIX : str := "_migr8_unit_".

(* @src loader.py package_name *)
Definition package_name (mid : str) : result pyexn str := b ← encode_or_raise mid; Ok (PACKAGE_PREFIX ++ hex b).

(** The package of that name or something under it. *)
Definition in_namespace (root name : str) : bool := bool_decide (name = root) || starts_with (root ++ ".") name.

(* @src loader.py unload_namespace *)
Definition unload_namespace (root : str) : Process -> Process :=
  set_modules (filter (fun kv => in_namespace root kv.1 = false)).

Section loader.
Context {F : Type} {IM : Importer F}.

(* @src loader.py 40-47 LoadedUnit *)
Record LoadedUnit := MkLoaded {
  lu_migrate : F;
  lu_root : str;
}.

(* @src loader.py LoadedUnit.unload *)
Definition unload (l : LoadedUnit) : EM Process unit := s_modify (unload_namespace (lu_root l)).

Definition registered (name : str) (p : Process) : bool := bool_decide (is_Some (sys_modules p !! name)).
Definition register (name : str) (m : module) : EM Process unit := s_modify (set_modules <[name := m]>).

(* @src loader.py _make_namespace *)
Definition make_namespace (name : str) (dir : path) : EM Process unit := register name (Namespace dir).

(** A package for each directory down to the entry's; the name of the last. *)
(* @src loader.py 131-137 load_entry (packages) *)
Fixpoint make_packages (dir : path) (name : str) (parts : list str) : EM Process str :=
  match parts with
  | [] => mret name
  | part :: parts =>
      let dir := dir ++ [part] in
      let name := name ++ "." ++ part in
      known ← s_gets (registered name);
      s_when (negb known) (make_namespace name dir);;
      make_packages dir name parts
  end.

Definition without_suffix (entry : str) : list str := split_on 47%N (take (length entry - length (".py" : str)) entry).

(** The import proper: packages, the entry module, and what it defines. *)
(* @src loader.py 128-164 load_entry (try block) *)
Definition import_entry (mid root : str) (staged_dir : path) (entry : str) : EM Process LoadedUnit :=
  make_namespace root staged_dir;;
  let parts := without_suffix entry in
  current ← make_packages staged_dir root (removelast parts);
  let name := current ++ "." ++ List.last parts [] in
  let file := staged_dir ++ split_on 47%N entry in
  s_when (negb (spec_found name file)) (s_raise_error (mk UnitError "cannot load the entry"));;
  register name (Source current file);;
  target ← exec_module name file;
  match target with
  | None => s_raise_error (mk_id UnitError "the entry does not define a callable migrate(ctx)" mid)
  | Some f =>
      s_when (deferred_function f) (s_raise_error (mk_id UnitError "migrate(ctx) is not a synchronous function" mid));;
      mret (MkLoaded f root)
  end.

(* @src loader.py load_entry *)
Definition load_entry (mid : str) (staged_dir : path) (entry : str) : EM Process LoadedUnit :=
  s_modify (fun p => MkProcess (sys_modules p) true);;
  s_when (negb (ends_with ".py" entry)) (s_raise_error (mk UnitError "the entry is not a .py file"));;
  root ← s_of_result (package_name mid);
  known ← s_gets (registered root);
  s_when known (s_raise_error (mk UnitError "the module namespace is already registered"));;
  s_try (import_entry mid root staged_dir entry) (fun x => s_modify (unload_namespace root);; s_raise x).

(** One unit as [Engine._invoke_python] uses it. *)
Definition use_unit (mid : str) (staged_dir : path) (entry : str) (migrate : F -> EM Process unit) : EM Process unit :=
  l ← load_entry mid staged_dir entry;
  s_finally (migrate (lu_migrate l)) (unload l).
End loader.
Arguments LoadedUnit _ : clear implicits.

(** ** Namespaces *)
Lemma hex_no_dot b : Forall (fun x => x < 256)%N b -> 46%N ∉ hex b.
Proof.
  assert (forall x, (x < 16)%N -> hex_digit x <> 46%N) as Hd by (intros x ?; unfold hex_digit; case_match; lia).
  induction 1 as [|x b Hx _ IH]; [by apply not_elem_of_nil|]. unfold hex in *. csimpl. rewrite !not_elem_of_cons. split_and!; [..|done].
  - intros He. symmetry in He. revert He. apply Hd. apply N.Div0.div_lt_upper_bound; lia.
  - intros He. symmetry in He. revert He. apply Hd. apply N.mod_lt. lia.
Qed.

Lemma package_name_Ok mid root : package_name mid = Ok root ->
  exists b, utf8_encode mid = Some b /\ root = PACKAGE_PREFIX ++ hex b /\ 46%N ∉ root.
Proof.
  unfold package_name, encode_or_raise. destruct (utf8_encode mid) as [b|] eqn:Hb; [|done]. intros [= <-]. exists b. split_and!; [done..|].
  intros [Hin|Hin]%(elem_of_app PACKAGE_PREFIX (hex b)); [|by apply hex_no_dot in Hin; [|by eapply utf8_encode_bytes]].
  apply list_elem_of_In in Hin. simpl in Hin. by destruct_or! Hin.
Qed.

Lemma package_name_inj a b root : package_name a = Ok root -> package_name b = Ok root -> a = b.
Proof.
  intros (x & Hx & -> & _)%package_name_Ok (y & Hy & He & _)%package_name_Ok. apply app_inv_head, hex_inj in He; [|by eapply utf8_encode_bytes..].
  subst. by eapply utf8_encode_inj.
Qed.

(** A name's first component is its namespace. *)
Lemma in_namespace_head root name : 46%N ∉ root -> in_namespace root name = true -> head (split_on 46%N name) = Some root.
Proof.
  intros Hr [->%bool_decide_eq_true|[t ->]%starts_with_spec]%orb_true_iff; [by rewrite split_on_none|].
  rewrite <-(assoc_L (++)). change ("." ++ t) with (46%N :: t). by rewrite split_on_app.
Qed.

Lemma namespaces_apart a b ra rb name : package_name a = Ok ra -> package_name b = Ok rb ->
  in_namespace ra name = true -> in_namespace rb name = true -> a = b.
Proof.
  intros Ha Hb Hna Hnb. pose proof (package_name_Ok a ra Ha) as (_ & _ & _ & Hda). pose proof (package_name_Ok b rb Hb) as (_ & _ & _ & Hdb).
  apply in_namespace_head in Hna, Hnb; [|done..]. rewrite Hna in Hnb. injection Hnb as <-. by eapply package_name_inj.
Qed.

Lemma in_namespace_root root : in_namespace root root = true.
Proof. unfold in_namespace. by rewrite bool_decide_eq_true_2. Qed.

Lemma in_namespace_under root name part : in_namespace root name = true -> in_namespace root (name ++ "." ++ part) = true.
Proof.
  intros [->%bool_decide_eq_true|[t ->]%starts_with_spec]%orb_true_iff; apply orb_true_iff; right; apply starts_with_spec.
  - exists part. by rewrite <-(assoc_L (++)).
  - exists (t ++ "." ++ part). by rewrite <-!(assoc_L (++)).
Qed.

(** Nothing of the namespace is registered. *)
Definition vacant (root : str) (p : Process) : Prop := forall name, in_namespace root name = true -> sys_modules p !! name = None.

Lemma unload_vacant root p : vacant root (unload_namespace root p).
Proof. intros name Hn. unfold unload_namespace. simpl. apply map_lookup_filter_None. right. intros m _. simpl. by rewrite Hn. Qed.

Lemma unload_others root p name : in_namespace root name = false -> sys_modules (unload_namespace root p) !! name = sys_modules p !! name.
Proof.
  intros Hn. unfold unload_namespace. simpl. destruct (sys_modules p !! name) as [m|] eqn:E.
  - by apply map_lookup_filter_Some.
  - apply map_lookup_filter_None. by left.
Qed.

(** ** What a unit's code finds registered *)
Definition dotted (root : str) (parts : list str) : str := fold_left (fun name part => name ++ "." ++ part) parts root.

(** The packages from a directory down. *)
Fixpoint packages (dir : path) (name : str) (parts : list str) : list (str * module) :=
  (name, Namespace dir) ::
  match parts with [] => [] | part :: parts => packages (dir ++ [part]) (name ++ "." ++ part) parts end.

Definition entry_package (root entry : str) : str := dotted root (removelast (without_suffix entry)).
Definition entry_module (root entry : str) : str := entry_package root entry ++ "." ++ List.last (without_suffix entry) [].
Definition entry_file (staged_dir : path) (entry : str) : path := staged_dir ++ split_on 47%N entry.

(** The modules of a unit when its entry is executed: a package for the staged
    directory and each directory on the way to the entry, and the entry's own. *)
Definition own_modules (staged_dir : path) (root entry : str) : list (str * module) :=
  packages staged_dir root (removelast (without_suffix entry)) ++
  [(entry_module root entry, Source (entry_package root entry) (entry_file staged_dir entry))].

Lemma packages_longer dir name parts n m : (n, m) ∈ packages dir name parts -> length name <= length n.
Proof.
  revert dir name. induction parts as [|part parts IH]; intros dir name; simpl; rewrite elem_of_cons.
  - intros [[= -> _]|[]%elem_of_nil]. done.
  - intros [[= -> _]|Hin]; [done|]. apply IH in Hin. rewrite length_app in Hin. lia.
Qed.

Lemma packages_absent dir name part parts n : length n < length (name ++ "." ++ part) ->
  (list_to_map (packages dir (name ++ "." ++ part) parts) : gmap str module) !! n = None.
Proof.
  intros Hn. apply not_elem_of_list_to_map_1. intros ([n' m] & -> & Hin)%list_elem_of_fmap.
  apply packages_longer in Hin. by apply Nat.lt_nge in Hn.
Qed.

Lemma packages_first dir name parts : (list_to_map (packages dir name parts) : gmap str module) !! name = Some (Namespace dir).
Proof. destruct parts; simpl; apply lookup_insert_eq. Qed.

Lemma dotted_length name parts : length name <= length (dotted name parts).
Proof. revert name. induction parts as [|part parts IH]; intros name; simpl; [done|]. etrans; [|apply IH]. rewrite length_app. lia. Qed.

Lemma packages_shorter dir name parts n m : (n, m) ∈ packages dir name parts -> length n <= length (dotted name parts).
Proof.
  revert dir name. induction parts as [|part parts IH]; intros dir name; simpl; rewrite elem_of_cons.
  - by intros [[= -> _]|[]%elem_of_nil].
  - intros [[= -> _]|Hin]; [|by eapply IH]. etrans; [|apply dotted_length]. rewrite length_app. lia.
Qed.

Lemma own_modules_map (dir : path) (root entry : str) (m : gmap str module) :
  <[entry_module root entry := Source (entry_package root entry) (entry_file dir entry)]>
    (list_to_map (packages dir root (removelast (without_suffix entry))) ∪ <[root := Namespace dir]> m) =
  list_to_map (own_modules dir root entry) ∪ m.
Proof.
  unfold own_modules. rewrite list_to_map_app. cbn [list_to_map foldr fst snd].
  pose proof (packages_first dir root (removelast (without_suffix entry))) as Hroot.
  assert ((list_to_map (packages dir root (removelast (without_suffix entry))) : gmap str module) !! entry_module root entry = None) as Hlast.
  { apply not_elem_of_list_to_map_1. intros ([n v] & Hn & Hin)%list_elem_of_fmap. apply packages_shorter in Hin. cbn [fst] in Hn. subst n.
    unfold entry_module, entry_package in Hin. rewrite !length_app in Hin. simpl in Hin. lia. }
  revert Hroot Hlast. generalize (list_to_map (M := gmap str module) (packages dir root (removelast (without_suffix entry)))).
  generalize (entry_module root entry), (Source (entry_package root entry) (entry_file dir entry)). intros k v g Hroot Hlast.
  apply map_eq. intros i. destruct (decide (i = k)) as [->|Hk].
  - rewrite lookup_insert_eq, !lookup_union, Hlast, lookup_insert_eq. by destruct (m !! k).
  - rewrite lookup_insert_ne, !lookup_union, (lookup_insert_ne _ k) by done. destruct (decide (i = root)) as [->|Hr].
    + rewrite Hroot, lookup_insert_eq, lookup_empty. by destruct (m !! root).
    + rewrite lookup_insert_ne, lookup_empty by done. by destruct (g !! i).
Qed.

(** No name twice: each is longer than the one before. *)
Lemma packages_names dir name parts : NoDup (packages dir name parts).*1.
Proof.
  revert dir name. induction parts as [|part parts IH]; intros dir name; csimpl; [apply NoDup_singleton|].
  apply NoDup_cons. split; [|apply IH]. intros ([n m] & Hn & Hin)%list_elem_of_fmap. apply packages_longer in Hin. cbn [fst] in Hn. subst n.
  rewrite !length_app in Hin. simpl in Hin. lia.
Qed.

Lemma own_modules_names dir root entry : NoDup (own_modules dir root entry).*1.
Proof.
  unfold own_modules. rewrite fmap_app. apply NoDup_app. split_and!; [apply packages_names| |apply NoDup_singleton].
  intros n ([n' m] & -> & Hin)%list_elem_of_fmap Hn%list_elem_of_singleton. apply packages_shorter in Hin. cbn [fst] in Hn. subst n'.
  unfold entry_module, entry_package in Hin. rewrite !length_app in Hin. simpl in Hin. lia.
Qed.

Section spec.
Context {F : Type} {IM : Importer F}.

Lemma make_packages_vacant root dir name parts p : in_namespace root name = true -> sys_modules p !! name = Some (Namespace dir) ->
  (forall n, in_namespace root n = true -> length name < length n -> sys_modules p !! n = None) ->
  make_packages dir name parts p = (set_modules (fun m => list_to_map (packages dir name parts) ∪ m) p, Ok (dotted name parts)).
Proof.
  revert dir name p. induction parts as [|part parts IH]; intros dir name [m b] Hin Hname Hfree; cbn [sys_modules] in *.
  { unfold set_modules. simpl. rewrite <-insert_union_l, (left_id_L ∅ (∪)), insert_id; done. }
  cbn [make_packages packages]. change (dotted name (part :: parts)) with (dotted (name ++ "." ++ part) parts).
  pose proof (in_namespace_under root name part Hin) as Hin'. pose proof (packages_absent (dir ++ [part]) name part parts name) as Habs.
  assert (length name < length (name ++ "." ++ part)) as Hlen by (rewrite !length_app; simpl; lia).
  revert Hin' Habs Hlen. generalize (name ++ "." ++ part). intros name' Hin' Habs Hlen. pose proof (Hfree _ Hin' Hlen) as Hnone.
  unfold mbind at 1. unfold EM_bind at 1. unfold s_gets, registered. cbn [sys_modules].
  rewrite Hnone, bool_decide_eq_false_2 by (by intros [? ?]).
  unfold mbind, EM_bind, s_when, make_namespace, register, s_modify, set_modules. cbn [negb sys_modules dont_write_bytecode].
  rewrite IH; cbn [sys_modules]; [|done|by rewrite lookup_insert_eq|].
  - unfold set_modules. cbn [sys_modules dont_write_bytecode list_to_map foldr fst snd]. do 2 f_equal.
    rewrite <-insert_union_l, (insert_id (_ ∪ _)); [|by rewrite lookup_union_r by auto].
    apply map_eq. intros n. rewrite !lookup_union. destruct (decide (n = name')) as [->|Hn]; [|by rewrite lookup_insert_ne].
    by rewrite packages_first, lookup_insert_eq, Hnone.
  - intros n Hn Hl. rewrite lookup_insert_ne; [apply Hfree; [done|lia]|]. intros <-. lia.
Qed.

(** How the import ends, from what executing the module gives. *)
Definition import_outcome (mid root : str) (out : Process * result pyexn (option F)) : Process * result pyexn (LoadedUnit F) :=
  let '(q, r) := out in
  match r with
  | Ok (Some f) =>
      if deferred_function f then (unload_namespace root q, Err (PyMigr8 (mk_id UnitError "migrate(ctx) is not a synchronous function" mid)))
      else (q, Ok (MkLoaded f root))
  | Ok None => (unload_namespace root q, Err (PyMigr8 (mk_id UnitError "the entry does not define a callable migrate(ctx)" mid)))
  | Err x => (unload_namespace root q, Err x)
  end.

Lemma load_entry_vacant mid dir entry root p : package_name mid = Ok root -> ends_with ".py" entry = true -> vacant root p ->
  spec_found (entry_module root entry) (entry_file dir entry) = true ->
  load_entry mid dir entry p =
    import_outcome mid root (exec_module (entry_module root entry) (entry_file dir entry)
      (MkProcess (list_to_map (own_modules dir root entry) ∪ sys_modules p) true)).
Proof.
  intros Hname Hpy Hvac Hspec. unfold load_entry. rewrite Hpy, Hname.
  cbv [mbind EM_bind s_modify s_when s_of_result s_gets registered negb mret EM_ret sys_modules].
  pose proof (Hvac root (in_namespace_root root)) as Hroot. destruct p as [m b]. cbn [sys_modules] in *.
  rewrite Hroot, bool_decide_eq_false_2 by (by intros [? ?]).
  cbv [s_try import_entry make_namespace register s_modify set_modules mbind EM_bind mret EM_ret sys_modules dont_write_bytecode].
  rewrite (make_packages_vacant root dir root); [|apply in_namespace_root|simpl; apply lookup_insert_eq|].
  2:{ intros n Hn Hl. simpl. rewrite lookup_insert_ne; [by apply Hvac|]. intros <-. lia. }
  cbv [mbind EM_bind s_raise_error s_raise set_modules]. cbn [sys_modules dont_write_bytecode].
  fold (entry_package root entry). fold (entry_module root entry). fold (entry_file dir entry).
  rewrite Hspec. cbv [negb s_when mret EM_ret]. rewrite (own_modules_map dir root entry m). unfold import_outcome.
  destruct (exec_module _ _ _) as [q [[f|]|x]]; [|done..]. by destruct (deferred_function f).
Qed.

(** However an import ends, it leaves nothing half registered. *)
Lemma load_entry_leaves mid dir entry p :
  match load_entry mid dir entry p with
  | (_, Ok l) => package_name mid = Ok (lu_root l)
  | (p', Err _) => sys_modules p' = sys_modules p \/ forall root, package_name mid = Ok root -> vacant root p'
  end.
Proof.
  unfold load_entry. cbv [mbind EM_bind s_modify s_when s_of_result s_gets s_raise_error s_raise mret EM_ret].
  destruct (ends_with ".py" entry); [|by left]. simpl. destruct (package_name mid) as [root|] eqn:Hroot; [|by left].
  destruct (registered root _); [by left|]. unfold s_try. destruct (import_entry mid root dir entry _) as [q [l|x]] eqn:Hi.
  - revert Hi. intros (? & [] & _ & H)%sm_bind_Ok. apply sm_bind_Ok in H as (? & ? & _ & H).
    apply sm_bind_Ok in H as (? & [] & _ & H). apply sm_bind_Ok in H as (? & [] & _ & H).
    apply sm_bind_Ok in H as (? & [f|] & _ & H); [|done].
    by apply sm_bind_Ok in H as (? & [] & _ & [= _ <-]).
  - right. intros r [= <-]. apply unload_vacant.
Qed.
End spec.

(** ** Many units in one process *)

(** Nothing under the namespaces of units other than this one changes. *)
Definition leaves_others (mid : str) (p p' : Process) : Prop :=
  forall other root name, other <> mid -> package_name other = Ok root -> in_namespace root name = true ->
    sys_modules p' !! name = sys_modules p !! name.

#[export] Instance leaves_others_preorder mid : PreOrder (leaves_others mid).
Proof. split; [by intros p other|]. intros p1 p2 p3 H1 H2 other root name Ho Hr Hn. rewrite (H2 other root), (H1 other root); done. Qed.

(** No unit's namespace is registered. *)
Definition clean (p : Process) : Prop := forall mid root, package_name mid = Ok root -> vacant root p.

Section process.
Context {F : Type} {IM : Importer F}.

(** One migration as the engine runs it. *)
Record use := MkUse {
  us_id : str;
  us_dir : path;
  us_entry : str;
  us_migrate : F -> EM Process unit;
}.

Definition run_use (u : use) : Process -> Process := fun p => (use_unit (us_id u) (us_dir u) (us_entry u) (us_migrate u) p).1.
Definition run_uses (us : list use) (p : Process) : Process := fold_left (fun p u => run_use u p) us p.

(** Its code imports what it likes, but not under the name of another unit. *)
Definition polite (u : use) : Prop :=
  (forall root name file, package_name (us_id u) = Ok root -> in_namespace root name = true ->
     framed (leaves_others (us_id u)) (exec_module name file)) /\
  forall f, framed (leaves_others (us_id u)) (us_migrate u f).

Lemma leaves_register mid root name m : package_name mid = Ok root -> in_namespace root name = true ->
  framed (leaves_others mid) (register name m).
Proof.
  intros Hr Hn p other root' name' Ho Hr' Hn'. simpl. apply lookup_insert_ne. intros <-. apply Ho. by eapply namespaces_apart.
Qed.

Lemma leaves_unload mid root : package_name mid = Ok root -> framed (leaves_others mid) (s_modify (unload_namespace root)).
Proof.
  intros Hr p other root' name' Ho Hr' Hn'. cbn [s_modify fst]. apply unload_others. destruct (in_namespace root name') eqn:E; [|done].
  exfalso. apply Ho. by eapply namespaces_apart.
Qed.

Lemma leaves_packages mid root dir name parts : package_name mid = Ok root -> in_namespace root name = true ->
  framed (leaves_others mid) (make_packages dir name parts).
Proof.
  intros Hr. revert dir name. induction parts as [|part parts IH]; intros dir name Hn; cbn [make_packages]; [frame_pure|].
  pose proof (in_namespace_under root name part Hn). apply framed_bind; [apply _|frame_pure|]. intros known.
  apply framed_bind; [apply _| |intros _; by apply IH]. destruct known; [frame_pure|by eapply leaves_register].
Qed.

Lemma make_packages_name dir name parts p p' current : make_packages dir name parts p = (p', Ok current) -> current = dotted name parts.
Proof.
  revert dir name p. induction parts as [|part parts IH]; intros dir name p; cbn [make_packages]; [by intros [= _ <-]|].
  intros (p1 & known & _ & H)%sm_bind_Ok. apply sm_bind_Ok in H as (p2 & [] & _ & H). by apply IH in H.
Qed.

Lemma in_namespace_dotted root parts : in_namespace root (dotted root parts) = true.
Proof.
  assert (forall name, in_namespace root name = true -> in_namespace root (dotted name parts) = true) as H.
  { induction parts as [|part parts IH]; intros name Hn; simpl; [done|]. by apply IH, in_namespace_under. }
  apply H, in_namespace_root.
Qed.

Lemma leaves_import u root : polite u -> package_name (us_id u) = Ok root ->
  framed (leaves_others (us_id u)) (import_entry (us_id u) root (us_dir u) (us_entry u)).
Proof.
  intros [Hexec _] Hr. unfold import_entry. apply framed_bind; [apply _|by eapply leaves_register, in_namespace_root|]. intros _.
  apply framed_bind_Ok; [apply _|by eapply leaves_packages, in_namespace_root|]. intros p p' current ->%make_packages_name.
  pose proof (in_namespace_under root _ (List.last (without_suffix (us_entry u)) []) (in_namespace_dotted root (removelast (without_suffix (us_entry u))))).
  apply framed_bind; [apply _|frame_steps|]. intros _. apply framed_bind; [apply _|by eapply leaves_register|]. intros _.
  apply framed_bind; [apply _|by eapply Hexec|]. intros target. frame_steps.
Qed.

Lemma leaves_load u : polite u -> framed (leaves_others (us_id u)) (load_entry (us_id u) (us_dir u) (us_entry u)).
Proof.
  intros Hu. unfold load_entry. apply framed_bind; [apply _|by apply framed_modify|]. intros _.
  apply framed_bind; [apply _|frame_steps|]. intros _. apply framed_of_result; [apply _|]. intros root Hr.
  apply framed_bind; [apply _|frame_pure|]. intros known. apply framed_bind; [apply _|frame_steps|]. intros _.
  apply framed_try; [apply _|by apply leaves_import|]. intros x. apply framed_bind; [apply _|by apply leaves_unload|]. intros _. frame_pure.
Qed.

(** After a unit everything is as clean as before. *)
Lemma run_use_clean u p : polite u -> clean p -> clean (run_use u p).
Proof.
  intros Hu Hp other root Hr name Hn. unfold run_use, use_unit. pose proof (load_entry_leaves (us_id u) (us_dir u) (us_entry u) p) as Hl.
  pose proof (leaves_load u Hu p) as Hf. unfold mbind, EM_bind.
  destruct (load_entry (us_id u) (us_dir u) (us_entry u) p) as [q [l|x]]; simpl in *.
  - destruct Hu as [_ Hm]. specialize (Hm (lu_migrate l) q). unfold s_finally. destruct (us_migrate u (lu_migrate l) q) as [q' r].
    cbn [unload s_modify fst] in *. destruct (decide (other = us_id u)) as [->|Ho].
    + rewrite Hl in Hr. injection Hr as <-. by apply unload_vacant.
    + pose proof (leaves_unload (us_id u) (lu_root l) Hl q') as Hq. cbn [s_modify fst] in Hq.
      rewrite (Hq other root), (Hm other root), (Hf other root) by done. exact (Hp other root Hr name Hn).
  - destruct (decide (other = us_id u)) as [->|Ho]; [|rewrite (Hf other root) by done; exact (Hp other root Hr name Hn)].
    destruct Hl as [->|Hl]; [exact (Hp _ root Hr name Hn)|exact (Hl root Hr name Hn)].
Qed.

Lemma run_uses_clean us p : Forall polite us -> clean p -> clean (run_uses us p).
Proof. revert p. induction us as [|u us IH]; intros p; simpl; [done|]. intros [Hu Hus]%Forall_cons Hp. apply (IH (run_use u p)); [done|by apply run_use_clean]. Qed.
End process.
Arguments use _ : clear implicits.

(** What executing a module answers depends on its own namespace alone. *)
Definition self_contained {F} {IM : Importer F} (root : str) : Prop :=
  forall name file p q, (forall n, in_namespace root n = true -> sys_modules p !! n = sys_modules q !! n) ->
    dont_write_bytecode p = dont_write_bytecode q -> (exec_module name file p).2 = (exec_module name file q).2.

(** Then the import of a unit has one outcome in a process, whatever ran before: a run
    can take it as a function of the unit. *)
Lemma import_repeats {F} {IM : Importer F} us p mid dir entry root : Forall polite us -> clean p -> package_name mid = Ok root ->
  ends_with ".py" entry = true -> spec_found (entry_module root entry) (entry_file dir entry) = true -> self_contained root ->
  (load_entry mid dir entry (run_uses us p)).2 = (load_entry mid dir entry p).2.
Proof.
  intros Hus Hp Hname Hpy Hspec Hself. pose proof (run_uses_clean us p Hus Hp) as Hp1.
  rewrite !(load_entry_vacant mid dir entry root) by first [done|exact (Hp mid root Hname)|exact (Hp1 mid root Hname)].
  pose proof (Hself (entry_module root entry) (entry_file dir entry)
    (MkProcess (list_to_map (own_modules dir root entry) ∪ sys_modules (run_uses us p)) true)
    (MkProcess (list_to_map (own_modules dir root entry) ∪ sys_modules p) true)) as He.
  unfold import_outcome. destruct (exec_module _ _ _) as [q r], (exec_module _ _ _) as [q2 r2]. simpl in He.
  rewrite He; [|intros n Hn; cbn [sys_modules]; by rewrite !lookup_union, (Hp mid root Hname n Hn), (Hp1 mid root Hname n Hn)|done].
  destruct r2 as [[f|]|x]; [by destruct (deferred_function f)|done..].
Qed.

(** C21: units do not meet in the interpreter. However many units a process has run, with
    migrations that failed or raised and whatever their code imported outside the
    names of other units, the next unit's entry module is executed with exactly its
    own packages and itself registered under its namespace, no byte code is written,
    and the outcome of the import is that of executing the module; a migration that
    runs again in the same process imports everything anew. *)
Theorem units_load_isolated {F} {IM : Importer F} (us : list (use F)) (p : Process) mid dir entry root
    (Hpolite : Forall polite us) (Hclean : clean p) (Hname : package_name mid = Ok root) (Hpy : ends_with ".py" entry = true)
    (Hspec : spec_found (entry_module root entry) (entry_file dir entry) = true) :
  let p1 := run_uses us p in
  clean p1 /\
  load_entry mid dir entry p1 =
    import_outcome mid root (exec_module (entry_module root entry) (entry_file dir entry)
      (MkProcess (list_to_map (own_modules dir root entry) ∪ sys_modules p1) true)) /\
  forall name m, in_namespace root name = true ->
    (list_to_map (own_modules dir root entry) ∪ sys_modules p1) !! name = Some m <-> (name, m) ∈ own_modules dir root entry.
Proof.
  intros p1. assert (clean p1) as Hp1 by (by apply run_uses_clean). split_and!; [done|apply load_entry_vacant; [done..|exact (Hp1 mid root Hname)|done]|].
  intros name m Hn. rewrite lookup_union, (Hp1 mid root Hname name Hn), (right_id_L None _). symmetry.
  apply elem_of_list_to_map, own_modules_names.
Qed.

(** ** Two units whose names nest *)
Section demo.

#[local] Instance demo_importer : Importer unit := {
  spec_found _ _ := true;
  exec_module name _ := if bool_decide (name = ("_migr8_unit_6162.entry" : str)) then mret None else mret (Some tt);
  deferred_function _ := false;
}.

(** A migration that imports a helper of its own and fails. *)
Definition helping : use unit :=
  MkUse "a" ["run"; "a"] "sub/entry.py" (fun _ => register "_migr8_unit_61.helper" (Imported 1);; s_raise unicode_error).
Definition broken : use unit := MkUse "ab" ["run"; "ab"] "entry.py" (fun _ => mret tt).

Definition fresh_process : Process := MkProcess {[("sys" : str) := Imported 0]} false.

Lemma helping_polite : polite helping.
Proof.
  split; [intros root name file _ _; simpl; case_bool_decide; frame_pure|]. intros f. simpl. apply framed_bind; [apply _| |intros _; frame_pure].
  by eapply (leaves_register "a").
Qed.

Lemma broken_polite : polite broken.
Proof. split; [intros root name file _ _; simpl; case_bool_decide; frame_pure|]. intros f. simpl. frame_pure. Qed.

Lemma fresh_clean : clean fresh_process.
Proof.
  intros mid root (b & _ & -> & Hdot)%package_name_Ok name Hn. apply lookup_singleton_ne. intros <-.
  by apply in_namespace_head in Hn; [|done].
Qed.

(** The failed migration's helper is gone; the other unit is refused and leaves
    nothing; the first can be run again. *)
Example demo_processes :
  sys_modules (run_uses [helping; broken] fresh_process) = {[("sys" : str) := Imported 0]} /\
  (load_entry "ab" ["run"; "ab"] "entry.py" fresh_process).2 =
    Err (PyMigr8 (mk_id UnitError "the entry does not define a callable migrate(ctx)" "ab")) /\
  (load_entry "a" ["run"; "a"] "sub/entry.py" (run_uses [helping; broken] fresh_process)).2 = Ok (MkLoaded tt "_migr8_unit_61").
Proof. vm_compute. done. Qed.

Lemma units_load_isolated_witness :
  own_modules ["run"; "a"] "_migr8_unit_61" "sub/entry.py" =
    [("_migr8_unit_61" : str, Namespace ["run"; "a"]); ("_migr8_unit_61.sub" : str, Namespace ["run"; "a"; "sub"]);
     ("_migr8_unit_61.sub.entry" : str, Source "_migr8_unit_61.sub" ["run"; "a"; "sub"; "entry.py"])] /\
  clean (run_uses [helping; broken] fresh_process).
Proof.
  split; [vm_compute; reflexivity|].
  apply (units_load_isolated [helping; broken] fresh_process "a" ["run"; "a"] "sub/entry.py" "_migr8_unit_61");
    [constructor; [apply helping_polite|constructor; [apply broken_polite|constructor]]|apply fresh_clean|vm_compute; reflexivity..].
Defined.
End demo.
