(* ===== verification/Diagnostics.v ===== *)
(** * The run log ([diagnostics.py])

    [RunLog] over the clock, [json.dumps], the logger and the file it appends to;
    the facade's [log]. An event is one line; a log that cannot be written is
    abandoned. *)
From S2P Require Import Prelude PyStr Errors Paths Effects.
Open Scope str_scope.

(** What is Python's or the system's. [V] is the type of the values that a caller
    passes; [f"{value}"] and [json.dumps] may raise. *)
Class LogHost (H V : Type) := {
  lh_now : EM H str;                                  (* datetime.now(UTC).isoformat() *)
  lh_monotonic : EM H Z;
  lh_elapsed : Z -> Z -> V;                           (* round(now - started, 4) *)
  lh_value : str -> V;
  lh_text : V -> result pyexn str;                    (* f"{value}" *)
  lh_json : list (str * V) -> result pyexn str;
  lh_mkdir : path -> EM H unit;
  lh_open : path -> EM H unit;
  lh_write : str -> EM H unit;
  lh_close : EM H unit;
  lh_info : str -> H -> H;                            (* LOGGER.info, LOGGER.warning *)
  lh_warning : pyexn -> H -> H;
}.

(* @src diagnostics.py REDACTED_FIELDS *)
Definition REDACTED_FIELDS : list str := ["password"; "secret"; "dsn"; "credential"; "params"].

(** The log and the lines written so far. *)
(* @src diagnostics.py 43-49 RunLog *)
Record RunLog (H : Type) := MkRunLog {
  rl_run_id : str;
  rl_path : option path;
  rl_handle : bool;
  rl_started : Z;
  rl_lines : list str;
  rl_host : H;
}.
Arguments MkRunLog {_} _ _ _ _ _ _.
Arguments rl_run_id {_} _.
Arguments rl_path {_} _.
Arguments rl_handle {_} _.
Arguments rl_started {_} _.
Arguments rl_lines {_} _.
Arguments rl_host {_} _.

(** [{**base, **fields}]: a key that is there keeps its place and takes the new value. *)
Definition dict_set {V} (d : list (str * V)) (kv : str * V) : list (str * V) :=
  if bool_decide (kv.1 ∈ d.*1) then map (fun e => if bool_decide (e.1 = kv.1) then kv else e) d else d ++ [kv].
Definition dict_update {V} (base fields : list (str * V)) : list (str * V) := fold_left dict_set fields base.

(** The fields that are recorded. *)
Definition kept {V} (fields : list (str * V)) : list (str * V) :=
  List.filter (fun kv => negb (bool_decide (kv.1 ∈ REDACTED_FIELDS))) fields.

Section log.
Context {H V : Type} {LH : LogHost H V}.

Definition set_host (h : H) (s : RunLog H) : RunLog H :=
  MkRunLog (rl_run_id s) (rl_path s) (rl_handle s) (rl_started s) (rl_lines s) h.
Definition set_handle (b : bool) (s : RunLog H) : RunLog H :=
  MkRunLog (rl_run_id s) (rl_path s) b (rl_started s) (rl_lines s) (rl_host s).
Definition add_line (line : str) (s : RunLog H) : RunLog H :=
  MkRunLog (rl_run_id s) (rl_path s) (rl_handle s) (rl_started s) (rl_lines s ++ [line]) (rl_host s).

Definition host {A} (m : EM H A) : EM (RunLog H) A := fun s => let '(h, r) := m (rl_host s) in (set_host h s, r).

(* @src diagnostics.py RunLog.__post_init__ *)
Definition post_init : EM (RunLog H) unit :=
  p ← s_gets rl_path;
  match p with
  | None => mret tt
  | Some p => host (lh_mkdir (removelast p));; host (lh_open p);; s_modify (set_handle true)
  end.

(* @src diagnostics.py RunLog.elapsed *)
Definition elapsed : EM (RunLog H) V :=
  now ← host lh_monotonic; started ← s_gets rl_started; mret (lh_elapsed started now).

(** What an event records. *)
(* @src diagnostics.py 68-74 RunLog.event (payload) *)
Definition payload (ts run name : str) (elapsed : V) (fields : list (str * V)) : list (str * V) :=
  dict_update [("ts" : str, lh_value ts); ("run" : str, lh_value run); ("event" : str, lh_value name); ("elapsed" : str, elapsed)] (kept fields).

Definition show_pair (kv : str * V) : result pyexn str := text ← lh_text kv.2; Ok (kv.1 ++ "=" ++ text).

(* @src diagnostics.py _render *)
Definition render (d : list (str * V)) : result pyexn str :=
  parts ← map_result show_pair (List.filter (fun kv => negb (bool_decide (kv.1 = "ts" \/ kv.1 = "event"))) d);
  Ok (join " " parts).

Definition write_line (d : list (str * V)) : EM (RunLog H) unit :=
  text ← s_of_result (lh_json d);
  host (lh_write (text ++ [10%N]));;
  s_modify (add_line (text ++ [10%N])).

(* @src diagnostics.py RunLog.event *)
Definition event (name : str) (fields : list (str * V)) : EM (RunLog H) unit :=
  ts ← host lh_now; run ← s_gets rl_run_id; at_time ← elapsed;
  let d := payload ts run name at_time fields in
  rendered ← s_of_result (render d);
  host (fun h => (lh_info (name ++ " " ++ rendered) h, Ok tt));;
  handle ← s_gets rl_handle;
  s_when handle
    (s_try (write_line d)
       (fun x => if is_Exception x then host (fun h => (lh_warning x h, Ok tt));; s_modify (set_handle false) else s_raise x)).

(* @src diagnostics.py RunLog.close *)
Definition close : EM (RunLog H) unit :=
  handle ← s_gets rl_handle;
  s_when handle (s_finally (host lh_close) (s_modify (set_handle false))).

(** A keyword that the call already has. *)
Definition keyword_error : pyexn := PyException (builtin_exn "builtins.TypeError").

(* @src context.py _BaseContext.log *)
Definition context_log (mid : str) (attempt : V) (message : V) (fields : list (str * V)) : EM (RunLog H) unit :=
  s_when (existsb (fun kv => bool_decide (kv.1 ∈ (["self"; "message"; "name"; "migration"; "attempt"] : list str))) fields) (s_raise keyword_error);;
  event "migration_log" ([("migration" : str, lh_value mid); ("attempt" : str, attempt); ("message" : str, message)] ++ fields).

(** Events one after the other, as long as none raises. *)
Fixpoint events (es : list (str * list (str * V))) : EM (RunLog H) unit :=
  match es with [] => mret tt | e :: es => event e.1 e.2;; events es end.
End log.

(** [--log-file], else the environment; [expanduser] is the system's. *)
(* @src diagnostics.py default_log_path *)
Definition default_log_path (expanduser : str -> path) (explicit from_env : option str) : option path :=
  match explicit with
  | Some p => Some (expanduser p)
  | None => match from_env with Some ((_ :: _) as p) => Some (expanduser p) | _ => None end
  end.

(** ** Dictionaries *)
Lemma dict_set_keys {V} (d : list (str * V)) kv : (dict_set d kv).*1 = if bool_decide (kv.1 ∈ d.*1) then d.*1 else d.*1 ++ [kv.1].
Proof.
  unfold dict_set. case_bool_decide; [|by rewrite fmap_app]. rewrite <-list_fmap_compose. apply list_fmap_ext.
  intros i [k v] _. simpl. by case_bool_decide; [subst|].
Qed.

Lemma dict_update_keys {V} (base fields : list (str * V)) k : k ∈ (dict_update base fields).*1 <-> k ∈ base.*1 \/ k ∈ fields.*1.
Proof.
  unfold dict_update. revert base. induction fields as [|kv fields IH]; intros base; csimpl.
  - split; [by left|by intros [?|[]%elem_of_nil]].
  - rewrite IH, dict_set_keys, elem_of_cons. case_bool_decide; [naive_solver|]. rewrite elem_of_app, list_elem_of_singleton. naive_solver.
Qed.

Lemma kept_allowed {V} (fields : list (str * V)) k v : (k, v) ∈ kept fields <-> (k, v) ∈ fields /\ k ∉ REDACTED_FIELDS.
Proof. unfold kept. rewrite list_elem_of_In, filter_In, <-list_elem_of_In, negb_true_iff, bool_decide_eq_false. done. Qed.

(** ** The log of a sequence of events *)
Section theorems.
Context {H V : Type} {LH : LogHost H V}.

Lemma payload_redacted ts run name t (fields : list (str * V)) : Forall (fun k => k ∉ REDACTED_FIELDS) (payload ts run name t fields).*1.
Proof.
  apply Forall_forall. intros k [Hk|Hk]%dict_update_keys.
  - apply list_elem_of_In in Hk. simpl in Hk. unfold REDACTED_FIELDS. destruct_or! Hk; subst; try done; by eapply bool_decide_eq_false_1.
  - apply list_elem_of_fmap in Hk as ([k' v] & -> & [_ Hin]%kept_allowed). done.
Qed.

(** The line of an event: the JSON of what it records, with a line feed. *)
Definition recorded (run : str) (e : str * list (str * V)) (line : str) : Prop :=
  exists ts t text, let d := payload ts run e.1 t e.2 in
    lh_json d = Ok text /\ line = text ++ [10%N] /\ Forall (fun k => k ∉ REDACTED_FIELDS) d.*1.

(** Calls of the system leave the log as it is. *)
Definition steady (s s' : RunLog H) : Prop :=
  rl_run_id s' = rl_run_id s /\ rl_handle s' = rl_handle s /\ rl_lines s' = rl_lines s.

#[local] Instance steady_preorder : PreOrder steady.
Proof. split; [by intros s|]. intros s1 s2 s3 (? & ? & ?) (? & ? & ?). unfold steady. split_and!; congruence. Qed.

Lemma host_steady {A} (m : EM H A) (s s' : RunLog H) r : host m s = (s', r) -> steady s s'.
Proof. unfold host. destruct (m (rl_host s)). by intros [= <- _]. Qed.

Lemma write_line_cases d (s s' : RunLog H) r : write_line d s = (s', r) ->
  (exists text s1, lh_json d = Ok text /\ r = Ok tt /\ steady s s1 /\ s' = add_line (text ++ [10%N]) s1) \/
  (exists x, r = Err x /\ steady s s').
Proof.
  unfold write_line, mbind, EM_bind, s_of_result. destruct (lh_json d) as [text|x]; [|intros [= <- <-]; right; by exists x].
  destruct (host (lh_write _) s) as [s1 [[]|x]] eqn:E; apply host_steady in E; intros [= <- <-].
  - left. by exists text, s1.
  - right. by exists x.
Qed.

(** What one event does: at most one line; without one the log is or gets closed, or
    the event raises. *)
Definition logged (e : str * list (str * V)) (s s' : RunLog H) (r : result pyexn unit) : Prop :=
  rl_run_id s' = rl_run_id s /\ (rl_handle s = false -> rl_handle s' = false) /\
  ((rl_lines s' = rl_lines s /\ (r = Ok tt -> rl_handle s' = false)) \/
   (r = Ok tt /\ rl_handle s = true /\ exists line, recorded (rl_run_id s) e line /\ rl_lines s' = rl_lines s ++ [line])).

Lemma logged_error e s s' x : steady s s' -> logged e s s' (Err x).
Proof. intros (H1 & H2 & H3). unfold logged. rewrite H1, H2, H3. split_and!; [done..|by left]. Qed.

Lemma event_cases e (s s' : RunLog H) r : event e.1 e.2 s = (s', r) -> logged e s s' r.
Proof.
  unfold event, elapsed. cbv [mbind EM_bind s_gets s_of_result mret EM_ret].
  destruct (host lh_now s) as [s1 [ts|x]] eqn:E1; apply host_steady in E1; [|intros [= <- <-]; by apply logged_error].
  destruct (host lh_monotonic s1) as [s2 [now|x]] eqn:E2; apply host_steady in E2; pose proof (transitivity E1 E2) as S2;
    [|intros [= <- <-]; by apply logged_error].
  destruct (render _) as [text|x]; [|intros [= <- <-]; by apply logged_error].
  destruct (host _ s2) as [s3 [[]|x]] eqn:E3; apply host_steady in E3; pose proof (transitivity S2 E3) as S3;
    [|intros [= <- <-]; by apply logged_error].
  destruct S3 as (R3 & H3 & L3). unfold s_when, logged. destruct (rl_handle s3) eqn:Hh.
  2:{ intros [= <- <-]. rewrite R3, Hh, L3. split_and!; [done..|by left]. }
  unfold s_try. destruct (write_line _ s3) as [s4 r4] eqn:E4.
  apply write_line_cases in E4 as [(line & s5 & Hj & -> & (R5 & H5 & L5) & ->)|(x & -> & R4 & H4 & L4)].
  - intros [= <- <-]. simpl. rewrite R5, R3, L5, L3, <-H3. split_and!; [done..|]. right. split_and!; [done..|]. exists (line ++ [10%N]).
    split; [|done]. exists ts, (lh_elapsed (rl_started s2) now), line. destruct E1 as [<- _]. split_and!; [done..|]. apply payload_redacted.
  - destruct (is_Exception x).
    + destruct (host _ s4) as [s5 [[]|y]] eqn:E5; apply host_steady in E5 as (R5 & H5 & L5); intros [= <- <-]; simpl.
      * rewrite R5, R4, R3, L5, L4, L3. split_and!; [done..|by left].
      * rewrite R5, R4, R3, L5, L4, L3, <-H3. split_and!; [done..|by left].
    + intros [= <- <-]. rewrite R4, R3, L4, L3, <-H3. split_and!; [done..|by left].
Qed.

Lemma events_lines es (s s' : RunLog H) r : events es s = (s', r) ->
  exists lines, rl_lines s' = rl_lines s ++ lines /\ Forall2 (recorded (rl_run_id s)) (take (length lines) es) lines /\
    (rl_handle s = false -> lines = [] /\ rl_handle s' = false) /\
    (r = Ok tt -> rl_handle s' = true -> length lines = length es).
Proof.
  revert s. induction es as [|e es IH]; intros s; cbn [events].
  - intros [= <- <-]. exists []. rewrite app_nil_r. auto.
  - unfold mbind, EM_bind. destruct (event e.1 e.2 s) as [s1 r1] eqn:E.
    apply event_cases in E as (Hrun & Hoff & [[Hl Hno]|(-> & Hon & line & Hrec & Hl)]).
    + destruct r1 as [[]|x].
      * intros Hes. destruct (IH s1 Hes) as (lines & Hlines & Hall & Hoff1 & Hlen). destruct (Hoff1 (Hno eq_refl)) as [-> Hoff'].
        exists []. rewrite Hl in Hlines. split_and!; [done|constructor|by auto|]. intros _ Ht. by rewrite Hoff' in Ht.
      * intros [= <- <-]. exists []. rewrite app_nil_r. split_and!; [done|constructor|auto|done].
    + intros Hes. destruct (IH s1 Hes) as (lines & Hlines & Hall & Hoff1 & Hlen). exists (line :: lines).
      rewrite Hl, <-(assoc_L (++)) in Hlines. rewrite Hrun in Hall. split_and!; [done|by constructor|by rewrite Hon|].
      intros Hr Ht. simpl. by rewrite Hlen.
Qed.

(** The clock answers, and every value can be printed. *)
Definition clock_answers : Prop := (forall h, is_ok (lh_now h).2 = true) /\ forall h, is_ok (lh_monotonic h).2 = true.
Definition printable : Prop := forall v, is_ok (lh_text v) = true.

Lemma render_printable d : printable -> is_ok (render d) = true.
Proof.
  intros Hp. unfold render. generalize (List.filter (fun kv => negb (bool_decide (kv.1 = "ts" \/ kv.1 = "event"))) d : list (str * V)). intros l.
  assert (exists parts, map_result show_pair l = Ok parts) as [parts ->]; [|done].
  induction l as [|[k v] l [parts IH]]; [by exists []|]. cbn [map_result]. rewrite IH. unfold show_pair. specialize (Hp v).
  simpl. destruct (lh_text v) as [text|]; [by eexists|done].
Qed.

(** Then an event never raises an exception, whatever the file does. *)
Lemma event_quiet e (s s' : RunLog H) x : clock_answers -> printable -> event e.1 e.2 s = (s', Err x) -> is_Exception x = false.
Proof.
  intros [Hnow Hmono] Hp. unfold event, elapsed, host. cbv [mbind EM_bind s_gets s_of_result mret EM_ret].
  specialize (Hnow (rl_host s)). destruct (lh_now (rl_host s)) as [h1 [ts|]]; [|done].
  specialize (Hmono (rl_host (set_host h1 s))). destruct (lh_monotonic _) as [h2 [now|]]; [|done].
  match goal with |- context [render ?d] => pose proof (render_printable d Hp) as Hr; destruct (render d) as [text|]; [|done] end.
  unfold s_when. destruct (rl_handle _); [|done]. unfold s_try. destruct (write_line _ _) as [s4 [[]|y]]; [done|].
  destruct (is_Exception y) eqn:Hy; [done|]. by intros [= _ <-].
Qed.

Lemma events_quiet es (s s' : RunLog H) x : clock_answers -> printable -> events es s = (s', Err x) -> is_Exception x = false.
Proof.
  intros Hc Hp. revert s. induction es as [|e es IH]; intros s; cbn [events]; [done|]. unfold mbind, EM_bind.
  destruct (event e.1 e.2 s) as [s1 [[]|y]] eqn:E; [apply IH|]. intros [= _ <-]. by eapply event_quiet.
Qed.
End theorems.

(** C22: the run log is a prefix of the events. Whatever the file, the clock and
    [json.dumps] do, a sequence of events appends one whole line for each of its
    first events, in order, and after the first that cannot be written nothing more;
    no line's record has a field of a redacted name; and where the clock answers and
    values can be printed, no event raises, so a log that fails changes nothing. *)
Theorem run_log_prefix {H V} {LH : LogHost H V} es (s s' : RunLog H) r (Hes : events es s = (s', r)) :
  (exists lines, rl_lines s' = rl_lines s ++ lines /\ Forall2 (recorded (rl_run_id s)) (take (length lines) es) lines /\
     (rl_handle s = false -> lines = []) /\ (r = Ok tt -> rl_handle s' = true -> length lines = length es)) /\
  (clock_answers -> printable -> forall x, r = Err x -> is_Exception x = false).
Proof.
  split; [|by intros Hc Hp x ->; eapply events_quiet].
  destruct (events_lines es s s' r Hes) as (lines & Hl & Hall & Hoff & Hlen). exists lines. split_and!; [done..|intros Hh; by destruct (Hoff Hh)|done].
Qed.

(** ** A disk that fills up *)
Section demo.

(** The host counts the lines that still fit; a value is a text, or an object that
    cannot be printed. *)
#[local] Instance demo_host : LogHost nat (option str) := {
  lh_now h := (h, Ok ("now" : str));
  lh_monotonic h := (h, Ok 5%Z);
  lh_elapsed _ _ := Some ("0.0" : str);
  lh_value s := Some s;
  lh_text v := match v with Some t => Ok t | None => Err keyword_error end;
  lh_json d := Ok (join "," (map (fun kv => kv.1 ++ ":" ++ default [] kv.2) d));
  lh_mkdir _ h := (h, Ok tt);
  lh_open _ h := (h, Ok tt);
  lh_write _ h := match h with O => (O, Err (PyException (builtin_exn "builtins.OSError"))) | S h => (h, Ok tt) end;
  lh_close h := (h, Ok tt);
  lh_info _ h := h;
  lh_warning _ h := h;
}.

Definition demo_log (fits : nat) : RunLog nat := (post_init (MkRunLog "r1" (Some ["logs"; "run.jsonl"]) false 0 [] fits)).1.
Definition demo_events : list (str * list (str * option str)) :=
  [("start" : str, [("password" : str, Some ("secret" : str)); ("user" : str, Some ("app" : str))]); ("lock" : str, []); ("end" : str, [])].

Definition line (text : str) : str := text ++ [10%N].

(** The password is not in the line; the second event does not fit, and the third is
    not tried. *)
Lemma run_log_prefix_witness :
  let out := events demo_events (demo_log 1) in
  out.2 = Ok tt /\ rl_handle out.1 = false /\
  rl_lines out.1 = [line "ts:now,run:r1,event:start,elapsed:0.0,user:app"] /\
  exists lines, rl_lines out.1 = rl_lines (demo_log 1) ++ lines /\ Forall2 (recorded "r1") (take (length lines) demo_events) lines.
Proof.
  split_and!; [vm_compute; reflexivity..|].
  destruct (run_log_prefix demo_events (demo_log 1) (events demo_events (demo_log 1)).1 (events demo_events (demo_log 1)).2) as [(lines & Hl & Hall & _) _].
  { by destruct (events demo_events (demo_log 1)). }
  exists lines. split; [exact Hl|exact Hall].
Defined.

(** A value that cannot be printed raises out of the event, log file or not; and a
    caller's field takes the place of the run's own. *)
Lemma event_prints_fields :
  (event "note" [("value" : str, None)] (MkRunLog "r1" None false 0 [] 3)).2 = Err keyword_error /\
  rl_lines (event "note" [("run" : str, Some ("other" : str))] (demo_log 3)).1 = [line "ts:now,run:other,event:note,elapsed:0.0"].
Proof. split; vm_compute; reflexivity. Qed.
End demo.
