(* ===== verification/Hooks.v ===== *)
(** * Test hooks ([testing/hooks.py])

    The registry of callbacks at the engine's boundaries: inert unless a test
    registers one in the process, or the environment has the exact token and names
    a module. *)
From S2P Require Import Prelude PyStr Errors Effects.
Open Scope str_scope.

(* @src testing/hooks.py ENABLE_TOKEN *)
Definition ENABLE_TOKEN : str := "migr8-test-harness-not-a-deployment".

(** The registry, of the process, with the world [W] around it. *)
Record Registry (CB W : Type) := MkRegistry {
  hk_callbacks : list CB;
  hk_module_loaded : bool;
  hk_world : W;
}.
Arguments MkRegistry {_ _} _ _ _.
Arguments hk_callbacks {_ _} _.
Arguments hk_module_loaded {_ _} _.
Arguments hk_world {_ _} _.

(** The environment, the import of a module and the callbacks themselves, which may
    register others, change the world or raise. *)
Class HookHost (CB W : Type) := {
  hk_enable : option str;                     (* MIGR8_TEST_HOOKS_ENABLE *)
  hk_module : option str;                     (* MIGR8_TEST_HOOKS_MODULE *)
  hk_import : str -> EM (Registry CB W) unit;
  hk_call : CB -> str -> str -> EM (Registry CB W) unit;
}.

Section hooks.
Context {CB W : Type} {HH : HookHost CB W}.

(* @src testing/hooks.py register *)
Definition register (callback : CB) : EM (Registry CB W) unit :=
  s_modify (fun s => MkRegistry (hk_callbacks s ++ [callback]) (hk_module_loaded s) (hk_world s)).

(* @src testing/hooks.py clear *)
Definition clear : EM (Registry CB W) unit := s_modify (fun s => MkRegistry [] (hk_module_loaded s) (hk_world s)).

(** The module to import, if the environment enables it. *)
Definition enabled_module : option str :=
  if bool_decide (hk_enable (CB := CB) (W := W) = Some ENABLE_TOKEN) then truthy (hk_module (CB := CB) (W := W)) else None.

(* @src testing/hooks.py _ensure_module_loaded *)
Definition ensure_module_loaded : EM (Registry CB W) unit :=
  loaded ← s_gets hk_module_loaded;
  if (loaded : bool) then mret tt
  else
    s_modify (fun s => MkRegistry (hk_callbacks s) true (hk_world s));;
    match enabled_module with None => mret tt | Some name => hk_import name end.

(* @src testing/hooks.py fire *)
Definition fire (boundary phase : str) : EM (Registry CB W) unit :=
  ensure_module_loaded;;
  callbacks ← s_gets hk_callbacks;
  s_map (fun callback => hk_call callback boundary phase) callbacks;;
  mret tt.

(** Nothing registered, and nothing that would register. *)
Definition inert (s : Registry CB W) : Prop := hk_callbacks s = [] /\ (hk_module_loaded s = true \/ enabled_module = None).

(** In a deployment a boundary does nothing. *)
Lemma fire_inert boundary phase s : inert s ->
  fire boundary phase s = (MkRegistry [] true (hk_world s), Ok tt) /\ inert (fire boundary phase s).1.
Proof.
  intros [Hc Hl]. destruct s as [cbs loaded w]. simpl in *. subst cbs.
  assert (fire boundary phase (MkRegistry [] loaded w) = (MkRegistry [] true w, Ok tt)) as ->.
  { unfold fire, ensure_module_loaded. cbv [mbind EM_bind s_gets]. simpl. destruct loaded; [done|].
    destruct Hl as [|Hl]; [done|]. by rewrite Hl. }
  split; [done|]. split; [done|by left].
Qed.

(** The module is imported once, however the import ended. *)
Lemma ensure_once s : hk_module_loaded s = true -> ensure_module_loaded s = (s, Ok tt).
Proof. intros H. unfold ensure_module_loaded. cbv [mbind EM_bind s_gets]. by rewrite H. Qed.

(** A callback sees the others that were registered when the boundary was reached,
    in the order of registration, until one raises. *)
Lemma fire_calls boundary phase s : hk_module_loaded s = true ->
  fire boundary phase s = (s_map (fun callback => hk_call callback boundary phase) (hk_callbacks s);; mret tt) s.
Proof. intros H. unfold fire, mbind at 1, EM_bind at 1. by rewrite (ensure_once s H). Qed.
End hooks.
