(* ===== verification/Replay.v ===== *)
(** * What holds throughout a run's calls

    A session's invariant that every call keeps, the session at a point of a run's
    log, and a lock that is held from its acquisition to the end. *)
From S2P Require Import Prelude PyStr Text Errors Latch Paths Manifest Model Fingerprint StateValidate SqlText Admission Metadata Checks World.
From S2P Require Import Adapter Context Engine Safety Frame Triple Protocol Order Outcome.
Open Scope str_scope.

(** What every call of the driver preserves, a run preserves. *)
Lemma run_invariant {S : Type} {DR : Driver S} {UC : Unicode} {I : Interpreter} {D : Dialect} {H : Host} {L : Loader} {DF : Deferred}
    b capture recover_id (E : S -> Prop) (HE : forall o s, E s -> E (drv_step o s).1) (s : S) runner :
  E s -> E (w_driver (run b capture recover_id (initial_world s runner)).1).
Proof.
  intros Hs.
  assert (stable everything (on_driver E)) as Hst.
  { split; [|done..]. intros o w _ Hw. unfold on_driver, raw. specialize (HE o (w_driver w) Hw).
    by destruct (drv_step o (w_driver w)). }
  apply (triple_run b capture recover_id E) with (P := E) (P1 := E); [by apply (stable_weaken everything)|..|done].
  - apply triple_last; [|done]. unfold open_run. apply keeps_bind; [by intros v Hv|intros _].
    apply keeps_bind; [keeps|intros _]. exact (keeps_raw everything _ RConnect Hst eq_refl).
  - intros w Hw. rewrite connected_run_parts. revert w Hw.
    apply triple_last; [|done]. apply keeps_bind; [by apply (keeps_prepare_run b recover_id _ everything); [|done|intros ns w Hw]|intros _].
    apply keeps_bind; [by apply keeps_plan_run|intros plan]. unfold execute_plan. apply keeps_for_each. intros u _.
    unfold run_unit. apply keeps_bind; [|by intros _ w Hw]. apply keeps_run_mode; [done|]. by intros ws w Hw.
Qed.

(** ** Replaying a log *)
Section replay.
Context {S : Type} {DR : Driver S}.

(** The session after the calls of a log, the latest first. *)
Definition after_log (s : S) (log : list event) : S := fold_right (fun e s => (drv_step (ev_op e) s).1) s log.

(** Every answer in the log is the driver's. *)
Fixpoint faithful (s : S) (log : list event) : Prop :=
  match log with
  | [] => True
  | Event o r :: pre => (drv_step o (after_log s pre)).2 = r /\ faithful s pre
  end.

Definition replayed (s0 : S) (s : S * list event) : Prop := s.1 = after_log s0 s.2 /\ faithful s0 s.2.

Lemma replayed_step s0 o (s : S * list event) : replayed s0 s -> replayed s0 (drv_step o s).1.
Proof.
  intros [Hs Hf]. unfold drv_step, logged. destruct (drv_step o s.1) as [s' r] eqn:E. simpl.
  unfold replayed. simpl. rewrite <-Hs, E. done.
Qed.
End replay.

Lemma run_replayed {S : Type} {DR : Driver S} {UC : Unicode} {I : Interpreter} {D : Dialect} {H : Host} {L : Loader} {DF : Deferred}
    b capture recover_id (s : S) runner : faithful s (run_log b capture recover_id s runner).
Proof.
  pose proof (run_invariant b capture recover_id (replayed s) (replayed_step s) (s, []) runner (conj eq_refl Logic.I)) as [_ Hf].
  exact Hf.
Qed.

(** ** A lock *)
(** Calls that open or end the session, or take the lock. *)
Definition session_op (o : rawop) : bool :=
  match o with RConnect | RAcquireLock | RClose | RDiscard => true | _ => false end.

Definition takes_lock (e : event) : Prop := match e with Event RAcquireLock (Ok _) => True | _ => False end.
Definition connects (e : event) : Prop := match e with Event RConnect (Ok _) => True | _ => False end.

Lemma advance_session capture ph e ph' : advance capture ph e = Some ph' -> has_lock ph' = true ->
  (takes_lock e /\ ph = Connected) \/ (has_lock ph = true /\ session_op (ev_op e) = false).
Proof.
  intros Ha Hl. destruct (advance_lock _ _ _ _ Ha Hl) as [Hp| ->].
  - right. split; [done|]. destruct e as [o r]. destruct o; try done; simplify_eq/=; try done; by destruct ph.
  - left. split; [done|]. by destruct ph.
Qed.

Lemma advance_connected capture ph e : advance capture ph e = Some Connected ->
  connects e \/ (ph = Connected /\ session_op (ev_op e) = false).
Proof.
  destruct e as [o r]. destruct ph; destruct o; simpl; try done; unfold to; repeat case_match; try done; intros _.
  all: first [by left; destruct r|by right].
Qed.

Lemma each_after_impl (P Q : list event -> event -> Prop) log :
  (forall pre e, P pre e -> Q pre e) -> each_after P log -> each_after Q log.
Proof. intros HPQ. induction log as [|e log IH]; simpl; [done|]. intros [? ?]. auto. Qed.

(** What connecting and then taking the lock establish, and every call keeps that
    neither begins nor ends the session and is [allowed], holds wherever a run needs
    the lock. *)
Section locked.
Context {S : Type} {DR : Driver S} (ready holds : S -> Prop) (allowed : rawop -> Prop).
Context (Hconnect : forall s s', drv_step RConnect s = (s', Ok tt) -> ready s').
Context (Hready : forall o s, session_op o = false -> allowed o -> ready s -> ready (drv_step o s).1).
Context (Htake : forall s s', ready s -> drv_step RAcquireLock s = (s', Ok tt) -> holds s').
Context (Hkeep : forall o s, session_op o = false -> allowed o -> holds s -> holds (drv_step o s).1).

Lemma phase_holds capture s log ph : phase_of capture log = Some ph -> faithful s log ->
  Forall (fun e => allowed (ev_op e)) log ->
  (ph = Connected -> ready (after_log s log)) /\ (has_lock ph = true -> holds (after_log s log)).
Proof.
  revert ph. induction log as [|e log IH]; intros ph'; simpl; [by intros [= <-]|].
  destruct (phase_of capture log) as [ph|] eqn:Hph; [|done]. simpl. intros Ha Hf [Hok Hall]%Forall_cons. destruct e as [o r].
  destruct Hf as [Hr Hf]. destruct (IH ph eq_refl Hf Hall) as [Hc Hl]. split.
  - intros ->. destruct (advance_connected _ _ _ Ha) as [He|[-> Ho]]; [|by apply Hready; auto].
    destruct o; try done. destruct r as [[]|x]; [|done]. simpl.
    destruct (drv_step RConnect (after_log s log)) as [s' r] eqn:E. simpl in *. subst r. by apply Hconnect in E.
  - intros Hl'. destruct (advance_session _ _ _ _ Ha Hl') as [[He ->]|[Hl0 Ho]]; [|by apply Hkeep; auto].
    destruct o; try done. destruct r as [[]|x]; [|done]. simpl.
    destruct (drv_step RAcquireLock (after_log s log)) as [s' r] eqn:E. simpl in *. subst r. apply Htake in E; auto.
Qed.

Lemma run_locked {UC : Unicode} {I : Interpreter} {D : Dialect} {H : Host} {L : Loader} {DF : Deferred}
    b capture recover_id (s : S) runner :
  each_after (fun pre e => needs_lock (ev_op e) = true -> Forall (fun e => allowed (ev_op e)) pre -> holds (after_log s pre))
    (run_log b capture recover_id s runner).
Proof.
  destruct (run_accepted b capture recover_id s runner) as (ph & Hph & _).
  pose proof (run_replayed b capture recover_id s runner) as Hf. revert ph Hph Hf.
  unfold run_log. generalize (w_driver (run (DR := logged) b capture recover_id (initial_world (s, []) runner)).1).2.
  induction l as [|e log IH]; intros ph'; simpl; [done|].
  destruct (phase_of capture log) as [ph|] eqn:Hph; [|done]. simpl. intros Ha Hf. destruct e as [o r]. destruct Hf as [_ Hf].
  split; [|by apply (IH ph)]. intros Hn Hall. apply (phase_holds capture s log ph); [done..|]. by apply (advance_needs _ _ _ _ Ha).
Qed.
End locked.
