(* ===== verification/SqliteLib.v ===== *)
(** * What the SQLite adapter calls

    The sqlite3 module, the file and lock calls of the operating system and the
    clock, as one interface, and the state of the adapter's methods over it: the
    library's together with the adapter's own fields. *)
From S2P Require Import Prelude PyStr Text Errors Paths Manifest Model SqlText Admission World Statements.
From S2P Require Export Effects Dbapi.
Open Scope str_scope.

Record cursor := MkCursor {
  cur_rows : list (list pyval);   (* fetchall() *)
  cur_rowcount : Z;
}.

(** One call. A cursor's rows are fetched at once: the adapter does nothing
    between [execute] and [fetchall], and handles both in the same way. *)
Inductive libop :=
| LMkdir (p : path)                          (* mkdir(parents=True, exist_ok=True) *)
| LConnect (p : path) (timeout_ms : Z)       (* sqlite3.connect(isolation_level=None, legacy transaction control) *)
| LInTransaction                             (* Connection.in_transaction *)
| LExecute (sql : str) (params : sql_params)
| LExecuteMany (sql : str) (sets : list sql_params)
| LClose                                     (* Connection.close() *)
| LOpen (p : path)                           (* os.open(O_RDWR | O_CREAT, 0o644) *)
| LFlock (fd : Z)                            (* flock(LOCK_EX | LOCK_NB) *)
| LUnlock (fd : Z)                           (* flock(LOCK_UN) *)
| LCloseFd (fd : Z)
| LMonotonic                                 (* time.monotonic(), in nanoseconds *)
| LSleep (ns : Z)
| LGetpid
| LHook (b : Boundary) (phase : str).        (* a hook installed by a test *)

Definition lib_reply (o : libop) : Type :=
  match o with
  | LInTransaction => bool
  | LExecute _ _ | LExecuteMany _ _ => cursor
  | LOpen _ | LMonotonic | LGetpid => Z
  | _ => unit
  end.

Class Library (L : Type) := lib_step : forall o : libop, L -> L * result pyexn (lib_reply o).

(** The adapter's own fields: the connection object (there is one or there is
    none), the descriptor of the lock file while the lock is held, the epoch. *)
(* @src adapters/sqlite.py 362-364 SqliteAdapter.__init__ (state) *)
Record Session (L : Type) := MkSession {
  ss_lib : L;
  ss_conn : bool;
  ss_lock_fd : option Z;
  ss_txn_epoch : Z;
}.
Arguments MkSession {_} _ _ _ _.
Arguments ss_lib {_} _.
Arguments ss_conn {_} _.
Arguments ss_lock_fd {_} _.
Arguments ss_txn_epoch {_} _.

(** ** The monad *)
Abbreviation SM L := (EM (Session L)).

Section operations.
Context {L : Type} {LB : Library L}.

Definition set_lib (l : L) (s : Session L) : Session L := MkSession l (ss_conn s) (ss_lock_fd s) (ss_txn_epoch s).
Definition set_conn (b : bool) (s : Session L) : Session L := MkSession (ss_lib s) b (ss_lock_fd s) (ss_txn_epoch s).
Definition set_lock_fd (fd : option Z) (s : Session L) : Session L := MkSession (ss_lib s) (ss_conn s) fd (ss_txn_epoch s).
Definition next_epoch (s : Session L) : Session L := MkSession (ss_lib s) (ss_conn s) (ss_lock_fd s) (ss_txn_epoch s + 1).

(** One call of the library. *)
Definition lib (o : libop) : SM L (lib_reply o) := fun s =>
  let '(l, r) := lib_step o (ss_lib s) in (set_lib l s, r).
End operations.
