(* ===== verification/Sqlite.v ===== *)
(** * The SQLite adapter ([adapters/sqlite.py])

    [SqliteAdapter], method by method: its configuration, the connection and its
    settings, the lock file, transactions and their epoch, the engine's statements,
    the inspection of the metadata objects and the snapshot. Together they answer
    every [rawop], so the adapter is a [Driver]. *)
From S2P Require Import Prelude PyStr Text Errors Latch Paths Manifest Model SqlText Admission Metadata World Statements.
From S2P Require Import Config SqliteText SqliteLib.
Open Scope str_scope.

(** ** Configuration *)
(* @src adapters/sqlite.py LOCK_SUFFIX *)
Definition LOCK_SUFFIX : str := ".m8lock".
(* @src adapters/sqlite.py SUPPORTED_JOURNAL_MODES *)
Definition SUPPORTED_JOURNAL_MODES : list str := ["wal"; "delete"].
(* @src adapters/sqlite.py SYNCHRONOUS_LEVELS *)
Definition SYNCHRONOUS_LEVELS : list (str * Z) := [("full", 2%Z); ("extra", 3%Z)].
Definition SQLITE_OPTIONS : list str := ["busy_timeout_ms"; "journal_mode"; "synchronous"].

(** The fields that [__init__] sets for good. *)
Record SqliteConf := MkSqliteConf {
  sc_path : path;
  sc_lock_path : path;
  sc_busy_timeout_ms : Z;
  sc_journal_mode : str;
  sc_synchronous : str;
  sc_timeout_seconds : Z;           (* config.lock.timeout_seconds *)
}.

(** [path.with_name(path.name + suffix)]; the root has no name. *)
Definition add_suffix (p : path) (suffix : str) : result pyexn path :=
  match last p with
  | Some name => Ok (take (length p - 1) p ++ [name ++ suffix])
  | None => Err value_error
  end.

Section init.
Context {PR : PyRuntime}.
Context (windows : bool) (resolve : path -> path) (float_int : result pyexn Z).

(** [str(value).lower()], as far as it can be one of the accepted words: only a
    string can. *)
Definition toml_word (v : toml) : str := match v with TStr s => lower_str s | _ => [] end.

(* @src adapters/sqlite.py SqliteAdapter.__init__ *)
Definition sqlite_init (c : Config) : result pyexn SqliteConf :=
  database ← match cf_database_path c with
             | Some p => Ok p
             | None => Err (PyMigr8 (cerr "the sqlite adapter requires database.path"))
             end;
  raise_if windows (PyMigr8 (mk UnsupportedCapabilityError "the file lock profile does not support Windows"));;
  let p := resolve database in
  lock_path ← add_suffix p LOCK_SUFFIX;
  let options := default [] (snd <$> find (fun kv => bool_decide (kv.1 = "sqlite")) (cf_options c)) in
  raise_if (unknown_keys SQLITE_OPTIONS options) (PyMigr8 (cerr "[sqlite] has unknown keys"));;
  busy ← toml_int float_int (default (TInt 5000) (table_get "busy_timeout_ms" options));
  let journal := toml_word (default (TStr "wal") (table_get "journal_mode" options)) in
  raise_if (negb (mem journal SUPPORTED_JOURNAL_MODES)) (PyMigr8 (cerr "sqlite.journal_mode must be wal or delete"));;
  let synchronous := toml_word (default (TStr "full") (table_get "synchronous" options)) in
  raise_if (negb (mem synchronous SYNCHRONOUS_LEVELS.*1)) (PyMigr8 (cerr "sqlite.synchronous must be full or extra"));;
  Ok (MkSqliteConf p lock_path busy journal synchronous (lk_timeout_seconds (cf_lock c))).
End init.

(** ** Constants of the platform and of the modules *)
Definition os_error : str := "builtins.OSError".
Definition database_error : str := "sqlite3.DatabaseError".
Definition EACCES : Z := 13.
Definition EAGAIN : Z := 11.

(** [exc.errno in (errno.EACCES, errno.EAGAIN)]; [d_number] is the error number. *)
Definition would_block (d : driver_exn) : bool := (d_number d =? EACCES)%Z || (d_number d =? EAGAIN)%Z.

Section sqlite.
Context {L : Type} {LB : Library L} {PR : PyRuntime} {UC : Unicode}.
Context (C : SqliteConf).

#[local] Existing Instance sqlite_spelling.

(** ** The session *)
(* @src adapters/sqlite.py SqliteAdapter._db *)
Definition db : SM L unit :=
  connected ← s_gets ss_conn;
  s_when (negb connected) (s_raise_error (usage "the sqlite session is not connected")).

(** [self._db.execute(sql, params)]. *)
Definition db_execute (sql : str) (params : sql_params) : SM L cursor := db;; lib (LExecute sql params).

Definition db_in_transaction : SM L bool := db;; lib LInTransaction.

(** The first column of the first row, [None] without a row. *)
Definition first_value (c : cursor) : result pyexn pyval :=
  match cur_rows c with [] => Ok VNone | row :: _ => cell row 0 end.

(* @src adapters/sqlite.py SqliteAdapter._set_and_verify *)
Definition set_and_verify (pragma value : str) (expected : Z) : SM L unit :=
  db_execute ("PRAGMA " ++ pragma ++ " = " ++ value) NoParams;;
  c ← db_execute ("PRAGMA " ++ pragma) NoParams;
  actual ← s_of_result (first_value c);
  s_when (negb (bool_decide (actual = VInt expected)))
    (s_raise_error (mk UnsupportedCapabilityError "a PRAGMA reads back otherwise than it was set")).

Definition synchronous_level : Z :=
  default 0%Z (snd <$> find (fun kv => bool_decide (kv.1 = sc_synchronous C)) SYNCHRONOUS_LEVELS).

(** [except sqlite3.DatabaseError]. *)
(* @src adapters/sqlite.py 492-497 SqliteAdapter._establish_settings (except) *)
Definition settings_failure (x : pyexn) : SM L unit :=
  match x with
  | PyException d =>
      if instance_of database_error d then
        if sqlite_is_contention d then s_raise_error (setup_error (D := sqlite_dialect) d)
        else s_raise_error (mk MetadataDamagedError "the schema cannot be read")
      else s_raise x
  | _ => s_raise x
  end.

(* @src adapters/sqlite.py SqliteAdapter._establish_settings *)
Definition establish_settings : SM L unit :=
  s_try
    (set_and_verify "foreign_keys" "ON" 1;;
     set_and_verify "ignore_check_constraints" "OFF" 0;;
     set_and_verify "synchronous" (sc_synchronous C) synchronous_level)
    settings_failure.

(* @src adapters/sqlite.py SqliteAdapter.release_lock *)
Definition release_lock : SM L unit :=
  fd ← s_gets ss_lock_fd;
  match fd with
  | None => mret tt
  | Some fd => s_finally (lib (LUnlock fd)) (lib (LCloseFd fd);; s_modify (set_lock_fd None))
  end.

(** [with contextlib.suppress(sqlite3.Error)]. *)
Definition suppress_sqlite (m : SM L unit) : SM L unit :=
  s_try m (fun x => match x with
                    | PyException d => if instance_of sqlite_error d then mret tt else s_raise x
                    | _ => s_raise x
                    end).

(* @src adapters/sqlite.py SqliteAdapter.discard *)
Definition discard : SM L unit :=
  connected ← s_gets ss_conn;
  s_when connected (suppress_sqlite (lib LClose);; s_modify (set_conn false));;
  release_lock.

(** [except C as exc: raise UsageError(...)]. *)
Definition as_usage_error {A} (cls label : str) (m : SM L A) : SM L A :=
  s_try m (fun x => match x with
                    | PyException d => if instance_of cls d then s_raise_error (usage label) else s_raise x
                    | _ => s_raise x
                    end).

(* @src adapters/sqlite.py SqliteAdapter.connect *)
Definition connect : SM L unit :=
  as_usage_error os_error "the directory for database.path cannot be used"
    (lib (LMkdir (take (length (sc_path C) - 1) (sc_path C))));;
  as_usage_error sqlite_error "the database cannot be opened"
    (lib (LConnect (sc_path C) (sc_busy_timeout_ms C));; s_modify (set_conn true));;
  s_try
    (db_execute ("PRAGMA busy_timeout = " ++ dec_Z (sc_busy_timeout_ms C)) NoParams;; establish_settings)
    (fun x => discard;; s_raise x).

(* @src adapters/sqlite.py SqliteAdapter.prepare_storage *)
Definition prepare_storage : SM L unit :=
  db;;
  c ← s_try (db_execute ("PRAGMA journal_mode = " ++ sc_journal_mode C) NoParams)
        (fun x => match x with
                  | PyException d =>
                      if instance_of sqlite_error d
                      then s_raise_error (mk UnsupportedCapabilityError "the journal mode could not be established")
                      else s_raise x
                  | _ => s_raise x
                  end);
  effective ← s_of_result (match cur_rows c with
                           | [] => Ok None
                           | row :: _ => v ← cell row 0; Ok (Some (lower_str (py_str v)))
                           end);
  s_when (negb (bool_decide (effective = Some (sc_journal_mode C))))
    (s_raise_error (mk UnsupportedCapabilityError "the database is in another journal mode")).

(* @src adapters/sqlite.py SqliteAdapter.close *)
Definition close : SM L unit :=
  connected ← s_gets ss_conn;
  s_when connected
    (open ← lib LInTransaction;
     s_when open (lib (LExecute "ROLLBACK" NoParams);; mret tt);;
     lib LClose;;
     s_modify (set_conn false));;
  release_lock.

(** ** The lock file *)
Definition POLL_NS : Z := 50000000.      (* 0.05 s *)
Definition NS : Z := 1000000000.

(** The polling loop; every round without an answer sleeps. *)
(* @src adapters/sqlite.py 565-581 SqliteAdapter.acquire_lock (loop) *)
Fixpoint poll_lock (fuel : nat) (fd deadline : Z) : SM L unit :=
  match fuel with
  | O => s_raise out_of_fuel
  | S fuel =>
      s_try (lib (LFlock fd);; s_modify (set_lock_fd (Some fd)))
        (fun x => match x with
                  | PyException d =>
                      if instance_of os_error d then
                        if negb (would_block d) then
                          lib (LCloseFd fd);; s_raise_error (usage "cannot lock the lock file")
                        else
                          now ← lib LMonotonic;
                          if (deadline <=? now)%Z then
                            lib (LCloseFd fd);;
                            s_raise_error (mk LockNotAcquiredError "another runner holds the namespace lock")
                          else lib (LSleep POLL_NS);; poll_lock fuel fd deadline
                      else s_raise x
                  | _ => s_raise x
                  end)
  end.

(** Enough rounds for a clock that advances by what was slept. *)
Definition poll_fuel : nat := Z.to_nat (sc_timeout_seconds C * (NS `div` POLL_NS)) + 2.

(* @src adapters/sqlite.py SqliteAdapter.acquire_lock *)
Definition acquire_lock : SM L unit :=
  fd ← lib (LOpen (sc_lock_path C));
  now ← lib LMonotonic;
  poll_lock poll_fuel fd (now + sc_timeout_seconds C * NS).

(** ** Transactions *)
(* @src adapters/sqlite.py SqliteAdapter._do_begin *)
Definition do_begin : SM L unit := db_execute "BEGIN IMMEDIATE" NoParams;; s_modify next_epoch.

(** [sqlite_commit_error] is the [except] clause. *)
(* @src adapters/sqlite.py SqliteAdapter._do_commit *)
Definition do_commit : SM L unit :=
  was_open ← db_in_transaction;
  s_try (db_execute "COMMIT" NoParams;; mret tt)
    (fun x => match x with
              | PyException d => s_raise (PyException (sqlite_commit_error was_open d))
              | _ => s_raise x
              end);;
  s_modify next_epoch.

(* @src adapters/sqlite.py SqliteAdapter._do_rollback *)
Definition do_rollback : SM L unit :=
  open ← db_in_transaction;
  s_when open (db_execute "ROLLBACK" NoParams;; s_modify next_epoch).

(* @src adapters/sqlite.py SqliteAdapter.batch_transaction_state *)
Definition do_batch_state : SM L BatchTransactionState :=
  connected ← s_gets ss_conn;
  if negb connected then mret BT_ENDED
  else open ← lib LInTransaction; mret (if (open : bool) then BT_OPEN else BT_ROLLED_BACK).

Definition identity_of (epoch : Z) : str := "sqlite-txn:" ++ dec_Z epoch.

(* @src adapters/sqlite.py SqliteAdapter._establish_transaction_identity *)
Definition do_establish_identity : SM L (option str) :=
  open ← db_in_transaction;
  s_when (negb open) (s_raise_error (usage "no transaction is open when establishing the transaction identity"));;
  epoch ← s_gets ss_txn_epoch;
  mret (Some (identity_of epoch)).

(* @src adapters/sqlite.py SqliteAdapter._read_transaction_identity *)
Definition do_read_identity : SM L (option str) :=
  open ← db_in_transaction;
  epoch ← s_gets ss_txn_epoch;
  mret (if (open : bool) then Some (identity_of epoch) else None).

(** ** Statements *)
(* @src adapters/sqlite.py SqliteAdapter._metadata_execute *)
Definition metadata_execute (sql : str) (params : bindings_list) : SM L Z :=
  c ← db_execute sql (Named params); mret (Z.max (cur_rowcount c) 0).

(* @src adapters/sqlite.py SqliteAdapter._metadata_query *)
Definition metadata_query (sql : str) (params : bindings_list) : SM L (list (list pyval)) :=
  c ← db_execute sql (Named params); mret (cur_rows c).

(** [_render] and [_binds], then the call. *)
Definition run_command (c : metadata_cmd) : SM L Z :=
  params ← s_of_result (binds (cmd_sql c) (cmd_params c));
  metadata_execute (render (cmd_sql c)) params.

Definition run_query (sql : str) (params : bindings_list) : SM L (list (list pyval)) :=
  params ← s_of_result (binds sql params);
  metadata_query (render sql) params.

Definition count_rows (table : str) : SM L Z :=
  rows ← run_query (count_sql table) []; s_of_result (first_int rows).

Definition marker_rows : SM L (list (list pyval)) := run_query read_meta_sql [("meta_key", VStr META_SINGLETON_KEY)].

Definition progress_values (mid key : str) : SM L (list str) :=
  rows ← run_query progress_get_sql [("migration_id", VStr mid); ("prog_key", VStr key)];
  match rows with
  | [] => mret []
  | row :: _ => v ← s_of_result (cell row 0); mret [py_str v]
  end.

(* @src adapters/sqlite.py SqliteAdapter._run *)
Definition run_statement (text : str) (params : pyval) : SM L cursor := db_execute text (bind_params (Positional []) params).

(* @src adapters/sqlite.py 912-912 SqliteAdapter.executemany (call) *)
Definition run_many (text : str) (sets : list pyval) : SM L Z :=
  db;; c ← lib (LExecuteMany text (map (bind_params (Positional [])) sets)); mret (cur_rowcount c).

(** [self._db.execute(_DDL[name])]. *)
(* @src adapters/sqlite.py 837-837 SqliteAdapter._create_metadata_object (execute) *)
Definition create_object (name : str) : SM L unit :=
  db;;
  sql ← s_of_result (match ddl_of name with Some sql => Ok sql | None => Err key_error end);
  db_execute sql NoParams;; mret tt.

(** The marker as the snapshot reads it: its guarded queries are plain here, their
    failure being judged by the guard around the snapshot. *)
Definition snapshot_meta : SM L (option MetaRow) :=
  count_rows META_TABLE;;
  rows ← marker_rows;
  match rows with
  | [] => mret None
  | row :: _ => m ← s_of_result (meta_row row); mret (Some m)
  end.

(** Whether a read transaction was opened for the snapshot. *)
(* @src adapters/sqlite.py 843-846 SqliteAdapter._read_snapshot (begin) *)
Definition open_snapshot (consistent : bool) : SM L bool :=
  if consistent then
    open ← lib LInTransaction;
    if (open : bool) then mret false
    else lib (LExecute "BEGIN DEFERRED" NoParams);; s_modify next_epoch;; mret true
  else mret false.

(* @src adapters/sqlite.py 848-862 SqliteAdapter._read_snapshot (rows) *)
Definition snapshot_rows : SM L (list HistoryRow * list ProgressRow * option MetaRow) :=
  h ← lib (LExecute select_history_sql NoParams);
  history ← s_of_result (map_result history_row (cur_rows h));
  p ← lib (LExecute select_progress_sql NoParams);
  progress ← s_of_result (map_result progress_row (cur_rows p));
  meta ← snapshot_meta;
  mret (history, progress, meta).

(* @src adapters/sqlite.py SqliteAdapter._read_snapshot *)
Definition do_read_snapshot (consistent : bool) : SM L Snapshot :=
  db;;
  opened ← open_snapshot consistent;
  '(history, progress, meta) ←
    s_finally snapshot_rows (s_when opened (lib (LExecute "COMMIT" NoParams);; s_modify next_epoch));
  mret (MkSnapshot history progress meta).
End sqlite.

(** ** What a method that returns has done *)
Section returned.
Context {L : Type} {LB : Library L}.

Lemma db_connected (s s' : Session L) : db s = (s', Ok tt) -> s' = s /\ ss_conn s = true.
Proof. unfold db, s_when, s_gets, mbind, EM_bind. destruct (ss_conn s); [by intros [= <-]|done]. Qed.

Lemma db_execute_inv sql params (s s' : Session L) c : db_execute sql params s = (s', Ok c) ->
  ss_conn s = true /\ ss_conn s' = true /\ lib_step (LExecute sql params) (ss_lib s) = (ss_lib s', Ok c).
Proof.
  unfold db_execute, mbind, EM_bind. destruct (db s) as [s0 [[]|x]] eqn:E; [|done]. apply db_connected in E as [-> Hc].
  unfold lib. destruct (lib_step _ (ss_lib s)) as [l r]. by intros [= <- ->].
Qed.

End returned.
