(* ===== verification/SqliteInspect.v ===== *)
(** * The inspection of SQLite's metadata objects ([adapters/sqlite.py])

    What exists, and every way an existing object differs from the supported
    layout, as [SqliteAdapter] asks sqlite_master and the PRAGMAs; then the adapter
    as a [Driver]. *)
From S2P Require Import Prelude PyStr Text Errors Latch Paths Manifest Model SqlText Admission Metadata World Statements.
From S2P Require Import Config SqliteText SqliteLib Sqlite.
Open Scope str_scope.

Definition attribute_error : pyexn := PyException (builtin_exn "builtins.AttributeError").

(** [",".join(values)]. *)
Definition join_values (l : list pyval) : result pyexn str := parts ← map_result py_text l; Ok (join "," parts).

(** A column of a row that is compared as a number. *)
Definition cell_int (row : list pyval) (i : nat) : result pyexn Z :=
  v ← cell row i; match v with VInt z => Ok z | _ => Err type_error end.

(** [sorted(rows, key=...)] by a numeric key. *)
Definition sort_rows {A} (l : list (Z * A)) : list A := (sort_by (fun p q => (p.1 <=? q.1)%Z) l).*2.

Section inspect.
Context {L : Type} {LB : Library L} {PR : PyRuntime} {UC : Unicode}.

#[local] Existing Instance sqlite_spelling.

Definition pragma (name argument : str) : SM L (list (list pyval)) :=
  c ← db_execute ("PRAGMA " ++ name ++ "(" ++ argument ++ ")") NoParams; mret (cur_rows c).

Definition OBJECTS_SQL : str := "SELECT name FROM sqlite_master WHERE type IN ('table','index') AND name IN (?,?,?,?)".

(* @src adapters/sqlite.py SqliteAdapter._objects_present *)
Definition objects_present : SM L (list str) :=
  c ← db_execute OBJECTS_SQL (Positional (map VStr [HISTORY_TABLE; PROGRESS_TABLE; META_TABLE; ACTIVE_INDEX]));
  names ← s_of_result (map_result (fun row => v ← cell row 0; py_text v) (cur_rows c));
  mret (remove_dups names).

Definition STORED_SQL : str := "SELECT type, tbl_name, sql FROM sqlite_master WHERE name = ?".

(* @src adapters/sqlite.py SqliteAdapter._stored_definition *)
Definition stored_definition (name : str) : SM L (pyval * pyval * str) :=
  c ← db_execute STORED_SQL (Positional [VStr name]);
  s_of_result
    match cur_rows c with
    | [] => Ok (VStr [], VStr [], [])
    | row :: _ =>
        kind ← cell row 0; owner ← cell row 1; text ← cell row 2;
        sql ← (if py_truth text then py_text text else Ok []);
        Ok (kind, owner, sql)
    end.

(** [(row[1], row[2].upper(), row[3])]. *)
Definition column_of (row : list pyval) : result pyexn (pyval * str * pyval) :=
  name ← cell row 1;
  declared ← cell row 2;
  declared ← (match declared with VStr s => Ok (upper s) | _ => Err attribute_error end);
  notnull ← cell row 3;
  Ok (name, declared, notnull).

Definition as_read (c : column) : pyval * str * pyval := (VStr c.1.1, c.1.2, VInt c.2).

(* @src adapters/sqlite.py SqliteAdapter._column_problems *)
Definition column_problems (table : str) : SM L (list str) :=
  info ← pragma "table_info" table;
  actual ← s_of_result (map_result column_of info);
  mret (if bool_decide (Some actual = (map as_read <$> EXPECTED_COLUMNS table)) then []
        else [table ++ " column layout does not match the supported layout"]).

(* @src adapters/sqlite.py SqliteAdapter._index_columns *)
Definition index_columns (index : str) : SM L (list pyval) :=
  info ← pragma "index_info" index; s_of_result (map_result (fun row => cell row 2) info).

(** The primary key, in key order. *)
(* @src adapters/sqlite.py 665-665 SqliteAdapter._key_problems (primary) *)
Definition primary_key (info : list (list pyval)) : result pyexn str :=
  keyed ← map_result (fun row => n ← cell_int row 5; Ok (n, row)) info;
  names ← map_result (fun row => cell row 1) (sort_rows (List.filter (fun p => negb (p.1 =? 0)%Z) keyed));
  join_values names.

(** One row of [index_list]: the columns of a UNIQUE constraint. *)
(* @src adapters/sqlite.py 667-671 SqliteAdapter._key_problems (unique) *)
Definition unique_key (row : list pyval) : SM L (list str) :=
  match row with
  | [_; index; is_unique; origin; _] =>
      if bool_decide (origin = VStr "u") && py_truth is_unique then
        name ← s_of_result (py_text index);
        columns ← index_columns name;
        key ← s_of_result (join_values columns);
        mret [key]
      else mret []
  | _ => s_raise value_error
  end.

(** A foreign key as it is read: its id, target and the two lists of columns. *)
Record reference := MkReference {
  rf_id : Z;
  rf_target : pyval;
  rf_columns : list pyval;
  rf_targets : list pyval;
}.

(** [references.setdefault(row[0], (target, [], []))], then the two appends. *)
Fixpoint add_reference (id : Z) (target source_column target_column : pyval) (l : list reference) : list reference :=
  match l with
  | [] => [MkReference id target [source_column] [target_column]]
  | r :: l =>
      if (rf_id r =? id)%Z
      then MkReference id (rf_target r) (rf_columns r ++ [source_column]) (rf_targets r ++ [target_column]) :: l
      else r :: add_reference id target source_column target_column l
  end.

(* @src adapters/sqlite.py 675-682 SqliteAdapter._key_problems (references) *)
Definition read_reference (l : list reference) (row : list pyval) : result pyexn (list reference) :=
  id ← cell_int row 0; target ← cell row 2; source_column ← cell row 3; target_column ← cell row 4;
  Ok (add_reference id target source_column target_column l).

(** [sorted(rows, key=lambda row: (row[0], row[1]))]. *)
Definition sort_references (rows : list (list pyval)) : result pyexn (list (list pyval)) :=
  keyed ← map_result (fun row => i ← cell_int row 0; j ← cell_int row 1; Ok (i, j, row)) rows;
  Ok (sort_by (fun p q => let '(i, j, _) := p in let '(k, l, _) := q in (i <? k)%Z || ((i =? k)%Z && (j <=? l)%Z)) keyed).*2.

(* @src adapters/sqlite.py 683-686 SqliteAdapter._key_problems (foreign) *)
Definition foreign_key (r : reference) : result pyexn (str * (pyval * str)) :=
  columns ← join_values (rf_columns r); targets ← join_values (rf_targets r); Ok (columns, (rf_target r, targets)).

(** What is wrong with one expected key. *)
(* @src adapters/sqlite.py 688-707 SqliteAdapter._key_problems (comparison) *)
Definition key_problem (table primary : str) (unique : list str) (foreign : list (str * (pyval * str))) (k : ExpectedKey) : list str :=
  match k with
  | KeyPrimary columns =>
      if bool_decide (primary = columns) then []
      else match primary with
           | [] => [table ++ " has no primary key"]
           | _ => [table ++ " primary key is another one"]
           end
  | KeyUnique columns => if mem columns unique then [] else [table ++ " is missing a unique key"]
  | KeyForeign columns target targets =>
      if existsb (fun f => bool_decide (f = (columns, (VStr target, targets)))) foreign then []
      else [table ++ " is missing a foreign key"]
  end.

(* @src adapters/sqlite.py SqliteAdapter._key_problems *)
Definition key_problems (table : str) : SM L (list str) :=
  info ← pragma "table_info" table;
  primary ← s_of_result (primary_key info);
  indexes ← pragma "index_list" table;
  unique ← s_map unique_key indexes;
  rows ← pragma "foreign_key_list" table;
  rows ← s_of_result (sort_references rows);
  references ← s_of_result (fold_result read_reference [] rows);
  foreign ← s_of_result (map_result foreign_key references);
  mret (concat (map (key_problem table primary (concat unique) foreign) (EXPECTED_KEYS table))).

Definition allowed_indexes (table : str) : list str := if bool_decide (table = HISTORY_TABLE) then [ACTIVE_INDEX] else [].

Definition is_added (table : str) (row : list pyval) : result pyexn bool :=
  origin ← cell row 3;
  if bool_decide (origin = VStr "c") then
    name ← cell row 1; Ok (negb (existsb (fun a => bool_decide (name = VStr a)) (allowed_indexes table)))
  else Ok false.

(* @src adapters/sqlite.py SqliteAdapter._added_index_problems *)
Definition added_index_problems (table : str) : SM L (list str) :=
  indexes ← pragma "index_list" table;
  added ← s_of_result (map_result (is_added table) indexes);
  mret (if existsb id added then [table ++ " carries indexes the supported layout does not define"] else []).

(* @src adapters/sqlite.py SqliteAdapter._table_problems *)
Definition table_problems (table : str) (kind : pyval) (sql : str) : SM L (list str) :=
  if negb (bool_decide (kind = VStr "table")) then mret [table ++ " is not a table"]
  else
    columns ← column_problems table;
    keys ← key_problems table;
    added ← (let checks := check_constraint_problems table sql in added ← added_index_problems table; mret (checks ++ added));
    mret (columns ++ keys ++ added).

(** The row of [index_list] with this name. *)
Fixpoint find_index (name : str) (rows : list (list pyval)) : result pyexn (option (list pyval)) :=
  match rows with
  | [] => Ok None
  | row :: rows => v ← cell row 1; if bool_decide (v = VStr name) then Ok (Some row) else find_index name rows
  end.

(* @src adapters/sqlite.py SqliteAdapter._index_problems *)
Definition index_problems (name : str) (kind owner : pyval) (sql : str) : SM L (list str) :=
  if negb (bool_decide (kind = VStr "index")) then mret [name ++ " is not an index"]
  else if negb (bool_decide (owner = VStr HISTORY_TABLE)) then mret [name ++ " is an index on another table"]
  else
    indexes ← pragma "index_list" HISTORY_TABLE;
    entry ← s_of_result (find_index name indexes);
    match entry with
    | None => mret [name ++ " is not listed among the indexes"]
    | Some row =>
        is_unique ← s_of_result (cell row 2);
        columns ← index_columns name;
        mret ((if py_truth is_unique then [] else [name ++ " is not UNIQUE"]) ++
              (if bool_decide (columns = [VStr ACTIVE_INDEX_COLUMN]) then [] else [name ++ " is keyed on other columns"]) ++
              predicate_problems name sql)
    end.

(** One object of the layout: the closing comparison runs where nothing else was
    found. *)
(* @src adapters/sqlite.py 628-636 SqliteAdapter._definition_problems (loop body) *)
Definition object_problems (name : str) : SM L (list str) :=
  '(kind, owner, sql) ← stored_definition name;
  found ← (match EXPECTED_COLUMNS name with
           | Some _ => table_problems name kind sql
           | None => index_problems name kind owner sql
           end);
  mret (if bool_decide (found = []) then definition_differences name sql else found).

(* @src adapters/sqlite.py SqliteAdapter._definition_problems *)
Definition definition_problems (present : list str) : SM L (list str) :=
  problems ← s_map object_problems (List.filter (fun name => mem name present) CREATION_ORDER);
  mret (concat problems).
End inspect.

(** ** The adapter as a driver *)

(** Texts for the operator that need the library's version. *)
Class Versions := server_banner : str.

Section driver.
Context {L : Type} {LB : Library L} {PR : PyRuntime} {UC : Unicode} {V : Versions}.
Context (C : SqliteConf).

(* @src adapters/sqlite.py SqliteAdapter.session_identity *)
Definition session_identity : SM L (option str) := pid ← lib LGetpid; mret (Some ("pid=" ++ dec_Z pid)).

(** Every raw operation as the method that performs it. *)
Definition sqlite_driver : Driver (Session L) := fun o =>
  match o return SM L (reply o) with
  | RConnect => connect C
  | RAcquireLock => acquire_lock C
  | RPrepareStorage => prepare_storage C
  | RClose => close
  | RDiscard => discard
  | RConnectionHeld => s_gets ss_conn
  | RServerDescription => mret server_banner
  | RSessionIdentity => session_identity
  | RObjectsPresent => objects_present
  | RDefinitionProblems present => definition_problems present
  | RCreateObject name => create_object name
  | RCount table => count_rows table
  | RReadMarker => rows ← marker_rows; mret (map meta_row rows)
  | RReadSnapshot consistent => do_read_snapshot consistent
  | RMetadata c => run_command c
  | RProgressGet mid key => progress_values mid key
  | RBegin => do_begin
  | RCommit => do_commit
  | RRollback => do_rollback
  | RHasOpen => db_in_transaction
  | RBatchState => do_batch_state
  | REstablishIdentity => do_establish_identity
  | RReadIdentity => do_read_identity
  | RExecute text params => c ← run_statement text params; mret (cur_rowcount c)
  | RExecuteMany text sets => run_many text sets
  | RQuery text params => c ← run_statement text params; mret (cur_rows c)
  | RCheckRequired _ => mret (MkValidity ["the sqlite adapter cannot check required-object declarations"] [])
  | RProbeLiveness _ => mret ("unknown" : str, "the sqlite adapter provides no session-liveness diagnostic" : str)
  | RFire b phase => lib (LHook b phase)
  end.
End driver.
