(* ===== verification/SqliteRefines.v ===== *)
(** * The SQLite adapter keeps the session's contract

    [LibraryLaws] states what SQLite documents of the calls that the adapter makes:
    which texts commit, what the engine's statements do, what a query returns. From
    it alone the adapter satisfies [StorageLaws], so every theorem on runs holds of
    runs on SQLite. *)
From S2P Require Import Prelude PyStr Text Errors Latch Paths Manifest Model Fingerprint StateValidate SqlText Admission Metadata World.
From S2P Require Import Statements History Durable Contract Config SqliteText SqliteLib Sqlite SqliteInspect.
Open Scope str_scope.

(** ** Rows as values *)
Class TimestampText := iso : timestamp -> str.

(** A time column holds the text, or NULL. *)
#[export] Instance text_times {T : TimestampText} : TimeColumn := fun t => match t with Some t => VStr (iso t) | None => VNone end.

Lemma text_times_parsed {PR : PyRuntime} {T : TimestampText} (Hiso : forall t, from_iso (replace_all " " "T" (iso t)) = Some t) t :
  parse_iso_timestamp (val_time t) = Ok t.
Proof. destruct t as [t|]; [|done]. unfold parse_iso_timestamp, val_time, text_times, py_str. by rewrite Hiso. Qed.

(** ** What SQLite documents *)

(** Texts that end no transaction by committing: queries, PRAGMAs, the creation of
    a table, BEGIN and ROLLBACK. *)
Definition quiet_text (sql : str) : bool :=
  starts_with "SELECT " sql || starts_with "PRAGMA " sql || mem sql ["BEGIN IMMEDIATE"; "BEGIN DEFERRED"; "ROLLBACK"] ||
  mem sql DDL.*2.

(** The parameters of the facade's calls. *)
Definition author_params (p : sql_params) : bool := match p with Positional _ | Author _ => true | _ => false end.

(** The calls that are no statements. *)
Definition no_statement (o : libop) : bool := match o with LExecute _ _ | LExecuteMany _ _ => false | _ => true end.

#[local] Existing Instance sqlite_spelling.

(** Each law is on one call, whether it returns or raises:
    - outside of a transaction nothing is pending, and [in_transaction] tells;
    - a quiet text, and a call that is no statement, commits nothing;
    - the facade's statements leave the engine's tables alone but may end a
      transaction, and so may COMMIT, which commits when it returns;
    - an engine statement takes effect as its text says or not at all;
    - a query that returns gives the rows it asks for and changes nothing. *)
Class LibraryLaws (L : Type) {LB : Library L} {ST : Storage L} {PR : PyRuntime} {T : TimestampText} : Prop := {
  lib_autocommit (s : L) : in_txn s = false -> working s = durable s;
  lib_in_transaction (s : L) :
    let '(s', r) := lib_step LInTransaction s in
    durable s' = durable s /\ working s' = working s /\ forall b, r = Ok b -> b = in_txn s;
  lib_quiet sql params (s : L) : quiet_text sql = true -> commits_nothing s (lib_step (LExecute sql params) s).1;
  lib_no_statement o (s : L) : no_statement o = true -> commits_nothing s (lib_step o s).1;
  lib_hook b ph (s : L) : let s' := (lib_step (LHook b ph) s).1 in durable s' = durable s /\ working s' = working s;
  lib_author sql params (s : L) : author_params params = true -> may_commit s (lib_step (LExecute sql params) s).1;
  lib_author_many sql sets (s : L) : may_commit s (lib_step (LExecuteMany sql sets) s).1;
  lib_commit (s : L) :
    let '(s', r) := lib_step (LExecute "COMMIT" NoParams) s in
    may_commit s s' /\ (is_ok r = true -> durable s' = working s /\ working s' = working s);
  lib_begin sql (s s' : L) c : mem sql ["BEGIN IMMEDIATE"; "BEGIN DEFERRED"] = true ->
    lib_step (LExecute sql NoParams) s = (s', Ok c) -> in_txn s' = true;
  lib_command c params (s : L) : binds (cmd_sql c) (cmd_params c) = Ok params ->
    let '(s', r) := lib_step (LExecute (render (cmd_sql c)) (Named params)) s in
    executes c s s' (is_ok r);
  lib_history (s s' : L) c : lib_step (LExecute select_history_sql NoParams) s = (s', Ok c) ->
    working s' = working s /\ exists rows, rows ≡ₚ db_history (working s) /\ cur_rows c = map history_values rows;
  lib_progress (s s' : L) c : lib_step (LExecute select_progress_sql NoParams) s = (s', Ok c) ->
    working s' = working s /\ exists rows, rows ≡ₚ db_progress (working s) /\ cur_rows c = map progress_columns rows;
  lib_timestamps t : from_iso (replace_all " " "T" (iso t)) = Some t;
}.

#[export] Instance session_storage {L} {ST : Storage L} : Storage (Session L) := {
  durable s := durable (ss_lib s);
  working s := working (ss_lib s);
  in_txn s := in_txn (ss_lib s);
}.

(** ** Methods that commit nothing *)
Section quiet.
Context {L : Type} {LB : Library L} {ST : Storage L} {PR : PyRuntime} {T : TimestampText} {LL : LibraryLaws L} {UC : Unicode} {V : Versions}.
Context (C : SqliteConf).

Definition nothing_committed (s s' : Session L) : Prop := commits_nothing (ss_lib s) (ss_lib s').

#[export] Instance nothing_committed_preorder : PreOrder nothing_committed.
Proof. split; [intros s; apply commits_nothing_refl|intros s1 s2 s3; apply commits_nothing_trans]. Qed.

Lemma quiet_lib o : no_statement o = true -> framed nothing_committed (lib o).
Proof.
  intros Ho s. unfold nothing_committed, lib. pose proof (lib_no_statement o (ss_lib s) Ho) as H. by destruct (lib_step o (ss_lib s)).
Qed.

Lemma quiet_execute sql params : quiet_text sql = true -> framed nothing_committed (lib (LExecute sql params)).
Proof.
  intros Hq s. unfold nothing_committed, lib. pose proof (lib_quiet sql params (ss_lib s) Hq) as H. by destruct (lib_step _ (ss_lib s)).
Qed.

Lemma quiet_modify f : (forall s, ss_lib (f s) = ss_lib s) -> framed nothing_committed (s_modify f).
Proof. intros Hf. apply framed_modify. intros s. unfold nothing_committed. rewrite Hf. apply commits_nothing_refl. Qed.
End quiet.

Abbreviation quiet := (framed nothing_committed).

(** As [frame_steps], with the calls. *)
Ltac quiet_step :=
  match goal with
  | |- quiet (s_modify _) => apply quiet_modify; done
  | |- quiet (lib (LExecute ?sql ?ps)) => refine (quiet_execute sql ps _)
  | |- quiet (lib ?o) => exact (quiet_lib o eq_refl)
  | _ => frame_step
  end.
Ltac quiet_steps := repeat quiet_step.

Section methods.
Context {L : Type} {LB : Library L} {ST : Storage L} {PR : PyRuntime} {T : TimestampText} {LL : LibraryLaws L} {UC : Unicode} {V : Versions}.
Context (C : SqliteConf).

Lemma quiet_db : quiet db.
Proof.
  unfold db. quiet_steps.
Qed.

Lemma quiet_db_execute sql params : quiet_text sql = true -> quiet (db_execute sql params).
Proof. intros Hq. pose proof quiet_db. unfold db_execute. quiet_steps. done. Qed.

Lemma quiet_select sql : starts_with "SELECT " sql = true -> quiet_text sql = true.
Proof. intros Hs. unfold quiet_text. by rewrite Hs. Qed.

Lemma quiet_pragma_text s : quiet_text ("PRAGMA " ++ s) = true.
Proof. done. Qed.

Lemma quiet_ddl name sql : ddl_of name = Some sql -> quiet_text sql = true.
Proof.
  unfold ddl_of. destruct (find _ DDL) as [[n t]|] eqn:Hf; [|done]. intros [= <-].
  apply find_some in Hf as [Hin _]. unfold quiet_text. apply orb_true_iff. right. apply mem_true.
  apply list_elem_of_In in Hin. by apply (list_elem_of_fmap_2 snd) in Hin.
Qed.

Hint Resolve quiet_db quiet_db_execute quiet_pragma_text : methods.

Lemma quiet_release_lock : quiet release_lock.
Proof.
  unfold release_lock. quiet_steps.
Qed.

Hint Resolve quiet_release_lock : methods.

Lemma quiet_discard : quiet discard.
Proof. unfold discard, suppress_sqlite. quiet_steps. Qed.

Hint Resolve quiet_discard : methods.

Lemma quiet_set_and_verify p v e : quiet (set_and_verify p v e).
Proof. unfold set_and_verify. quiet_steps. Qed.

Hint Resolve quiet_set_and_verify : methods.

Lemma quiet_connect : quiet (connect C).
Proof. unfold connect, as_usage_error, establish_settings, settings_failure. quiet_steps. Qed.

Lemma quiet_prepare_storage : quiet (prepare_storage C).
Proof. unfold prepare_storage. quiet_steps. Qed.

Lemma quiet_close : quiet close.
Proof. unfold close. quiet_steps. done. Qed.

Lemma quiet_poll_lock fuel fd deadline : quiet (poll_lock fuel fd deadline).
Proof. induction fuel as [|fuel IH]; simpl; quiet_steps; done. Qed.

Hint Resolve quiet_poll_lock : methods.

Lemma quiet_acquire_lock : quiet (acquire_lock C).
Proof. unfold acquire_lock. quiet_steps. Qed.

Lemma quiet_run_query sql params : starts_with "SELECT " (render sql) = true -> quiet (run_query sql params).
Proof. intros Hs%quiet_select. unfold run_query, metadata_query. quiet_steps. Qed.

Lemma select_rendered rest : starts_with "SELECT " (render ("SELECT " ++ rest)) = true.
Proof.
  rewrite (render_literal "SELECT " rest); [done|]. apply Forall_forall. intros c Hc%list_elem_of_In. simpl in Hc.
  destruct_or! Hc; subst; done.
Qed.

Lemma quiet_count_rows table : quiet (count_rows table).
Proof. unfold count_rows. quiet_steps. apply quiet_run_query, select_rendered. Qed.

Lemma quiet_marker_rows : quiet marker_rows.
Proof. apply quiet_run_query, select_rendered. Qed.

Hint Resolve quiet_count_rows quiet_marker_rows : methods.

Lemma quiet_progress_values mid key : quiet (progress_values mid key).
Proof. unfold progress_values. quiet_steps. apply quiet_run_query, select_rendered. Qed.

Lemma quiet_create_object name : quiet (create_object name).
Proof.
  unfold create_object. apply framed_bind; [apply _|apply quiet_db|]. intros _. apply framed_of_result; [apply _|]. intros sql Hsql.
  destruct (ddl_of name) as [sql'|] eqn:Hd; simplify_eq. apply quiet_ddl in Hd. quiet_steps.
Qed.

Lemma quiet_pragma name argument : quiet (pragma name argument).
Proof. unfold pragma. quiet_steps. Qed.

Hint Resolve quiet_pragma : methods.

Lemma quiet_objects_present : quiet objects_present.
Proof. unfold objects_present. quiet_steps. Qed.

Lemma quiet_stored_definition name : quiet (stored_definition name).
Proof. unfold stored_definition. quiet_steps. Qed.

Lemma quiet_index_columns index : quiet (index_columns index).
Proof. unfold index_columns. quiet_steps. Qed.

Hint Resolve quiet_objects_present quiet_stored_definition quiet_index_columns : methods.

Lemma quiet_unique_key row : quiet (unique_key row).
Proof. unfold unique_key. quiet_steps. Qed.

Hint Resolve quiet_unique_key : methods.

Lemma quiet_object_problems name : quiet (object_problems name).
Proof.
  unfold object_problems, table_problems, column_problems, key_problems, added_index_problems, index_problems.
  quiet_steps.
Qed.

Hint Resolve quiet_object_problems : methods.

Lemma quiet_definition_problems present : quiet (definition_problems present).
Proof. unfold definition_problems. quiet_steps. Qed.

(** ** The snapshot

    The COMMIT that ends it commits nothing: it runs only where the adapter opened
    the transaction, and there was nothing pending before. *)
Lemma quiet_snapshot_rows : quiet snapshot_rows.
Proof. unfold snapshot_rows, snapshot_meta. quiet_steps; reflexivity. Qed.

Definition nothing_pending (s : Session L) : Prop := working (ss_lib s) = durable (ss_lib s).

Lemma lib_tell s :
  let '(s', r) := lib LInTransaction s in
  durable (ss_lib s') = durable (ss_lib s) /\ working (ss_lib s') = working (ss_lib s) /\
  forall b, r = Ok b -> b = in_txn (ss_lib s).
Proof. unfold lib. pose proof (lib_in_transaction (ss_lib s)) as H. by destruct (lib_step LInTransaction (ss_lib s)). Qed.

Lemma quiet_open_snapshot consistent : quiet (open_snapshot consistent).
Proof. unfold open_snapshot. quiet_steps. done. Qed.

Lemma open_snapshot_true consistent s s' : open_snapshot consistent s = (s', Ok true) -> nothing_pending s /\ nothing_pending s'.
Proof.
  intros Ho. assert (nothing_pending s) as Hs.
  { revert Ho. unfold open_snapshot. destruct consistent; [|done]. unfold mbind, EM_bind. pose proof (lib_tell s) as Ht.
    destruct (lib LInTransaction s) as [s1 [b|x]]; [|done]. destruct Ht as (_ & _ & Hb). specialize (Hb b eq_refl).
    destruct b; [done|]. intros _. symmetry in Hb. by apply lib_autocommit. }
  split; [done|]. pose proof (quiet_open_snapshot consistent s) as Hq. rewrite Ho in Hq. destruct Hq as [Hd Hw].
  unfold nothing_pending in *. simpl in *. rewrite Hd. destruct Hw; congruence.
Qed.

Lemma end_snapshot_quiet opened s : (opened = true -> nothing_pending s) ->
  commits_nothing (ss_lib s) (ss_lib (s_when opened (lib (LExecute "COMMIT" NoParams);; s_modify next_epoch) s).1).
Proof.
  destruct opened; intros Hs; [|apply commits_nothing_refl]. simpl. unfold mbind, EM_bind, lib.
  pose proof (lib_commit (ss_lib s)) as Hc. destruct (lib_step _ (ss_lib s)) as [l r].
  destruct Hc as [Hc%may_commit_nothing _]; [|by apply Hs]. by destruct r.
Qed.

Lemma quiet_read_snapshot consistent : quiet (do_read_snapshot consistent).
Proof.
  unfold do_read_snapshot. apply framed_bind; [apply _|apply quiet_db|]. intros _ s. unfold mbind at 1. unfold EM_bind at 1.
  pose proof (quiet_open_snapshot consistent s) as Ho. destruct (open_snapshot consistent s) as [s1 [opened|x]] eqn:Eo; [|done].
  eapply commits_nothing_trans; [exact Ho|]. unfold mbind, EM_bind, s_finally.
  pose proof (quiet_snapshot_rows s1) as Hr. destruct (snapshot_rows s1) as [s2 r]. simpl in Hr.
  pose proof (end_snapshot_quiet opened s2) as He. destruct (s_when opened _ s2) as [s3 r'].
  assert (commits_nothing (ss_lib s1) (ss_lib s3)) as H13.
  { eapply commits_nothing_trans; [exact Hr|]. apply He. intros ->. apply open_snapshot_true in Eo as [_ Hs1].
    unfold nothing_pending in *. destruct Hr as [Hd Hw]. rewrite Hd. destruct Hw; congruence. }
  destruct r' as [u|x], r as [[[h p] m]|x']; done.
Qed.
End methods.

(** ** The contract, law by law *)
Section laws.
Context {L : Type} {LB : Library L} {ST : Storage L} {PR : PyRuntime} {T : TimestampText} {LL : LibraryLaws L} {UC : Unicode} {V : Versions}.
Context (C : SqliteConf).

Lemma db_inv (s : Session L) s' r : db s = (s', r) -> s' = s.
Proof. unfold db, s_when. cbv [mbind EM_bind s_gets]. by destruct (ss_conn s); intros [= <- _]. Qed.

(** A method that starts with [self._db] does nothing without a connection. *)
Lemma after_db {A} (m : SM L A) (s : Session L) (P : Session L * result pyexn A -> Prop) :
  (forall x, P (s, Err x)) -> P (m s) -> P ((db;; m) s).
Proof.
  intros Herr Hm. unfold mbind, EM_bind. destruct (db s) as [s1 [u|x]] eqn:Hd; apply db_inv in Hd as ->; auto.
Qed.

Lemma open_snapshot_working b s s' opened :
  open_snapshot b s = (s', Ok opened) -> working (ss_lib s') = working (ss_lib s).
Proof.
  intros Ho. destruct opened.
  { pose proof (quiet_open_snapshot b s) as Hq. rewrite Ho in Hq. apply open_snapshot_true in Ho as [H1 H2].
    unfold nothing_pending in *. destruct Hq as [Hd _]. simpl in Hd. congruence. }
  revert Ho. unfold open_snapshot. destruct b; [|by intros [= <-]].
  unfold mbind, EM_bind. pose proof (lib_tell s) as Ht. destruct (lib LInTransaction s) as [s1 [[]|x]]; [|..|done].
  - intros [= <-]. apply Ht.
  - destruct (lib _ s1) as [s2 [?|?]]; done.
Qed.

Lemma snapshot_rows_read s s' h p m : snapshot_rows s = (s', Ok (h, p, m)) ->
  h ≡ₚ db_history (working (ss_lib s)) /\ p ≡ₚ db_progress (working (ss_lib s)).
Proof.
  unfold snapshot_rows, mbind, EM_bind, lib, s_of_result.
  destruct (lib_step (LExecute select_history_sql NoParams) (ss_lib s)) as [l1 [c1|x]] eqn:H1; [|done].
  apply lib_history in H1 as (Hw1 & rows & Hrows & Hc1). rewrite Hc1, (map_result_inverse history_row history_values)
    by (intros; by apply history_row_values, text_times_parsed, lib_timestamps). simpl.
  destruct (lib_step (LExecute select_progress_sql NoParams) l1) as [l2 [c2|x]] eqn:H2; [|done].
  apply lib_progress in H2 as (Hw2 & prows & Hprows & Hc2). rewrite Hc2, (map_result_inverse progress_row progress_columns)
    by (intros; by apply progress_row_columns, text_times_parsed, lib_timestamps). simpl. rewrite Hw1 in Hprows.
  destruct (snapshot_meta _) as [s3 [m'|x]]; [|done]. intros [= _ <- <- _]. done.
Qed.

Lemma read_snapshot_rows b s s' snap : do_read_snapshot b s = (s', Ok snap) ->
  s_history snap ≡ₚ db_history (working (ss_lib s)) /\ s_progress snap ≡ₚ db_progress (working (ss_lib s)).
Proof.
  unfold do_read_snapshot. revert s' snap. apply after_db; [done|]. intros s' snap. unfold mbind, EM_bind.
  destruct (open_snapshot b s) as [s1 [opened|x]] eqn:Ho; [|done]. apply open_snapshot_working in Ho. rewrite <-Ho.
  unfold s_finally. destruct (snapshot_rows s1) as [s2 [[[h p] m]|x]] eqn:Hr; destruct (s_when _ _ s2) as [s3 [u|y]]; try done.
  intros [= _ <-]. by apply snapshot_rows_read in Hr.
Qed.

(** What the facade's calls may do. *)
Lemma author_may_commit sql params s : author_params params = true ->
  may_commit (ss_lib s) (ss_lib (lib (LExecute sql params) s).1).
Proof. intros Hp. unfold lib. pose proof (lib_author sql params (ss_lib s) Hp) as H. by destruct (lib_step _ (ss_lib s)). Qed.

Lemma bind_params_author v : author_params (bind_params (Positional []) v) = true.
Proof. destruct v; simpl; try done. by destruct (obj_collection _). Qed.

Lemma run_statement_may_commit text params s : may_commit (ss_lib s) (ss_lib (run_statement text params s).1).
Proof.
  unfold run_statement, db_execute. apply (after_db _ s (fun p => may_commit (ss_lib s) (ss_lib p.1))).
  - intros x. apply may_commit_refl.
  - apply author_may_commit, bind_params_author.
Qed.

Lemma run_many_may_commit text sets s : may_commit (ss_lib s) (ss_lib (run_many text sets s).1).
Proof.
  unfold run_many. apply (after_db _ s (fun p => may_commit (ss_lib s) (ss_lib p.1))); [intros x; apply may_commit_refl|].
  rewrite bind_ret_state. unfold lib. pose proof (lib_author_many text (map (bind_params (Positional [])) sets) (ss_lib s)) as H.
  by destruct (lib_step _ (ss_lib s)).
Qed.

(** COMMIT, with the probe before it. *)
Lemma do_commit_spec s :
  let '(s', r) := do_commit s in
  may_commit (ss_lib s) (ss_lib s') /\
  (is_ok r = true -> durable (ss_lib s') = working (ss_lib s) /\ working (ss_lib s') = working (ss_lib s)).
Proof.
  unfold do_commit, db_in_transaction, db_execute. unfold mbind at 1. unfold EM_bind at 1.
  destruct ((db;; lib LInTransaction) s) as [s1 r1] eqn:H1.
  assert (durable (ss_lib s1) = durable (ss_lib s) /\ working (ss_lib s1) = working (ss_lib s)) as [Hd Hw].
  { revert H1. unfold mbind, EM_bind. destruct (db s) as [s0 [u|x]] eqn:E; apply db_inv in E as ->.
    - pose proof (lib_tell s) as Ht. destruct (lib LInTransaction s) as [s2 r2]. intros [= <- <-]. naive_solver.
    - by intros [= <- _]. }
  destruct r1 as [b|x]; [|split; [eapply may_commit_after; [exact Hd|exact Hw|apply may_commit_refl]|done]].
  unfold mbind, EM_bind, s_try. destruct (db s1) as [s0 [u|x]] eqn:E; apply db_inv in E as ->.
  - unfold lib. pose proof (lib_commit (ss_lib s1)) as Hc.
    destruct (lib_step (LExecute "COMMIT" NoParams) (ss_lib s1)) as [l [c|x]]; simpl in *.
    + destruct Hc as [Hc Hok]. split; [by eapply may_commit_after|]. intros _. rewrite <-Hw. by apply Hok.
    + destruct Hc as [Hc _]. destruct x; (split; [by eapply may_commit_after|done]).
  - destruct x; (split; [|done]); (eapply may_commit_after; [exact Hd|exact Hw|apply may_commit_refl]).
Qed.

Lemma run_command_spec c s :
  let '(s', r) := run_command c s in executes c (ss_lib s) (ss_lib s') (is_ok r).
Proof.
  unfold run_command. destruct (binds_Ok (cmd_sql c) (cmd_params c)) as (params & Hb & _).
  { intros n. apply cmd_holes. split; [by apply colon_free_checked|done]. }
  rewrite Hb. unfold mbind at 1. unfold EM_bind at 1, s_of_result. unfold metadata_execute, db_execute.
  unfold mbind at 1. unfold EM_bind at 1.
  unfold mbind, EM_bind. destruct (db s) as [s0 [u|x]] eqn:E; apply db_inv in E as ->; [|apply executes_nothing].
  unfold lib. pose proof (lib_command c params (ss_lib s) Hb) as Hc.
  destruct (lib_step _ (ss_lib s)) as [l [cur|x]]; exact Hc.
Qed.

Lemma do_begin_txn s s' : do_begin s = (s', Ok tt) -> in_txn (ss_lib s') = true.
Proof.
  unfold do_begin, db_execute, mbind, EM_bind. destruct (db s) as [s0 [u|x]] eqn:E; apply db_inv in E as ->; [|done].
  unfold lib. destruct (lib_step _ (ss_lib s)) as [l [c|x]] eqn:Hl; [|done]. intros [= <-].
  by apply lib_begin in Hl.
Qed.
Lemma quiet_in_transaction : quiet db_in_transaction.
Proof. pose proof quiet_db. unfold db_in_transaction. quiet_steps. Qed.

Hint Resolve quiet_db quiet_db_execute quiet_in_transaction : methods.

Lemma quiet_other o : may_end_txn o = false -> is_metadata o = false -> quiet (sqlite_driver C o).
Proof.
  intros Hsub Hmd. destruct o; try done; simpl.
  all: try frame_pure.
  - apply quiet_connect.
  - apply quiet_acquire_lock.
  - apply quiet_prepare_storage.
  - apply quiet_close.
  - apply quiet_discard.
  - unfold session_identity. quiet_steps.
  - apply quiet_objects_present.
  - apply quiet_definition_problems.
  - apply quiet_count_rows.
  - pose proof quiet_marker_rows. quiet_steps.
  - apply quiet_read_snapshot.
  - apply quiet_progress_values.
  - unfold do_begin. quiet_steps. by apply quiet_db_execute.
  - unfold do_rollback. quiet_steps. by apply quiet_db_execute.
  - apply quiet_in_transaction.
  - unfold do_batch_state. quiet_steps.
  - unfold do_establish_identity. quiet_steps.
  - unfold do_read_identity. quiet_steps.
  - quiet_steps.
Qed.
End laws.

