(* ===== verification/SqliteSettings.v ===== *)
(** * The settings of a SQLite connection

    What a configuration is accepted as, and what a connection enforces once
    [connect] has returned: the settings that durability and the metadata layout
    rest on are in force, whatever the library's own defaults. *)
From S2P Require Import Prelude PyStr Text Errors Latch Paths Manifest Model SqlText Admission Metadata World.
From S2P Require Import Statements Config SqliteText SqliteLib Sqlite.
Open Scope str_scope.

(** ** Configuration *)
Definition option_word (options : list (str * toml)) (key fallback : str) (word : str) : Prop :=
  match table_get key options with
  | None => word = fallback
  | Some v => v = TStr (match v with TStr s => s | _ => [] end) /\ word = lower_str (match v with TStr s => s | _ => [] end)
  end.

Lemma toml_word_mem v (words : list str) : [] ∉ words -> toml_word v ∈ words -> exists s, v = TStr s /\ toml_word v = lower_str s.
Proof. intros Hn Hw. destruct v; simpl in *; try done. by eexists. Qed.

Lemma option_word_get options key fallback (words : list str) :
  [] ∉ words -> toml_word (default (TStr fallback) (table_get key options)) ∈ words -> lower_str fallback = fallback ->
  option_word options key fallback (toml_word (default (TStr fallback) (table_get key options))).
Proof.
  intros Hn Hw Hf. unfold option_word. destruct (table_get key options) as [v|]; simpl in *; [|done].
  by destruct (toml_word_mem v words Hn Hw) as (s & -> & ?).
Qed.

Lemma sqlite_init_says {PR : PyRuntime} windows resolve fi c C : sqlite_init windows resolve fi c = Ok C ->
  let options := default [] (snd <$> find (fun kv => bool_decide (kv.1 = "sqlite")) (cf_options c)) in
  windows = false /\ (exists p, cf_database_path c = Some p /\ sc_path C = resolve p) /\
  add_suffix (sc_path C) LOCK_SUFFIX = Ok (sc_lock_path C) /\ known SQLITE_OPTIONS options /\
  toml_int fi (default (TInt 5000) (table_get "busy_timeout_ms" options)) = Ok (sc_busy_timeout_ms C) /\
  sc_journal_mode C ∈ SUPPORTED_JOURNAL_MODES /\ option_word options "journal_mode" "wal" (sc_journal_mode C) /\
  sc_synchronous C ∈ SYNCHRONOUS_LEVELS.*1 /\ option_word options "synchronous" "full" (sc_synchronous C) /\
  sc_timeout_seconds C = lk_timeout_seconds (cf_lock c).
Proof.
  intros Hi options. unfold sqlite_init in Hi. apply bind_Ok in Hi as (p & Hp & Hi).
  destruct (cf_database_path c) as [p'|]; simplify_eq.
  apply bind_Ok in Hi as ([] & Hw%raise_if_Ok & Hi). apply bind_Ok in Hi as (lp & Hlp & Hi).
  apply bind_Ok in Hi as ([] & Hk%raise_if_Ok & Hi). apply bind_Ok in Hi as (busy & Hbusy & Hi).
  apply bind_Ok in Hi as ([] & Hj%raise_if_Ok & Hi). apply bind_Ok in Hi as ([] & Hs%raise_if_Ok & [= <-]).
  apply negb_false_iff, mem_true in Hj. apply negb_false_iff, mem_true in Hs. simpl.
  split_and!; try done.
  - by exists p.
  - by apply unknown_keys_false.
  - by apply (option_word_get options "journal_mode" "wal" SUPPORTED_JOURNAL_MODES); [set_solver|..].
  - by apply (option_word_get options "synchronous" "full" SYNCHRONOUS_LEVELS.*1); [set_solver|..].
Qed.

(** ** A connection *)
Class SettingsView (L : Type) := setting : L -> str -> pyval.

Definition set_pragma (p v : str) : str := "PRAGMA " ++ p ++ " = " ++ v.
Definition SETTINGS : list str := ["foreign_keys"; "ignore_check_constraints"; "synchronous"].

(** What SQLite documents of the settings: a PRAGMA that reads one returns a single
    row with it, or none when there is no such setting, and changes nothing; one
    that writes changes no other. *)
Class SettingsLaws (L : Type) {LB : Library L} {SV : SettingsView L} : Prop := {
  settings_read p (l l' : L) c : p ∈ SETTINGS -> lib_step (LExecute ("PRAGMA " ++ p) NoParams) l = (l', Ok c) ->
    (cur_rows c = [] \/ cur_rows c = [[setting l p]]) /\ forall q, setting l' q = setting l q;
  settings_write p v (l l' : L) c : p ∈ SETTINGS -> lib_step (LExecute (set_pragma p v) NoParams) l = (l', Ok c) ->
    forall q, q ∈ SETTINGS -> q <> p -> setting l' q = setting l q;
  settings_close (l l' : L) x : lib_step LClose l = (l', Err x) ->
    exists d, x = PyException d /\ instance_of sqlite_error d = true;
}.

Section settings.
Context {L : Type} {LB : Library L} {SV : SettingsView L} {SL : SettingsLaws L} {PR : PyRuntime} {UC : Unicode}.
Context (C : SqliteConf).

Definition setting_of (s : Session L) (p : str) : pyval := setting (ss_lib s) p.

(** A setting that was set and read back is in force; the others are as they were. *)
Lemma set_and_verify_inv p v e (s s' : Session L) : p ∈ SETTINGS -> set_and_verify p v e s = (s', Ok tt) ->
  ss_conn s' = true /\ setting_of s' p = VInt e /\ forall q, q ∈ SETTINGS -> q <> p -> setting_of s' q = setting_of s q.
Proof.
  intros Hp. unfold set_and_verify. unfold mbind, EM_bind.
  destruct (db_execute ("PRAGMA " ++ p ++ " = " ++ v) NoParams s) as [s1 [c1|x]] eqn:E1; [|done].
  apply db_execute_inv in E1 as (_ & _ & E1). pose proof (settings_write p v _ _ _ Hp E1) as Hw.
  destruct (db_execute ("PRAGMA " ++ p) NoParams s1) as [s2 [c2|x]] eqn:E2; [|done].
  apply db_execute_inv in E2 as (_ & Hc & E2). destruct (settings_read p _ _ _ Hp E2) as [Hrows Hsame].
  unfold s_of_result. destruct (first_value c2) as [a|x] eqn:Ea; [|done].
  unfold s_when. case_bool_decide as Ha; [|done]. intros [= <-].
  unfold setting_of. split_and!; [done| |intros q Hq Hne; rewrite Hsame; by apply Hw].
  rewrite Hsame. unfold first_value in Ea. destruct Hrows as [Hr|Hr]; rewrite Hr in Ea; injection Ea as <-; [discriminate Ha|exact Ha].
Qed.

Lemma settings_failure_raises x s s' : settings_failure (L := L) x s <> (s', Ok tt).
Proof. unfold settings_failure. by repeat case_match. Qed.

Lemma establish_settings_inv (s s' : Session L) : establish_settings C s = (s', Ok tt) ->
  ss_conn s' = true /\ setting_of s' "foreign_keys" = VInt 1 /\ setting_of s' "ignore_check_constraints" = VInt 0 /\
  setting_of s' "synchronous" = VInt (synchronous_level C).
Proof.
  unfold establish_settings, s_try, mbind, EM_bind.
  destruct (set_and_verify "foreign_keys" "ON" 1 s) as [s1 [[]|x]] eqn:E1; [|by intros ?%settings_failure_raises].
  destruct (set_and_verify "ignore_check_constraints" "OFF" 0 s1) as [s2 [[]|x]] eqn:E2; [|by intros ?%settings_failure_raises].
  destruct (set_and_verify "synchronous" (sc_synchronous C) (synchronous_level C) s2) as [s3 [[]|x]] eqn:E3;
    [|by intros ?%settings_failure_raises]. intros [= <-].
  apply set_and_verify_inv in E1 as (_ & H1 & _); [|set_solver].
  apply set_and_verify_inv in E2 as (_ & H2 & H2'); [|set_solver].
  apply set_and_verify_inv in E3 as (Hc & H3 & H3'); [|set_solver].
  split_and!; [done| | |done].
  - rewrite H3', H2'; [done|set_solver|done|set_solver|done].
  - rewrite H3'; [done|set_solver|done].
Qed.

Lemma release_lock_conn (s : Session L) : ss_conn (release_lock s).1 = ss_conn s.
Proof.
  unfold release_lock, s_finally, mbind, EM_bind, s_gets, lib, s_modify. destruct (ss_lock_fd s) as [fd|]; [|done].
  destruct (lib_step (LUnlock fd) (ss_lib s)) as [l r]. destruct (lib_step (LCloseFd fd) _) as [l' [u|x]]; done.
Qed.

Lemma suppress_close_ends (s : Session L) : exists s', suppress_sqlite (lib LClose) s = (s', Ok tt).
Proof.
  unfold suppress_sqlite, s_try, lib. destruct (lib_step LClose (ss_lib s)) as [l [[]|x]] eqn:E; [by eauto|].
  apply settings_close in E as (d & -> & ->). by eauto.
Qed.

Lemma discard_conn (s : Session L) : ss_conn (discard s).1 = false.
Proof.
  unfold discard. unfold s_gets, s_when. unfold mbind, EM_bind. destruct (ss_conn s) eqn:Hc.
  - destruct (suppress_close_ends s) as [s1 ->]. exact (release_lock_conn (set_conn false s1)).
  - transitivity (ss_conn s); [exact (release_lock_conn s)|done].
Qed.

Lemma as_usage_error_inv {A} cls label (m : SM L A) (s s' : Session L) r : as_usage_error cls label m s = (s', r) ->
  match r with Ok a => m s = (s', Ok a) | Err _ => exists x, m s = (s', Err x) end.
Proof.
  unfold as_usage_error, s_try. destruct (m s) as [s1 [a|x]]; [by intros [= <- <-]|]. intros Hr. assert (s1 = s' /\ exists y, r = Err y) as [<- [y ->]].
  { destruct x as [e|d|]; [|destruct (instance_of cls d)|]; injection Hr as <- <-; eauto. }
  by exists x.
Qed.

Lemma lib_conn o (s s' : Session L) r : lib o s = (s', r) -> ss_conn s' = ss_conn s.
Proof. unfold lib. destruct (lib_step o (ss_lib s)). by intros [= <- <-]. Qed.

Lemma or_discard_inv {A} (m : SM L A) (s s' : Session L) r : s_try m (fun x => discard;; s_raise x) s = (s', r) ->
  match r with Ok a => m s = (s', Ok a) | Err _ => ss_conn s' = false end.
Proof.
  unfold s_try, mbind, EM_bind. destruct (m s) as [s1 [a|x]]; [by intros [= <- <-]|].
  pose proof (discard_conn s1) as Hd. destruct (discard s1) as [s2 [u|y]]; intros [= <- <-]; exact Hd.
Qed.

Lemma synchronous_level_in : sc_synchronous C ∈ SYNCHRONOUS_LEVELS.*1 -> (sc_synchronous C, synchronous_level C) ∈ SYNCHRONOUS_LEVELS.
Proof.
  unfold synchronous_level. intros [->|[->|Hn]%elem_of_cons]%elem_of_cons; [by left|by right; left|by apply elem_of_nil in Hn].
Qed.
End settings.

(** A connection on SQLite enforces what the run relies on. For an accepted
    configuration, once [connect] has returned the connection checks foreign keys
    and CHECK constraints and syncs at the configured level, FULL or EXTRA, each
    as the library itself reports it; when [connect] raises there is no
    connection. *)
Lemma connect_settings {L} {LB : Library L} {SV : SettingsView L} {SL : SettingsLaws L} {PR : PyRuntime}
    windows resolve fi c C (s s' : Session L) r
    (Hconf : sqlite_init windows resolve fi c = Ok C) (Hfresh : ss_conn s = false)
    (Hconnect : connect C s = (s', r)) :
  match r with
  | Ok _ =>
      ss_conn s' = true /\ setting (ss_lib s') "foreign_keys" = VInt 1 /\
      setting (ss_lib s') "ignore_check_constraints" = VInt 0 /\
      exists level, (sc_synchronous C, level) ∈ SYNCHRONOUS_LEVELS /\ setting (ss_lib s') "synchronous" = VInt level
  | Err _ => ss_conn s' = false
  end.
Proof.
  unfold connect, mbind, EM_bind in Hconnect.
  destruct (as_usage_error os_error _ _ s) as [s1 [[]|x]] eqn:E1; apply as_usage_error_inv in E1.
  2:{ destruct E1 as [y E1%lib_conn]. simplify_eq. by rewrite E1. }
  apply lib_conn in E1. destruct (as_usage_error sqlite_error _ _ s1) as [s2 [[]|x]] eqn:E2; apply as_usage_error_inv in E2.
  2:{ destruct E2 as [y E2]. simplify_eq. unfold s_modify in E2.
      destruct (lib _ s1) as [s3 [u|z]] eqn:E3; simplify_eq. apply lib_conn in E3. by rewrite E3, E1. }
  apply or_discard_inv in Hconnect. destruct r as [[]|x]; [|done].
  destruct (db_execute _ _ s2) as [s3 [c3|x]]; [|done].
  apply establish_settings_inv in Hconnect as (? & ? & ? & Hlevel). split_and!; [done..|].
  exists (synchronous_level C). split; [|done]. apply synchronous_level_in.
  by apply sqlite_init_says in Hconf as (_ & _ & _ & _ & _ & _ & _ & ? & _).
Qed.
