(* ===== verification/SqliteLayout.v ===== *)
(** * What SQLite's inspection accepts

    The layout as a statement about the catalogue: what sqlite_master and the PRAGMAs
    must say of each object. An inspection that comes to an end reports no problem
    exactly when the catalogue says that. *)
From S2P Require Import Prelude PyStr Text Errors Latch Paths Manifest Model SqlText Admission Metadata World.
From S2P Require Import Statements Config SqliteText SqliteLib Sqlite SqliteInspect.
Open Scope str_scope.

(** ** The catalogue *)
Definition Catalog : Type := str -> sql_params -> list (list pyval).

Class CatalogView (L : Type) := catalog : L -> Catalog.

Definition PRAGMAS_READ : list str := ["table_info"; "index_list"; "index_info"; "foreign_key_list"].

Definition ask (cat : Catalog) (name argument : str) : list (list pyval) :=
  cat ("PRAGMA " ++ name ++ "(" ++ argument ++ ")") NoParams.

(** A statement that reads the catalogue answers from it and changes nothing in it. *)
Class CatalogLaws (L : Type) {LB : Library L} {CV : CatalogView L} : Prop := {
  catalog_pragma name argument (l l' : L) c : name ∈ PRAGMAS_READ ->
    lib_step (LExecute ("PRAGMA " ++ name ++ "(" ++ argument ++ ")") NoParams) l = (l', Ok c) ->
    cur_rows c = ask (catalog l) name argument /\ catalog l' = catalog l;
  catalog_master params (l l' : L) c : lib_step (LExecute STORED_SQL params) l = (l', Ok c) ->
    cur_rows c = catalog l STORED_SQL params /\ catalog l' = catalog l;
}.

(** ** The layout *)
Section layout.
Context {PR : PyRuntime} {UC : Unicode} (cat : Catalog).

(** sqlite_master has the object as a [kind] on [owner], created by [sql]. *)
Definition stored_as (name : str) (kind owner : pyval) (sql : str) : Prop :=
  match cat STORED_SQL (Positional [VStr name]) with
  | [] => kind = VStr [] /\ owner = VStr [] /\ sql = []
  | row :: _ => row !! 0 = Some kind /\ row !! 1 = Some owner /\
      exists v, row !! 2 = Some v /\ (if py_truth v then py_text v = Ok sql else sql = [])
  end.

Definition columns_ok (table : str) : Prop :=
  exists columns, EXPECTED_COLUMNS table = Some columns /\
    map_result column_of (ask cat "table_info" table) = Ok (map as_read columns).

Definition index_on (index : str) (columns : list pyval) : Prop :=
  map_result (fun row => cell row 2) (ask cat "index_info" index) = Ok columns.

(** The row of a UNIQUE constraint on these columns. *)
Definition unique_on (row : list pyval) (columns : str) : Prop :=
  exists a index u z values, row = [a; VStr index; u; VStr "u"; z] /\ py_truth u = true /\
    index_on index values /\ join_values values = Ok columns.

Definition key_ok (table : str) (k : ExpectedKey) : Prop :=
  match k with
  | KeyPrimary columns => primary_key (ask cat "table_info" table) = Ok columns
  | KeyUnique columns => exists row, row ∈ ask cat "index_list" table /\ unique_on row columns
  | KeyForeign columns target targets => exists rows references r,
      sort_references (ask cat "foreign_key_list" table) = Ok rows /\ fold_result read_reference [] rows = Ok references /\
      r ∈ references /\ foreign_key r = Ok (columns, (VStr target, targets))
  end.

Definition no_added_index (table : str) : Prop :=
  forall row, row ∈ ask cat "index_list" table -> row !! 3 = Some (VStr "c") ->
    exists name, name ∈ allowed_indexes table /\ row !! 1 = Some (VStr name).

(** Every CHECK is a NOT NULL or one of the layout's, and the layout's are there. *)
Definition checks_ok (table sql : str) : Prop :=
  exists ts, tokens sql = Some ts /\
    (forall clause, clause ∈ check_clauses sql ts -> exists c, canonical clause = Some c /\
       (is_not_null_condition c = true \/ c ∈ EXPECTED_CHECKS table)) /\
    (forall c, c ∈ EXPECTED_CHECKS table -> exists clause, clause ∈ check_clauses sql ts /\
       canonical clause = Some c /\ is_not_null_condition c = false).

Definition table_ok (table sql : str) : Prop :=
  columns_ok table /\ (forall k, k ∈ EXPECTED_KEYS table -> key_ok table k) /\ checks_ok table sql /\ no_added_index table.

(** Unique, on the status alone, for the rows that are ACTIVE. *)
Definition active_index_ok (name sql : str) : Prop :=
  exists row u, find_index name (ask cat "index_list" HISTORY_TABLE) = Ok (Some row) /\ row !! 2 = Some u /\ py_truth u = true /\
    index_on name [VStr ACTIVE_INDEX_COLUMN] /\
    exists ts predicate, tokens sql = Some ts /\ where_predicate sql 0 ts = Some predicate /\
      canonical predicate = canonical ACTIVE_INDEX_PREDICATE.

(** An object of the supported layout: of its kind, with its parts, and created by
    the module's own statement up to spelling. *)
Definition object_ok (name : str) : Prop :=
  exists kind owner sql, stored_as name kind owner sql /\ canonical sql = EXPECTED_DEFINITION name /\
    match EXPECTED_COLUMNS name with
    | Some _ => kind = VStr "table" /\ table_ok name sql
    | None => kind = VStr "index" /\ owner = VStr HISTORY_TABLE /\ active_index_ok name sql
    end.
End layout.

(** ** Inspection *)
Section inspection.
Context {L : Type} {LB : Library L} {CV : CatalogView L} {CL : CatalogLaws L} {PR : PyRuntime} {UC : Unicode}.

#[local] Existing Instance sqlite_spelling.

Definition cat_of (s : Session L) : Catalog := catalog (ss_lib s).

Lemma pragma_Ok name argument (s s' : Session L) rows : name ∈ PRAGMAS_READ -> pragma name argument s = (s', Ok rows) ->
  cat_of s' = cat_of s /\ rows = ask (cat_of s) name argument.
Proof.
  intros Hn (s1 & c & Hc & [= <- <-])%sm_bind_Ok. apply db_execute_inv in Hc as (_ & _ & Hc).
  apply catalog_pragma in Hc as [? ?]; done.
Qed.

(** Takes a method that returned apart. *)
Ltac returned H :=
  match type of H with
  | (_ ≫= _) _ = (_, Ok _) => let s1 := fresh "s" in let a := fresh "a" in let H1 := fresh "H" in
      apply sm_bind_Ok in H as (s1 & a & H1 & H); returned H1; returned H
  | s_of_result _ _ = (_, Ok _) => apply sm_result_Ok in H as [-> H]
  | pragma _ _ _ = (_, Ok _) => let Hc := fresh "Hc" in
      apply pragma_Ok in H as [Hc ->]; [|unfold PRAGMAS_READ; set_solver]
  | mret _ _ = (_, Ok _) => injection H as <- <-
  | _ => idtac
  end.

Lemma stored_definition_Ok name (s s' : Session L) kind owner sql : stored_definition name s = (s', Ok (kind, owner, sql)) ->
  cat_of s' = cat_of s /\ stored_as (cat_of s) name kind owner sql.
Proof.
  unfold stored_definition. intros H. returned H. apply db_execute_inv in H0 as (_ & _ & [Hr Hc]%catalog_master).
  split; [done|]. unfold stored_as. unfold cat_of. rewrite <-Hr. destruct (cur_rows a) as [|row rows]; [by simplify_eq|].
  apply bind_Ok in H as (k & Hk%cell_Ok & (o & Ho%cell_Ok & (v & Hv%cell_Ok & (q & Hq & [= <- <- <-])%bind_Ok)%bind_Ok)%bind_Ok).
  split_and!; [done..|]. exists v. split; [done|]. by destruct (py_truth v); simplify_eq.
Qed.

Lemma column_problems_Ok table (s s' : Session L) ps : is_Some (EXPECTED_COLUMNS table) ->
  column_problems table s = (s', Ok ps) -> cat_of s' = cat_of s /\ (ps = [] <-> columns_ok (cat_of s) table).
Proof.
  unfold column_problems. intros [columns Hcol] H. returned H. split; [done|]. rewrite singleton_unless. unfold columns_ok.
  rewrite Hcol. simpl. split.
  - intros [= ->]. by exists columns.
  - intros (? & [= <-] & ?). congruence.
Qed.

Lemma index_columns_Ok index (s s' : Session L) columns : index_columns index s = (s', Ok columns) ->
  cat_of s' = cat_of s /\ index_on (cat_of s) index columns.
Proof. unfold index_columns. intros H. returned H. done. Qed.

Lemma unique_key_Ok row (s s' : Session L) keys : unique_key row s = (s', Ok keys) ->
  cat_of s' = cat_of s /\ forall columns, columns ∈ keys <-> unique_on (cat_of s) row columns.
Proof.
  unfold unique_key. destruct row as [|a [|index [|u [|origin [|z [|]]]]]]; try done.
  destruct (bool_decide (origin = VStr "u") && py_truth u) eqn:E; intros H; returned H.
  - apply andb_true_iff in E as [->%bool_decide_eq_true Hu]. apply index_columns_Ok in H1 as [Hc Hi].
    destruct index as [| |name|]; simplify_eq/=. split; [done|]. intros columns. rewrite list_elem_of_singleton. split.
    + intros ->. by do 5 eexists.
    + intros (? & ? & ? & ? & values & [= -> <- -> ->] & _ & Hi' & Hj). unfold index_on in *. congruence.
  - split; [done|]. intros columns. split; [by intros ?%elem_of_nil|].
    intros (? & ? & ? & ? & ? & [= -> -> -> -> ->] & Hu & _). by rewrite Hu, bool_decide_eq_true_2 in E.
Qed.

Lemma elem_of_concat_Forall2 {A} (Q : A -> str -> Prop) (l : list A) (keys : list (list str)) columns :
  Forall2 (fun x ys => forall c, c ∈ ys <-> Q x c) l keys -> columns ∈ concat keys <-> exists x, x ∈ l /\ Q x columns.
Proof.
  induction 1 as [|x ys l keys Hx _ IH]; simpl.
  - split; [by intros ?%elem_of_nil|by intros (? & ?%elem_of_nil & _)].
  - rewrite elem_of_app, IH, Hx. setoid_rewrite elem_of_cons. naive_solver.
Qed.

Lemma key_problem_nil table primary unique foreign k :
  key_problem table primary unique foreign k = [] <->
  match k with
  | KeyPrimary columns => primary = columns
  | KeyUnique columns => columns ∈ unique
  | KeyForeign columns target targets => (columns, (VStr target, targets)) ∈ foreign
  end.
Proof.
  destruct k as [columns|columns|columns target targets]; simpl.
  - case_bool_decide; [done|]. by destruct primary.
  - destruct (mem columns unique) eqn:E; [by apply mem_true in E|]. apply mem_false in E. done.
  - destruct (existsb _ foreign) eqn:E.
    + apply existsb_exists in E as (f & Hf%list_elem_of_In & ->%bool_decide_eq_true). done.
    + split; [done|]. intros Hf. assert (existsb (fun f => bool_decide (f = (columns, (VStr target, targets)))) foreign = true) as E2; [|congruence].
      apply existsb_exists. exists (columns, (VStr target, targets)). by rewrite <-list_elem_of_In, bool_decide_eq_true_2.
Qed.

Lemma key_problems_Ok table (s s' : Session L) ps : key_problems table s = (s', Ok ps) ->
  cat_of s' = cat_of s /\ (ps = [] <-> forall k, k ∈ EXPECTED_KEYS table -> key_ok (cat_of s) table k).
Proof.
  unfold key_problems. intros H. returned H.
  match goal with Hm : s_map unique_key _ _ = _ |- _ => rename Hm into Hmap end.
  apply (s_map_Ok cat_of unique_key (fun cat row keys => forall c, c ∈ keys <-> unique_on cat row c)) in Hmap as [Hcu Hunique];
    [|intros; by apply unique_key_Ok].
  match goal with Hp : primary_key _ = Ok ?p, Hr : sort_references _ = Ok ?rows, Hf : fold_result _ _ _ = Ok ?references,
    Hm : map_result foreign_key _ = Ok ?foreign |- _ =>
    rename Hp into Hprimary, Hr into Hrows, Hf into Hreferences, Hm into Hforeign end.
  rewrite Hcu, ?Hc1, ?Hc0, ?Hc in *. split; [congruence|]. rewrite concat_nil, Forall_forall.
  assert (forall k, k ∈ EXPECTED_KEYS table -> key_problem table a (concat a0) a3 k = [] <-> key_ok (cat_of s) table k) as Hk.
  { intros k _. rewrite key_problem_nil. destruct k as [columns|columns|columns target targets]; simpl.
    - rewrite Hprimary. split; [by intros ->|by intros [= ->]].
    - apply (elem_of_concat_Forall2 (unique_on (cat_of s)) _ _ columns Hunique).
    - rewrite Hrows, (map_result_in _ _ _ _ Hforeign). split; [intros (r & ? & ?); eauto 10|].
      intros (rows' & references' & r & [= <-] & Href & Hr & Hkr). exists r. split; [congruence|done]. }
  split.
  - intros Hall k Hin. apply Hk, Hall, list_elem_of_fmap; [done|]. by exists k.
  - intros Hall ps' (k & -> & Hin)%list_elem_of_fmap. by apply Hk, Hall.
Qed.

Lemma added_index_problems_Ok table (s s' : Session L) ps : added_index_problems table s = (s', Ok ps) ->
  cat_of s' = cat_of s /\ (ps = [] <-> no_added_index (cat_of s) table).
Proof.
  unfold added_index_problems. intros H. returned H. split; [done|].
  match goal with Hm : map_result _ _ = Ok ?l |- _ => rename Hm into Hadded; rename l into added end.
  unfold no_added_index.
  assert (forall row b, is_added table row = Ok b -> (b = false <-> (row !! 3 = Some (VStr "c") ->
    exists name, name ∈ allowed_indexes table /\ row !! 1 = Some (VStr name)))) as Hrow.
  { intros row b (o & Ho%cell_Ok & Hb)%bind_Ok. case_bool_decide as Hoc.
    - apply bind_Ok in Hb as (v & Hv%cell_Ok & [= <-]). subst o. rewrite negb_false_iff, existsb_exists. split.
      + intros (n & Hn%list_elem_of_In & ->%bool_decide_eq_true) _. eauto.
      + intros Hn. destruct Hn as (n & Hn & Hr); [done|]. exists n. rewrite <-list_elem_of_In, bool_decide_eq_true. split; [done|congruence].
    - injection Hb as <-. split; [|done]. intros _ Hr. congruence. }
  destruct (existsb id added) eqn:E.
  - apply existsb_exists in E as (b & Hb%list_elem_of_In & Hid). unfold id in Hid. subst b.
    apply (map_result_in _ _ _ _ Hadded) in Hb as (row & Hin & Hb). split; [done|]. intros Hall.
    assert (true = false) by (apply (Hrow row); [done|by apply Hall]). done.
  - split; [|done]. intros _ row Hin. destruct (map_result_in_l _ _ _ _ Hadded Hin) as (b & Hb & Hbin). apply (Hrow row b); [done|].
    destruct b; [|done]. assert (existsb id added = true) as E2; [|congruence]. apply existsb_exists. exists true. by rewrite <-list_elem_of_In.
Qed.

Lemma stored_canonical clause : stored_condition lower_str [] (Some clause, true) = canonical clause.
Proof. unfold stored_condition, canonical, fst. by destruct (canonical_condition lower_str (Some clause)). Qed.

Lemma check_constraint_problems_nil table sql : check_constraint_problems table sql = [] <-> checks_ok table sql.
Proof.
  unfold check_constraint_problems, checks_ok. destruct (tokens sql) as [ts|]; [|split; [done|by intros (? & ? & _)]].
  rewrite check_problems_none. split.
  - intros [Hrows Hexp]. exists ts. split; [done|]. split.
    + intros clause Hc. destruct (Hrows (Some clause, true)) as (c & Hs & Hk); [by apply list_elem_of_fmap; exists clause|].
      exists c. rewrite <-stored_canonical. naive_solver.
    + intros c Hc. destruct (Hexp c Hc) as (row & (clause & -> & Hin)%list_elem_of_fmap & Hs & Hn).
      exists clause. by rewrite <-stored_canonical.
  - intros (ts' & [= <-] & Hrows & Hexp). split.
    + intros row (clause & -> & Hin)%list_elem_of_fmap. destruct (Hrows clause Hin) as (c & Hs & Hk).
      exists c. rewrite stored_canonical. naive_solver.
    + intros c Hc. destruct (Hexp c Hc) as (clause & Hin & Hs & Hn). exists (Some clause, true).
      rewrite stored_canonical. split; [|done]. apply list_elem_of_fmap. by exists clause.
Qed.

Lemma table_problems_Ok table kind sql (s s' : Session L) ps : is_Some (EXPECTED_COLUMNS table) ->
  table_problems table kind sql s = (s', Ok ps) ->
  cat_of s' = cat_of s /\ (ps = [] <-> kind = VStr "table" /\ table_ok (cat_of s) table sql).
Proof.
  unfold table_problems. intros Hcol. case_bool_decide as Hk; simpl; intros H; [|returned H; naive_solver].
  apply sm_bind_Ok in H as (s1 & columns & [Hc1 H1]%column_problems_Ok & H); [|done].
  apply sm_bind_Ok in H as (s2 & keys & [Hc2 H2]%key_problems_Ok & H).
  apply sm_bind_Ok in H as (s3 & rest & H3 & [= <- <-]).
  apply sm_bind_Ok in H3 as (s4 & added & [Hc4 H4]%added_index_problems_Ok & [= <- <-]).
  rewrite Hc4, Hc2, Hc1 in *. split; [done|]. unfold table_ok.
  rewrite !app_nil, H1, H2, H4, check_constraint_problems_nil. naive_solver.
Qed.

Lemma predicate_problems_nil name sql : predicate_problems name sql = [] <->
  exists ts predicate, tokens sql = Some ts /\ where_predicate sql 0 ts = Some predicate /\
    canonical predicate = canonical ACTIVE_INDEX_PREDICATE.
Proof.
  unfold predicate_problems. destruct (tokens sql) as [ts|]; [|naive_solver].
  destruct (where_predicate sql 0 ts) as [p|] eqn:E; [|naive_solver]. rewrite singleton_unless. naive_solver.
Qed.

Lemma index_problems_Ok name kind owner sql (s s' : Session L) ps : index_problems name kind owner sql s = (s', Ok ps) ->
  cat_of s' = cat_of s /\
  (ps = [] <-> kind = VStr "index" /\ owner = VStr HISTORY_TABLE /\ active_index_ok (cat_of s) name sql).
Proof.
  unfold index_problems. case_bool_decide as Hk; simpl; [|intros H; returned H; naive_solver].
  case_bool_decide as Ho; simpl; [|intros H; returned H; naive_solver].
  intros H. returned H. unfold active_index_ok.
  match goal with Hf : find_index _ _ = Ok ?e |- _ => rename Hf into Hfind; destruct e as [row|] end.
  2:{ returned H. rewrite Hfind. naive_solver. }
  returned H. match goal with Hu : cell row 2 = Ok ?u |- _ => apply cell_Ok in Hu end.
  match goal with Hi : index_columns _ _ = _ |- _ => apply index_columns_Ok in Hi as [Hc' Hi] end.
  split; [congruence|]. rewrite !app_nil, singleton_unless, predicate_problems_nil.
  rewrite Hc in *. assert ((if py_truth a then [] else [name ++ " is not UNIQUE"]) = [] <-> py_truth a = true) as -> by (by destruct (py_truth a)).
  unfold index_on in *. rewrite Hfind. split.
  - intros (Hu & -> & Hp). by eauto 10.
  - intros (_ & _ & row' & u & [= <-] & Hu & Ht & Hi' & Hp). split_and!; [congruence|congruence|done].
Qed.

Lemma definition_differences_nil name sql : definition_differences name sql = [] <-> canonical sql = EXPECTED_DEFINITION name.
Proof. unfold definition_differences. case_bool_decide; [done|]. by destruct (canonical sql). Qed.

Lemma stored_as_unique (cat : Catalog) name k k' o o' sql sql' :
  stored_as cat name k o sql -> stored_as cat name k' o' sql' -> k = k' /\ o = o' /\ sql = sql'.
Proof.
  unfold stored_as. destruct (cat STORED_SQL _) as [|row rows]; [naive_solver congruence|].
  intros (H1 & H2 & v & H3 & H4) (H1' & H2' & v' & H3' & H4'). rewrite H1' in H1. rewrite H2' in H2. rewrite H3' in H3. simplify_eq.
  split_and!; [done..|]. destruct (py_truth v); congruence.
Qed.

Lemma object_problems_Ok name (s s' : Session L) ps : object_problems name s = (s', Ok ps) ->
  cat_of s' = cat_of s /\ (ps = [] <-> object_ok (cat_of s) name).
Proof.
  unfold object_problems. intros (s1 & [[kind owner] sql] & [Hc1 Hs]%stored_definition_Ok & H)%sm_bind_Ok.
  apply sm_bind_Ok in H as (s2 & found & Hf & [= <- <-]).
  assert (cat_of s2 = cat_of s /\ (found = [] <-> match EXPECTED_COLUMNS name with
    | Some _ => kind = VStr "table" /\ table_ok (cat_of s) name sql
    | None => kind = VStr "index" /\ owner = VStr HISTORY_TABLE /\ active_index_ok (cat_of s) name sql
    end)) as [Hc2 Hfound].
  { rewrite <-Hc1. destruct (EXPECTED_COLUMNS name) eqn:E;
      [by apply table_problems_Ok in Hf; [|rewrite E]|by apply index_problems_Ok in Hf]. }
  split; [done|]. unfold object_ok. split.
  - intros Hp. exists kind, owner, sql. case_bool_decide as Hn; [|done]. by rewrite <-Hfound, <-definition_differences_nil.
  - intros (kind' & owner' & sql' & Hs' & Hd & Hok). destruct (stored_as_unique _ _ _ _ _ _ _ _ Hs Hs') as (<- & <- & <-).
    apply Hfound in Hok as ->. by apply definition_differences_nil.
Qed.
End inspection.

(** C25: the inspection of a namespace on SQLite is exact. When it comes to an end it
    has reported no problem exactly when every object it was asked about is, in the
    catalogue, of the right kind, with the columns, keys, CHECK conditions and
    indexes of the layout and no index beyond them, unique on ACTIVE rows as the
    engine needs, and created by the module's own statement up to spelling. *)
Theorem inspection_exact {L} {LB : Library L} {CV : CatalogView L} {CL : CatalogLaws L} {PR : PyRuntime} {UC : Unicode}
    present (s s' : Session L) problems (Hinspect : definition_problems present s = (s', Ok problems)) :
  problems = [] <-> forall name, name ∈ CREATION_ORDER -> name ∈ present -> object_ok (catalog (ss_lib s)) name.
Proof.
  unfold definition_problems in Hinspect. apply sm_bind_Ok in Hinspect as (s1 & found & Hf & [= <- <-]).
  apply (s_map_Ok cat_of object_problems (fun cat name ps => ps = [] <-> object_ok cat name)) in Hf as [_ Hf];
    [|intros; by apply object_problems_Ok].
  rewrite concat_nil. transitivity (forall name, name ∈ List.filter (fun name => mem name present) CREATION_ORDER ->
    object_ok (catalog (ss_lib s)) name).
  - induction Hf as [|name ps names found Hn _ IH]; [split; [by intros _ ? ?%elem_of_nil|done]|].
    rewrite Forall_cons, IH, Hn. setoid_rewrite elem_of_cons. naive_solver.
  - setoid_rewrite list_elem_of_In. setoid_rewrite filter_In. setoid_rewrite <-list_elem_of_In. setoid_rewrite mem_true. naive_solver.
Qed.
