(* ===== verification/SqliteLock.v ===== *)
(** * The lock file and the session's own fields

    The polling of the lock ends, leaks no descriptor and tells contention from
    failure; the lock is then held until the session is closed; the identity of a
    transaction changes with every transaction boundary. The operating system's
    side is [HostLaws]. *)
From S2P Require Import Prelude PyStr Text Errors Latch Paths Manifest Model SqlText Admission Metadata World.
From S2P Require Import Statements Config Replay SqliteText SqliteLib Sqlite SqliteInspect.
Open Scope str_scope.

(** ** The process as the operating system sees it *)
Class HostView (L : Type) := {
  open_fds : L -> gset Z;        (* descriptors of lock files *)
  lock_owner : L -> option Z;    (* the descriptor that holds the lock for this process *)
  clock : L -> Z;                (* nanoseconds *)
}.

(** An exception of the library or the system, never one of the program's own. *)
Definition foreign (x : pyexn) : Prop :=
  match x with PyMigr8 _ => False | PyException d => PyException d <> out_of_fuel | PyInterrupt => True end.

Definition lock_call (o : libop) : bool :=
  match o with LOpen _ | LFlock _ | LUnlock _ | LCloseFd _ => true | _ => false end.

(** What POSIX and Python document:
    - the clock never goes back, and a sleep that returns lasted as long as asked;
    - [open] gives a new descriptor or fails, [close] that returns takes it away, and
      nothing else opens or closes one;
    - [flock] that returns gives the lock, and it is kept until it is given back or
      its descriptor closed. *)
Class HostLaws (L : Type) {LB : Library L} {HV : HostView L} : Prop := {
  host_foreign o (l l' : L) x : lib_step o l = (l', Err x) -> foreign x;
  host_clock o (l : L) : (clock l <= clock (lib_step o l).1)%Z;
  host_monotonic (l l' : L) t : lib_step LMonotonic l = (l', Ok t) -> (clock l <= t <= clock l')%Z;
  host_sleep ns (l l' : L) : lib_step (LSleep ns) l = (l', Ok tt) -> (clock l + ns <= clock l')%Z;
  host_open p (l : L) :
    match lib_step (LOpen p) l with
    | (l', Ok fd) => (fd ∉ open_fds l) /\ open_fds l' = {[fd]} ∪ open_fds l
    | (l', Err _) => open_fds l' = open_fds l
    end;
  host_close fd (l l' : L) : lib_step (LCloseFd fd) l = (l', Ok tt) -> open_fds l' = open_fds l ∖ {[fd]};
  host_fds o (l : L) : match o with LOpen _ | LCloseFd _ => true | _ => false end = false ->
    open_fds (lib_step o l).1 = open_fds l;
  host_flock fd (l l' : L) : lib_step (LFlock fd) l = (l', Ok tt) -> lock_owner l' = Some fd;
  host_owner o (l : L) : lock_call o = false -> lock_owner (lib_step o l).1 = lock_owner l;
}.

Section lock.
Context {L : Type} {LB : Library L} {HV : HostView L} {HL : HostLaws L} {PR : PyRuntime} {UC : Unicode} {V : Versions}.
Context (C : SqliteConf).

(** How an attempt on the lock can end, given the descriptor it works on and the
    sessions before and after. *)
Definition poll_end (fd deadline : Z) (s s' : Session L) (r : result pyexn unit) : Prop :=
  match r with
  | Ok _ => ss_lock_fd s' = Some fd /\ lock_owner (ss_lib s') = Some fd /\ open_fds (ss_lib s') = open_fds (ss_lib s)
  | Err (PyMigr8 e) =>
      ss_lock_fd s' = ss_lock_fd s /\ open_fds (ss_lib s') = open_fds (ss_lib s) ∖ {[fd]} /\
      ((e_class e = LockNotAcquiredError /\ (deadline <= clock (ss_lib s'))%Z) \/ e_class e = UsageError)
  | Err x => ss_lock_fd s' = ss_lock_fd s /\ foreign x
  end.

Lemma lib_foreign o s s' x : lib o s = (s', Err x) -> foreign x /\ ss_lock_fd s' = ss_lock_fd s.
Proof.
  unfold lib. destruct (lib_step o (ss_lib s)) as [l [a|y]] eqn:E; [done|]. intros [= <- <-].
  split; [by eapply host_foreign|done].
Qed.

Lemma foreign_end fd deadline s s' x : foreign x -> ss_lock_fd s' = ss_lock_fd s -> poll_end fd deadline s s' (Err x).
Proof. by destruct x. Qed.

(** Giving up: the descriptor is closed, then the error raised. *)
Lemma give_up_end fd deadline s0 s e :
  ss_lock_fd s = ss_lock_fd s0 -> open_fds (ss_lib s) = open_fds (ss_lib s0) ->
  (e_class e = LockNotAcquiredError /\ (deadline <= clock (ss_lib s))%Z) \/ e_class e = UsageError ->
  let '(s', r) := (lib (LCloseFd fd);; s_raise_error (A := unit) e) s in poll_end fd deadline s0 s' r.
Proof.
  intros Hfd Ho He. unfold mbind, EM_bind. destruct (lib (LCloseFd fd) s) as [s1 [[]|x]] eqn:E.
  - unfold lib in E. destruct (lib_step (LCloseFd fd) (ss_lib s)) as [l r] eqn:El. simplify_eq/=.
    pose proof (host_clock (LCloseFd fd) (ss_lib s)) as Hc. rewrite El in Hc. simpl in Hc.
    apply host_close in El. rewrite El, Ho. split_and!; [done..|]. destruct He as [[? ?]|?]; [left; split; [done|lia]|by right].
  - apply lib_foreign in E as [? E]. apply foreign_end; congruence.
Qed.

(** A session that differs from [s] in nothing that [poll_end] looks at. *)
Definition same_host (s s' : Session L) : Prop :=
  ss_lock_fd s' = ss_lock_fd s /\ open_fds (ss_lib s') = open_fds (ss_lib s).

Lemma poll_end_from fd deadline s1 s2 s' r : same_host s1 s2 -> poll_end fd deadline s2 s' r -> poll_end fd deadline s1 s' r.
Proof. intros [H1 H2]. unfold poll_end. rewrite H1, H2. done. Qed.

(** A call that only waits, asks the time or tries the lock. *)
Lemma lib_same_host o s : match o with LOpen _ | LCloseFd _ => true | _ => false end = false ->
  same_host s (lib o s).1 /\ (clock (ss_lib s) <= clock (ss_lib (lib o s).1))%Z.
Proof.
  intros Ho. unfold lib. pose proof (host_fds o (ss_lib s) Ho) as Hf. pose proof (host_clock o (ss_lib s)) as Hc.
  by destruct (lib_step o (ss_lib s)).
Qed.

Lemma lib_reply_step o s s' a : lib o s = (s', Ok a) -> lib_step o (ss_lib s) = (ss_lib s', Ok a).
Proof. unfold lib. destruct (lib_step o (ss_lib s)) as [l r]. by intros [= <- ->]. Qed.

Lemma lib_lock_fd o s : ss_lock_fd (lib o s).1 = ss_lock_fd s.
Proof. unfold lib. by destruct (lib_step o (ss_lib s)). Qed.

(** One round: it ends the attempt, or sleeps before the deadline and goes on. *)
Lemma poll_round fuel fd deadline s p : poll_lock (S fuel) fd deadline s = p ->
  (let '(s', r) := p in poll_end fd deadline s s' r) \/
  exists s2, p = poll_lock fuel fd deadline s2 /\ same_host s s2 /\
    (clock (ss_lib s) + POLL_NS <= clock (ss_lib s2))%Z /\ (clock (ss_lib s) < deadline)%Z.
Proof.
  cbn [poll_lock]. unfold s_try, mbind, EM_bind.
  destruct (lib_same_host (LFlock fd) s eq_refl) as [H1 Hc1]. destruct (lib (LFlock fd) s) as [s1 [[]|x]] eqn:E1.
  { intros <-. left. apply (lib_reply_step (LFlock fd)), host_flock in E1. by destruct H1 as [_ H1]. }
  apply lib_foreign in E1 as [Hx Hfd]. destruct x as [e|d|]; [done| |by intros <-; left].
  destruct (instance_of os_error d); [|by intros <-; left]. destruct (would_block d); simpl.
  2: { intros <-. left. apply give_up_end; [done|apply H1|by right]. }
  destruct (lib_same_host LMonotonic s1 eq_refl) as [H2 Hc2]. destruct (lib LMonotonic s1) as [s2 [t|x]] eqn:E2.
  2: { intros <-. left. apply (lib_foreign LMonotonic) in E2 as [Hx2 Hfd2]. apply foreign_end; [done|]. destruct H2; congruence. }
  simpl in *. apply (lib_reply_step LMonotonic), host_monotonic in E2. destruct (deadline <=? t)%Z eqn:Et.
  { intros <-. left. apply Z.leb_le in Et. apply give_up_end; [destruct H2; congruence|destruct H1, H2; congruence|].
    left. split; [done|lia]. }
  apply Z.leb_gt in Et.
  destruct (lib_same_host (LSleep POLL_NS) s2 eq_refl) as [H3 Hc3]. destruct (lib (LSleep POLL_NS) s2) as [s3 [[]|x]] eqn:E3.
  - intros <-. right. exists s3. split; [done|]. apply (lib_reply_step (LSleep POLL_NS)), host_sleep in E3. simpl in *.
    unfold same_host in *. split_and!; [intuition congruence..|lia|lia].
  - intros <-. left. apply (lib_foreign (LSleep POLL_NS)) in E3 as [Hx3 Hfd3]. apply foreign_end; [done|].
    unfold same_host in *. intuition congruence.
Qed.

(** With a round for every sleep until the deadline, the loop ends. *)
Lemma poll_lock_ends fuel fd deadline s :
  (deadline <= clock (ss_lib s) + Z.of_nat fuel * POLL_NS)%Z ->
  let '(s', r) := poll_lock (S fuel) fd deadline s in poll_end fd deadline s s' r.
Proof.
  revert s. induction fuel as [|fuel IH]; intros s Hf.
  - destruct (poll_round 0 fd deadline s _ eq_refl) as [H|(s2 & _ & _ & _ & Hd)]; [exact H|lia].
  - destruct (poll_round (S fuel) fd deadline s _ eq_refl) as [H|(s2 & -> & Hs & Hc & _)]; [exact H|].
    specialize (IH s2 ltac:(lia)). destruct (poll_lock (S fuel) fd deadline s2). by eapply poll_end_from.
Qed.

(** The fuel is a round for every sleep of the timeout, and one more. *)
Definition poll_fuel_rounds : nat := Z.to_nat (sc_timeout_seconds C * (NS `div` POLL_NS)) + 1.

Lemma poll_fuel_rounds_S : poll_fuel C = S poll_fuel_rounds.
Proof. unfold poll_fuel, poll_fuel_rounds. lia. Qed.

Lemma poll_fuel_enough t clk : (0 <= sc_timeout_seconds C)%Z -> (t <= clk)%Z ->
  (t + sc_timeout_seconds C * NS <= clk + Z.of_nat poll_fuel_rounds * POLL_NS)%Z.
Proof. unfold poll_fuel_rounds, NS, POLL_NS. change (1000000000 `div` 50000000)%Z with 20%Z. lia. Qed.
End lock.

(** C24: acquiring the namespace lock always ends, and in one of four ways. It has the
    lock, on one new descriptor, which it keeps; or another runner had it for the
    whole timeout, which is LockNotAcquiredError; or the system refused for another
    reason, which is a UsageError; in both cases the new descriptor is closed again.
    Otherwise a call was interrupted or failed on its own, and no lock is recorded. *)
Theorem acquire_lock_ends {L} {LB : Library L} {HV : HostView L} {HL : HostLaws L} (C : SqliteConf) (s : Session L)
    (Htimeout : (0 <= sc_timeout_seconds C)%Z) :
  let '(s', r) := acquire_lock C s in
  r <> Err out_of_fuel /\
  match r with
  | Ok _ => exists fd, ss_lock_fd s' = Some fd /\ lock_owner (ss_lib s') = Some fd /\ (fd ∉ open_fds (ss_lib s)) /\
      open_fds (ss_lib s') = {[fd]} ∪ open_fds (ss_lib s)
  | Err (PyMigr8 e) => ss_lock_fd s' = ss_lock_fd s /\ open_fds (ss_lib s') = open_fds (ss_lib s) /\
      ((e_class e = LockNotAcquiredError /\
        (clock (ss_lib s) + sc_timeout_seconds C * NS <= clock (ss_lib s'))%Z) \/ e_class e = UsageError)
  | Err _ => ss_lock_fd s' = ss_lock_fd s
  end.
Proof.
  unfold acquire_lock. unfold mbind at 1. unfold EM_bind at 1.
  pose proof (host_open (sc_lock_path C) (ss_lib s)) as Ho. pose proof (host_clock (LOpen (sc_lock_path C)) (ss_lib s)) as Hc1.
  destruct (lib (LOpen (sc_lock_path C)) s) as [s1 [fd|x]] eqn:E1.
  2: { apply (lib_foreign (LOpen (sc_lock_path C))) in E1 as [Hx Hfd]. split; [by destruct x as [| |]; intros [= ->]|]. by destruct x. }
  pose proof E1 as E1'. apply (lib_reply_step (LOpen (sc_lock_path C))) in E1'. rewrite E1' in Ho, Hc1. simpl in Hc1. destruct Ho as [Hnew Hopen].
  pose proof (lib_lock_fd (LOpen (sc_lock_path C)) s) as Hfd1. rewrite E1 in Hfd1. simpl in Hfd1.
  unfold mbind, EM_bind. destruct (lib_same_host LMonotonic s1 eq_refl) as [[H2a H2b] Hc2].
  destruct (lib LMonotonic s1) as [s2 [t|x]] eqn:E2; simpl in *.
  2: { apply (lib_foreign LMonotonic) in E2 as [Hx Hfd]. split; [by destruct x as [| |]; intros [= ->]|]. destruct x; [done|congruence..]. }
  apply (lib_reply_step LMonotonic), host_monotonic in E2.
  set (deadline := (t + sc_timeout_seconds C * NS)%Z).
  pose proof (poll_lock_ends (poll_fuel_rounds C) fd deadline s2) as Hp. rewrite poll_fuel_rounds_S.
  destruct (poll_lock _ fd deadline s2) as [s3 r].
  assert (poll_end fd deadline s2 s3 r) as He by (by apply Hp, poll_fuel_enough; [|lia]).
  clear Hp. rewrite Hopen in H2b. destruct r as [u|[e|d|]]; simpl in He.
  - destruct He as (? & ? & He). split; [done|]. exists fd. rewrite He, H2b. done.
  - destruct He as (? & He & Hk). split; [done|]. rewrite He, H2b.
    split_and!; [congruence|set_solver|]. destruct Hk as [[? ?]|?]; [left; split; [done|unfold deadline in *; lia]|by right].
  - destruct He as [He Hx]. simpl in Hx. split; congruence.
  - destruct He as [He _]. split; [done|congruence].
Qed.

(** ** A lock that is let go of in time *)

(** When the runner that holds the lock will have let go of it. *)
Class TurnView (L : Type) := free_at : L -> Z.

(** A quiet system: the calls of the loop are not interrupted, an attempt on the lock
    or a look at the clock takes [delta] at most, and an attempt fails only as one
    that would block, and only while the other runner has the lock. *)
Class TurnLaws (L : Type) {LB : Library L} {HV : HostView L} {TV : TurnView L} (delta : Z) : Prop := {
  turn_open p (l : L) : exists l' fd, lib_step (LOpen p) l = (l', Ok fd) /\ free_at l' = free_at l;
  turn_monotonic (l : L) : exists l' t, lib_step LMonotonic l = (l', Ok t) /\ free_at l' = free_at l /\
    (clock l' <= clock l + delta)%Z;
  turn_sleep ns (l : L) : exists l', lib_step (LSleep ns) l = (l', Ok tt) /\ free_at l' = free_at l;
  turn_flock fd (l : L) : exists l' r, lib_step (LFlock fd) l = (l', r) /\ free_at l' = free_at l /\
    (clock l' <= clock l + delta)%Z /\
    (r = Ok tt \/ (clock l < free_at l)%Z /\
       exists d, r = Err (PyException d) /\ instance_of os_error d = true /\ would_block d = true);
}.

Section turn.
Context {L : Type} {LB : Library L} {HV : HostView L} {HL : HostLaws L} {TV : TurnView L} {delta : Z} {TL : TurnLaws L delta}.

Lemma poll_lock_served fuel fd deadline (s : Session L) :
  (deadline <= clock (ss_lib s) + Z.of_nat fuel * POLL_NS)%Z -> (free_at (ss_lib s) + 2 * delta <= deadline)%Z ->
  exists s', poll_lock (S fuel) fd deadline s = (s', Ok tt).
Proof.
  revert s. induction fuel as [|fuel IH]; intros s Hf Hturn.
  all: cbn [poll_lock]; unfold s_try, mbind, EM_bind, s_modify, lib.
  all: destruct (turn_flock fd (ss_lib s)) as (l1 & r & E1 & Hfree1 & Hc1 & [->|(Hwait & d & -> & Hd & Hb)]);
    rewrite E1; [by eexists|]; rewrite Hd, Hb; cbn [negb].
  all: destruct (turn_monotonic l1) as (l2 & t & E2 & Hfree2 & Hc2); cbn [ss_lib set_lib]; rewrite E2.
  all: pose proof (host_monotonic l1 l2 t E2) as Ht; rewrite (proj2 (Z.leb_gt deadline t)) by lia.
  - pose proof (host_clock (LFlock fd) (ss_lib s)) as H. rewrite E1 in H. simpl in H. lia.
  - destruct (turn_sleep POLL_NS l2) as (l3 & E3 & Hfree3). cbn [ss_lib set_lib]. rewrite E3. apply IH; cbn [ss_lib set_lib]; [|lia].
    pose proof (host_clock (LFlock fd) (ss_lib s)) as H. rewrite E1 in H. simpl in H. apply host_sleep in E3. lia.
Qed.
End turn.

(** C23: a runner that lets go of the lock in time is succeeded. On a system that does
    not interrupt the attempt, a runner whose timeout reaches past the moment the
    other one lets go, by the time two calls take, gets the lock, however the
    rounds of the polling fall. *)
Theorem acquire_lock_served {L} {LB : Library L} {HV : HostView L} {HL : HostLaws L} {TV : TurnView L} (delta : Z)
    {TL : TurnLaws L delta} (C : SqliteConf) (s : Session L)
    (Htimeout : (0 <= sc_timeout_seconds C)%Z)
    (Hturn : (free_at (ss_lib s) + 2 * delta <= clock (ss_lib s) + sc_timeout_seconds C * NS)%Z) :
  exists s' fd, acquire_lock C s = (s', Ok tt) /\ ss_lock_fd s' = Some fd /\ lock_owner (ss_lib s') = Some fd.
Proof.
  unfold acquire_lock, mbind, EM_bind, lib.
  destruct (turn_open (sc_lock_path C) (ss_lib s)) as (l1 & fd & E1 & Hfree1). rewrite E1. cbn [ss_lib set_lib].
  destruct (turn_monotonic l1) as (l2 & t & E2 & Hfree2 & _). rewrite E2. pose proof (host_monotonic l1 l2 t E2) as Ht.
  pose proof (host_clock (LOpen (sc_lock_path C)) (ss_lib s)) as Hc. rewrite E1 in Hc. simpl in Hc.
  set (s2 := set_lib l2 (set_lib l1 s)). pose proof (poll_lock_ends (poll_fuel_rounds C) fd (t + sc_timeout_seconds C * NS) s2) as He.
  rewrite poll_fuel_rounds_S. destruct (poll_lock_served (poll_fuel_rounds C) fd (t + sc_timeout_seconds C * NS) s2) as [s' E].
  - apply poll_fuel_enough; [done|simpl; lia].
  - simpl. lia.
  - rewrite E in *. destruct He as (? & ? & _); [apply poll_fuel_enough; [done|simpl; lia]|]. by exists s', fd.
Qed.

(** ** The methods that leave the lock alone *)
Section fields.
Context {L : Type} {LB : Library L} {HV : HostView L} {HL : HostLaws L} {PR : PyRuntime} {UC : Unicode} {V : Versions}.
Context (C : SqliteConf).

(** The connection and the lock are as they were; the epoch has not gone back. *)
Definition same_fields (s s' : Session L) : Prop :=
  ss_lock_fd s' = ss_lock_fd s /\ ss_conn s' = ss_conn s /\ (ss_txn_epoch s <= ss_txn_epoch s')%Z /\
  lock_owner (ss_lib s') = lock_owner (ss_lib s).

#[export] Instance same_fields_preorder : PreOrder same_fields.
Proof.
  split; [by intros s; unfold same_fields; split_and!|]. intros s1 s2 s3 (?&?&?&?) (?&?&?&?). unfold same_fields.
  split_and!; [congruence..|lia|congruence].
Qed.

Lemma fields_lib o : lock_call o = false -> framed same_fields (lib o).
Proof.
  intros Ho s. unfold lib, same_fields. pose proof (host_owner o (ss_lib s) Ho) as H. by destruct (lib_step o (ss_lib s)).
Qed.

Lemma fields_epoch : framed same_fields (s_modify next_epoch).
Proof. intros s. unfold same_fields. simpl. split_and!; [done..|lia|done]. Qed.

Hint Resolve fields_epoch : methods.

Ltac fields_step :=
  match goal with
  | |- framed same_fields (lib ?o) => exact (fields_lib o eq_refl)
  | _ => frame_step
  end.
Ltac fields_steps := repeat fields_step.

Lemma fields_db : framed same_fields db.
Proof. unfold db. fields_steps. Qed.
Hint Resolve fields_db : methods.

Lemma fields_db_execute sql params : framed same_fields (db_execute sql params).
Proof. unfold db_execute. fields_steps. Qed.

Lemma fields_db_in_transaction : framed same_fields db_in_transaction.
Proof. unfold db_in_transaction. fields_steps. Qed.
Hint Resolve fields_db_execute fields_db_in_transaction : methods.

Lemma fields_pragma name argument : framed same_fields (pragma name argument).
Proof. unfold pragma. fields_steps. Qed.
Hint Resolve fields_pragma : methods.

Lemma fields_run_query sql params : framed same_fields (run_query sql params).
Proof. unfold run_query, metadata_query. fields_steps. Qed.
Hint Resolve fields_run_query : methods.

Lemma fields_count_rows table : framed same_fields (count_rows table).
Proof. unfold count_rows. fields_steps. Qed.
Hint Resolve fields_count_rows : methods.

Lemma fields_index_columns index : framed same_fields (index_columns index).
Proof. unfold index_columns. fields_steps. Qed.
Hint Resolve fields_index_columns : methods.

Lemma fields_unique_key row : framed same_fields (unique_key row).
Proof. unfold unique_key. fields_steps. Qed.

Lemma fields_stored_definition name : framed same_fields (stored_definition name).
Proof. unfold stored_definition. fields_steps. Qed.
Hint Resolve fields_unique_key fields_stored_definition : methods.

Lemma fields_object_problems name : framed same_fields (object_problems name).
Proof.
  unfold object_problems, table_problems, column_problems, key_problems, added_index_problems, index_problems.
  fields_steps.
Qed.
Hint Resolve fields_object_problems : methods.

Lemma fields_driver o : session_op o = false -> framed same_fields (sqlite_driver C o).
Proof.
  intros Ho. destruct o; try discriminate; cbn [sqlite_driver].
  all: unfold prepare_storage, session_identity, objects_present, definition_problems, create_object, marker_rows,
    do_read_snapshot, open_snapshot, snapshot_rows, snapshot_meta, run_command, metadata_execute, progress_values,
    do_begin, do_commit, do_rollback, do_batch_state, do_establish_identity, do_read_identity, run_statement, run_many.
  all: unfold marker_rows; fields_steps.
Qed.

(** A sequence of operations, whatever they answer. *)
Definition run_ops (ops : list rawop) (s : Session L) : Session L :=
  fold_left (fun s o => (sqlite_driver C o s).1) ops s.

Lemma fields_run_ops ops s : Forall (fun o => session_op o = false) ops -> same_fields s (run_ops ops s).
Proof.
  intros Hops. revert s. induction Hops as [|o ops Ho _ IH]; intros s; [done|].
  simpl. etrans; [by apply (fields_driver o)|apply IH].
Qed.

(** ** The epoch

    Only these operations move it. *)
Definition boundary_op (o : rawop) : bool :=
  match o with RBegin | RCommit | RRollback | RReadSnapshot _ => true | _ => false end.

Definition same_epoch (s s' : Session L) : Prop := ss_txn_epoch s' = ss_txn_epoch s.

#[export] Instance same_epoch_preorder : PreOrder same_epoch.
Proof. split; [done|]. unfold same_epoch. intros s1 s2 s3 H1 H2. congruence. Qed.

Lemma epoch_lib o : framed same_epoch (lib o).
Proof. intros s. unfold lib, same_epoch. by destruct (lib_step o (ss_lib s)). Qed.

Lemma epoch_modify f : (forall s, ss_txn_epoch (f s) = ss_txn_epoch s) -> framed same_epoch (s_modify f).
Proof. intros Hf s. apply Hf. Qed.

Ltac epoch_step :=
  match goal with
  | |- framed same_epoch (lib ?o) => exact (epoch_lib o)
  | |- framed same_epoch (s_modify _) => apply epoch_modify; done
  | _ => frame_step
  end.
Ltac epoch_steps := repeat epoch_step.

Lemma epoch_db : framed same_epoch db.
Proof. unfold db. epoch_steps. Qed.
Hint Resolve epoch_db : methods.

Lemma epoch_db_execute sql params : framed same_epoch (db_execute sql params).
Proof. unfold db_execute. epoch_steps. Qed.
Hint Resolve epoch_db_execute : methods.

Lemma epoch_poll_lock fuel fd deadline : framed same_epoch (poll_lock fuel fd deadline).
Proof. induction fuel as [|fuel IH]; simpl; epoch_steps; done. Qed.
Hint Resolve epoch_poll_lock : methods.

Lemma epoch_release_lock : framed same_epoch release_lock.
Proof. unfold release_lock. epoch_steps. Qed.
Hint Resolve epoch_release_lock : methods.

Lemma epoch_run_query sql params : framed same_epoch (run_query sql params).
Proof. unfold run_query, metadata_query. epoch_steps. Qed.

Lemma epoch_index_columns index : framed same_epoch (index_columns index).
Proof. unfold index_columns, pragma. epoch_steps. Qed.
Hint Resolve epoch_run_query epoch_index_columns : methods.

Lemma epoch_unique_key row : framed same_epoch (unique_key row).
Proof. unfold unique_key. epoch_steps. Qed.
Hint Resolve epoch_unique_key : methods.

Lemma epoch_object_problems name : framed same_epoch (object_problems name).
Proof.
  unfold object_problems, stored_definition, table_problems, column_problems, key_problems, added_index_problems, index_problems, pragma.
  epoch_steps.
Qed.
Hint Resolve epoch_object_problems : methods.

Lemma epoch_driver o : boundary_op o = false -> framed same_epoch (sqlite_driver C o).
Proof.
  intros Ho. destruct o; try discriminate; cbn [sqlite_driver].
  all: unfold connect, discard, suppress_sqlite, as_usage_error, establish_settings, settings_failure, set_and_verify, close, acquire_lock,
    prepare_storage, session_identity, objects_present, definition_problems, create_object, marker_rows, count_rows,
    run_command, metadata_execute, progress_values, db_in_transaction, do_batch_state, do_establish_identity, do_read_identity,
    run_statement, run_many.
  all: unfold db_in_transaction; epoch_steps.
Qed.

Lemma epoch_run_ops ops s : Forall (fun o => boundary_op o = false) ops -> same_epoch s (run_ops ops s).
Proof.
  intros Hops. revert s. induction Hops as [|o ops Ho _ IH]; intros s; [done|].
  simpl. etrans; [by apply (epoch_driver o)|apply IH].
Qed.

Lemma epoch_grows o s s' : o = RBegin \/ o = RCommit -> is_ok (sqlite_driver C o s).2 = true -> s' = (sqlite_driver C o s).1 ->
  (ss_txn_epoch s < ss_txn_epoch s')%Z.
Proof.
  intros [-> | ->] Hok ->; revert Hok; cbn [sqlite_driver].
  - unfold do_begin, mbind, EM_bind. pose proof (epoch_db_execute "BEGIN IMMEDIATE" NoParams s) as He.
    destruct (db_execute _ _ s) as [s1 [c|x]]; [|done]. intros _. unfold same_epoch in He. simpl in *. lia.
  - assert (framed same_epoch db_in_transaction) as Hp by (unfold db_in_transaction; epoch_steps). specialize (Hp s).
    unfold do_commit, mbind, EM_bind, s_try. destruct (db_in_transaction s) as [s1 [b|x]]; [|done].
    pose proof (epoch_db_execute "COMMIT" NoParams s1) as He.
    destruct (db_execute _ _ s1) as [s2 [c|x]]; [|by destruct x]. intros _. unfold same_epoch in *. simpl in *. lia.
Qed.
End fields.

Lemma identity_of_inj m n : (0 <= m)%Z -> (0 <= n)%Z -> identity_of m = identity_of n -> m = n.
Proof.
  unfold identity_of, dec_Z. intros Hm Hn H. apply app_inv_head in H.
  rewrite (proj2 (Z.ltb_ge m 0)), (proj2 (Z.ltb_ge n 0)) in H by done. apply dec_inj in H. lia.
Qed.

(** The identity of a transaction on SQLite. Whatever is asked of the adapter
    between capturing the identity and reading it back within the session, the
    two are different if a transaction was begun or committed in between, and
    equal if nothing but statements, probes and inspections ran. *)
Lemma identity_separates {L} {LB : Library L} {HV : HostView L} {HL : HostLaws L} {PR : PyRuntime} {UC : Unicode} {V : Versions}
    (C : SqliteConf) s s1 s2 s3 ops i j
    (Hepoch : (0 <= ss_txn_epoch s)%Z) (Hops : Forall (fun o => session_op o = false) ops)
    (Hi : do_establish_identity s = (s1, Ok (Some i)))
    (H2 : s2 = run_ops C ops s1)
    (Hj : do_read_identity s2 = (s3, Ok (Some j))) :
  ((exists before o after, ops = before ++ o :: after /\ (o = RBegin \/ o = RCommit) /\
      is_ok (sqlite_driver C o (run_ops C before s1)).2 = true) -> i <> j) /\
  (Forall (fun o => boundary_op o = false) ops -> i = j).
Proof.
  assert (i = identity_of (ss_txn_epoch s1) /\ (0 <= ss_txn_epoch s1)%Z) as [-> H1].
  { revert Hi. unfold do_establish_identity. unfold mbind at 1. unfold EM_bind at 1.
    pose proof (epoch_driver C RHasOpen eq_refl s) as He. cbn [sqlite_driver] in He.
    destruct (db_in_transaction s) as [s0 [[]|x]]; [|done..]. intros [= <- <-]. unfold same_epoch in He. simpl in *. split; [done|lia]. }
  assert (j = identity_of (ss_txn_epoch s2)) as ->.
  { revert Hj. unfold do_read_identity. unfold mbind at 1. unfold EM_bind at 1.
    pose proof (epoch_driver C RHasOpen eq_refl s2) as He. cbn [sqlite_driver] in He.
    destruct (db_in_transaction s2) as [s0 [[]|x]]; [|done..]. intros [= _ <-]. unfold same_epoch in He. simpl in He. by rewrite He. }
  assert (0 <= ss_txn_epoch s2)%Z by (subst; destruct (fields_run_ops C ops s1 Hops) as (_ & _ & ? & _); lia). split.
  - intros (before & o & after & -> & Ho & Hok) Heq%identity_of_inj; [|done..]. apply Forall_app in Hops as [Hb Ha].
    apply Forall_cons in Ha as [_ Ha]. subst s2. unfold run_ops in *. rewrite fold_left_app in Heq. simpl in Heq.
    pose proof (epoch_grows C o _ _ Ho Hok eq_refl) as Hg. destruct (fields_run_ops C before s1 Hb) as (_ & _ & Hg1 & _).
    destruct (fields_run_ops C after (sqlite_driver C o (run_ops C before s1)).1 Ha) as (_ & _ & Hg2 & _). unfold run_ops in *.
    lia.
  - intros Hn. subst s2. by rewrite (epoch_run_ops C ops s1 Hn).
Qed.
