(* ===== verification/SqliteRun.v ===== *)
(** * Runs on SQLite

    The lock under a whole run: the order of a run's calls ([Protocol], [Order]) and
    what the adapter does with the lock file ([SqliteLock]) together. *)
From S2P Require Import Prelude PyStr Text Errors Latch Paths Manifest Model Fingerprint StateValidate SqlText Admission Metadata Checks World.
From S2P Require Import Adapter Context Engine Protocol Order Replay.
From S2P Require Import Statements Config SqliteText SqliteLib Sqlite SqliteInspect SqliteLock.
Open Scope str_scope.

(** ** The lock *)
Section locked.
Context {L : Type} {LB : Library L} {HV : HostView L} {HL : HostLaws L} {PR : PyRuntime} {UC : Unicode} {V : Versions}.
Context (C : SqliteConf).

(** This process holds the namespace lock, on the descriptor that the adapter keeps. *)
Definition holds_lock (s : Session L) : Prop :=
  exists fd, ss_lock_fd s = Some fd /\ lock_owner (ss_lib s) = Some fd.

Lemma poll_lock_holds fuel fd deadline s s' : poll_lock fuel fd deadline s = (s', Ok tt) -> holds_lock s'.
Proof.
  revert s. induction fuel as [|fuel IH]; intros s; [done|]. intros Hp.
  destruct (poll_round fuel fd deadline s _ Hp) as [(? & ? & _)|(s2 & H2 & _)]; [by exists fd|by eapply IH].
Qed.

Lemma acquire_lock_holds s s' : acquire_lock C s = (s', Ok tt) -> holds_lock s'.
Proof.
  unfold acquire_lock, mbind, EM_bind. destruct (lib _ s) as [s1 [fd|x]]; [|done].
  destruct (lib LMonotonic s1) as [s2 [t|x]]; [|done]. apply poll_lock_holds.
Qed.

Lemma fields_holds s s' : same_fields s s' -> holds_lock s -> holds_lock s'.
Proof. intros (H1 & _ & _ & H2) (fd & ? & ?). exists fd. split; congruence. Qed.
End locked.

(** C9: on SQLite a run works under the lock. Whenever a run asks the adapter for
    anything but to connect, to describe the session, to take the lock or to end,
    this process holds the namespace lock at that moment, through every commit,
    failure and retry before it. *)
Theorem sqlite_run_locked {L} {LB : Library L} {HV : HostView L} {HL : HostLaws L} {PR : PyRuntime} {UC : Unicode} {V : Versions}
    {I : Interpreter} {D : Dialect} {H : Host} {LD : Loader} {DF : Deferred}
    (C : SqliteConf) b capture recover_id (s : Session L) runner :
  each_after (fun pre e => needs_lock (ev_op e) = true -> holds_lock (after_log (DR := sqlite_driver C) s pre))
    (run_log (DR := sqlite_driver C) b capture recover_id s runner).
Proof.
  eapply each_after_impl; [|apply (run_locked (DR := sqlite_driver C) (fun _ => True) holds_lock (fun _ => True))].
  - intros pre e Hp Hn. apply Hp; [done|]. by apply Forall_forall.
  - done.
  - done.
  - intros s0 s1 _. apply acquire_lock_holds.
  - intros o s0 Ho _. apply fields_holds, (fields_driver C o Ho).
Qed.
