(* ===== verification/MemoryRuntime.v ===== *)
(** * A concrete interpreter

    What the databases held in memory share: times as texts, the interpreter's
    answers, and the engine's statements recognised by their text. *)
From S2P Require Import Prelude PyStr Text Errors Latch Paths Manifest Model Fingerprint StateValidate SqlText Admission Metadata World.
From S2P Require Import Statements History Durable Memory Contract Effects Dbapi SqliteRefines.
Open Scope str_scope.

(** ** The interpreter and the clock's texts *)

(** A time is written as one character beyond the ASCII ones. *)
Definition iso_char (t : timestamp) : char := (200 + (if (0 <=? t)%Z then 2 * Z.to_N t else 2 * Z.to_N (- t) + 1))%N.
Definition char_time (c : char) : timestamp :=
  let n := (c - 200)%N in if N.even n then Z.of_N (n / 2) else (- Z.of_N (n / 2))%Z.

#[export] Instance memory_iso : TimestampText := fun t => [iso_char t].

#[export] Instance memory_runtime : PyRuntime := {|
  int_of_text := text_int;
  from_iso s := match s with [c] => Some (char_time c) | _ => None end;
  obj_str _ := "object";
  obj_datetime _ := None;
  obj_collection _ := false;
|}.

Lemma char_time_iso t : char_time (iso_char t) = t.
Proof.
  unfold char_time, iso_char. destruct (0 <=? t)%Z eqn:E.
  - replace (200 + 2 * Z.to_N t - 200)%N with (2 * Z.to_N t)%N by lia. rewrite N.even_even, N.mul_comm, N.div_mul by done.
    apply Z.leb_le in E. lia.
  - replace (200 + (2 * Z.to_N (- t) + 1) - 200)%N with (2 * Z.to_N (- t) + 1)%N by lia. rewrite N.even_odd.
    replace (2 * Z.to_N (- t) + 1)%N with (1 + Z.to_N (- t) * 2)%N by lia. rewrite N.div_add by done.
    apply Z.leb_gt in E. change (1 / 2)%N with 0%N. lia.
Qed.

(** What is written is read back. *)
Lemma memory_iso_reads t : from_iso (replace_all " " "T" (iso t)) = Some t.
Proof.
  simpl. rewrite <-(char_time_iso t) at 2. unfold iso, memory_iso, replace_all. cbn [replace_skipping].
  replace (starts_with " " [iso_char t]) with false; [done|]. unfold starts_with.
  rewrite (proj2 (N.eqb_neq _ _)); [done|]. unfold iso_char. lia.
Qed.

Definition meta_values (m : MetaRow) : list pyval :=
  [VStr META_SINGLETON_KEY; VInt (mt_layout_version m); VStr (mt_adapter m); VStr (mt_lock_provider m);
   VStr (mt_lock_binding m); VStr (mt_target_namespace m); val_time (mt_initialized_at m)].

Definition count_of {A} (l : list A) : list (list pyval) := [[VInt (Z.of_nat (length l))]].

Definition named (l : bindings_list) (name : str) : str :=
  match bound l name with Some (VStr s) => s | _ => [] end.

Section decode.
Context {SP : Spelling}.

(** The engine's statements, recognised by their text. *)
Definition bound_int (l : bindings_list) (name : str) : option Z := match bound l name with Some (VInt z) => Some z | _ => None end.
Definition bound_str (l : bindings_list) (name : str) : option str := match bound l name with Some (VStr s) => Some s | _ => None end.

Definition decode_runner (l : bindings_list) : runner_binds :=
  MkBinds (bound_str l "runner_host") (bound_str l "runner_user") (bound_int l "runner_pid") (bound_str l "db_session")
    (named l "tool_version").

Definition decode_insert (status : Status) (first finished : bool) (l : bindings_list) : metadata_cmd :=
  InsertHistory status first finished (default 0%Z (bound_int l "seq")) (named l "migration_id") (named l "fingerprint")
    (named l "language") (named l "exec_mode") (decode_runner l).

Definition commands : list (bindings_list -> metadata_cmd) :=
  [decode_insert ST_ACTIVE false false; decode_insert ST_ACTIVE false true; decode_insert ST_ACTIVE true false;
   decode_insert ST_ACTIVE true true; decode_insert ST_SUCCESS false false; decode_insert ST_SUCCESS false true;
   decode_insert ST_SUCCESS true false; decode_insert ST_SUCCESS true true;
   (fun l => UpdateAttempt (named l "migration_id") (named l "fingerprint") (named l "language") (decode_runner l));
   (fun l => CompleteHistory (named l "migration_id") (named l "tool_version"));
   (fun l => DeleteProgress (named l "migration_id"));
   (fun l => UpsertProgress (named l "migration_id") (named l "prog_key") (named l "prog_value"));
   (fun l => InsertMarker (default 0%Z (bound_int l "layout_version")) (named l "adapter") (named l "lock_provider")
               (named l "lock_binding") (named l "target_namespace"))].

Definition decode (sql : str) (l : bindings_list) : option metadata_cmd :=
  (fun k => k l) <$> find (fun k => bool_decide (render (cmd_sql (k l)) = sql)) commands.

End decode.
