(* ===== verification/SqliteMemory.v ===== *)
(** * SQLite in memory

    A concrete library under the SQLite adapter: one database file with
    transactions, its catalogue, a lock file and a clock. It answers the texts that
    the adapter sends and shows that what is assumed of the library can be had. *)
From S2P Require Import Prelude PyStr Text Errors Latch Paths Manifest Model Fingerprint StateValidate SqlText Admission Metadata World.
From S2P Require Import Statements History Checks Adapter Context Engine Durable Memory Contract MemoryRuntime Config SqliteText SqliteLib Sqlite SqliteInspect SqliteRefines SqliteLock.
From S2P Require Import Protocol Order Replay SqliteRun SqliteSettings SqliteLayout.
Open Scope str_scope.

#[local] Existing Instances ascii_unicode sqlite_spelling.

(** ** The library's state *)
Record MemLib := MkMemLib {
  ml_durable : MetaDB;
  ml_pending : option MetaDB;      (* the rows inside an open transaction *)
  ml_objects : list str;
  ml_marker : option MetaRow;
  ml_clock : Z;
  ml_fds : list Z;                 (* open descriptors *)
  ml_owner : option Z;             (* the one that holds the lock *)
  ml_until : Z;                    (* when the other runner lets go of the lock *)
}.

Definition set_rows (d : MetaDB) (p : option MetaDB) (m : MemLib) : MemLib :=
  MkMemLib d p (ml_objects m) (ml_marker m) (ml_clock m) (ml_fds m) (ml_owner m) (ml_until m).
Definition set_catalog (objects : list str) (marker : option MetaRow) (m : MemLib) : MemLib :=
  MkMemLib (ml_durable m) (ml_pending m) objects marker (ml_clock m) (ml_fds m) (ml_owner m) (ml_until m).
Definition set_host (clock : Z) (fds : list Z) (owner : option Z) (m : MemLib) : MemLib :=
  MkMemLib (ml_durable m) (ml_pending m) (ml_objects m) (ml_marker m) clock fds owner (ml_until m).

Definition ml_working (m : MemLib) : MetaDB := default (ml_durable m) (ml_pending m).

#[export] Instance memlib_storage : Storage MemLib := {
  durable := ml_durable;
  working := ml_working;
  in_txn m := match ml_pending m with Some _ => true | None => false end;
}.

Definition sql_error : pyexn :=
  PyException (MkDriver "sqlite3.OperationalError" [sqlite_error; database_error] (Some "SQLITE_ERROR") 0 false).
Definition lock_taken : pyexn := PyException (MkDriver "builtins.BlockingIOError" [os_error] None EAGAIN false).

Definition rows_of (l : list (list pyval)) : cursor := MkCursor l (-1).

(** ** The catalogue *)
Definition table_info (table : str) (pk : list (str * Z)) : list (list pyval) :=
  match EXPECTED_COLUMNS table with
  | None => []
  | Some columns =>
      map (fun c : column => [VInt 0; VStr c.1.1; VStr c.1.2; VInt c.2; VNone;
             VInt (default 0%Z (snd <$> find (fun k => bool_decide (k.1 = c.1.1)) pk))]) columns
  end.

Definition pragmas : list (str * list (list pyval)) :=
  [("PRAGMA foreign_keys", [[VInt 1]]); ("PRAGMA ignore_check_constraints", [[VInt 0]]); ("PRAGMA synchronous", [[VInt 2]]);
   ("PRAGMA journal_mode = wal", [[VStr "wal"]]);
   ("PRAGMA table_info(m8_history)", table_info HISTORY_TABLE [("migration_id", 1%Z)]);
   ("PRAGMA table_info(m8_progress)", table_info PROGRESS_TABLE [("migration_id", 1%Z); ("prog_key", 2%Z)]);
   ("PRAGMA table_info(m8_meta)", table_info META_TABLE [("meta_key", 1%Z)]);
   ("PRAGMA index_list(m8_history)",
      [[VInt 0; VStr ACTIVE_INDEX; VInt 1; VStr "c"; VInt 1]; [VInt 1; VStr "auto_seq"; VInt 1; VStr "u"; VInt 0]]);
   ("PRAGMA index_info(m8_history_one_active)", [[VInt 0; VInt 6; VStr "status"]]);
   ("PRAGMA index_info(auto_seq)", [[VInt 0; VInt 0; VStr "seq"]]);
   ("PRAGMA foreign_key_list(m8_progress)",
      [[VInt 0; VInt 0; VStr HISTORY_TABLE; VStr "migration_id"; VStr "migration_id"; VStr "NO ACTION"; VStr "NO ACTION"; VStr "NONE"]])].

(** sqlite_master keeps the statement from its first word on. *)
Definition stored_row (name : str) : list (list pyval) :=
  match ddl_of name with
  | None => []
  | Some sql =>
      let index := bool_decide (name = ACTIVE_INDEX) in
      [[VStr (if index then "index" else "table"); VStr (if index then HISTORY_TABLE else name);
        VStr (strip_with ascii_space sql)]]
  end.

(** The answers to quiet texts. *)
Definition mem_answer (sql : str) (params : sql_params) (m : MemLib) : list (list pyval) :=
  let w := ml_working m in
  if bool_decide (sql = select_history_sql) then map history_values (db_history w)
  else if bool_decide (sql = select_progress_sql) then map progress_columns (db_progress w)
  else if bool_decide (sql = OBJECTS_SQL) then map (fun n => [VStr n]) (ml_objects m)
  else if bool_decide (sql = STORED_SQL) then match params with Positional [VStr name] => stored_row name | _ => [] end
  else if bool_decide (sql = render (count_sql HISTORY_TABLE)) then count_of (db_history w)
  else if bool_decide (sql = render (count_sql PROGRESS_TABLE)) then count_of (db_progress w)
  else if bool_decide (sql = render (count_sql META_TABLE)) then count_of (option_list (ml_marker m))
  else if bool_decide (sql = render read_meta_sql) then map meta_values (option_list (ml_marker m))
  else if bool_decide (sql = render progress_get_sql) then
    match params with
    | Named l => map (fun p => [VStr (pr_value p)]) (filter (has_key (named l "migration_id") (named l "prog_key")) (db_progress w))
    | _ => []
    end
  else default [] (snd <$> find (fun kv => bool_decide (kv.1 = sql)) pragmas).

Definition mem_quiet (sql : str) (params : sql_params) (m : MemLib) : MemLib * result pyexn cursor :=
  if mem sql ["BEGIN IMMEDIATE"; "BEGIN DEFERRED"] then
    match ml_pending m with
    | Some _ => (m, Err sql_error)
    | None => (set_rows (ml_durable m) (Some (ml_durable m)) m, Ok (rows_of []))
    end
  else if bool_decide (sql = "ROLLBACK") then (set_rows (ml_durable m) None m, Ok (rows_of []))
  else match find (fun kv => bool_decide (kv.2 = sql)) DDL with
  | Some (name, _) => (set_catalog (ml_objects m ++ [name]) (ml_marker m) m, Ok (rows_of []))
  | None => (m, Ok (rows_of (mem_answer sql params m)))
  end.

Definition mem_command (c : metadata_cmd) (m : MemLib) : MemLib * result pyexn cursor :=
  let db := apply_cmd (ml_clock m) c (ml_working m) in
  let m := match c with
           | InsertMarker v a p lb ns => set_catalog (ml_objects m) (Some (MkMeta v a p lb ns (Some (ml_clock m)))) m
           | _ => m
           end in
  (match ml_pending m with Some _ => set_rows (ml_durable m) (Some db) m | None => set_rows db None m end,
   Ok (MkCursor [] (affected c (ml_working m)))).

Definition mem_execute (sql : str) (params : sql_params) (m : MemLib) : MemLib * result pyexn cursor :=
  if quiet_text sql then mem_quiet sql params m
  else if bool_decide (sql = "COMMIT") then
    match ml_pending m with
    | Some db => (set_rows db None m, Ok (rows_of []))
    | None => (m, Err sql_error)
    end
  else match params with
  | Named l => match decode sql l with Some c => mem_command c m | None => (m, Err sql_error) end
  | _ => (m, Ok (MkCursor [] 0))
  end.

#[export] Instance memory_library : Library MemLib := fun o m =>
  match o return MemLib * result pyexn (lib_reply o) with
  | LMkdir _ | LConnect _ _ | LHook _ _ => (m, Ok tt)
  | LInTransaction => (m, Ok (match ml_pending m with Some _ => true | None => false end))
  | LExecute sql params => mem_execute sql params m
  | LExecuteMany _ _ => (m, Ok (MkCursor [] 0))
  | LClose => (set_rows (ml_durable m) None m, Ok tt)
  | LOpen _ => let fd := (foldr Z.max 2 (ml_fds m) + 1)%Z in (set_host (ml_clock m) (fd :: ml_fds m) (ml_owner m) m, Ok fd)
  | LFlock fd =>
      if (ml_until m <=? ml_clock m)%Z then (set_host (ml_clock m) (ml_fds m) (Some fd) m, Ok tt) else (m, Err lock_taken)
  | LUnlock _ => (set_host (ml_clock m) (ml_fds m) None m, Ok tt)
  | LCloseFd fd =>
      let owner := if bool_decide (ml_owner m = Some fd) then None else ml_owner m in
      (set_host (ml_clock m) (List.filter (fun d => negb (d =? fd)%Z) (ml_fds m)) owner m, Ok tt)
  | LMonotonic => (m, Ok (ml_clock m))
  | LSleep ns => (set_host (ml_clock m + Z.max ns 0)%Z (ml_fds m) (ml_owner m) m, Ok tt)
  | LGetpid => (m, Ok 7%Z)
  end.

(** ** It does what is assumed of SQLite *)
Lemma decode_command c params : binds (cmd_sql c) (cmd_params c) = Ok params -> decode (render (cmd_sql c)) params = Some c.
Proof.
  intros Hb. destruct c as [[] [] [] ? ? ? ? ? r|? ? ? r| | | |]; try destruct r as [[] [] [] [] ?].
  all: vm_compute in Hb; injection Hb as <-; vm_compute; reflexivity.
Qed.

Lemma not_quiet_command c : quiet_text (render (cmd_sql c)) = false /\ render (cmd_sql c) <> "COMMIT".
Proof. by destruct c as [[] [] [] ? ? ? ? ? r|? ? ? r| | | |]. Qed.

Lemma mem_quiet_nothing sql params m : commits_nothing m (mem_quiet sql params m).1.
Proof.
  unfold mem_quiet, commits_nothing. simpl. unfold ml_working. destruct (mem sql _).
  - destruct (ml_pending m) eqn:E; simpl; rewrite ?E; simpl; auto.
  - case_bool_decide; simpl; [by auto|]. repeat case_match; simpl; auto.
Qed.

#[export] Instance memory_library_laws : LibraryLaws MemLib.
Proof.
  split.
  - intros m. simpl. unfold ml_working. by destruct (ml_pending m).
  - intros m. simpl. split_and!; [done|done|]. by intros b [= <-].
  - intros sql params m Hq. unfold lib_step, memory_library, mem_execute. rewrite Hq. apply mem_quiet_nothing.
  - intros o m Ho. destruct o; try done; unfold lib_step; simpl; unfold commits_nothing, ml_working; simpl; auto.
    destruct (ml_until m <=? ml_clock m)%Z; simpl; auto.
  - done.
  - intros sql params m Hp. unfold lib_step, memory_library, mem_execute.
    destruct (quiet_text sql); [apply quiet_may_commit, mem_quiet_nothing|]. case_bool_decide.
    + unfold may_commit. simpl. unfold ml_working. destruct (ml_pending m) eqn:E; simpl; rewrite ?E; auto.
    + destruct params; try done; apply may_commit_refl.
  - intros sql sets m. apply may_commit_refl.
  - intros m. unfold lib_step, memory_library, mem_execute. simpl. unfold may_commit.
    destruct (ml_pending m) eqn:E; simpl; unfold ml_working; simpl; rewrite ?E; simpl; auto.
  - intros sql m m' c Hs. unfold lib_step, memory_library, mem_execute.
    assert (quiet_text sql = true) as -> by (apply mem_true in Hs; set_solver).
    unfold mem_quiet. rewrite Hs. destruct (ml_pending m); [done|]. by intros [= <- _].
  - intros c params m Hb. unfold lib_step, memory_library, mem_execute. destruct (not_quiet_command c) as [-> Hc].
    rewrite bool_decide_eq_false_2 by done. rewrite (decode_command c params Hb). unfold mem_command.
    apply (executes_as (ml_clock m)); destruct c; destruct (ml_pending m) eqn:E; simpl; unfold ml_working; simpl; rewrite ?E; simpl; auto.
  - intros m m' c [= <- <-]. split; [done|]. by exists (db_history (ml_working m)).
  - intros m m' c [= <- <-]. split; [done|]. by exists (db_progress (ml_working m)).
  - apply memory_iso_reads.
Qed.

(** ** And what is assumed of the operating system *)
#[export] Instance memlib_host : HostView MemLib := {
  open_fds m := list_to_set (ml_fds m);
  lock_owner := ml_owner;
  clock := ml_clock;
}.

Lemma max_fresh (l : list Z) fd : fd ∈ l -> (fd < foldr Z.max 2 l + 1)%Z.
Proof. induction l as [|d l IH]; [by intros ?%elem_of_nil|]. intros [->|H]%elem_of_cons; simpl; [lia|]. specialize (IH H). lia. Qed.

Lemma mem_command_host c m :
  ml_fds (mem_command c m).1 = ml_fds m /\ ml_owner (mem_command c m).1 = ml_owner m /\
  ml_clock (mem_command c m).1 = ml_clock m.
Proof. destruct c; unfold mem_command; simpl; by destruct (ml_pending m). Qed.

Lemma mem_quiet_host sql params m :
  ml_fds (mem_quiet sql params m).1 = ml_fds m /\ ml_owner (mem_quiet sql params m).1 = ml_owner m /\
  ml_clock (mem_quiet sql params m).1 = ml_clock m.
Proof. unfold mem_quiet. by repeat case_match. Qed.

Lemma mem_execute_host sql params m :
  ml_fds (mem_execute sql params m).1 = ml_fds m /\ ml_owner (mem_execute sql params m).1 = ml_owner m /\
  ml_clock (mem_execute sql params m).1 = ml_clock m.
Proof.
  unfold mem_execute. destruct (quiet_text sql); [apply mem_quiet_host|].
  destruct (bool_decide (sql = "COMMIT")); [by destruct (ml_pending m)|].
  destruct params; try done. destruct (decode sql l); [apply mem_command_host|done].
Qed.

Lemma mem_execute_error sql params m x : (mem_execute sql params m).2 = Err x -> x = sql_error.
Proof. unfold mem_execute, mem_quiet. repeat case_match; simpl; naive_solver. Qed.

#[export] Instance memlib_host_laws : HostLaws MemLib.
Proof.
  split.
  - intros o m m' x. destruct o; unfold lib_step; simpl; try done.
    + intros H. apply (f_equal snd), mem_execute_error in H as ->. done.
    + destruct (ml_until m <=? ml_clock m)%Z; [done|]. by intros [= _ <-].
  - intros o m. destruct o; unfold lib_step; simpl; try lia.
    + destruct (mem_execute_host sql params m) as (_ & _ & ->). lia.
    + destruct (ml_until m <=? ml_clock m)%Z; simpl; lia.
  - intros m m' t [= <- <-]. simpl. lia.
  - intros ns m m' [= <-]. simpl. lia.
  - intros p m. unfold lib_step. simpl. split; [|set_solver]. rewrite elem_of_list_to_set. intros H%max_fresh. lia.
  - intros fd m m' [= <-]. simpl. apply set_eq. intros d. rewrite elem_of_difference, !elem_of_list_to_set, elem_of_singleton.
    rewrite !list_elem_of_In, filter_In, negb_true_iff, Z.eqb_neq. naive_solver.
  - intros o m Ho. destruct o; try done; unfold lib_step; simpl.
    + by destruct (mem_execute_host sql params m) as (-> & _).
    + by destruct (ml_until m <=? ml_clock m)%Z.
  - intros fd m m'. unfold lib_step. simpl. destruct (ml_until m <=? ml_clock m)%Z; [by intros [= <-]|done].
  - intros o m Ho. destruct o; try done; unfold lib_step; simpl.
    by destruct (mem_execute_host sql params m) as (_ & -> & _).
Qed.

#[export] Instance memlib_turn : TurnView MemLib := ml_until.

#[export] Instance memlib_turn_laws : TurnLaws MemLib 0.
Proof.
  split; unfold lib_step, free_at, memlib_turn; simpl.
  - intros p m. by do 2 eexists.
  - intros m. do 2 eexists. split_and!; [done|done|lia].
  - intros ns m. by eexists.
  - intros fd m. destruct (ml_until m <=? ml_clock m)%Z eqn:E; do 2 eexists; (split; [done|]); simpl; (split_and!; [done|lia|]); [by left|].
    right. apply Z.leb_gt in E. split; [done|]. by eexists.
Qed.

(** Its settings are what the adapter asks for at the level FULL. *)
#[export] Instance memlib_settings : SettingsView MemLib := fun _ p =>
  default VNone (rows ← snd <$> find (fun kv => bool_decide (kv.1 = "PRAGMA " ++ p)) pragmas; row ← head rows; head row).

#[export] Instance memlib_settings_laws : SettingsLaws MemLib.
Proof.
  split.
  - intros p m m' c Hp. apply elem_of_cons in Hp as [->|[->|[->|[]%elem_of_nil]%elem_of_cons]%elem_of_cons]; intros [= _ <-].
    all: split; [by right|done].
  - done.
  - done.
Qed.

(** Its catalogue. *)
#[export] Instance memlib_catalog : CatalogView MemLib := fun m sql params => mem_answer sql params m.

Lemma mem_execute_asks sql params m : quiet_text sql = true -> mem sql ["BEGIN IMMEDIATE"; "BEGIN DEFERRED"] = false ->
  sql <> "ROLLBACK" -> find (fun kv => bool_decide (kv.2 = sql)) DDL = None ->
  mem_execute sql params m = (m, Ok (rows_of (mem_answer sql params m))).
Proof. intros Hq Hb Hr Hd. unfold mem_execute, mem_quiet. by rewrite Hq, Hb, bool_decide_eq_false_2, Hd. Qed.

#[export] Instance memlib_catalog_laws : CatalogLaws MemLib.
Proof.
  split.
  - intros name argument m m' c Hn. unfold lib_step, memory_library. rewrite mem_execute_asks; [by intros [= <- <-]|..].
    all: apply list_elem_of_In in Hn; simpl in Hn; destruct_or! Hn; subst; done.
  - intros params m m' c. unfold lib_step, memory_library. rewrite mem_execute_asks; [by intros [= <- <-]|done..].
Qed.

(** ** A run on it *)
Definition demo_conf : SqliteConf := MkSqliteConf ["srv"; "app.db"] ["srv"; "app.db.m8lock"] 5000 "wal" "full" 10.

(** A new database; another runner has the lock for three rounds of the polling. *)
Definition demo_library : MemLib := MkMemLib empty_db None [] None 0 [] None (3 * POLL_NS).
Definition demo_session : Session MemLib := MkSession demo_library false None 0.

#[local] Instance demo_versions : Versions := "SQLite".
#[local] Existing Instances ascii_interpreter sqlite_dialect demo_host.
#[local] Instance demo_loader : Loader := fun _ => Ok demo_prog.
#[local] Instance demo_deferred : Deferred := fun _ => false.

Definition sqlite_run (s : Session MemLib) : World (Session MemLib) * result pyexn unit :=
  run (DR := sqlite_driver demo_conf) demo_bindings demo_capture None (initial_world s demo_runner).

Definition sqlite_statuses (w : World (Session MemLib)) : list (str * str) :=
  map (fun r => (hr_id r, hr_status r)) (db_history (ml_durable (ss_lib (w_driver w)))).

(** The run waits for the lock, initializes the namespace, runs the migrations and
    gives everything back; the next one finds nothing to do. *)
Example sqlite_run_ok :
  let w := (sqlite_run demo_session).1 in
  let again := (sqlite_run (w_driver w)).1 in
  rp_exit_code (w_report w) = OK /\ rp_executed (w_report w) = ["one"; "two"; "three"] /\
  sqlite_statuses w = [("one", "SUCCESS"); ("two", "SUCCESS"); ("three", "SUCCESS")] :> list (str * str) /\
  ml_fds (ss_lib (w_driver w)) = [] /\ ss_lock_fd (w_driver w) = None /\ ml_clock (ss_lib (w_driver w)) = (3 * POLL_NS)%Z /\
  rp_exit_code (w_report again) = OK /\ rp_executed (w_report again) = [].
Proof. vm_compute. done. Qed.

(** Another runner that does not let go of the lock: the run ends after its timeout. *)
Example sqlite_run_waits :
  let w := (sqlite_run (MkSession (MkMemLib empty_db None [] None 0 [] None (1000 * NS)) false None 0)).1 in
  rp_exit_code (w_report w) = LOCK_NOT_ACQUIRED /\ ml_fds (ss_lib (w_driver w)) = [] /\
  ml_clock (ss_lib (w_driver w)) = (10 * NS)%Z.
Proof. vm_compute. done. Qed.


Lemma acquire_lock_ends_witness :
  let '(s', r) := acquire_lock demo_conf demo_session in
  r <> Err out_of_fuel /\
  match r with
  | Ok _ => exists fd, ss_lock_fd s' = Some fd /\ lock_owner (ss_lib s') = Some fd /\ (fd ∉ open_fds (ss_lib demo_session)) /\
      open_fds (ss_lib s') = {[fd]} ∪ open_fds (ss_lib demo_session)
  | Err (PyMigr8 e) => ss_lock_fd s' = ss_lock_fd demo_session /\ open_fds (ss_lib s') = open_fds (ss_lib demo_session) /\
      ((e_class e = LockNotAcquiredError /\
        (clock (ss_lib demo_session) + sc_timeout_seconds demo_conf * NS <= clock (ss_lib s'))%Z) \/ e_class e = UsageError)
  | Err _ => ss_lock_fd s' = ss_lock_fd demo_session
  end.
Proof. apply (acquire_lock_ends demo_conf demo_session). simpl. lia. Defined.

Lemma sqlite_run_locked_witness :
  each_after (fun pre e => needs_lock (ev_op e) = true -> holds_lock (after_log (DR := sqlite_driver demo_conf) demo_session pre))
    (run_log (DR := sqlite_driver demo_conf) demo_bindings demo_capture None demo_session demo_runner).
Proof. exact (sqlite_run_locked demo_conf demo_bindings demo_capture None demo_session demo_runner). Defined.

Lemma acquire_lock_served_witness :
  exists s' fd, acquire_lock demo_conf demo_session = (s', Ok tt) /\ ss_lock_fd s' = Some fd /\ lock_owner (ss_lib s') = Some fd.
Proof. apply (acquire_lock_served 0 demo_conf demo_session); [done|]. vm_compute. done. Defined.

(** A connected session inside a transaction, and one that follows it. *)
Definition in_batch : Session MemLib := (sqlite_driver demo_conf RBegin (sqlite_driver demo_conf RConnect demo_session).1).1.
Definition next_batch : list rawop := [RCommit; RReadMarker; RBegin].

Lemma identity_separates_witness : identity_of 1 <> identity_of 3 :> str.
Proof.
  refine (proj1 (identity_separates demo_conf in_batch in_batch (run_ops demo_conf next_batch in_batch)
    (run_ops demo_conf next_batch in_batch) next_batch (identity_of 1) (identity_of 3) _ _ _ _ _) _).
  - done.
  - by repeat constructor.
  - vm_compute. done.
  - done.
  - vm_compute. done.
  - exists [], RCommit, [RReadMarker; RBegin]. split_and!; [done|by right|by vm_compute].
Defined.

Definition demo_config : Config :=
  MkConfig ["srv"; "m8.toml"] "sqlite" None None None (Some ["srv"; "app.db"]) (MkLock "file" 10 None None) [].

Lemma connect_settings_witness :
  let s' := (connect demo_conf demo_session).1 in
  ss_conn s' = true /\ setting (ss_lib s') "foreign_keys" = VInt 1 /\
  setting (ss_lib s') "ignore_check_constraints" = VInt 0 /\
  exists level, (sc_synchronous demo_conf, level) ∈ SYNCHRONOUS_LEVELS /\ setting (ss_lib s') "synchronous" = VInt level.
Proof.
  apply (connect_settings false (fun p => p) (Err type_error) demo_config demo_conf demo_session
    (connect demo_conf demo_session).1 (Ok tt)); by vm_compute.
Defined.

(** The namespace as the run leaves it, inspected. *)
Definition initialized : Session MemLib := (connect demo_conf (w_driver (sqlite_run demo_session).1)).1.

Lemma inspection_exact_witness : Forall (object_ok (catalog (ss_lib initialized))) CREATION_ORDER.
Proof.
  apply Forall_forall. intros name Hn.
  apply (inspection_exact CREATION_ORDER initialized (definition_problems CREATION_ORDER initialized).1 []); [|done..].
  vm_compute. done.
Defined.
