(* ===== verification/PgText.v ===== *)
(** * The PostgreSQL metadata definitions ([adapters/postgres.py], module level)

    The statements that create the metadata objects, the columns and constraints
    that the inspection expects, and the dictionary queries. *)
From S2P Require Import Prelude PyStr Errors Paths Manifest Model SqlText Admission Metadata Statements.
Open Scope str_scope.

(** ** The statements that create the objects

    [_DDL[name].format(...)]. *)
Section ddl.
Context {SP : Spelling}.

(* @src adapters/postgres.py 861-892 _DDL[HISTORY_TABLE] *)
Definition HISTORY_DDL : str := "
        CREATE TABLE " ++ metadata_name HISTORY_TABLE ++ " (
            seq               integer      NOT NULL,
            migration_id      varchar(200) NOT NULL,
            fingerprint       varchar(80)  NOT NULL,
            first_fingerprint varchar(80)  NOT NULL,
            language          varchar(10)  NOT NULL,
            mode              varchar(12)  NOT NULL,
            status            varchar(8)   NOT NULL,
            attempt           integer,
            started_at        timestamptz  NOT NULL,
            last_attempt_at   timestamptz,
            finished_at       timestamptz,
            runner_host       varchar(255),
            runner_user       varchar(128),
            runner_pid        integer,
            db_session        varchar(200),
            tool_version      varchar(64)  NOT NULL,
            CONSTRAINT m8_history_pk     PRIMARY KEY (migration_id),
            CONSTRAINT m8_history_seq_uq UNIQUE (seq),
            CONSTRAINT m8_history_seq_ck CHECK (seq > 0),
            CONSTRAINT m8_history_lang_ck   CHECK (language IN ('sql','python')),
            CONSTRAINT m8_history_mode_ck   CHECK (mode IN ('atomic','restartable')),
            CONSTRAINT m8_history_status_ck CHECK (status IN ('ACTIVE','SUCCESS')),
            CONSTRAINT m8_history_attempt_ck CHECK (attempt IS NULL OR attempt > 0),
            CONSTRAINT m8_history_active_ck
                CHECK (status <> 'ACTIVE' OR (mode = 'restartable'
                       AND attempt IS NOT NULL AND finished_at IS NULL)),
            CONSTRAINT m8_history_success_ck
                CHECK (status <> 'SUCCESS' OR finished_at IS NOT NULL)
        )
    ".

(* @src adapters/postgres.py 893-895 _DDL[ACTIVE_INDEX] *)
Definition ACTIVE_INDEX_DDL : str := "
        CREATE UNIQUE INDEX " ++ quoted (fold_name ACTIVE_INDEX) ++ " ON " ++ metadata_name HISTORY_TABLE ++ " (status) WHERE status = 'ACTIVE'
    ".

(* @src adapters/postgres.py 896-908 _DDL[PROGRESS_TABLE] *)
Definition PROGRESS_DDL : str := "
        CREATE TABLE " ++ metadata_name PROGRESS_TABLE ++ " (
            migration_id varchar(200)  NOT NULL,
            prog_key     varchar(128)  NOT NULL,
            prog_value   varchar(4000) NOT NULL,
            updated_at   timestamptz   NOT NULL,
            CONSTRAINT m8_progress_pk PRIMARY KEY (migration_id, prog_key),
            CONSTRAINT m8_progress_fk FOREIGN KEY (migration_id)
                REFERENCES " ++ metadata_name HISTORY_TABLE ++ " (migration_id),
            CONSTRAINT m8_progress_key_ck   CHECK (char_length(prog_key) BETWEEN 1 AND 128),
            CONSTRAINT m8_progress_value_ck CHECK (char_length(prog_value) >= 1)
        )
    ".

(* @src adapters/postgres.py 909-921 _DDL[META_TABLE] *)
Definition META_DDL : str := "
        CREATE TABLE " ++ metadata_name META_TABLE ++ " (
            meta_key         varchar(30)  NOT NULL,
            layout_version   integer      NOT NULL,
            adapter          varchar(30)  NOT NULL,
            lock_provider    varchar(30)  NOT NULL,
            lock_binding     varchar(200) NOT NULL,
            target_namespace varchar(128) NOT NULL,
            initialized_at   timestamptz  NOT NULL,
            CONSTRAINT m8_meta_pk PRIMARY KEY (meta_key),
            CONSTRAINT m8_meta_singleton_ck CHECK (meta_key = 'singleton')
        )
    ".

(* @src adapters/postgres.py 860-922 _DDL *)
Definition DDL : list (str * str) :=
  [(HISTORY_TABLE, HISTORY_DDL); (ACTIVE_INDEX, ACTIVE_INDEX_DDL); (PROGRESS_TABLE, PROGRESS_DDL); (META_TABLE, META_DDL)].

Definition ddl_of (name : str) : option str := snd <$> find (fun kv => bool_decide (kv.1 = name)) DDL.
End ddl.

(** ** The supported layout *)

(** A column: its name, its type as [format_type] writes it, whether it is NOT NULL. *)
Definition column : Type := str * str * bool.

(* @src adapters/postgres.py _EXPECTED_COLUMNS *)
Definition EXPECTED_COLUMNS : list (str * list column) :=
  [(HISTORY_TABLE,
    [("seq", "integer", true); ("migration_id", "character varying(200)", true); ("fingerprint", "character
     varying(80)", true); ("first_fingerprint", "character varying(80)", true); ("language", "character
     varying(10)", true); ("mode", "character varying(12)", true); ("status", "character varying(8)", true);
     ("attempt", "integer", false); ("started_at", "timestamp with time zone", true); ("last_attempt_at",
     "timestamp with time zone", false); ("finished_at", "timestamp with time zone", false); ("runner_host",
     "character varying(255)", false); ("runner_user", "character varying(128)", false); ("runner_pid",
     "integer", false); ("db_session", "character varying(200)", false); ("tool_version", "character
     varying(64)", true)]);
   (PROGRESS_TABLE,
    [("migration_id", "character varying(200)", true); ("prog_key", "character varying(128)", true);
     ("prog_value", "character varying(4000)", true); ("updated_at", "timestamp with time zone", true)]);
   (META_TABLE,
    [("meta_key", "character varying(30)", true); ("layout_version", "integer", true); ("adapter", "character
     varying(30)", true); ("lock_provider", "character varying(30)", true); ("lock_binding", "character
     varying(200)", true); ("target_namespace", "character varying(128)", true); ("initialized_at", "timestamp
     with time zone", true)])].

(* @src adapters/postgres.py _EXPECTED_CONSTRAINTS *)
Definition EXPECTED_CONSTRAINTS : list (str * ExpectedConstraints) :=
  [(HISTORY_TABLE, MkExpected [KeyPrimary "migration_id"; KeyUnique "seq"]
    ["check ( ( seq > 0 ) )";
     "check ( ( ( language ) :: text = any ( ( array [ 'sql' :: character varying , 'python' :: character varying ] ) :: text [ ] ) ) )";
     "check ( ( ( mode ) :: text = any ( ( array [ 'atomic' :: character varying , 'restartable' :: character varying ] ) :: text [ ] ) ) )";
     "check ( ( ( status ) :: text = any ( ( array [ 'ACTIVE' :: character varying , 'SUCCESS' :: character varying ] ) :: text [ ] ) ) )";
     "check ( ( ( attempt is null ) or ( attempt > 0 ) ) )";
     "check ( ( ( ( status ) :: text <> 'ACTIVE' :: text ) or ( ( ( mode ) :: text = 'restartable' :: text ) and ( attempt is not null ) and ( finished_at is null ) ) ) )";
     "check ( ( ( ( status ) :: text <> 'SUCCESS' :: text ) or ( finished_at is not null ) ) )"]);
   (PROGRESS_TABLE, MkExpected [KeyPrimary "migration_id,prog_key"; KeyForeign "migration_id" HISTORY_TABLE "migration_id"]
    ["check ( ( ( char_length ( ( prog_key ) :: text ) >= 1 ) and ( char_length ( ( prog_key ) :: text ) <= 128 ) ) )";
     "check ( ( char_length ( ( prog_value ) :: text ) >= 1 ) )"]);
   (META_TABLE, MkExpected [KeyPrimary "meta_key"]
    ["check ( ( ( meta_key ) :: text = 'singleton' :: text ) )"])].

(** A condition over the two literals as the server writes it after a dump, and as
    it writes the one of the DDL. *)
Definition dumped_rendering (column one two : str) : str * str :=
  ("check ( ( ( " ++ column ++ " ) :: text = any ( array [ ( '" ++ one ++ "' :: character varying ) :: text , ( '" ++ two ++
     "' :: character varying ) :: text ] ) ) )",
   "check ( ( ( " ++ column ++ " ) :: text = any ( ( array [ '" ++ one ++ "' :: character varying , '" ++ two ++
     "' :: character varying ] ) :: text [ ] ) ) )").

(* @src adapters/postgres.py _DUMPED_RENDERINGS *)
Definition DUMPED_RENDERINGS : list (str * str) :=
  [dumped_rendering "language" "sql" "python"; dumped_rendering "mode" "atomic" "restartable";
   dumped_rendering "status" "ACTIVE" "SUCCESS"].

(* @src adapters/postgres.py ACTIVE_INDEX_COLUMN *)
Definition ACTIVE_INDEX_COLUMN : str := "status".
(* @src adapters/postgres.py ACTIVE_INDEX_PREDICATE *)
Definition ACTIVE_INDEX_PREDICATE : str := "status = 'ACTIVE'".
(* @src adapters/postgres.py _SUPPORTED_ACTIVE_INDEX_PREDICATES *)
Definition SUPPORTED_ACTIVE_INDEX_PREDICATES {UC : Unicode} : list str :=
  map (fun text => compact_definition text true) [ACTIVE_INDEX_PREDICATE; "(status)::text = 'ACTIVE'::text"].

(** ** Dictionary queries *)
(* @src adapters/postgres.py 451-452 PostgresAdapter._objects_present (query) *)
Definition OBJECTS_SQL : str :=
  ("SELECT c.relname FROM pg_class c JOIN pg_namespace n ON n.oid = c.relnamespace WHERE n.nspname " ++
   "= %s AND c.relname = ANY(%s) AND c.relkind IN ('r','i')").
(* @src adapters/postgres.py 463-467 PostgresAdapter._definition_problems (query) *)
Definition COLUMNS_SQL : str :=
  ("SELECT a.attname, format_type(a.atttypid, a.atttypmod), a.attnotnull FROM pg_attribute a JOIN " ++
   "pg_class c ON c.oid = a.attrelid JOIN pg_namespace n ON n.oid = c.relnamespace WHERE n.nspname " ++
   "= %s AND c.relname = %s AND a.attnum > 0 AND NOT a.attisdropped ORDER BY a.attnum").
(* @src adapters/postgres.py 488-504 PostgresAdapter._constraint_problems (query) *)
Definition CONSTRAINTS_SQL : str :=
  ("SELECT con.contype, con.convalidated,   pg_get_constraintdef(con.oid),   (SELECT " ++
   "string_agg(att.attname, ',' ORDER BY k.ord)      FROM unnest(con.conkey) WITH ORDINALITY AS " ++
   "k(attnum, ord)      JOIN pg_attribute att ON att.attrelid = con.conrelid       AND att.attnum = " ++
   "k.attnum),   (SELECT rn.nspname FROM pg_class rc      JOIN pg_namespace rn ON rn.oid = " ++
   "rc.relnamespace     WHERE rc.oid = con.confrelid),   (SELECT rc.relname FROM pg_class rc WHERE " ++
   "rc.oid = con.confrelid),   (SELECT string_agg(att.attname, ',' ORDER BY k.ord)      FROM " ++
   "unnest(con.confkey) WITH ORDINALITY AS k(attnum, ord)      JOIN pg_attribute att ON " ++
   "att.attrelid = con.confrelid       AND att.attnum = k.attnum) FROM pg_constraint con JOIN " ++
   "pg_class c ON c.oid = con.conrelid JOIN pg_namespace n ON n.oid = c.relnamespace WHERE " ++
   "n.nspname = %s AND c.relname = %s").
(* @src adapters/postgres.py 565-574 PostgresAdapter._index_problems (query) *)
Definition INDEX_SQL : str :=
  ("SELECT i.indisunique, i.indisvalid, i.indisready,   pg_get_indexdef(i.indexrelid), c.relname, " ++
   "i.indnatts,   pg_get_expr(i.indpred, i.indrelid),   (SELECT string_agg(a.attname, ',' ORDER BY " ++
   "k.ord)      FROM unnest(i.indkey) WITH ORDINALITY AS k(attnum, ord)      JOIN pg_attribute a ON " ++
   "a.attrelid = i.indrelid AND a.attnum = k.attnum) FROM pg_index i JOIN pg_class x ON x.oid = " ++
   "i.indexrelid JOIN pg_class c ON c.oid = i.indrelid JOIN pg_namespace n ON n.oid = " ++
   "x.relnamespace WHERE n.nspname = %s AND x.relname = %s").
(* @src adapters/postgres.py 304-307 PostgresAdapter._read_session_identity (query) *)
Definition IDENTITY_SQL : str :=
  ("SELECT pg_backend_pid(), to_char(backend_start, 'YYYY-MM-DD" ++ [34%N] ++ "T" ++ [34%N] ++ "HH24:MI:SS.US'), " ++
   "current_setting('cluster_name', true) FROM pg_stat_activity WHERE pid = pg_backend_pid()").
(* @src adapters/postgres.py 738-739 PostgresAdapter._probe_session_liveness (query) *)
Definition LIVENESS_SQL : str :=
  ("SELECT count(*) FROM pg_stat_activity WHERE pid = %s AND to_char(backend_start, " ++
   "'YYYY-MM-DD" ++ [34%N] ++ "T" ++ [34%N] ++ "HH24:MI:SS.US') = %s").
