(* ===== verification/PgLib.v ===== *)
(** * What the PostgreSQL adapter calls

    psycopg and the clock as one interface, and the state of the adapter's methods
    over it: the library's together with the adapter's own fields. *)
From S2P Require Import Prelude PyStr Text Errors Paths Manifest Model SqlText Admission World Statements.
From S2P Require Export Effects Dbapi.
Open Scope str_scope.

(** [psycopg.pq.TransactionStatus], as libpq tracks it. *)
Inductive pg_status := TS_IDLE | TS_ACTIVE | TS_INTRANS | TS_INERROR | TS_UNKNOWN.

#[export] Instance pg_status_eq_dec : EqDecision pg_status.
Proof. solve_decision. Defined.

Record pg_cursor := MkPgCursor {
  pc_rows : list (list pyval);    (* fetchall() *)
  pc_rowcount : Z;
  pc_message : str;               (* statusmessage, the command tag *)
}.

(** One call. A cursor's rows are fetched at once, as for SQLite. *)
Inductive pgop :=
| PConnect (dsn : str) (user password : option str)   (* psycopg.connect(autocommit=True, ...) *)
| PStatus                                             (* Connection.info.transaction_status, read locally *)
| PBackendPid                                         (* Connection.info.backend_pid *)
| PExecute (sql : str) (params : sql_params)
| PExecuteMany (sql : str) (sets : list sql_params)
| PClose                                              (* Connection.close() *)
| PMonotonic                                          (* time.monotonic(), in nanoseconds *)
| PSleep (ns : Z)
| PHook (b : Boundary) (phase : str).                 (* a hook installed by a test *)

Definition pg_reply (o : pgop) : Type :=
  match o with
  | PStatus => pg_status
  | PBackendPid | PMonotonic => Z
  | PExecute _ _ => pg_cursor
  | PExecuteMany _ _ => Z
  | _ => unit
  end.

Class PgLibrary (L : Type) := pg_step : forall o : pgop, L -> L * result pyexn (pg_reply o).

(** The adapter's own fields; [_conn] is there or not. *)
(* @src adapters/postgres.py 181-184 PostgresAdapter.__init__ (state) *)
Record PgSession (L : Type) := MkPgSession {
  ps_lib : L;
  ps_conn : bool;
  ps_lock_held : bool;
  ps_banner : str;
  ps_identity : option str;
}.
Arguments MkPgSession {_} _ _ _ _ _.
Arguments ps_lib {_} _.
Arguments ps_conn {_} _.
Arguments ps_lock_held {_} _.
Arguments ps_banner {_} _.
Arguments ps_identity {_} _.

Abbreviation PM L := (EM (PgSession L)).

Section operations.
Context {L : Type} {LB : PgLibrary L}.

Definition put_lib (l : L) (s : PgSession L) : PgSession L :=
  MkPgSession l (ps_conn s) (ps_lock_held s) (ps_banner s) (ps_identity s).
Definition put_conn (b : bool) (s : PgSession L) : PgSession L :=
  MkPgSession (ps_lib s) b (ps_lock_held s) (ps_banner s) (ps_identity s).
Definition put_lock (b : bool) (s : PgSession L) : PgSession L :=
  MkPgSession (ps_lib s) (ps_conn s) b (ps_banner s) (ps_identity s).
Definition put_banner (t : str) (s : PgSession L) : PgSession L :=
  MkPgSession (ps_lib s) (ps_conn s) (ps_lock_held s) t (ps_identity s).
Definition put_identity (t : str) (s : PgSession L) : PgSession L :=
  MkPgSession (ps_lib s) (ps_conn s) (ps_lock_held s) (ps_banner s) (Some t).

(** One call of the library. *)
Definition pg (o : pgop) : PM L (pg_reply o) := fun s =>
  let '(l, r) := pg_step o (ps_lib s) in (put_lib l s, r).
End operations.
