(* ===== verification/Postgres.v ===== *)
(** * The PostgreSQL adapter ([adapters/postgres.py])

    [PostgresAdapter], method by method: its configuration, the connection and its
    session settings, the advisory lock, transactions, the engine's statements, the
    snapshot and the liveness probe. *)
From S2P Require Import Prelude PyStr Text Errors Latch Paths Manifest Model SqlText Admission Metadata World Statements.
From S2P Require Import Config PgText PgLib.
Open Scope str_scope.

(** ** Configuration *)
Definition POSTGRES_OPTIONS : list str := ["lock_poll_seconds"].

Definition ascii_lower_letter (c : char) : bool := (97 <=? c)%N && (c <=? 122)%N.

(** [IDENTIFIER_RE.fullmatch]; what matches is its own lower case. *)
(* @src adapters/postgres.py IDENTIFIER_RE *)
Definition postgres_identifier (s : str) : bool :=
  match s with
  | c :: rest =>
      (ascii_lower_letter c || (c =? 95)%N) && (length rest <=? 62) &&
      forallb (fun c => ascii_lower_letter c || ascii_digit c || one_of "_$" c) rest
  | [] => false
  end.

(* @src adapters/postgres.py _require_identifier *)
Definition require_identifier (value : str) : result pyexn str :=
  raise_if (negb (postgres_identifier value)) (PyMigr8 (cerr "must be an unquoted lowercase PostgreSQL identifier"));;
  Ok value.

(** The fields that [__init__] sets for good. *)
Record PgConf := MkPgConf {
  pg_dsn : str;
  pg_user : option str;
  pg_schema : str;
  pg_poll_ns : Z;                    (* lock_poll_seconds *)
  pg_lock_id : Z;
  pg_lock_timeout : Z;
}.

Section init.
(** [conninfo_to_dict], [None] for [psycopg.Error]; [float] of a TOML value, in
    nanoseconds. *)
Context (conninfo : str -> option (list (str * str))) (poll_of : toml -> result pyexn Z).

(* @src adapters/postgres.py _check_dsn_credentials *)
Definition check_dsn_credentials (dsn : str) (configured_user : option str) : result pyexn unit :=
  match conninfo dsn with
  | None => Err (PyMigr8 (cerr "database.dsn is not a valid PostgreSQL connection string"))
  | Some parts =>
      let get k := snd <$> find (fun kv => bool_decide (kv.1 = k)) parts in
      raise_if (match get "password" with Some _ => true | None => false end)
        (PyMigr8 (cerr "database.dsn carries a password"));;
      raise_if (match truthy configured_user, truthy (get "user") with
                | Some u, Some v => negb (bool_decide (u = v))
                | _, _ => false
                end) (PyMigr8 (cerr "database.user and the user in database.dsn differ"))
  end.

(* @src adapters/postgres.py PostgresAdapter.__init__ *)
Definition postgres_init (c : Config) : result pyexn PgConf :=
  dsn ← (match truthy (cf_dsn c) with
         | Some d => Ok d
         | None => Err (PyMigr8 (cerr "the postgres adapter requires database.dsn"))
         end);
  check_dsn_credentials dsn (cf_user c);;
  schema ← require_identifier (default "public" (truthy (cf_target_schema c)));
  let options := default [] (snd <$> find (fun kv => bool_decide (kv.1 = "postgres")) (cf_options c)) in
  raise_if (unknown_keys POSTGRES_OPTIONS options) (PyMigr8 (cerr "[postgres] has unknown keys"));;
  poll ← match table_get "lock_poll_seconds" options with Some v => poll_of v | None => Ok 100000000%Z end;
  raise_if (negb (bool_decide (lk_provider (cf_lock c) = "advisory")))
    (PyMigr8 (cerr "the postgres adapter requires lock.provider = advisory"));;
  lock_id ← (match lk_id (cf_lock c) with
             | Some i => Ok i
             | None => Err (PyMigr8 (cerr "the postgres adapter requires an explicit lock.id"))
             end);
  Ok (MkPgConf dsn (cf_user c) schema poll lock_id (lk_timeout_seconds (cf_lock c))).
End init.

(** Texts for the operator that need the library's version; the password of the
    environment. *)
Class PgVersions := psycopg_version : str.

Definition NS : Z := 1000000000.

(** [psycopg.errors.InFailedSqlTransaction]. *)
Definition in_failed_transaction : pyexn :=
  PyException (MkDriver "psycopg.errors.InFailedSqlTransaction"
    [psycopg_error; "psycopg.DatabaseError"; "psycopg.InternalError"] (Some "25P02") 0 false).

Section postgres.
Context {L : Type} {LB : PgLibrary L} {PR : PyRuntime} {UC : Unicode} {PV : PgVersions}.
Context (C : PgConf) (password : option str).

#[local] Hint Extern 0 Spelling => exact (postgres_spelling (pg_schema C)) : typeclass_instances.

(** ** The session *)
(* @src adapters/postgres.py PostgresAdapter._db *)
Definition db : PM L unit :=
  connected ← s_gets ps_conn;
  s_when (negb connected) (s_raise_error (usage "the PostgreSQL session is not connected")).

(** [self._db.execute(sql, params)]. *)
Definition db_execute (sql : str) (params : sql_params) : PM L pg_cursor := db;; pg (PExecute sql params).

(** [cursor.fetchone()]. *)
Definition fetchone (c : pg_cursor) : option (list pyval) := head (pc_rows c).

(** [except psycopg.Error as exc: raise self.setup_error(exc, ...)]. *)
Definition as_setup_error {A} (m : PM L A) : PM L A :=
  s_try m (fun x => match x with
                    | PyException d => if instance_of psycopg_error d
                                       then s_raise_error (setup_error (D := postgres_dialect) d) else s_raise x
                    | _ => s_raise x
                    end).

(* @src adapters/postgres.py PostgresAdapter._configure_session *)
Definition configure_session : PM L unit :=
  db;;
  row ← as_setup_error
    (pg (PExecute "SET synchronous_commit = on" NoParams);;
     c ← pg (PExecute "SHOW synchronous_commit" NoParams);
     mret (fetchone c));
  value ← s_of_result (match row with Some row => cell row 0 | None => Ok VNone end);
  s_when (negb (bool_decide (value = VStr "on")))
    (s_raise_error (usage "synchronous_commit read back as another value"));;
  as_setup_error (pg (PExecute ("SET search_path = " ++ quoted (pg_schema C)) NoParams);; mret tt);;
  row ← as_setup_error
    (c ← pg (PExecute "SELECT 1 FROM pg_namespace WHERE nspname = %s" (Positional [VStr (pg_schema C)]));
     mret (fetchone c));
  s_when (match row with None => true | Some _ => false end) (s_raise_error (usage "the target schema does not exist")).

(* @src adapters/postgres.py PostgresAdapter._read_banner *)
Definition read_banner : PM L str :=
  row ← as_setup_error (c ← db_execute "SELECT version()" NoParams; mret (fetchone c));
  match row with
  | Some row => v ← s_of_result (cell row 0); mret (py_str v ++ " [psycopg " ++ psycopg_version ++ "]")
  | None => mret "unknown"
  end.

(* @src adapters/postgres.py PostgresAdapter._read_session_identity *)
Definition read_session_identity : PM L str :=
  row ← as_setup_error (c ← db_execute IDENTITY_SQL NoParams; mret (fetchone c));
  match row with
  | None => db;; pid ← pg PBackendPid; mret ("pid=" ++ dec_Z pid ++ ",backend_start=unavailable")
  | Some row =>
      pid ← s_of_result (cell row 0); start ← s_of_result (cell row 1); cluster ← s_of_result (cell row 2);
      mret ("pid=" ++ py_str pid ++ ",backend_start=" ++ py_str start ++ ",cluster=" ++
            (if py_truth cluster then py_str cluster else "default"))
  end.

(** [except psycopg.Error: pass]. *)
Definition suppress_psycopg (m : PM L unit) : PM L unit :=
  s_try m (fun x => match x with
                    | PyException d => if instance_of psycopg_error d then mret tt else s_raise x
                    | _ => s_raise x
                    end).

(* @src adapters/postgres.py PostgresAdapter.discard *)
Definition discard : PM L unit :=
  connected ← s_gets ps_conn;
  s_when connected
    (s_modify (put_lock false);;
     s_finally (suppress_psycopg (pg PClose)) (s_modify (put_conn false))).

(* @src adapters/postgres.py PostgresAdapter.connect *)
Definition connect : PM L unit :=
  s_try (pg (PConnect (pg_dsn C) (truthy (pg_user C)) (truthy password));; s_modify (put_conn true))
    (fun x => match x with
              | PyException d => if instance_of psycopg_error d
                                 then s_raise_error (usage "cannot connect to PostgreSQL") else s_raise x
              | _ => s_raise x
              end);;
  s_try
    (configure_session;;
     banner ← read_banner; s_modify (put_banner banner);;
     identity ← read_session_identity; s_modify (put_identity identity))
    (fun x => discard;; s_raise x).

(** ** The advisory lock *)
(* @src adapters/postgres.py PostgresAdapter.release_lock *)
Definition release_lock : PM L unit :=
  held ← s_gets ps_lock_held; connected ← s_gets ps_conn;
  s_when (held && connected)
    (s_finally
       (suppress_psycopg (pg (PExecute "SELECT pg_advisory_unlock(%s)" (Positional [VInt (pg_lock_id C)]));; mret tt))
       (s_modify (put_lock false))).

(** One question for the lock. *)
(* @src adapters/postgres.py 353-359 PostgresAdapter.acquire_lock (question) *)
Definition try_lock : PM L bool :=
  row ← as_setup_error (c ← db_execute "SELECT pg_try_advisory_lock(%s)" (Positional [VInt (pg_lock_id C)]); mret (fetchone c));
  match row with Some row => v ← s_of_result (cell row 0); mret (py_truth v) | None => mret false end.

(* @src adapters/postgres.py 352-369 PostgresAdapter.acquire_lock (loop) *)
Fixpoint poll_lock (fuel : nat) (deadline : Z) : PM L unit :=
  match fuel with
  | O => s_raise out_of_fuel
  | S fuel =>
      got ← try_lock;
      if (got : bool) then s_modify (put_lock true)
      else
        now ← pg PMonotonic;
        if (deadline <=? now)%Z then s_raise_error (mk LockNotAcquiredError "the advisory lock was not acquired")
        else pg (PSleep (pg_poll_ns C));; poll_lock fuel deadline
  end.

(** Enough rounds for a clock that advances by what was slept. *)
Definition poll_fuel : nat := Z.to_nat ((pg_lock_timeout C * NS) `div` Z.max 1 (pg_poll_ns C)) + 2.

(* @src adapters/postgres.py PostgresAdapter.acquire_lock *)
Definition acquire_lock : PM L unit :=
  held ← s_gets ps_lock_held;
  s_when held (s_raise_error (usage "the namespace lock is already held by this run"));;
  now ← pg PMonotonic;
  poll_lock poll_fuel (now + pg_lock_timeout C * NS).

(** ** Transactions *)
(* @src adapters/postgres.py PostgresAdapter._has_open_transaction *)
Definition do_has_open : PM L bool :=
  connected ← s_gets ps_conn;
  if negb connected then mret false else st ← pg PStatus; mret (negb (bool_decide (st = TS_IDLE))).

(* @src adapters/postgres.py PostgresAdapter.batch_transaction_state *)
Definition do_batch_state : PM L BatchTransactionState :=
  open ← do_has_open; mret (if (open : bool) then BT_OPEN else BT_ENDED).

(* @src adapters/postgres.py PostgresAdapter._do_begin *)
Definition do_begin : PM L unit := db_execute "BEGIN" NoParams;; mret tt.

(* @src adapters/postgres.py PostgresAdapter._do_commit *)
Definition do_commit : PM L unit :=
  db;;
  st ← pg PStatus;
  s_when (bool_decide (st = TS_INERROR)) (s_raise in_failed_transaction);;
  c ← pg (PExecute "COMMIT" NoParams);
  s_when (bool_decide (pc_message c = "ROLLBACK")) (s_raise in_failed_transaction).

(* @src adapters/postgres.py PostgresAdapter._do_rollback *)
Definition do_rollback : PM L unit :=
  open ← do_has_open;
  s_when open (db_execute "ROLLBACK" NoParams;; mret tt).

(* @src adapters/postgres.py PostgresAdapter.close *)
Definition close : PM L unit :=
  connected ← s_gets ps_conn;
  s_when connected
    (s_finally
       (open ← do_has_open;
        s_when open (pg (PExecute "ROLLBACK" NoParams);; mret tt);;
        release_lock)
       (s_finally (pg PClose) (s_modify (put_conn false)))).

(* @src adapters/postgres.py PostgresAdapter._establish_transaction_identity *)
Definition do_establish_identity : PM L (option str) :=
  c ← db_execute "SELECT pg_current_xact_id()::text" NoParams;
  v ← s_of_result (row_value (fetchone c));
  s_when (bool_decide (v = VNone)) (s_raise_error (usage "PostgreSQL did not assign a transaction id"));;
  mret (Some (py_str v)).

(* @src adapters/postgres.py PostgresAdapter._read_transaction_identity *)
Definition do_read_identity : PM L (option str) :=
  open ← do_has_open;
  if negb open then mret None
  else
    c ← db_execute "SELECT pg_current_xact_id_if_assigned()::text" NoParams;
    v ← s_of_result (row_value (fetchone c));
    mret (if bool_decide (v = VNone) then None else Some (py_str v)).

(** ** Statements *)
(* @src adapters/postgres.py PostgresAdapter._metadata_execute *)
Definition metadata_execute (sql : str) (params : bindings_list) : PM L Z :=
  c ← db_execute sql (Named params); mret (Z.max (pc_rowcount c) 0).

(* @src adapters/postgres.py PostgresAdapter._metadata_query *)
Definition metadata_query (sql : str) (params : bindings_list) : PM L (list (list pyval)) :=
  c ← db_execute sql (Named params); mret (pc_rows c).

(** [_render] and [_binds], then the call. *)
Definition run_command (c : metadata_cmd) : PM L Z :=
  params ← s_of_result (binds (cmd_sql c) (cmd_params c));
  metadata_execute (render (cmd_sql c)) params.

Definition run_query (sql : str) (params : bindings_list) : PM L (list (list pyval)) :=
  params ← s_of_result (binds sql params);
  metadata_query (render sql) params.

Definition count_rows (table : str) : PM L Z :=
  rows ← run_query (count_sql table) []; s_of_result (first_int rows).

Definition marker_rows : PM L (list (list pyval)) := run_query read_meta_sql [("meta_key", VStr META_SINGLETON_KEY)].

Definition progress_values (mid key : str) : PM L (list str) :=
  rows ← run_query progress_get_sql [("migration_id", VStr mid); ("prog_key", VStr key)];
  match rows with
  | [] => mret []
  | row :: _ => v ← s_of_result (cell row 0); mret [py_str v]
  end.

(** [_bind]: without parameters psycopg does not interpolate. *)
(* @src adapters/postgres.py _bind *)
Definition bind (v : pyval) : sql_params := bind_params NoParams v.

(* @src adapters/postgres.py PostgresAdapter._run *)
Definition run_statement (text : str) (params : pyval) : PM L pg_cursor := db_execute text (bind params).

(* @src adapters/postgres.py PostgresAdapter.executemany *)
Definition run_many (text : str) (sets : list pyval) : PM L Z :=
  db;; n ← pg (PExecuteMany text (map bind sets)); mret (Z.max n 0).

(** [self._db.execute(_DDL[name].format(...))]. *)
(* @src adapters/postgres.py 610-619 PostgresAdapter._create_metadata_object (execute) *)
Definition create_object (name : str) : PM L unit :=
  db;;
  sql ← s_of_result (match ddl_of name with Some sql => Ok sql | None => Err key_error end);
  pg (PExecute sql NoParams);; mret tt.

(** ** The snapshot *)
Definition history_query : str :=
  "SELECT " ++ columns HISTORY_COLUMNS ++ " FROM " ++ metadata_name HISTORY_TABLE ++ " ORDER BY " ++ metadata_column "seq".
Definition progress_query : str :=
  "SELECT " ++ columns PROGRESS_COLUMNS ++ " FROM " ++ metadata_name PROGRESS_TABLE ++ " ORDER BY " ++
  metadata_column "migration_id" ++ ", " ++ metadata_column "prog_key".

(** The marker as the snapshot reads it: its guarded queries, like the two others,
    are plain here, their failure being judged by the guard around the snapshot. *)
Definition snapshot_meta : PM L (option MetaRow) :=
  count_rows META_TABLE;;
  rows ← marker_rows;
  match rows with
  | [] => mret None
  | row :: _ => m ← s_of_result (meta_row row); mret (Some m)
  end.

(* @src adapters/postgres.py 624-629 PostgresAdapter._read_snapshot (begin) *)
Definition open_snapshot (consistent : bool) : PM L bool :=
  if consistent then
    open ← do_has_open;
    if (open : bool) then mret false
    else pg (PExecute "BEGIN ISOLATION LEVEL REPEATABLE READ READ ONLY" NoParams);; mret true
  else mret false.

(* @src adapters/postgres.py 631-650 PostgresAdapter._read_snapshot (rows) *)
Definition snapshot_rows : PM L (list HistoryRow * list ProgressRow * option MetaRow) :=
  h ← run_query history_query [];
  history ← s_of_result (map_result history_row h);
  p ← run_query progress_query [];
  progress ← s_of_result (map_result progress_row p);
  meta ← snapshot_meta;
  mret (history, progress, meta).

(** The guard around a read latches on what it cannot place, and so then is the
    session. *)
(* @src adapters/postgres.py PostgresAdapter._session_unusable_after *)
Definition session_unusable_after (x : pyexn) : bool :=
  match x with
  | PyMigr8 e => bool_decide (e_class e = UnknownOutcomeError)
  | PyException d => match postgres_classify d true with COMMUNICATION_FAILURE => true | _ => false end
  | PyInterrupt => true
  end.

(* @src adapters/postgres.py PostgresAdapter._read_snapshot *)
Definition do_read_snapshot (consistent : bool) : PM L Snapshot :=
  db;;
  opened ← open_snapshot consistent;
  '(history, progress, meta) ←
    s_try snapshot_rows
      (fun x => s_when (opened && negb (session_unusable_after x)) (pg (PExecute "COMMIT" NoParams);; mret tt);; s_raise x);
  s_when opened (pg (PExecute "COMMIT" NoParams);; mret tt);;
  mret (MkSnapshot history progress meta).

(** ** Liveness *)
(* @src adapters/postgres.py PostgresAdapter._probe_session_liveness *)
Definition probe_liveness (db_session : option str) : PM L (str * str) :=
  match truthy db_session with
  | None => mret ("unknown" : str, "no session identity was recorded" : str)
  | Some text =>
      let get k := snd <$> find (fun kv => bool_decide (kv.1 = k)) (session_fields text) in
      match get "pid", get "backend_start" with
      | Some pid, Some start =>
          s_try
            (db;;
             pid ← s_of_result (match int_of_text pid with Some z => Ok z | None => Err value_error end);
             c ← pg (PExecute LIVENESS_SQL (Positional [VInt pid; VStr start]));
             v ← s_of_result (row_value (fetchone c));
             mret ((if py_truth v then "present" else "absent") : str, "a backend pid alone is reusable" : str))
            (fun x => match x with
                      | PyException d =>
                          if instance_of psycopg_error d
                          then mret ("unknown" : str, "pg_stat_activity is not readable" : str) else s_raise x
                      | _ => s_raise x
                      end)
      | _, _ => mret ("unknown" : str, "the recorded identity is incomplete" : str)
      end
  end.
End postgres.
