(* ===== verification/PgInspect.v ===== *)
(** * The inspection of PostgreSQL's metadata objects ([adapters/postgres.py])

    What exists, and every way an existing object differs from the supported
    layout, as [PostgresAdapter] asks the catalogue; then the adapter as a
    [Driver]. *)
From S2P Require Import Prelude PyStr Text Errors Latch Paths Manifest Model SqlText Admission Metadata World Statements.
From S2P Require Import Config Catalog PgText PgLib Postgres.
Open Scope str_scope.

Section inspect.
Context {L : Type} {LB : PgLibrary L} {PR : PyRuntime} {UC : Unicode}.
Context (C : PgConf).

#[local] Hint Extern 0 Spelling => exact (postgres_spelling (pg_schema C)) : typeclass_instances.

(* @src adapters/postgres.py PostgresAdapter._objects_present *)
Definition objects_present : PM L (list str) :=
  c ← db_execute OBJECTS_SQL (WithNames (VStr (pg_schema C)) CREATION_ORDER);
  names ← s_of_result (map_result (fun row => v ← cell row 0; py_text v) (pc_rows c));
  mret (remove_dups names).

(** The rows of a query on one relation of the schema. *)
Definition ask (sql name : str) : PM L (list (list pyval)) :=
  c ← db_execute sql (Positional [VStr (pg_schema C); VStr name]); mret (pc_rows c).

(** ** Columns *)
(** A Python bool is an integer: [True == 1]. *)
Definition as_read (c : column) : pyval * pyval * pyval := (VStr c.1.1, VStr c.1.2, VInt (if c.2 then 1 else 0)).

Definition column_of (row : list pyval) : result pyexn (pyval * pyval * pyval) :=
  name ← cell row 0; type ← cell row 1; notnull ← cell row 2; Ok (name, type, notnull).

(* @src adapters/postgres.py 462-474 PostgresAdapter._definition_problems (loop body) *)
Definition column_problems (table : str) (expected : list column) : PM L (list str) :=
  rows ← ask COLUMNS_SQL table;
  actual ← s_of_result (map_result column_of rows);
  mret (if bool_decide (actual = map as_read expected) then []
        else [table ++ " column layout does not match the supported layout"]).

(** ** Constraints *)
(** A row of the constraint query. *)
Record constraint := MkConstraint {
  cn_kind : pyval;
  cn_validated : bool;
  cn_definition : pyval;
  cn_columns : pyval;
  cn_schema : pyval;
  cn_target : pyval;
  cn_target_columns : pyval;
}.

Definition constraint_of (row : list pyval) : result pyexn constraint :=
  match row with
  | [kind; validated; definition; columns; schema; target; target_columns] =>
      Ok (MkConstraint kind (py_truth validated) definition columns schema target target_columns)
  | _ => Err value_error
  end.

Definition key_parts (k : ExpectedKey) : str * str * option (str * str) :=
  match k with
  | KeyPrimary columns => ("p", columns, None)
  | KeyUnique columns => ("u", columns, None)
  | KeyForeign columns target targets => ("f", columns, Some (target, targets))
  end.

Definition is_match (kind columns : str) (c : constraint) : bool :=
  bool_decide (cn_kind c = VStr kind) && bool_decide (or_empty (cn_columns c) = VStr columns).

(** What a foreign key refers to, as text. *)
Definition actual_target (c : constraint) : str :=
  if py_truth (cn_target c)
  then py_str (cn_schema c) ++ "." ++ py_str (cn_target c) ++ "(" ++ py_str (or_empty (cn_target_columns c)) ++ ")"
  else "nothing".

Definition expected_target (wanted : str * str) : str :=
  pg_schema C ++ "." ++ fold_name wanted.1 ++ "(" ++ wanted.2 ++ ")".

(* @src adapters/postgres.py 529-549 PostgresAdapter._constraint_problems (match) *)
Definition match_problems (table columns : str) (references : option (str * str)) (c : constraint) : list str :=
  (if cn_validated c then [] else [table ++ " key on (" ++ columns ++ ") is NOT VALID"]) ++
  match references with
  | None => []
  | Some wanted =>
      if bool_decide (actual_target c = expected_target wanted) then []
      else [table ++ " key on (" ++ columns ++ ") references another table"]
  end.

(* @src adapters/postgres.py 507-549 PostgresAdapter._constraint_problems (keys) *)
Definition key_problems (table : str) (constraints : list constraint) (k : ExpectedKey) : list str :=
  let '(kind, columns, references) := key_parts k in
  match List.filter (is_match kind columns) constraints with
  | [] => [table ++ " is missing a key on (" ++ columns ++ ")"]
  | matches => concat (map (match_problems table columns references) matches)
  end.

(** The CHECK constraints among them. *)
Definition is_check (c : constraint) : bool := bool_decide (cn_kind c = VStr "c").
Definition check_text (c : constraint) : result pyexn (option str) := py_text_or_none (cn_definition c).
Definition stored_checks : list constraint -> result pyexn (list stored_check) := checks_of is_check check_text cn_validated.

(* @src adapters/postgres.py 484-558 PostgresAdapter._constraint_problems (loop body) *)
Definition constraint_problems (table : str) (expected : ExpectedConstraints) : PM L (list str) :=
  rows ← ask CONSTRAINTS_SQL table;
  constraints ← s_of_result (map_result constraint_of rows);
  checks ← s_of_result (stored_checks constraints);
  mret (concat (map (key_problems table constraints) (ec_keys expected)) ++
        check_problems fold_name DUMPED_RENDERINGS checks (ec_checks expected)).

(** ** The one-ACTIVE index *)
(* @src adapters/postgres.py 577-602 PostgresAdapter._index_problems (row) *)
Definition index_row_problems (row : list pyval) : result pyexn (list str) :=
  match row with
  | [unique; valid; ready; definition; table_name; columns; predicate; indexed] =>
      count ← py_int columns;
      predicate ← py_text (or_empty predicate);
      Ok ((if bool_decide (table_name = VStr HISTORY_TABLE) then [] else ["the index is on another table" : str]) ++
          (if py_truth unique then [] else ["the index is not UNIQUE" : str]) ++
          (if py_truth valid && py_truth ready then [] else ["the index is not valid and ready" : str]) ++
          (if (count =? 1)%Z && bool_decide (or_empty indexed = VStr ACTIVE_INDEX_COLUMN) then []
           else ["the index has other columns" : str]) ++
          (if mem (compact_definition predicate true) SUPPORTED_ACTIVE_INDEX_PREDICATES then []
           else ["the index is not restricted to ACTIVE rows" : str]))
  | _ => Err value_error
  end.

(* @src adapters/postgres.py PostgresAdapter._index_problems *)
Definition index_problems (present : list str) : PM L (list str) :=
  if negb (mem ACTIVE_INDEX present) then mret []
  else
    rows ← ask INDEX_SQL ACTIVE_INDEX;
    match rows with
    | [] => mret ["the index is not visible in pg_index" : str]
    | row :: _ => s_of_result (index_row_problems row)
    end.

(** ** All objects *)
(* @src adapters/postgres.py PostgresAdapter._definition_problems *)
Definition definition_problems (present : list str) : PM L (list str) :=
  columns ← s_map (fun kv => column_problems kv.1 kv.2) (present_of present EXPECTED_COLUMNS);
  constraints ← s_map (fun kv => constraint_problems kv.1 kv.2) (present_of present EXPECTED_CONSTRAINTS);
  index ← index_problems present;
  mret (concat columns ++ concat constraints ++ index).
End inspect.

(** ** The adapter as a driver *)
Section driver.
Context {L : Type} {LB : PgLibrary L} {PR : PyRuntime} {UC : Unicode} {PV : PgVersions}.
Context (C : PgConf) (password : option str).

(** Every raw operation as the method that performs it. *)
Definition postgres_driver : Driver (PgSession L) := fun o =>
  match o return PM L (reply o) with
  | RConnect => connect C password
  | RAcquireLock => acquire_lock C
  | RPrepareStorage => mret tt
  | RClose => close C
  | RDiscard => discard
  | RConnectionHeld => s_gets ps_conn
  | RServerDescription => s_gets ps_banner
  | RSessionIdentity => s_gets ps_identity
  | RObjectsPresent => objects_present C
  | RDefinitionProblems present => definition_problems C present
  | RCreateObject name => create_object C name
  | RCount table => count_rows C table
  | RReadMarker => rows ← marker_rows C; mret (map meta_row rows)
  | RReadSnapshot consistent => do_read_snapshot C consistent
  | RMetadata c => run_command C c
  | RProgressGet mid key => progress_values C mid key
  | RBegin => do_begin
  | RCommit => do_commit
  | RRollback => do_rollback
  | RHasOpen => do_has_open
  | RBatchState => do_batch_state
  | REstablishIdentity => do_establish_identity
  | RReadIdentity => do_read_identity
  | RExecute text params => c ← run_statement text params; mret (pc_rowcount c)
  | RExecuteMany text sets => run_many text sets
  | RQuery text params => c ← run_statement text params; mret (pc_rows c)
  | RCheckRequired _ => mret (MkValidity ["the postgres adapter cannot check required-object declarations"] [])
  | RProbeLiveness db_session => probe_liveness db_session
  | RFire b phase => pg (PHook b phase)
  end.
End driver.
