(* ===== verification/PgRefines.v ===== *)
(** * The PostgreSQL adapter keeps the session's contract

    [PgLaws] states what PostgreSQL and psycopg document of the calls that the
    adapter makes. From it alone the adapter satisfies [StorageLaws], so every
    theorem on runs holds of runs on PostgreSQL. The one place where the server's
    acknowledgement is not to be trusted, a COMMIT that answers ROLLBACK, is what
    [do_commit] looks at. *)
From S2P Require Import Prelude PyStr Text Errors Latch Paths Manifest Model Fingerprint StateValidate SqlText Admission Metadata World.
From S2P Require Import Statements History Durable Contract Config PgText PgLib Postgres PgInspect.
Open Scope str_scope.

(** Texts that commit nothing: queries, settings of the session, BEGIN, ROLLBACK and
    the creation of an object. *)
Definition quiet_text (C : PgConf) (sql : str) : bool :=
  starts_with "SELECT " sql || starts_with "SET " sql ||
  mem sql ["SHOW synchronous_commit"; "BEGIN"; "BEGIN ISOLATION LEVEL REPEATABLE READ READ ONLY"; "ROLLBACK"] ||
  mem sql (DDL (SP := postgres_spelling (pg_schema C))).*2.

(** The parameters of the facade's calls. *)
Definition author_params (p : sql_params) : bool := match p with Named _ | WithNames _ _ => false | _ => true end.

(** The calls that are no statements. *)
Definition no_statement (o : pgop) : bool := match o with PExecute _ _ | PExecuteMany _ _ => false | _ => true end.

Lemma binds_nothing {SP : Spelling} sql l : binds sql [] = Ok l -> l = [].
Proof.
  unfold binds. intros (u & _ & [= <-])%bind_Ok. induction (remove_dups (holes sql)) as [|n ns IH]; [done|]. exact IH.
Qed.

(** Each law is on one call, whether it returns or raises:
    - outside of a transaction nothing is pending, and the status IDLE means outside;
    - a quiet text, and a call that is no statement, commits nothing;
    - the facade's statements leave the engine's tables alone but may end a
      transaction;
    - a COMMIT may commit or lose what is pending; one that returns with another tag
      than ROLLBACK has committed it;
    - an engine statement takes effect as its text says or not at all;
    - a query that returns gives the rows it asks for and changes nothing. *)
Class PgLaws (L : Type) {LB : PgLibrary L} {ST : Storage L} {PR : PyRuntime} {T : TimeColumn} (C : PgConf) : Prop := {
  pg_autocommit (s : L) : in_txn s = false -> working s = durable s;
  pg_tell (s : L) :
    let '(s', r) := pg_step PStatus s in
    durable s' = durable s /\ working s' = working s /\ (r = Ok TS_IDLE -> in_txn s = false);
  pg_quiet sql params (s : L) : quiet_text C sql = true -> commits_nothing s (pg_step (PExecute sql params) s).1;
  pg_no_statement o (s : L) : no_statement o = true -> commits_nothing s (pg_step o s).1;
  pg_hook b ph (s : L) : let s' := (pg_step (PHook b ph) s).1 in durable s' = durable s /\ working s' = working s;
  pg_author sql params (s : L) : author_params params = true -> may_commit s (pg_step (PExecute sql params) s).1;
  pg_author_many sql sets (s : L) : may_commit s (pg_step (PExecuteMany sql sets) s).1;
  pg_commit (s : L) :
    let '(s', r) := pg_step (PExecute "COMMIT" NoParams) s in
    may_commit s s' /\
    forall c, r = Ok c -> pc_message c <> "ROLLBACK" -> durable s' = working s /\ working s' = working s;
  pg_begin (s s' : L) c : pg_step (PExecute "BEGIN" NoParams) s = (s', Ok c) -> in_txn s' = true;
  pg_command c params (s : L) : binds (cmd_sql (SP := postgres_spelling (pg_schema C)) c) (cmd_params c) = Ok params ->
    let '(s', r) := pg_step (PExecute (render (SP := postgres_spelling (pg_schema C))
                                         (cmd_sql (SP := postgres_spelling (pg_schema C)) c)) (Named params)) s in
    executes c s s' (is_ok r);
  pg_history (s s' : L) c :
    pg_step (PExecute (render (SP := postgres_spelling (pg_schema C)) (history_query C)) (Named [])) s = (s', Ok c) ->
    working s' = working s /\ exists rows, rows ≡ₚ db_history (working s) /\ pc_rows c = map history_values rows;
  pg_progress (s s' : L) c :
    pg_step (PExecute (render (SP := postgres_spelling (pg_schema C)) (progress_query C)) (Named [])) s = (s', Ok c) ->
    working s' = working s /\ exists rows, rows ≡ₚ db_progress (working s) /\ pc_rows c = map progress_columns rows;
  pg_times t : parse_iso_timestamp (val_time t) = Ok t;
}.

#[export] Instance pg_storage {L} {ST : Storage L} : Storage (PgSession L) := {
  durable s := durable (ps_lib s);
  working s := working (ps_lib s);
  in_txn s := in_txn (ps_lib s);
}.

Definition nothing_committed {L} {ST : Storage L} (s s' : PgSession L) : Prop := commits_nothing (ps_lib s) (ps_lib s').
Abbreviation quiet := (framed nothing_committed).

#[export] Instance nothing_committed_preorder {L} {ST : Storage L} : PreOrder (nothing_committed (L := L)).
Proof. split; [intros s; apply commits_nothing_refl|intros s1 s2 s3; apply commits_nothing_trans]. Qed.

(** ** Methods that commit nothing *)
Section methods.
Context {L : Type} {LB : PgLibrary L} {ST : Storage L} {PR : PyRuntime} {T : TimeColumn} {UC : Unicode} {PV : PgVersions}.
Context (C : PgConf) (password : option str) {LL : PgLaws L C}.

#[local] Hint Extern 0 Spelling => exact (postgres_spelling (pg_schema C)) : typeclass_instances.

Lemma quiet_pg o : no_statement o = true -> quiet (pg o).
Proof.
  intros Ho s. unfold nothing_committed, pg. pose proof (pg_no_statement (C := C) o (ps_lib s) Ho) as H. by destruct (pg_step o (ps_lib s)).
Qed.

Lemma pg_quiet_execute sql params : quiet_text C sql = true -> quiet (pg (PExecute sql params)).
Proof.
  intros Hq s. unfold nothing_committed, pg. pose proof (pg_quiet sql params (ps_lib s) Hq) as H. by destruct (pg_step _ (ps_lib s)).
Qed.

Lemma pg_quiet_modify (f : PgSession L -> PgSession L) : (forall s, ps_lib (f s) = ps_lib s) -> quiet (s_modify f).
Proof. intros Hf. apply framed_modify. intros s. unfold nothing_committed. rewrite Hf. apply commits_nothing_refl. Qed.

(** As [frame_steps], with the calls. *)
Ltac quiet_step :=
  match goal with
  | |- quiet (s_modify _) => apply pg_quiet_modify; done
  | |- quiet (pg (PExecute ?sql ?ps)) => refine (pg_quiet_execute sql ps _)
  | |- quiet (pg ?o) => exact (quiet_pg o eq_refl)
  | _ => frame_step
  end.
Ltac quiet_steps := repeat quiet_step.

Lemma pg_quiet_db : quiet (db (L := L)).
Proof. unfold db. quiet_steps. Qed.
Hint Resolve pg_quiet_db : methods.

Lemma pg_quiet_db_execute sql params : quiet_text C sql = true -> quiet (db_execute (L := L) sql params).
Proof. intros Hq. unfold db_execute. quiet_steps; done. Qed.
Hint Resolve pg_quiet_db_execute : methods.

Lemma pg_quiet_select rest : quiet_text C ("SELECT " ++ rest) = true.
Proof. done. Qed.

Lemma quiet_set rest : quiet_text C ("SET " ++ rest) = true.
Proof. done. Qed.
Hint Resolve pg_quiet_select quiet_set : methods.

Lemma pg_quiet_ddl name sql : ddl_of name = Some sql -> quiet_text C sql = true.
Proof.
  unfold ddl_of. destruct (find _ DDL) as [[n t]|] eqn:Hf; [|done]. intros [= <-].
  apply find_some in Hf as [Hin _]. unfold quiet_text. apply orb_true_iff. right. apply mem_true.
  apply list_elem_of_In in Hin. by apply (list_elem_of_fmap_2 snd) in Hin.
Qed.

Lemma quiet_setup {A} (m : PM L A) : quiet m -> quiet (as_setup_error m).
Proof. intros Hm. unfold as_setup_error. quiet_steps; done. Qed.

Lemma quiet_configure : quiet (configure_session (L := L) C).
Proof. unfold configure_session. repeat first [apply quiet_setup|quiet_step]; done. Qed.


Lemma quiet_banner : quiet (read_banner (L := L)).
Proof. unfold read_banner. repeat first [apply quiet_setup|quiet_step]. Qed.

Lemma quiet_session_identity : quiet (read_session_identity (L := L)).
Proof. unfold read_session_identity. repeat first [apply quiet_setup|quiet_step]. Qed.
Hint Resolve quiet_configure quiet_banner quiet_session_identity : methods.

Lemma pg_quiet_discard : quiet (discard (L := L)).
Proof. unfold discard, suppress_psycopg. quiet_steps. Qed.
Hint Resolve pg_quiet_discard : methods.

Lemma pg_quiet_connect : quiet (connect (L := L) C password).
Proof. unfold connect. quiet_steps. Qed.

Lemma pg_quiet_release_lock : quiet (release_lock (L := L) C).
Proof. unfold release_lock, suppress_psycopg. quiet_steps; done. Qed.
Hint Resolve pg_quiet_release_lock : methods.

Lemma quiet_try_lock : quiet (try_lock (L := L) C).
Proof. unfold try_lock. repeat first [apply quiet_setup|quiet_step]; done. Qed.
Hint Resolve quiet_try_lock : methods.

Lemma pg_quiet_poll_lock fuel deadline : quiet (poll_lock (L := L) C fuel deadline).
Proof. induction fuel as [|fuel IH]; simpl; quiet_steps; done. Qed.
Hint Resolve pg_quiet_poll_lock : methods.

Lemma pg_quiet_acquire_lock : quiet (acquire_lock (L := L) C).
Proof. unfold acquire_lock. quiet_steps. Qed.

Lemma quiet_has_open : quiet (do_has_open (L := L)).
Proof. unfold do_has_open. quiet_steps. Qed.
Hint Resolve quiet_has_open : methods.

Lemma pg_quiet_close : quiet (close (L := L) C).
Proof. unfold close. quiet_steps; done. Qed.

Lemma pg_select_rendered rest : quiet_text C (render ("SELECT " ++ rest)) = true.
Proof.
  rewrite (render_literal "SELECT " rest); [done|]. apply Forall_forall. intros c Hc%list_elem_of_In. simpl in Hc.
  destruct_or! Hc; subst; done.
Qed.

Lemma pg_quiet_run_query rest params : quiet (run_query (L := L) C ("SELECT " ++ rest) params).
Proof.
  unfold run_query, metadata_query. apply framed_bind; [apply _|frame_pure|]. intros ps.
  apply framed_bind; [apply _|apply pg_quiet_db_execute, pg_select_rendered|]. intros c. frame_pure.
Qed.

(** As [quiet_steps], with queries. *)
Ltac query_steps := repeat match goal with
  | |- quiet (run_query C _ _) => apply pg_quiet_run_query
  | _ => quiet_step
  end.

Lemma pg_quiet_count_rows table : quiet (count_rows (L := L) C table).
Proof. unfold count_rows. query_steps. Qed.

Lemma pg_quiet_marker_rows : quiet (marker_rows (L := L) C).
Proof. apply pg_quiet_run_query. Qed.
Hint Resolve pg_quiet_count_rows pg_quiet_marker_rows : methods.

Lemma pg_quiet_progress_values mid key : quiet (progress_values (L := L) C mid key).
Proof. unfold progress_values. query_steps. Qed.

Lemma pg_quiet_create_object name : quiet (create_object (L := L) C name).
Proof.
  unfold create_object. apply framed_bind; [apply _|apply pg_quiet_db|]. intros _. apply framed_of_result; [apply _|]. intros sql Hsql.
  destruct (ddl_of name) as [sql'|] eqn:Hd; simplify_eq. apply pg_quiet_ddl in Hd. quiet_steps; done.
Qed.

Lemma quiet_ask sql name : quiet_text C sql = true -> quiet (ask (L := L) C sql name).
Proof. intros Hq. unfold ask. quiet_steps. Qed.

Lemma pg_quiet_objects_present : quiet (objects_present (L := L) C).
Proof. unfold objects_present. quiet_steps. Qed.

Lemma pg_quiet_definition_problems present : quiet (definition_problems (L := L) C present).
Proof.
  assert (forall name, quiet (ask (L := L) C COLUMNS_SQL name)) by (intros; by apply quiet_ask).
  assert (forall name, quiet (ask (L := L) C CONSTRAINTS_SQL name)) by (intros; by apply quiet_ask).
  assert (forall name, quiet (ask (L := L) C INDEX_SQL name)) by (intros; by apply quiet_ask).
  unfold definition_problems, column_problems, constraint_problems, index_problems. quiet_steps.
Qed.

Lemma quiet_liveness db_session : quiet (probe_liveness (L := L) db_session).
Proof. unfold probe_liveness. quiet_steps; done. Qed.

(** ** The snapshot *)
Lemma pg_quiet_snapshot_rows : quiet (snapshot_rows (L := L) C).
Proof. unfold snapshot_rows, snapshot_meta. query_steps. Qed.

Lemma pg_quiet_open_snapshot consistent : quiet (open_snapshot (L := L) consistent).
Proof. unfold open_snapshot. quiet_steps; done. Qed.

Definition nothing_pending (s : PgSession L) : Prop := working (ps_lib s) = durable (ps_lib s).

Lemma pending_kept s s' : nothing_committed s s' -> nothing_pending s -> nothing_pending s'.
Proof. unfold nothing_pending. intros [Hd Hw] Hs. rewrite Hd. destruct Hw; congruence. Qed.

(** The question after an open transaction changes nothing, and no answer means that
    there is none. *)
Lemma has_open_spec s :
  let '(s', r) := do_has_open s in
  durable (ps_lib s') = durable (ps_lib s) /\ working (ps_lib s') = working (ps_lib s) /\
  (ps_conn s = true -> r = Ok false -> nothing_pending s).
Proof.
  unfold do_has_open, s_gets, mbind, EM_bind. destruct (ps_conn s); simpl; [|by split_and!].
  unfold pg. pose proof (pg_tell (C := C) (ps_lib s)) as Ht. destruct (pg_step PStatus (ps_lib s)) as [l [st|x]]; simpl.
  - destruct Ht as (? & ? & Ht). split_and!; [done..|]. intros _ [= Hst]. apply (pg_autocommit (C := C)), Ht.
    case_bool_decide; [by subst|done].
  - destruct Ht as (? & ? & _). by split_and!.
Qed.

Lemma open_snapshot_spec consistent s s' opened : ps_conn s = true -> open_snapshot consistent s = (s', Ok opened) ->
  working (ps_lib s') = working (ps_lib s) /\ (opened = true -> nothing_pending s').
Proof.
  intros Hconn. unfold open_snapshot. destruct consistent; [|by intros [= <- <-]]. unfold mbind at 1. unfold EM_bind at 1.
  pose proof (has_open_spec s) as Ho. destruct (do_has_open s) as [s1 [[]|x]]; [| |done].
  - intros [= <- <-]. destruct Ho as (_ & Hw & _). done.
  - destruct Ho as (Hd & Hw & Hp). specialize (Hp Hconn eq_refl).
    assert (nothing_pending s1) as Hp1 by (unfold nothing_pending in *; congruence).
    pose proof (pg_quiet_execute "BEGIN ISOLATION LEVEL REPEATABLE READ READ ONLY" NoParams eq_refl s1) as Hq.
    unfold mbind, EM_bind. destruct (pg _ s1) as [s2 [c|x]]; [|done]. intros [= <- <-]. simpl in Hq.
    pose proof (pending_kept _ _ Hq Hp1) as Hp2. destruct Hq as [Hd2 _]. unfold nothing_pending in *. split; [congruence|done].
Qed.

(** The COMMIT that ends the snapshot's own transaction commits nothing. *)
Lemma pg_end_snapshot_quiet opened s : (opened = true -> nothing_pending s) ->
  nothing_committed s (s_when opened (pg (PExecute "COMMIT" NoParams);; mret tt) s).1.
Proof.
  destruct opened; intros Hs; [|apply commits_nothing_refl]. simpl. unfold mbind, EM_bind, pg, nothing_committed.
  pose proof (pg_commit (C := C) (ps_lib s)) as Hc. destruct (pg_step _ (ps_lib s)) as [l r].
  destruct Hc as [Hc%may_commit_nothing _]; [|by apply Hs]. by destruct r.
Qed.

Lemma pg_db_inv (s s' : PgSession L) r : db s = (s', r) -> s' = s /\ (r = Ok tt -> ps_conn s = true).
Proof. unfold db, s_when. cbv [mbind EM_bind s_gets]. destruct (ps_conn s); intros [= <- <-]; done. Qed.

(** A method that starts with [self._db] does nothing without a connection. *)
Lemma pg_after_db {A} (m : PM L A) (s : PgSession L) (P : PgSession L * result pyexn A -> Prop) :
  (forall x, P (s, Err x)) -> (ps_conn s = true -> P (m s)) -> P ((db;; m) s).
Proof.
  intros Herr Hm. unfold mbind, EM_bind. destruct (db s) as [s1 [[]|x]] eqn:Hd; apply pg_db_inv in Hd as [-> Hc]; auto.
Qed.

Definition snapshot_body (opened : bool) : PM L Snapshot :=
  '(history, progress, meta) ←
    s_try (snapshot_rows C)
      (fun x => s_when (opened && negb (session_unusable_after x)) (pg (PExecute "COMMIT" NoParams);; mret tt);; s_raise x);
  s_when opened (pg (PExecute "COMMIT" NoParams);; mret tt);;
  mret (MkSnapshot history progress meta).

Lemma quiet_snapshot_body opened s : (opened = true -> nothing_pending s) -> nothing_committed s (snapshot_body opened s).1.
Proof.
  intros Hs. unfold snapshot_body. unfold mbind at 1. unfold EM_bind at 1. unfold s_try.
  pose proof (pg_quiet_snapshot_rows s) as Hr. destruct (snapshot_rows C s) as [s1 [[[h p] m]|x]]; simpl in Hr.
  - unfold mbind, EM_bind. pose proof (pg_end_snapshot_quiet opened s1) as He.
    destruct (s_when opened _ s1) as [s2 [u|y]]; (etrans; [exact Hr|]; apply He; intros Ho; by eapply pending_kept, Hs).
  - unfold mbind at 1. unfold EM_bind at 1. pose proof (pg_end_snapshot_quiet (opened && negb (session_unusable_after x)) s1) as He.
    destruct (s_when _ _ s1) as [s2 [u|y]].
    all: etrans; [exact Hr|]; apply He; intros [Ho _]%andb_true_iff; by eapply pending_kept, Hs.
Qed.

Lemma pg_quiet_read_snapshot consistent : quiet (do_read_snapshot (L := L) C consistent).
Proof.
  intros s. apply (pg_after_db _ s (fun p => nothing_committed s p.1)); [intros x; apply commits_nothing_refl|]. intros Hc.
  unfold mbind at 1. unfold EM_bind at 1. pose proof (pg_quiet_open_snapshot consistent s) as Ho.
  destruct (open_snapshot consistent s) as [s1 [opened|x]] eqn:Eo; [|done]. etrans; [exact Ho|].
  apply (quiet_snapshot_body opened). by apply open_snapshot_spec in Eo as [_ ?].
Qed.

Lemma run_query_Ok q params (s s' : PgSession L) rows : run_query C q params s = (s', Ok rows) ->
  exists ps c, binds q params = Ok ps /\ pg_step (PExecute (render q) (Named ps)) (ps_lib s) = (ps_lib s', Ok c) /\ rows = pc_rows c.
Proof.
  unfold run_query, metadata_query, db_execute. intros (s1 & ps & [-> Hb]%sm_result_Ok & H)%sm_bind_Ok.
  apply sm_bind_Ok in H as (s2 & c & H & [= <- <-]). apply sm_bind_Ok in H as (s3 & [] & [-> _]%pg_db_inv & H).
  unfold pg in H. destruct (pg_step _ (ps_lib s)) as [l r] eqn:E. injection H as <- ->. by exists ps, c.
Qed.

Lemma pg_snapshot_rows_read s s' h p m : snapshot_rows C s = (s', Ok (h, p, m)) ->
  h ≡ₚ db_history (working (ps_lib s)) /\ p ≡ₚ db_progress (working (ps_lib s)).
Proof.
  intros (s1 & hr & (ps & c & Hb & Hh & ->)%run_query_Ok & H)%sm_bind_Ok. apply (sm_bind_Ok (s_of_result _)) in H as (s2 & h' & [-> Hm]%sm_result_Ok & H).
  apply sm_bind_Ok in H as (s3 & pr & (ps' & c' & Hb' & Hp & ->)%run_query_Ok & H).
  apply (sm_bind_Ok (s_of_result _)) in H as (s4 & p' & [-> Hm']%sm_result_Ok & H).
  apply sm_bind_Ok in H as (s5 & m' & _ & [= _ <- <- _]).
  apply binds_nothing in Hb as ->. apply binds_nothing in Hb' as ->.
  apply (pg_history (C := C)) in Hh as (Hw & rows & Hrows & Hc). apply (pg_progress (C := C)) in Hp as (_ & prows & Hprows & Hc').
  rewrite Hc, (map_result_inverse history_row history_values) in Hm by (intros; apply history_row_values, (pg_times (C := C))).
  rewrite Hc', (map_result_inverse progress_row progress_columns) in Hm' by (intros; apply progress_row_columns, (pg_times (C := C))).
  injection Hm as <-. injection Hm' as <-. split; [done|by rewrite <-Hw].
Qed.

Lemma pg_read_snapshot_rows b s s' snap : do_read_snapshot C b s = (s', Ok snap) ->
  s_history snap ≡ₚ db_history (working (ps_lib s)) /\ s_progress snap ≡ₚ db_progress (working (ps_lib s)).
Proof.
  intros (s0 & [] & [-> Hc]%pg_db_inv & H)%sm_bind_Ok. specialize (Hc eq_refl).
  apply sm_bind_Ok in H as (s1 & opened & [Hw _]%open_snapshot_spec & H); [|done]. rewrite <-Hw.
  apply sm_bind_Ok in H as (s2 & [[h p] m] & Hr & H). unfold s_try in Hr.
  destruct (snapshot_rows C s1) as [s3 [rows|x]] eqn:E.
  - injection Hr as <- ->. apply sm_bind_Ok in H as (s4 & [] & _ & [= _ <-]). by apply pg_snapshot_rows_read in E.
  - apply sm_bind_Ok in Hr as (s4 & [] & _ & Hr). done.
Qed.

(** ** Commits and commands *)
Lemma pg_author_may_commit sql params (s : PgSession L) : author_params params = true ->
  may_commit (ps_lib s) (ps_lib (pg (PExecute sql params) s).1).
Proof. intros Hp. unfold pg. pose proof (pg_author (C := C) sql params (ps_lib s) Hp) as H. by destruct (pg_step _ (ps_lib s)). Qed.

Lemma bind_author v : author_params (bind v) = true.
Proof. destruct v; simpl; try done. unfold bind, bind_params. by destruct (obj_collection _). Qed.

Lemma pg_run_statement_may_commit text params (s : PgSession L) : may_commit (ps_lib s) (ps_lib (run_statement text params s).1).
Proof.
  unfold run_statement, db_execute. apply (pg_after_db _ s (fun p => may_commit (ps_lib s) (ps_lib p.1))); [intros x; apply may_commit_refl|].
  intros _. apply pg_author_may_commit, bind_author.
Qed.

Lemma pg_run_many_may_commit text sets (s : PgSession L) : may_commit (ps_lib s) (ps_lib (run_many text sets s).1).
Proof.
  unfold run_many. apply (pg_after_db _ s (fun p => may_commit (ps_lib s) (ps_lib p.1))); [intros x; apply may_commit_refl|].
  intros _. rewrite bind_ret_state. unfold pg. pose proof (pg_author_many (C := C) text (map bind sets) (ps_lib s)) as H.
  by destruct (pg_step _ (ps_lib s)).
Qed.

(** An aborted transaction is refused before COMMIT is sent, and a COMMIT that ended
    in a rollback is told by its tag. *)
Lemma pg_do_commit_spec (s : PgSession L) :
  let '(s', r) := do_commit s in
  may_commit (ps_lib s) (ps_lib s') /\
  (r = Ok tt -> durable (ps_lib s') = working (ps_lib s) /\ working (ps_lib s') = working (ps_lib s)).
Proof.
  unfold do_commit. apply (pg_after_db _ s (fun p : PgSession L * result pyexn unit => let '(s', r) := p in
    may_commit (ps_lib s) (ps_lib s') /\
    (r = Ok tt -> durable (ps_lib s') = working (ps_lib s) /\ working (ps_lib s') = working (ps_lib s))));
    [intros x; split; [apply may_commit_refl|done]|]. intros _.
  unfold mbind at 1. unfold EM_bind at 1. unfold pg at 1.
  pose proof (pg_tell (C := C) (ps_lib s)) as Ht. destruct (pg_step PStatus (ps_lib s)) as [l [st|x]].
  2: { destruct Ht as (Hd & Hw & _). split; [by eapply may_commit_after, may_commit_refl|done]. }
  destruct Ht as (Hd & Hw & _). unfold mbind at 1. unfold EM_bind at 1. unfold s_when at 1.
  case_bool_decide; simpl; [split; [by eapply may_commit_after, may_commit_refl|done]|].
  unfold mbind, EM_bind, pg. simpl. pose proof (pg_commit (C := C) l) as Hc.
  destruct (pg_step (PExecute "COMMIT" NoParams) l) as [l' [c|x]]; simpl in *; [|destruct Hc; split; [by eapply may_commit_after|done]].
  destruct Hc as [Hc Hok]. unfold s_when. case_bool_decide as Htag; simpl; (split; [by eapply may_commit_after|]); [done|].
  intros _. rewrite <-Hw. by apply (Hok c).
Qed.

Lemma pg_run_command_spec c (s : PgSession L) :
  let '(s', r) := run_command C c s in executes c (ps_lib s) (ps_lib s') (is_ok r).
Proof.
  unfold run_command, mbind at 1, EM_bind at 1, s_of_result. destruct (binds _ _) as [params|x] eqn:Hb; [|apply executes_nothing].
  unfold metadata_execute, db_execute. unfold mbind at 1. unfold EM_bind at 1.
  unfold mbind, EM_bind. destruct (db s) as [s0 [[]|x]] eqn:E; apply pg_db_inv in E as [-> _]; [|apply executes_nothing].
  unfold pg. pose proof (pg_command c params (ps_lib s) Hb) as Hc. destruct (pg_step _ (ps_lib s)) as [l [cur|x]]; exact Hc.
Qed.

Lemma pg_do_begin_txn (s s' : PgSession L) : do_begin s = (s', Ok tt) -> in_txn (ps_lib s') = true.
Proof.
  intros (s1 & c & H & [= <-])%sm_bind_Ok. apply sm_bind_Ok in H as (s2 & [] & [-> _]%pg_db_inv & H).
  unfold pg in H. destruct (pg_step (PExecute "BEGIN" NoParams) (ps_lib s)) as [l r] eqn:E. injection H as <- ->.
  by apply (pg_begin (C := C)) in E.
Qed.

Lemma pg_quiet_other o : may_end_txn o = false -> is_metadata o = false -> quiet (postgres_driver (L := L) C password o).
Proof.
  intros Hsub Hmd. destruct o; try done; cbn [postgres_driver]; try frame_pure.
  - apply pg_quiet_connect.
  - apply pg_quiet_acquire_lock.
  - apply pg_quiet_close.
  - apply pg_quiet_discard.
  - apply pg_quiet_objects_present.
  - apply pg_quiet_definition_problems.
  - apply pg_quiet_count_rows.
  - quiet_steps.
  - apply pg_quiet_read_snapshot.
  - apply pg_quiet_progress_values.
  - unfold do_begin. quiet_steps; done.
  - unfold do_rollback. quiet_steps; done.
  - apply quiet_has_open.
  - unfold do_batch_state. quiet_steps.
  - unfold do_establish_identity. quiet_steps; done.
  - unfold do_read_identity. quiet_steps; done.
  - apply quiet_liveness.
  - quiet_steps.
Qed.
End methods.

