(* ===== verification/PgLock.v ===== *)
(** * The advisory lock

    The polling of the lock ends, and who it serves; the session then has the lock
    on the server, and keeps it as long as the server keeps the session, through
    every call of a run but those that end it. *)
From S2P Require Import Prelude PyStr Text Errors Latch Paths Manifest Model Fingerprint StateValidate SqlText Admission Metadata Checks World.
From S2P Require Import Adapter Context Engine Protocol Order Statements Config Replay PgText PgLib Postgres PgInspect.
Open Scope str_scope.

(** ** The session as the server sees it *)
Class ServerView (L : Type) := {
  srv_alive : L -> bool;      (* the server still has this session *)
  srv_owner : L -> bool;      (* the session holds the advisory lock *)
  srv_clock : L -> Z;         (* this process's clock, in nanoseconds *)
}.

(** An exception of the library or the system, never one of the program's own. *)
Definition foreign (x : pyexn) : Prop :=
  match x with PyMigr8 _ => False | PyException d => PyException d <> out_of_fuel | PyInterrupt => True end.

Definition LOCK_SQL : str := "SELECT pg_try_advisory_lock(%s)".
Definition UNLOCK_SQL : str := "SELECT pg_advisory_unlock(%s)".

(** The calls that begin or end the session, or give the lock back. *)
Definition ends_lock (o : pgop) : bool :=
  match o with
  | PConnect _ _ _ | PClose => true
  | PExecute sql _ => bool_decide (sql = UNLOCK_SQL)
  | _ => false
  end.

(** What PostgreSQL and Python document, of a lock that migration code does not
    release itself:
    - the clock never goes back, and a sleep that returns lasted as long as asked;
    - a question for the lock that returns a true value has it;
    - a session that is gone does not come back, and its statements fail;
    - a session that is still there keeps its lock until it gives it back. *)
Class ServerLaws (L : Type) {LB : PgLibrary L} {SV : ServerView L} : Prop := {
  srv_foreign o (l l' : L) x : pg_step o l = (l', Err x) -> foreign x;
  srv_clock_grows o (l : L) : (srv_clock l <= srv_clock (pg_step o l).1)%Z;
  srv_monotonic (l l' : L) t : pg_step PMonotonic l = (l', Ok t) -> (srv_clock l <= t <= srv_clock l')%Z;
  srv_sleep ns (l l' : L) : pg_step (PSleep ns) l = (l', Ok tt) -> (srv_clock l + ns <= srv_clock l')%Z;
  srv_lock params (l l' : L) c : pg_step (PExecute LOCK_SQL params) l = (l', Ok c) ->
    (exists row v, head (pc_rows c) = Some row /\ row !! 0 = Some v /\ py_truth v = true) -> srv_owner l' = true;
  srv_gone o (l : L) : (match o with PConnect _ _ _ => true | _ => false end) = false -> srv_alive (pg_step o l).1 = true -> srv_alive l = true;
  srv_dead sql params (l l' : L) c : srv_alive l = false -> pg_step (PExecute sql params) l <> (l', Ok c);
  srv_keeps o (l : L) : ends_lock o = false -> srv_alive (pg_step o l).1 = true -> srv_owner l = true -> srv_owner (pg_step o l).1 = true;
}.

Section lock.
Context {L : Type} {LB : PgLibrary L} {SV : ServerView L} {SL : ServerLaws L} {PR : PyRuntime} {UC : Unicode} {PV : PgVersions}.
Context (C : PgConf) (password : option str).

(** The adapter counts the lock as held, and so does the server if it still has the
    session. *)
Definition holds_lock (s : PgSession L) : Prop :=
  ps_lock_held s = true /\ (srv_alive (ps_lib s) = true -> srv_owner (ps_lib s) = true).

Definition keeps_lock (s s' : PgSession L) : Prop :=
  ps_lock_held s' = ps_lock_held s /\ (srv_clock (ps_lib s) <= srv_clock (ps_lib s'))%Z /\
  (srv_alive (ps_lib s') = true -> srv_alive (ps_lib s) = true /\ (srv_owner (ps_lib s) = true -> srv_owner (ps_lib s') = true)).

#[export] Instance keeps_lock_preorder : PreOrder keeps_lock.
Proof.
  split; [intros s; unfold keeps_lock; split_and!; auto; lia|]. intros s1 s2 s3 (?&?&H1) (?&?&H2). unfold keeps_lock.
  split_and!; [congruence|lia|]. intros Ha3. destruct (H2 Ha3) as [Ha ?]. destruct (H1 Ha). auto.
Qed.

Lemma keeps_holds s s' : keeps_lock s s' -> holds_lock s -> holds_lock s'.
Proof. intros (H1 & _ & H2) [Hh Ho]. split; [congruence|]. intros Ha. destruct (H2 Ha). auto. Qed.

Lemma keeps_pg o : ends_lock o = false -> framed keeps_lock (pg o).
Proof.
  intros Ho s. unfold pg, keeps_lock. pose proof (srv_keeps o (ps_lib s) Ho) as Hk. pose proof (srv_clock_grows o (ps_lib s)) as Hc.
  assert (srv_alive (pg_step o (ps_lib s)).1 = true -> srv_alive (ps_lib s) = true) as Ha by (apply srv_gone; by destruct o).
  destruct (pg_step o (ps_lib s)) as [l r]. simpl in *. split_and!; [done..|]. intros Hl. auto.
Qed.

Lemma keeps_execute sql params : sql <> UNLOCK_SQL -> framed keeps_lock (pg (PExecute sql params)).
Proof. intros Hs. apply keeps_pg. simpl. by apply bool_decide_eq_false_2. Qed.

Lemma pg_keeps_modify (f : PgSession L -> PgSession L) : (forall s, ps_lib (f s) = ps_lib s /\ ps_lock_held (f s) = ps_lock_held s) ->
  framed keeps_lock (s_modify f).
Proof. intros Hf s. unfold keeps_lock. destruct (Hf s) as [H1 H2]. simpl. rewrite H1, H2. split_and!; auto; lia. Qed.

Ltac keeps_step :=
  match goal with
  | |- framed keeps_lock (s_modify _) => apply pg_keeps_modify; done
  | |- framed keeps_lock (pg (PExecute _ _)) => apply keeps_execute
  | |- framed keeps_lock (pg ?o) => exact (keeps_pg o eq_refl)
  | _ => frame_step
  end.
Ltac keeps_steps := repeat keeps_step.

Lemma keeps_db : framed keeps_lock (db (L := L)).
Proof. unfold db. keeps_steps. Qed.
Hint Resolve keeps_db : methods.

Lemma keeps_db_execute sql params : sql <> UNLOCK_SQL -> framed keeps_lock (db_execute (L := L) sql params).
Proof. intros Hs. unfold db_execute. keeps_steps. done. Qed.

(** ** Taking the lock *)

(** A question for the lock: a true answer means that the server gave it. *)
Lemma try_lock_spec (s s' : PgSession L) got : try_lock C s = (s', Ok got) ->
  ps_lock_held s' = ps_lock_held s /\ (srv_clock (ps_lib s) <= srv_clock (ps_lib s'))%Z /\ (got = true -> srv_owner (ps_lib s') = true).
Proof.
  intros (s1 & row & Hrow & H)%sm_bind_Ok. unfold as_setup_error, s_try in Hrow.
  match type of Hrow with (let (_, _) := ?t in _) = _ => destruct t as [s2 [row'|x]] eqn:Hc end;
    [injection Hrow as <- <-|destruct x as [e|d|]; [|destruct (instance_of _ d)|]; done].
  apply sm_bind_Ok in Hc as (s3 & c & Hc & [= <- <-]). apply sm_bind_Ok in Hc as (s4 & [] & Hd & Hc).
  assert (s4 = s) as ->. { revert Hd. unfold db, s_when. cbv [mbind EM_bind s_gets]. by destruct (ps_conn s); intros [= <-]. }
  unfold pg in Hc. pose proof (srv_clock_grows (PExecute LOCK_SQL (Positional [VInt (pg_lock_id C)])) (ps_lib s)) as Hg.
  destruct (pg_step (PExecute "SELECT pg_try_advisory_lock(%s)" _) (ps_lib s)) as [l r] eqn:E. injection Hc as <- ->.
  change (srv_clock (ps_lib s) <= srv_clock (pg_step (PExecute "SELECT pg_try_advisory_lock(%s)" (Positional [VInt (pg_lock_id C)])) (ps_lib s)).1)%Z in Hg.
  rewrite E in Hg. simpl in *.
  destruct (fetchone c) as [row|] eqn:Hf; [|injection H as <- <-; done].
  apply sm_bind_Ok in H as (s5 & v & [-> Hv]%sm_result_Ok & [= <- <-]). split_and!; [done..|]. intros Ht. simpl.
  eapply srv_lock; [exact E|]. exists row, v. unfold cell in Hv. destruct (row !! 0); [|done]. by simplify_eq.
Qed.

Lemma pg_poll_lock_holds fuel deadline (s s' : PgSession L) : poll_lock C fuel deadline s = (s', Ok tt) -> holds_lock s'.
Proof.
  revert s. induction fuel as [|fuel IH]; intros s; [done|]. cbn [poll_lock].
  intros (s1 & got & [_ [_ Hg]]%try_lock_spec & H)%sm_bind_Ok. destruct got.
  - injection H as <-. split; [done|]. intros _. by apply Hg.
  - apply sm_bind_Ok in H as (s2 & t & _ & H). destruct (_ <=? _)%Z; [done|].
    apply sm_bind_Ok in H as (s3 & [] & _ & H). by eapply IH.
Qed.

Lemma pg_acquire_lock_holds (s s' : PgSession L) : acquire_lock C s = (s', Ok tt) -> holds_lock s'.
Proof.
  intros (s1 & held & [= <- <-] & H)%sm_bind_Ok. apply sm_bind_Ok in H as (s2 & [] & _ & H).
  apply sm_bind_Ok in H as (s3 & t & _ & H). by apply pg_poll_lock_holds in H.
Qed.

(** ** The polling ends *)
Lemma try_lock_fails (s s' : PgSession L) x : try_lock C s = (s', Err x) -> x <> out_of_fuel.
Proof.
  unfold try_lock, as_setup_error, s_try. unfold mbind at 1. unfold EM_bind at 1.
  unfold db_execute, db, s_gets, s_when. cbv [mbind EM_bind]. destruct (ps_conn s); cbn; [|by intros [= _ <-]].
  unfold pg. destruct (pg_step _ (ps_lib s)) as [l [c|y]] eqn:E; simpl.
  - destruct (fetchone c) as [row|]; [|done]. unfold s_of_result, cell. destruct (row !! 0); [done|]. by intros [= _ <-].
  - apply srv_foreign in E. destruct y as [e|d|]; [done| |by intros [= _ <-]].
    destruct (instance_of psycopg_error d); intros [= _ <-]; done.
Qed.

Lemma foreign_fuel x : foreign x -> x <> out_of_fuel.
Proof. by destruct x. Qed.

Lemma pg_poll_lock_ends fuel deadline (s : PgSession L) : (0 < pg_poll_ns C)%Z ->
  (deadline <= srv_clock (ps_lib s) + Z.of_nat fuel * pg_poll_ns C)%Z ->
  (poll_lock C (S fuel) deadline s).2 <> Err out_of_fuel.
Proof.
  intros Hpoll. revert s. induction fuel as [|fuel IH]; intros s Hf.
  all: cbn [poll_lock]; unfold mbind at 1; unfold EM_bind at 1.
  all: destruct (try_lock C s) as [s1 [[]|x]] eqn:E1; [done| |simpl; intros [= ->]; by apply try_lock_fails in E1].
  all: apply try_lock_spec in E1 as (_ & Hc1 & _); unfold mbind at 1; unfold EM_bind at 1; unfold pg at 1.
  all: pose proof (srv_clock_grows PMonotonic (ps_lib s1)) as Hg; destruct (pg_step PMonotonic (ps_lib s1)) as [l2 [t|x]] eqn:E2;
    [|apply srv_foreign in E2; simpl; intros [= Hx]; by apply (foreign_fuel x)].
  all: apply srv_monotonic in E2; simpl in Hg; destruct (deadline <=? t)%Z eqn:Et; [done|]; apply Z.leb_gt in Et.
  { lia. }
  unfold mbind, EM_bind, pg. simpl ps_lib.
  destruct (pg_step (PSleep (pg_poll_ns C)) l2) as [l3 [[]|x]] eqn:E3.
  - apply srv_sleep in E3. apply IH. simpl. lia.
  - apply srv_foreign in E3. simpl. intros [= Hx]. by apply (foreign_fuel x).
Qed.

(** With a positive interval the attempt comes to an end. *)
Lemma pg_acquire_lock_ends (s : PgSession L) : (0 < pg_poll_ns C)%Z -> (0 <= pg_lock_timeout C)%Z ->
  (acquire_lock C s).2 <> Err out_of_fuel.
Proof.
  intros Hpoll Ht. unfold acquire_lock, s_gets, s_when. unfold mbind at 1. unfold EM_bind at 1.
  destruct (ps_lock_held s); [done|]. unfold mbind at 1. unfold EM_bind at 1. simpl mret.
  unfold mbind, EM_bind, mret, EM_ret, pg.
  destruct (pg_step PMonotonic (ps_lib s)) as [l [t|x]] eqn:E; [|apply srv_foreign in E; simpl; intros [= Hx]; by apply (foreign_fuel x)].
  apply srv_monotonic in E. unfold poll_fuel.
  replace (Z.to_nat ((pg_lock_timeout C * NS) `div` Z.max 1 (pg_poll_ns C)) + 2)
    with (S (Z.to_nat ((pg_lock_timeout C * NS) `div` Z.max 1 (pg_poll_ns C)) + 1)) by lia.
  apply pg_poll_lock_ends; [done|]. cbn [ps_lib put_lib]. rewrite Z.max_r by lia.
  pose proof (Z.mul_succ_div_gt (pg_lock_timeout C * NS) (pg_poll_ns C) Hpoll) as Hq.
  assert (0 <= (pg_lock_timeout C * NS) `div` pg_poll_ns C)%Z as Hq0 by (apply Z.div_pos; unfold NS; lia).
  rewrite Nat2Z.inj_add, Z2Nat.id by done. change (Z.of_nat 1) with 1%Z. rewrite Z.add_1_r, Z.mul_comm. lia.
Qed.

(** ** The lock is kept

    [UNLOCK_SQL] is sent by [release_lock] alone. *)
Definition no_release (o : rawop) : Prop :=
  match o with RExecute text _ | RQuery text _ => text <> UNLOCK_SQL | _ => True end.

#[local] Hint Extern 0 Spelling => exact (postgres_spelling (pg_schema C)) : typeclass_instances.

(** A text that starts otherwise, or after SELECT goes on otherwise. *)
Lemma starts_other p rest : Forall (fun c => c <> colon /\ c <> brace) p -> starts_with p UNLOCK_SQL = false ->
  render (p ++ rest) <> UNLOCK_SQL.
Proof.
  intros Hp Hs He. rewrite (render_literal p rest Hp) in He. rewrite <-He, starts_with_app in Hs. done.
Qed.

Lemma plain_checked p : forallb (fun c => negb (c =? colon)%N && negb (c =? brace)%N) p = true ->
  Forall (fun c => c <> colon /\ c <> brace) p.
Proof.
  intros H. apply Forall_forall. intros c Hc%list_elem_of_In. rewrite forallb_forall in H. specialize (H c Hc).
  apply andb_true_iff in H as [?%negb_true_iff%N.eqb_neq ?%negb_true_iff%N.eqb_neq]. done.
Qed.

Ltac other p := eapply (starts_other p); [by apply plain_checked|done].

Lemma command_other c : render (cmd_sql c) <> UNLOCK_SQL.
Proof.
  destruct c; cbn [cmd_sql].
  - unfold insert_history_sql. other ("INSERT INTO " : str).
  - unfold update_attempt_sql. other ("UPDATE " : str).
  - unfold complete_sql. other ("UPDATE " : str).
  - unfold delete_progress_sql. other ("DELETE FROM " : str).
  - unfold upsert_progress_sql. cbn [sp_on_conflict postgres_spelling]. other ("INSERT INTO " : str).
  - unfold insert_marker_sql. other ("INSERT INTO " : str).
Qed.

Lemma keeps_run_query p rest params : Forall (fun c => c <> colon /\ c <> brace) p -> starts_with p UNLOCK_SQL = false ->
  framed keeps_lock (run_query (L := L) C (p ++ rest) params).
Proof.
  intros H1 H2. unfold run_query, metadata_query. apply framed_bind; [apply _|frame_pure|]. intros ps.
  apply framed_bind; [apply _|apply keeps_db_execute, (starts_other p rest H1 H2)|]. intros c. frame_pure.
Qed.

(** A query of columns: a quote follows SELECT. *)
Ltac quoted_query := refine (keeps_run_query ("SELECT " ++ [34%N]) _ _ _ _); [by apply plain_checked|done].

Lemma keeps_count_rows table : framed keeps_lock (count_rows (L := L) C table).
Proof.
  unfold count_rows. apply framed_bind; [apply _| |intros; frame_pure].
  refine (keeps_run_query "SELECT COUNT" _ _ _ _); [by apply plain_checked|done].
Qed.

Lemma keeps_marker_rows : framed keeps_lock (marker_rows (L := L) C).
Proof. unfold marker_rows. quoted_query. Qed.

Lemma keeps_history_query : framed keeps_lock (run_query (L := L) C (history_query C) []).
Proof. quoted_query. Qed.

Lemma keeps_progress_query : framed keeps_lock (run_query (L := L) C (progress_query C) []).
Proof. quoted_query. Qed.

Lemma keeps_progress_values mid key : framed keeps_lock (progress_values (L := L) C mid key).
Proof. unfold progress_values. apply framed_bind; [apply _|quoted_query|intros]. keeps_steps. Qed.

Lemma keeps_create_object name : framed keeps_lock (create_object (L := L) C name).
Proof.
  unfold create_object. apply framed_bind; [apply _|apply keeps_db|]. intros _. apply framed_of_result; [apply _|]. intros sql Hsql.
  destruct (ddl_of name) as [sql'|] eqn:Hd; simplify_eq. keeps_steps.
  unfold ddl_of in Hd. destruct (find _ DDL) as [[n t]|] eqn:Hf; [|done]. injection Hd as <-. apply find_some in Hf as [Hin _].
  simpl in Hin. destruct_or! Hin; simplify_eq; done.
Qed.

Lemma pg_keeps_has_open : framed keeps_lock (do_has_open (L := L)).
Proof. unfold do_has_open. keeps_steps. Qed.
Hint Resolve pg_keeps_has_open keeps_marker_rows keeps_count_rows keeps_history_query keeps_progress_query : methods.

Lemma keeps_ask sql name : sql <> UNLOCK_SQL -> framed keeps_lock (ask (L := L) C sql name).
Proof. intros Hs. pose proof (fun ps => keeps_db_execute sql ps Hs). unfold ask. keeps_steps. Qed.

Lemma keeps_definition_problems present : framed keeps_lock (definition_problems (L := L) C present).
Proof.
  assert (forall name, framed keeps_lock (ask (L := L) C COLUMNS_SQL name)) by (intros; by apply keeps_ask).
  assert (forall name, framed keeps_lock (ask (L := L) C CONSTRAINTS_SQL name)) by (intros; by apply keeps_ask).
  assert (forall name, framed keeps_lock (ask (L := L) C INDEX_SQL name)) by (intros; by apply keeps_ask).
  unfold definition_problems, column_problems, constraint_problems, index_problems. keeps_steps.
Qed.

Lemma pg_keeps_read_snapshot consistent : framed keeps_lock (do_read_snapshot (L := L) C consistent).
Proof.
  unfold do_read_snapshot, open_snapshot, snapshot_rows, snapshot_meta.
  repeat match goal with
    | |- framed keeps_lock (run_query C (history_query C) _) => apply keeps_history_query
    | |- framed keeps_lock (run_query C (progress_query C) _) => apply keeps_progress_query
    | |- framed keeps_lock (count_rows C _) => apply keeps_count_rows
    | |- framed keeps_lock (marker_rows C) => apply keeps_marker_rows
    | _ => keeps_step
    end; done.
Qed.

(** Every call but those that begin or end the session keeps the lock. *)
Lemma keeps_driver o : session_op o = false -> no_release o -> framed keeps_lock (postgres_driver (L := L) C password o).
Proof.
  intros Ho Hn. destruct o; try discriminate; cbn [postgres_driver]; try frame_pure.
  - unfold objects_present. keeps_steps. by apply keeps_db_execute.
  - apply keeps_definition_problems.
  - apply keeps_create_object.
  - apply keeps_count_rows.
  - apply framed_bind; [apply _|apply keeps_marker_rows|intros; frame_pure].
  - apply pg_keeps_read_snapshot.
  - unfold run_command, metadata_execute. apply framed_bind; [apply _|frame_pure|]. intros ps.
    apply framed_bind; [apply _|apply keeps_db_execute, command_other|intros; frame_pure].
  - apply keeps_progress_values.
  - unfold do_begin. keeps_steps. by apply keeps_db_execute.
  - unfold do_commit. keeps_steps. done.
  - unfold do_rollback. keeps_steps. by apply keeps_db_execute.
  - apply pg_keeps_has_open.
  - unfold do_batch_state. keeps_steps.
  - unfold do_establish_identity. keeps_steps. by apply keeps_db_execute.
  - unfold do_read_identity. keeps_steps. by apply keeps_db_execute.
  - unfold run_statement. keeps_steps. by apply keeps_db_execute.
  - unfold run_many. keeps_steps.
  - unfold run_statement. keeps_steps. by apply keeps_db_execute.
  - unfold probe_liveness. keeps_steps. done.
  - keeps_steps.
Qed.
End lock.

(** The adapter counts the lock as held, and a statement that the server executes at
    this moment is one of the session that holds it. *)
Definition works_under_lock {L} {LB : PgLibrary L} {SV : ServerView L} (s : PgSession L) : Prop :=
  ps_lock_held s = true /\
  forall sql params l c, pg_step (PExecute sql params) (ps_lib s) = (l, Ok c) -> srv_owner (ps_lib s) = true.

Lemma holds_works {L} {LB : PgLibrary L} {SV : ServerView L} {SL : ServerLaws L} (s : PgSession L) : holds_lock s -> works_under_lock s.
Proof.
  intros [Hh Ho]. split; [done|]. intros sql params l c Hs. apply Ho. destruct (srv_alive (ps_lib s)) eqn:Ha; [done|].
  by apply srv_dead in Hs.
Qed.

