(* ===== verification/PgLayout.v ===== *)
(** * What PostgreSQL's inspection accepts

    The layout as a statement about the answers of the catalogue. An inspection that
    comes to an end reports no problem exactly when the catalogue says that. *)
From S2P Require Import Prelude PyStr Text Errors Latch Paths Manifest Model SqlText Admission Metadata World Statements.
From S2P Require Import Config Catalog PgText PgLib Postgres PgInspect.
Open Scope str_scope.

(** ** The catalogue *)
Definition Dictionary : Type := str -> list pyval -> list (list pyval).
Class DictionaryView (L : Type) := dictionary : L -> Dictionary.

Definition DICTIONARY_QUERIES : list str := [COLUMNS_SQL; CONSTRAINTS_SQL; INDEX_SQL].

(** A query of the catalogue answers from it and changes nothing in it. *)
Class DictionaryLaws (L : Type) {LB : PgLibrary L} {DV : DictionaryView L} : Prop := {
  dictionary_read sql values (l l' : L) c : sql ∈ DICTIONARY_QUERIES ->
    pg_step (PExecute sql (Positional values)) l = (l', Ok c) -> pc_rows c = dictionary l sql values /\ dictionary l' = dictionary l;
}.

(** ** The layout *)
Section layout.
Context {PR : PyRuntime} {UC : Unicode} (C : PgConf) (dict : Dictionary).

#[local] Hint Extern 0 Spelling => exact (postgres_spelling (pg_schema C)) : typeclass_instances.

Definition answers (sql name : str) : list (list pyval) := dict sql [VStr (pg_schema C); VStr name].

Definition columns_ok (table : str) (expected : list column) : Prop :=
  map_result column_of (answers COLUMNS_SQL table) = Ok (map as_read expected).

(** The key is there, and every key that passes for it is enforced and refers to the
    layout's own table, in this schema. *)
Definition key_ok (constraints : list constraint) (k : ExpectedKey) : Prop :=
  let '(kind, columns, references) := key_parts k in
  (exists c, c ∈ constraints /\ is_match kind columns c = true) /\
  forall c, c ∈ constraints -> is_match kind columns c = true ->
    cn_validated c = true /\ forall wanted, references = Some wanted -> actual_target c = expected_target C wanted.

Definition constraints_ok (table : str) (expected : ExpectedConstraints) : Prop :=
  exists constraints, map_result constraint_of (answers CONSTRAINTS_SQL table) = Ok constraints /\
    (forall k, k ∈ ec_keys expected -> key_ok constraints k) /\
    checks_ok fold_name DUMPED_RENDERINGS is_check check_text cn_validated constraints (ec_checks expected).

(** On the history table, unique, in use, on the status alone, for ACTIVE rows. *)
Definition active_index_ok : Prop :=
  exists unique valid ready definition columns predicate indexed rest text,
    answers INDEX_SQL ACTIVE_INDEX =
      [unique; valid; ready; definition; VStr HISTORY_TABLE; columns; predicate; indexed] :: rest /\
    py_truth unique = true /\ py_truth valid = true /\ py_truth ready = true /\
    py_int columns = Ok 1%Z /\ or_empty indexed = VStr ACTIVE_INDEX_COLUMN /\
    py_text (or_empty predicate) = Ok text /\ compact_definition text true ∈ SUPPORTED_ACTIVE_INDEX_PREDICATES.

Definition layout_ok (present : list str) : Prop :=
  (forall table columns, (table, columns) ∈ EXPECTED_COLUMNS -> table ∈ present -> columns_ok table columns) /\
  (forall table expected, (table, expected) ∈ EXPECTED_CONSTRAINTS -> table ∈ present -> constraints_ok table expected) /\
  (ACTIVE_INDEX ∈ present -> active_index_ok).

(** ** Row by row *)
Lemma match_problems_nil table columns references c : match_problems C table columns references c = [] <->
  cn_validated c = true /\ forall wanted, references = Some wanted -> actual_target c = expected_target C wanted.
Proof.
  unfold match_problems. rewrite app_nil. apply and_iff_both.
  - by destruct (cn_validated c).
  - destruct references as [wanted|]; [|done]. rewrite singleton_unless. naive_solver.
Qed.

Lemma key_problems_nil table constraints k : key_problems C table constraints k = [] <-> key_ok constraints k.
Proof.
  unfold key_problems, key_ok. destruct (key_parts k) as [[kind columns] references].
  pose proof (in_filter (is_match kind columns) constraints) as Hin.
  destruct (List.filter _ constraints) as [|c0 cs] eqn:E.
  - split; [done|]. intros [(c & Hc & Hm) _]. assert (c ∈ @nil constraint) as []%elem_of_nil by (by apply Hin).
  - rewrite concat_nil, Forall_forall. split.
    + intros Hall. split; [exists c0; apply Hin; by left|]. intros c Hc Hm. apply (match_problems_nil table columns), Hall.
      apply list_elem_of_fmap. exists c. split; [done|]. by apply Hin.
    + intros [_ Hall] ps (c & -> & [Hc Hm]%Hin)%list_elem_of_fmap. apply match_problems_nil. by apply Hall.
Qed.

End layout.

(** ** Inspection *)
Section inspection.
Context {L : Type} {LB : PgLibrary L} {DV : DictionaryView L} {DL : DictionaryLaws L} {PR : PyRuntime} {UC : Unicode}.
Context (C : PgConf).

#[local] Hint Extern 0 Spelling => exact (postgres_spelling (pg_schema C)) : typeclass_instances.

Definition dict_of (s : PgSession L) : Dictionary := dictionary (ps_lib s).

Lemma ask_Ok sql name (s s' : PgSession L) rows : sql ∈ DICTIONARY_QUERIES -> ask C sql name s = (s', Ok rows) ->
  dict_of s' = dict_of s /\ rows = answers C (dict_of s) sql name.
Proof.
  intros Hsql (s1 & c & (s2 & [] & Hdb & Hc)%sm_bind_Ok & [= <- <-])%sm_bind_Ok.
  assert (s2 = s) as ->. { revert Hdb. unfold db, s_when. cbv [mbind EM_bind s_gets]. by destruct (ps_conn s); intros [= <-]. }
  unfold pg in Hc. destruct (pg_step _ (ps_lib s)) as [l r] eqn:E. injection Hc as <- ->.
  by apply dictionary_read in E as [-> ?].
Qed.

Lemma pg_column_problems_Ok table expected (s s' : PgSession L) ps : column_problems C table expected s = (s', Ok ps) ->
  dict_of s' = dict_of s /\ (ps = [] <-> columns_ok C (dict_of s) table expected).
Proof.
  intros (s1 & rows & [Hd ->]%ask_Ok & H)%sm_bind_Ok; [|by apply list_elem_of_here].
  apply sm_bind_Ok in H as (s2 & actual & [-> Ha]%sm_result_Ok & [= <- <-]). split; [done|].
  rewrite singleton_unless. unfold columns_ok. rewrite Ha. naive_solver.
Qed.

Lemma constraint_problems_Ok table expected (s s' : PgSession L) ps : constraint_problems C table expected s = (s', Ok ps) ->
  dict_of s' = dict_of s /\ (ps = [] <-> constraints_ok C (dict_of s) table expected).
Proof.
  intros (s1 & rows & [Hd ->]%ask_Ok & H)%sm_bind_Ok; [|by apply list_elem_of_further, list_elem_of_here].
  apply sm_bind_Ok in H as (s2 & constraints & [-> Hc]%sm_result_Ok & H).
  apply sm_bind_Ok in H as (s3 & checks & [-> Hk]%sm_result_Ok & [= <- <-]). split; [done|].
  rewrite app_nil, (checks_exact _ _ _ _ _ _ _ _ Hk), concat_nil, Forall_forall. unfold constraints_ok. rewrite Hc. split.
  - intros [Hkeys Hchecks]. exists constraints. split_and!; [done| |done]. intros k Hin.
    apply (key_problems_nil C table), Hkeys, list_elem_of_fmap. by exists k.
  - intros (cs & [= <-] & Hkeys & Hchecks). split; [|done]. intros ps (k & -> & Hin)%list_elem_of_fmap.
    by apply key_problems_nil, Hkeys.
Qed.

Lemma pg_index_problems_Ok present (s s' : PgSession L) ps : index_problems C present s = (s', Ok ps) ->
  dict_of s' = dict_of s /\ (ps = [] <-> (ACTIVE_INDEX ∈ present -> active_index_ok C (dict_of s))).
Proof.
  unfold index_problems. destruct (mem ACTIVE_INDEX present) eqn:Hp; simpl.
  2:{ intros [= <- <-]. split; [done|]. apply mem_false in Hp. done. }
  apply mem_true in Hp. intros (s1 & rows & [Hd Hrows]%ask_Ok & H)%sm_bind_Ok;
    [|by apply list_elem_of_further, list_elem_of_further, list_elem_of_here].
  unfold active_index_ok. rewrite <-Hrows. destruct rows as [|row rows].
  { injection H as <- <-. split; [done|]. split; [done|]. intros Ha. by destruct (Ha Hp) as (?&?&?&?&?&?&?&?&?&?&_). }
  apply sm_result_Ok in H as [-> H]. split; [done|].
  destruct row as [|unique [|valid [|ready [|definition [|table_name [|columns [|predicate [|indexed [|]]]]]]]]]; try done.
  apply bind_Ok in H as (count & Hcount & (text & Htext & [= <-])%bind_Ok).
  rewrite !app_nil, !unless_nil, mem_true, !andb_true_iff, Z.eqb_eq, !bool_decide_eq_true. split.
  - intros (-> & Hu & [Hv Hr] & [-> Hi] & Hc) _. by exists unique, valid, ready, definition, columns, predicate, indexed, rows, text.
  - intros Ha. destruct (Ha Hp) as (?&?&?&?&?&?&?&?&?&[= <- <- <- <- -> <- <- <- <-]&?&?&?&Hc&Hi&Ht&?).
    rewrite Htext in Ht. rewrite Hcount in Hc. simplify_eq. done.
Qed.

End inspection.

