(* ===== verification/PgMemory.v ===== *)
(** * PostgreSQL in memory

    A concrete server and driver under the PostgreSQL adapter: one schema with
    transactions, its catalogue, an advisory lock and a clock. A statement that
    fails aborts the transaction, and its COMMIT answers ROLLBACK. It shows that
    what is assumed of PostgreSQL can be had, and runs run on it. *)
From S2P Require Import Prelude PyStr Text Errors Latch Paths Manifest Model Fingerprint StateValidate SqlText Admission Metadata World.
From S2P Require Import Statements History Checks Adapter Context Engine Durable Memory Contract MemoryRuntime Config Replay.
From S2P Require Import Protocol Order SqliteRefines PgText PgLib Postgres PgInspect PgRefines PgLock PgLayout.
Open Scope str_scope.

#[local] Existing Instance ascii_unicode.

Definition demo_pg : PgConf := MkPgConf "host=db" None "app" 100000000 7 10.
#[local] Instance demo_spelling : Spelling := postgres_spelling "app".

(** ** The server *)
Record PgMem := MkPgMem {
  pm_durable : MetaDB;
  pm_pending : option MetaDB;      (* the rows inside an open transaction *)
  pm_aborted : bool;               (* which a statement error has aborted *)
  pm_objects : list str;
  pm_marker : option MetaRow;
  pm_alive : bool;                 (* the session exists *)
  pm_owner : bool;                 (* and holds the lock *)
  pm_until : Z;                    (* when the other runner lets go of it *)
  pm_clock : Z;
}.

Definition set_txn (d : MetaDB) (p : option MetaDB) (aborted : bool) (m : PgMem) : PgMem :=
  MkPgMem d p aborted (pm_objects m) (pm_marker m) (pm_alive m) (pm_owner m) (pm_until m) (pm_clock m).
Definition set_catalog (objects : list str) (marker : option MetaRow) (m : PgMem) : PgMem :=
  MkPgMem (pm_durable m) (pm_pending m) (pm_aborted m) objects marker (pm_alive m) (pm_owner m) (pm_until m) (pm_clock m).
Definition set_session (alive owner : bool) (clock : Z) (m : PgMem) : PgMem :=
  MkPgMem (pm_durable m) (pm_pending m) (pm_aborted m) (pm_objects m) (pm_marker m) alive owner (pm_until m) clock.

Definition pm_working (m : PgMem) : MetaDB := default (pm_durable m) (pm_pending m).

#[export] Instance pgmem_storage : Storage PgMem := {
  durable := pm_durable;
  working := pm_working;
  in_txn m := match pm_pending m with Some _ => true | None => false end;
}.

Definition pg_error (code : str) : pyexn := PyException (MkDriver "psycopg.Error" [psycopg_error] (Some code) 0 false).

Definition answer (rows : list (list pyval)) : pg_cursor := MkPgCursor rows (-1) "OK".

(** ** The catalogue *)
Definition constraint_row (kind columns : str) (target : list pyval) : list pyval :=
  [VStr kind; VInt 1; VStr columns; VStr columns] ++ target.

Definition key_row (k : ExpectedKey) : list pyval :=
  match k with
  | KeyPrimary columns => constraint_row "p" columns [VNone; VNone; VNone]
  | KeyUnique columns => constraint_row "u" columns [VNone; VNone; VNone]
  | KeyForeign columns table targets => constraint_row "f" columns [VStr "app"; VStr table; VStr targets]
  end.

Definition pm_dictionary (sql : str) (values : list pyval) : list (list pyval) :=
  match values with
  | [_; VStr name] =>
      if bool_decide (sql = COLUMNS_SQL) then
        map (fun c : column => [VStr c.1.1; VStr c.1.2; VInt (if c.2 then 1 else 0)])
          (default [] (snd <$> find (fun kv => bool_decide (kv.1 = name)) EXPECTED_COLUMNS))
      else if bool_decide (sql = CONSTRAINTS_SQL) then
        match snd <$> find (fun kv => bool_decide (kv.1 = name)) EXPECTED_CONSTRAINTS with
        | Some e => map key_row (ec_keys e) ++ map (fun c => constraint_row "c" c [VNone; VNone; VNone]) (ec_checks e)
        | None => []
        end
      else if bool_decide (sql = INDEX_SQL) then
        [[VInt 1; VInt 1; VInt 1; VStr "index"; VStr HISTORY_TABLE; VInt 1; VStr "((status)::text = 'ACTIVE'::text)"; VStr "status"]]
      else []
  | _ => []
  end.

(** The answers to queries. *)
Definition pm_answer (sql : str) (params : sql_params) (m : PgMem) : list (list pyval) :=
  let w := pm_working m in
  if bool_decide (sql = render (history_query demo_pg)) then map history_values (db_history w)
  else if bool_decide (sql = render (progress_query demo_pg)) then map progress_columns (db_progress w)
  else if bool_decide (sql = OBJECTS_SQL) then map (fun n => [VStr n]) (pm_objects m)
  else if bool_decide (sql = render (count_sql HISTORY_TABLE)) then count_of (db_history w)
  else if bool_decide (sql = render (count_sql PROGRESS_TABLE)) then count_of (db_progress w)
  else if bool_decide (sql = render (count_sql META_TABLE)) then count_of (option_list (pm_marker m))
  else if bool_decide (sql = render read_meta_sql) then map meta_values (option_list (pm_marker m))
  else if bool_decide (sql = "SHOW synchronous_commit") then [[VStr "on"]]
  else match params with
  | Positional values =>
      if mem sql DICTIONARY_QUERIES then pm_dictionary sql values else [[VStr "here"]]
  | Named l => map (fun p => [VStr (pr_value p)]) (filter (has_key (named l "migration_id") (named l "prog_key")) (db_progress w))
  | _ => [[VStr "here"; VStr "now"; VStr "main"]]
  end.

Definition pm_quiet (sql : str) (params : sql_params) (m : PgMem) : PgMem * result pyexn pg_cursor :=
  if mem sql ["BEGIN"; "BEGIN ISOLATION LEVEL REPEATABLE READ READ ONLY"] then
    (match pm_pending m with Some _ => m | None => set_txn (pm_durable m) (Some (pm_durable m)) false m end, Ok (answer []))
  else if bool_decide (sql = "ROLLBACK") then (set_txn (pm_durable m) None false m, Ok (answer []))
  else if pm_aborted m then (m, Err (pg_error "25P02"))
  else if bool_decide (sql = LOCK_SQL) then
    if (pm_until m <=? pm_clock m)%Z then (set_session (pm_alive m) true (pm_clock m) m, Ok (answer [[VInt 1]]))
    else (m, Ok (answer [[VInt 0]]))
  else if bool_decide (sql = UNLOCK_SQL) then (set_session (pm_alive m) false (pm_clock m) m, Ok (answer [[VInt 1]]))
  else match find (fun kv => bool_decide (kv.2 = sql)) DDL with
  | Some (name, _) => (set_catalog (pm_objects m ++ [name]) (pm_marker m) m, Ok (answer []))
  | None => (m, Ok (answer (pm_answer sql params m)))
  end.

Definition pm_command (c : metadata_cmd) (m : PgMem) : PgMem * result pyexn pg_cursor :=
  let db := apply_cmd (pm_clock m) c (pm_working m) in
  let m := match c with
           | InsertMarker v a p lb ns => set_catalog (pm_objects m) (Some (MkMeta v a p lb ns (Some (pm_clock m)))) m
           | _ => m
           end in
  (match pm_pending m with Some _ => set_txn (pm_durable m) (Some db) false m | None => set_txn db None false m end,
   Ok (MkPgCursor [] (affected c (pm_working m)) "OK")).

(** Of the statements of migrations one fails. *)
Definition BAD_SQL : str := "DELETE FROM missing".

Definition pm_execute (sql : str) (params : sql_params) (m : PgMem) : PgMem * result pyexn pg_cursor :=
  if negb (pm_alive m) then (m, Err (pg_error "08003"))
  else if bool_decide (sql = "COMMIT") then
    match pm_pending m with
    | Some db => if pm_aborted m then (set_txn (pm_durable m) None false m, Ok (MkPgCursor [] (-1) "ROLLBACK"))
                 else (set_txn db None false m, Ok (MkPgCursor [] (-1) "COMMIT"))
    | None => (m, Ok (MkPgCursor [] (-1) "COMMIT"))
    end
  else if quiet_text demo_pg sql then pm_quiet sql params m
  else if pm_aborted m then (m, Err (pg_error "25P02"))
  else match params with
  | Named l => match decode sql l with Some c => pm_command c m | None => (m, Err (pg_error "42601")) end
  | _ => if bool_decide (sql = BAD_SQL)
         then (match pm_pending m with Some p => set_txn (pm_durable m) (Some p) true m | None => m end, Err (pg_error "42P01"))
         else (m, Ok (MkPgCursor [] 0 "OK"))
  end.

#[export] Instance pgmem_library : PgLibrary PgMem := fun o m =>
  match o return PgMem * result pyexn (pg_reply o) with
  | PConnect _ _ _ => (set_session true false (pm_clock m) (set_txn (pm_durable m) None false m), Ok tt)
  | PStatus => (m, Ok (match pm_pending m with None => TS_IDLE | Some _ => if pm_aborted m then TS_INERROR else TS_INTRANS end))
  | PBackendPid => (m, Ok 7%Z)
  | PExecute sql params => pm_execute sql params m
  | PExecuteMany _ _ => (m, Ok 0%Z)
  | PClose => (set_session false false (pm_clock m) (set_txn (pm_durable m) None false m), Ok tt)
  | PMonotonic => (m, Ok (pm_clock m))
  | PSleep ns => (set_session (pm_alive m) (pm_owner m) (pm_clock m + Z.max ns 0)%Z m, Ok tt)
  | PHook _ _ => (m, Ok tt)
  end.

(** ** It does what is assumed of PostgreSQL *)
Lemma pg_decode_command c params : binds (cmd_sql c) (cmd_params c) = Ok params -> decode (render (cmd_sql c)) params = Some c.
Proof.
  intros Hb. destruct c as [[] [] [] ? ? ? ? ? r|? ? ? r| | | |]; try destruct r as [[] [] [] [] ?].
  all: vm_compute in Hb; injection Hb as <-; vm_compute; reflexivity.
Qed.

Lemma pg_not_quiet_command c : quiet_text demo_pg (render (cmd_sql c)) = false /\ render (cmd_sql c) <> "COMMIT".
Proof. by destruct c as [[] [] [] ? ? ? ? ? r|? ? ? r| | | |]. Qed.

Lemma pm_quiet_nothing sql params m : commits_nothing m (pm_quiet sql params m).1.
Proof.
  unfold pm_quiet, commits_nothing. simpl. unfold pm_working. destruct (mem sql _).
  - destruct (pm_pending m) eqn:E; simpl; rewrite ?E; simpl; auto.
  - case_bool_decide; simpl; [by auto|]. repeat case_match; simpl; auto.
Qed.

(** A session that is gone does nothing; a quiet text is never COMMIT. *)
Lemma pm_execute_quiet sql params m m' c : quiet_text demo_pg sql = true -> sql <> "COMMIT" ->
  pm_execute sql params m = (m', Ok c) -> pm_alive m = true /\ pm_quiet sql params m = (m', Ok c).
Proof. intros Hq Hc. unfold pm_execute. destruct (pm_alive m); [|done]. by rewrite bool_decide_eq_false_2, Hq. Qed.

(** A query is answered, in a transaction that is not aborted. *)
Lemma pm_quiet_asks sql params m m' c :
  mem sql ["BEGIN"; "BEGIN ISOLATION LEVEL REPEATABLE READ READ ONLY"; "ROLLBACK"; LOCK_SQL; UNLOCK_SQL] = false ->
  find (fun kv => bool_decide (kv.2 = sql)) DDL = None ->
  pm_quiet sql params m = (m', Ok c) -> m' = m /\ c = answer (pm_answer sql params m).
Proof.
  intros Hn Hd. unfold pm_quiet. rewrite Hd. apply mem_false in Hn. repeat setoid_rewrite not_elem_of_cons in Hn.
  destruct Hn as (Hb & Hs & Hr & Hl & Hu & _). assert (mem sql ["BEGIN"; "BEGIN ISOLATION LEVEL REPEATABLE READ READ ONLY"] = false) as ->.
  { apply mem_false. rewrite !not_elem_of_cons. split_and!; [done|done|apply not_elem_of_nil]. }
  rewrite !bool_decide_eq_false_2 by done. destruct (pm_aborted m); [done|]. by intros [= <- <-].
Qed.

#[export] Instance memory_time : TimeColumn := text_times.

#[export] Instance pgmem_laws : PgLaws PgMem demo_pg.
Proof.
  split.
  - intros m. simpl. unfold pm_working. by destruct (pm_pending m).
  - intros m. simpl. split_and!; [done|done|]. destruct (pm_pending m); [|done]. by destruct (pm_aborted m).
  - intros sql params m Hq. unfold pg_step, pgmem_library, pm_execute. destruct (pm_alive m); [|apply commits_nothing_refl].
    assert (sql <> "COMMIT") as Hc by (by intros ->). rewrite (bool_decide_eq_false_2 _ Hc), Hq. apply pm_quiet_nothing.
  - intros o m Ho. destruct o; try done; unfold pg_step; simpl; unfold commits_nothing, pm_working; simpl; auto.
  - done.
  - intros sql params m Hp. unfold pg_step, pgmem_library, pm_execute. destruct (pm_alive m); [|apply may_commit_refl].
    simpl. case_bool_decide.
    + unfold may_commit. simpl. unfold pm_working. destruct (pm_pending m) eqn:E; [destruct (pm_aborted m)|]; simpl; rewrite ?E; auto.
    + destruct (quiet_text demo_pg sql); [apply quiet_may_commit, pm_quiet_nothing|].
      destruct (pm_aborted m); [apply may_commit_refl|]. unfold may_commit. simpl. unfold pm_working.
      destruct params; try done; case_bool_decide; simpl; auto; destruct (pm_pending m) eqn:E; simpl; rewrite ?E; auto.
  - intros sql sets m. apply may_commit_refl.
  - intros m. unfold pg_step, pgmem_library, pm_execute. destruct (pm_alive m); [|split; [apply may_commit_refl|done]].
    unfold may_commit. simpl. unfold pm_working. destruct (pm_pending m) eqn:E; [destruct (pm_aborted m)|]; simpl; rewrite ?E.
    all: split; [by auto|]; intros c [= <-] Hm; try done; by destruct Hm.
  - intros m m' c [_ H]%pm_execute_quiet; [|done..]. revert H. unfold pm_quiet. simpl. intros [= <- _].
    by destruct (pm_pending m) eqn:E; simpl; rewrite ?E.
  - change (postgres_spelling (pg_schema demo_pg)) with demo_spelling. intros c params m Hb.
    unfold pg_step, pgmem_library, pm_execute. destruct (pg_not_quiet_command c) as [Hq Hc].
    destruct (pm_alive m); [|apply executes_nothing].
    cbn [negb]. rewrite (bool_decide_eq_false_2 _ Hc), Hq. destruct (pm_aborted m); [apply executes_nothing|].
    rewrite (pg_decode_command c params Hb). unfold pm_command.
    apply (executes_as (pm_clock m)); destruct c; destruct (pm_pending m) eqn:E; simpl; unfold pm_working; simpl; rewrite ?E; simpl; auto.
  - intros m m' c [_ H]%pm_execute_quiet; [|by vm_compute..]. apply pm_quiet_asks in H as [-> ->]; [|by vm_compute..].
    split; [done|]. by exists (db_history (pm_working m)).
  - intros m m' c [_ H]%pm_execute_quiet; [|by vm_compute..]. apply pm_quiet_asks in H as [-> ->]; [|by vm_compute..].
    split; [done|]. by exists (db_progress (pm_working m)).
  - apply text_times_parsed, memory_iso_reads.
Qed.

(** ** The session as this server sees it *)
#[export] Instance pgmem_server : ServerView PgMem := {
  srv_alive := pm_alive;
  srv_owner := pm_owner;
  srv_clock := pm_clock;
}.

Lemma pm_command_session c m :
  let m' := (pm_command c m).1 in pm_alive m' = pm_alive m /\ pm_clock m' = pm_clock m /\ pm_owner m' = pm_owner m.
Proof. destruct c; unfold pm_command; simpl; by destruct (pm_pending m). Qed.

Lemma pm_quiet_session sql params m :
  let m' := (pm_quiet sql params m).1 in
  pm_alive m' = pm_alive m /\ pm_clock m' = pm_clock m /\ (sql <> UNLOCK_SQL -> pm_owner m = true -> pm_owner m' = true).
Proof. unfold pm_quiet. by repeat case_match; try case_bool_decide. Qed.

Lemma pm_execute_session sql params m :
  let m' := (pm_execute sql params m).1 in
  pm_alive m' = pm_alive m /\ pm_clock m' = pm_clock m /\ (sql <> UNLOCK_SQL -> pm_owner m = true -> pm_owner m' = true).
Proof.
  unfold pm_execute. destruct (negb (pm_alive m)); [by auto|]. simpl.
  case_bool_decide; [by destruct (pm_pending m); [destruct (pm_aborted m)|]|].
  destruct (quiet_text demo_pg sql); [apply pm_quiet_session|]. destruct (pm_aborted m); [by auto|].
  destruct params as [| |l| |]; try (case_bool_decide; [by destruct (pm_pending m)|by auto]).
  destruct (decode sql l) as [c|]; [|by auto]. destruct (pm_command_session c m) as (-> & -> & ->). by auto.
Qed.

Lemma pm_execute_error sql params m x : (pm_execute sql params m).2 = Err x -> exists code, x = pg_error code.
Proof. unfold pm_execute, pm_quiet. repeat case_match; simpl; intros [= <-]; by eexists. Qed.

#[export] Instance pgmem_server_laws : ServerLaws PgMem.
Proof.
  split.
  - intros o m m' x. destruct o; unfold pg_step; simpl; try done.
    intros H. apply (f_equal snd), pm_execute_error in H as [code ->]. done.
  - intros o m. destruct o; unfold pg_step; simpl; try lia. destruct (pm_execute_session sql params m) as (_ & -> & _). lia.
  - intros m m' t [= <- <-]. simpl. lia.
  - intros ns m m' [= <-]. simpl. lia.
  - intros params m m' c [_ H]%pm_execute_quiet (row & v & Hrow & Hv & Ht); [|done..]. revert H. unfold pm_quiet. simpl.
    destruct (pm_aborted m); [done|]. destruct (pm_until m <=? pm_clock m)%Z; intros [= <- <-]; [done|].
    injection Hrow as <-. injection Hv as <-. done.
  - intros o m Ho. destruct o; try done; unfold pg_step; simpl. by destruct (pm_execute_session sql params m) as (-> & _).
  - intros sql params m m' c Ha. simpl in Ha. unfold pg_step, pgmem_library, pm_execute. by rewrite Ha.
  - intros o m Ho. destruct o; try done; unfold pg_step; simpl. apply bool_decide_eq_false in Ho.
    intros _. by apply pm_execute_session.
Qed.

(** Its catalogue. *)
#[export] Instance pgmem_dictionary : DictionaryView PgMem := fun _ => pm_dictionary.

#[export] Instance pgmem_dictionary_laws : DictionaryLaws PgMem.
Proof.
  split. intros sql values m m' c Hs. apply list_elem_of_In in Hs. simpl in Hs.
  destruct Hs as [<-|[<-|[<-|[]]]]; intros [_ H]%pm_execute_quiet; try (by vm_compute).
  all: apply pm_quiet_asks in H as [-> ->]; [|by vm_compute..]; done.
Qed.

(** ** A run on it *)
#[local] Instance demo_versions : PgVersions := "3.2".
#[local] Existing Instances ascii_interpreter postgres_dialect demo_host.
#[local] Instance demo_loader : Loader := fun _ => Ok demo_prog.
#[local] Instance demo_deferred : Deferred := fun _ => false.

(** A new schema; another runner has the lock for three rounds of the polling. *)
Definition demo_server : PgMem := MkPgMem empty_db None false [] None false false (3 * pg_poll_ns demo_pg) 0.
Definition demo_session : PgSession PgMem := MkPgSession demo_server false false [] None.

Definition postgres_run (s : PgSession PgMem) : World (PgSession PgMem) * result pyexn unit :=
  run (DR := postgres_driver demo_pg None) demo_bindings demo_capture None (initial_world s demo_runner).

Definition postgres_statuses (w : World (PgSession PgMem)) : list (str * str) :=
  map (fun r => (hr_id r, hr_status r)) (db_history (pm_durable (ps_lib (w_driver w)))).

(** The run waits for the lock, initializes the namespace, runs the migrations and
    gives everything back; the next one finds nothing to do. *)
Example postgres_run_ok :
  let w := (postgres_run demo_session).1 in
  let again := (postgres_run (w_driver w)).1 in
  rp_exit_code (w_report w) = OK /\ rp_executed (w_report w) = ["one"; "two"; "three"] /\
  postgres_statuses w = [("one", "SUCCESS"); ("two", "SUCCESS"); ("three", "SUCCESS")] :> list (str * str) /\
  pm_owner (ps_lib (w_driver w)) = false /\ ps_lock_held (w_driver w) = false /\
  rp_exit_code (w_report again) = OK /\ rp_executed (w_report again) = [].
Proof. vm_compute. done. Qed.

(** Migration code that ignores the failure of a statement: the batch is not
    committed. *)
Definition careless_prog : prog :=
  with_transaction (fun k =>
    PCall (CProgressSet (VStr "cursor") (VStr "10")) (fun _ => PCall (CExecute BAD_SQL VNone) (fun _ => k (Ok VNone))))
    (fun r => match r with Ok _ => PReturn VNone | Err x => PRaise x end).

Example postgres_run_aborted :
  let w := (run (DR := postgres_driver demo_pg None) (L := fun _ => Ok careless_prog) demo_bindings demo_capture None
              (initial_world demo_session demo_runner)).1 in
  rp_exit_code (w_report w) = MIGRATION_FAILED /\
  postgres_statuses w = [("one", "SUCCESS"); ("two", "SUCCESS"); ("three", "ACTIVE")] :> list (str * str) /\
  db_progress (pm_durable (ps_lib (w_driver w))) = [].
Proof. vm_compute. done. Qed.



(** The namespace as the run leaves it, inspected. *)
Definition initialized : PgSession PgMem := (connect demo_pg None (w_driver (postgres_run demo_session).1)).1.

