(* ===== verification/OraText.v ===== *)
(** * The Oracle metadata definitions ([adapters/oracle.py], module level)

    The statements that create the metadata objects, the columns and constraints
    that the inspection expects, the queries of the data dictionary, the snapshot's
    statement and the PL/SQL blocks. *)
From S2P Require Import Prelude PyStr Text Errors Paths Manifest Model SqlText Admission Metadata Statements.
Open Scope str_scope.

(* @src adapters/oracle.py ACTIVE_INDEX_EXPRESSION *)
Definition ACTIVE_INDEX_EXPRESSION : str := "CASE WHEN status = 'ACTIVE' THEN 1 END".

(** ** The statements that create the objects

    [_DDL[name].format(...)]. *)
Section ddl.
Context {SP : Spelling}.

(* @src adapters/oracle.py 1475-1510 _DDL[HISTORY_TABLE] *)
Definition HISTORY_DDL : str := "
        CREATE TABLE " ++ metadata_name HISTORY_TABLE ++ " (
            seq               NUMBER(10)                  NOT NULL,
            migration_id      VARCHAR2(200 CHAR)          NOT NULL,
            fingerprint       VARCHAR2(80 CHAR)           NOT NULL,
            first_fingerprint VARCHAR2(80 CHAR)           NOT NULL,
            language          VARCHAR2(10 CHAR)           NOT NULL,
            " ++ quoted "MODE" ++ "            VARCHAR2(12 CHAR)           NOT NULL,
            status            VARCHAR2(8 CHAR)            NOT NULL,
            attempt           NUMBER(10),
            started_at        TIMESTAMP(6) WITH TIME ZONE NOT NULL,
            last_attempt_at   TIMESTAMP(6) WITH TIME ZONE,
            finished_at       TIMESTAMP(6) WITH TIME ZONE,
            runner_host       VARCHAR2(255 CHAR),
            runner_user       VARCHAR2(128 CHAR),
            runner_pid        NUMBER(10),
            db_session        VARCHAR2(200 CHAR),
            tool_version      VARCHAR2(64 CHAR)           NOT NULL,
            CONSTRAINT m8_history_pk     PRIMARY KEY (migration_id),
            CONSTRAINT m8_history_seq_uq UNIQUE (seq),
            CONSTRAINT m8_history_seq_ck CHECK (seq > 0),
            CONSTRAINT m8_history_lang_ck
                CHECK (language IN ('sql','python')),
            CONSTRAINT m8_history_mode_ck
                CHECK (" ++ quoted "MODE" ++ " IN ('atomic','restartable')),
            CONSTRAINT m8_history_status_ck
                CHECK (status IN ('ACTIVE','SUCCESS')),
            CONSTRAINT m8_history_attempt_ck
                CHECK (attempt IS NULL OR attempt > 0),
            CONSTRAINT m8_history_active_ck
                CHECK (status <> 'ACTIVE' OR (" ++ quoted "MODE" ++ " = 'restartable'
                       AND attempt IS NOT NULL AND finished_at IS NULL)),
            CONSTRAINT m8_history_success_ck
                CHECK (status <> 'SUCCESS' OR finished_at IS NOT NULL)
        )
    ".

(* @src adapters/oracle.py 1511-1513 _DDL[ACTIVE_INDEX] *)
Definition ACTIVE_INDEX_DDL : str := "
        CREATE UNIQUE INDEX " ++ metadata_name ACTIVE_INDEX ++ " ON " ++ metadata_name HISTORY_TABLE ++ " (" ++ ACTIVE_INDEX_EXPRESSION ++ ")
    ".

(* @src adapters/oracle.py 1514-1526 _DDL[PROGRESS_TABLE] *)
Definition PROGRESS_DDL : str := "
        CREATE TABLE " ++ metadata_name PROGRESS_TABLE ++ " (
            migration_id VARCHAR2(200 CHAR)          NOT NULL,
            prog_key     VARCHAR2(128 CHAR)          NOT NULL,
            prog_value   VARCHAR2(4000 BYTE)         NOT NULL,
            updated_at   TIMESTAMP(6) WITH TIME ZONE NOT NULL,
            CONSTRAINT m8_progress_pk PRIMARY KEY (migration_id, prog_key),
            CONSTRAINT m8_progress_fk FOREIGN KEY (migration_id)
                REFERENCES " ++ metadata_name HISTORY_TABLE ++ " (migration_id),
            CONSTRAINT m8_progress_key_ck   CHECK (LENGTH(prog_key) BETWEEN 1 AND 128),
            CONSTRAINT m8_progress_value_ck CHECK (LENGTH(prog_value) >= 1)
        )
    ".

(* @src adapters/oracle.py 1527-1539 _DDL[META_TABLE] *)
Definition META_DDL : str := "
        CREATE TABLE " ++ metadata_name META_TABLE ++ " (
            meta_key         VARCHAR2(30 CHAR)           NOT NULL,
            layout_version   NUMBER(10)                  NOT NULL,
            adapter          VARCHAR2(30 CHAR)           NOT NULL,
            lock_provider    VARCHAR2(30 CHAR)           NOT NULL,
            lock_binding     VARCHAR2(200 CHAR)          NOT NULL,
            target_namespace VARCHAR2(128 CHAR)          NOT NULL,
            initialized_at   TIMESTAMP(6) WITH TIME ZONE NOT NULL,
            CONSTRAINT m8_meta_pk PRIMARY KEY (meta_key),
            CONSTRAINT m8_meta_singleton_ck CHECK (meta_key = 'singleton')
        )
    ".

(* @src adapters/oracle.py _DDL *)
Definition DDL : list (str * str) :=
  [(HISTORY_TABLE, HISTORY_DDL); (ACTIVE_INDEX, ACTIVE_INDEX_DDL); (PROGRESS_TABLE, PROGRESS_DDL); (META_TABLE, META_DDL)].

Definition ddl_of (name : str) : option str := snd <$> find (fun kv => bool_decide (kv.1 = name)) DDL.

(** ** The snapshot's statement *)
(* @src adapters/oracle.py _TS *)
Definition time_text (column : str) : str :=
  "TO_CHAR(" ++ column ++ ", 'YYYY-MM-DD" ++ [34%N] ++ "T" ++ [34%N] ++ "HH24:MI:SS.FF6TZH:TZM')".

(* @src adapters/oracle.py _SNAPSHOT_SQL *)
Definition SNAPSHOT_SQL : str := "
SELECT 'H' AS kind, seq AS ord,
       migration_id AS c1, fingerprint AS c2, first_fingerprint AS c3,
       language AS c4, " ++ quoted "MODE" ++ " AS c5, status AS c6, TO_CHAR(attempt) AS c7,
       " ++ time_text "started_at" ++ " AS c8, " ++ time_text "last_attempt_at" ++ " AS c9, " ++ time_text "finished_at" ++ " AS c10,
       runner_host AS c11, runner_user AS c12, TO_CHAR(runner_pid) AS c13,
       db_session AS c14, tool_version AS c15
  FROM " ++ metadata_name HISTORY_TABLE ++ "
UNION ALL
SELECT 'P', 0,
       migration_id, prog_key, prog_value, " ++ time_text "updated_at" ++ ", NULL, NULL, NULL,
       NULL, NULL, NULL, NULL, NULL, NULL, NULL, NULL
  FROM " ++ metadata_name PROGRESS_TABLE ++ "
UNION ALL
SELECT 'M', 0,
       meta_key, TO_CHAR(layout_version), adapter, lock_provider, lock_binding,
       target_namespace, " ++ time_text "initialized_at" ++ ", NULL, NULL, NULL, NULL, NULL, NULL,
       NULL, NULL
  FROM " ++ metadata_name META_TABLE ++ "
ORDER BY 1, 2
".
End ddl.

(** ** The validity of required objects *)
Definition branch (i : nat) : str := "SELECT :t" ++ dec (N.of_nat i) ++ " AS otype, :n" ++ dec (N.of_nat i) ++ " AS oname FROM dual".

(** [_REQUIRED_SQL.format(branches=...)] for so many objects. *)
(* @src adapters/oracle.py _REQUIRED_SQL *)
Definition REQUIRED_SQL (count : nat) : str := "
WITH req AS (" ++ join " UNION ALL " (map branch (seq 0 count)) ++ ")
SELECT r.otype,
       r.oname,
       (SELECT MAX(a.status) FROM all_objects a
         WHERE a.owner = :owner AND a.object_name = r.oname
           AND a.object_type = r.otype) AS object_status,
       (SELECT COUNT(*) FROM all_objects a
         WHERE a.owner = :owner AND a.object_name = r.oname
           AND a.object_type = r.otype) AS exact_count,
       (SELECT LISTAGG(t, ',') FROM
          (SELECT DISTINCT a2.object_type AS t FROM all_objects a2
            WHERE a2.owner = :owner AND a2.object_name = r.oname)) AS other_types,
       (SELECT COUNT(*) FROM all_errors e
         WHERE e.owner = :owner AND e.name = r.oname AND e.type = r.otype
           AND e.attribute = 'ERROR') AS hard_errors,
       (SELECT COUNT(*) FROM all_errors e
         WHERE e.owner = :owner AND e.name = r.oname AND e.type = r.otype
           AND e.attribute <> 'ERROR') AS soft_errors
  FROM req r
".

(** ** The supported layout *)

(** A column as the dictionary describes it. *)
Record column := MkColumn {
  co_name : str;
  co_type : str;
  co_length : Z;                (* char_length *)
  co_used : option str;         (* char_used: C or B *)
  co_nullable : str;
  co_precision : option Z;
  co_scale : option Z;
}.

Definition number (name nullable : str) : column := MkColumn name "NUMBER" 0 None nullable (Some 10%Z) (Some 0%Z).
Definition varchar (name : str) (length : Z) (used nullable : str) : column :=
  MkColumn name "VARCHAR2" length (Some used) nullable None None.
Definition instant (name nullable : str) : column :=
  MkColumn name "TIMESTAMP(6) WITH TIME ZONE" 0 None nullable None (Some 6%Z).

(* @src adapters/oracle.py _EXPECTED_COLUMNS *)
Definition EXPECTED_COLUMNS : list (str * list column) :=
  [(HISTORY_TABLE,
    [number "SEQ" "N"; varchar "MIGRATION_ID" 200 "C" "N"; varchar "FINGERPRINT" 80 "C" "N";
     varchar "FIRST_FINGERPRINT" 80 "C" "N"; varchar "LANGUAGE" 10 "C" "N"; varchar "MODE" 12 "C" "N";
     varchar "STATUS" 8 "C" "N"; number "ATTEMPT" "Y"; instant "STARTED_AT" "N"; instant "LAST_ATTEMPT_AT" "Y";
     instant "FINISHED_AT" "Y"; varchar "RUNNER_HOST" 255 "C" "Y"; varchar "RUNNER_USER" 128 "C" "Y";
     number "RUNNER_PID" "Y"; varchar "DB_SESSION" 200 "C" "Y"; varchar "TOOL_VERSION" 64 "C" "N"]);
   (PROGRESS_TABLE,
    [varchar "MIGRATION_ID" 200 "C" "N"; varchar "PROG_KEY" 128 "C" "N"; varchar "PROG_VALUE" 4000 "B" "N";
     instant "UPDATED_AT" "N"]);
   (META_TABLE,
    [varchar "META_KEY" 30 "C" "N"; number "LAYOUT_VERSION" "N"; varchar "ADAPTER" 30 "C" "N";
     varchar "LOCK_PROVIDER" 30 "C" "N"; varchar "LOCK_BINDING" 200 "C" "N";
     varchar "TARGET_NAMESPACE" 128 "C" "N"; instant "INITIALIZED_AT" "N"])].

(* @src adapters/oracle.py _EXPECTED_CONSTRAINTS *)
Definition EXPECTED_CONSTRAINTS : list (str * ExpectedConstraints) :=
  [(HISTORY_TABLE, MkExpected [KeyPrimary "MIGRATION_ID"; KeyUnique "SEQ"]
    ["SEQ > 0";
     "LANGUAGE IN ( 'sql' , 'python' )";
     "MODE IN ( 'atomic' , 'restartable' )";
     "STATUS IN ( 'ACTIVE' , 'SUCCESS' )";
     "ATTEMPT IS NULL OR ATTEMPT > 0";
     "STATUS <> 'ACTIVE' OR ( MODE = 'restartable' AND ATTEMPT IS NOT NULL AND FINISHED_AT IS NULL )";
     "STATUS <> 'SUCCESS' OR FINISHED_AT IS NOT NULL"]);
   (PROGRESS_TABLE, MkExpected [KeyPrimary "MIGRATION_ID,PROG_KEY"; KeyForeign "MIGRATION_ID" HISTORY_TABLE "MIGRATION_ID"]
    ["LENGTH ( PROG_KEY ) BETWEEN 1 AND 128";
     "LENGTH ( PROG_VALUE ) >= 1"]);
   (META_TABLE, MkExpected [KeyPrimary "META_KEY"]
    ["META_KEY = 'singleton'"])].

(* @src adapters/oracle.py _SUPPORTED_ACTIVE_INDEX_EXPRESSIONS *)
Definition SUPPORTED_ACTIVE_INDEX_EXPRESSIONS {UC : Unicode} : list str :=
  map (fun text => compact_definition text false)
    [ACTIVE_INDEX_EXPRESSION; "CASE " ++ [34%N] ++ "STATUS" ++ [34%N] ++ " WHEN 'ACTIVE' THEN 1 END"].

(** ** Queries of the dictionary and the session *)

(* @src adapters/oracle.py 818-825 OracleAdapter._objects_present (query) *)
Definition OBJECTS_SQL : str :=
  "SELECT object_name FROM all_objects WHERE owner = :owner AND object_type IN ('TABLE','INDEX') AND object_name IN (" ++
  join ", " (map (fun i => ":n" ++ dec (N.of_nat i)) (seq 0 (length CREATION_ORDER))) ++ ")".
(* @src adapters/oracle.py 841-843 OracleAdapter._definition_problems (query) *)
Definition COLUMNS_SQL : str :=
  ("SELECT column_name, data_type, char_length, char_used, nullable, data_precision, data_scale " ++
   "FROM all_tab_columns WHERE owner = :owner AND table_name = :name ORDER BY column_id").
(* @src adapters/oracle.py 877-888 OracleAdapter._constraint_problems (query) *)
Definition CONSTRAINTS_SQL : str :=
  ("SELECT c.constraint_type, c.status, c.validated, c.search_condition,   (SELECT " ++
   "LISTAGG(cc.column_name, ',') WITHIN GROUP (ORDER BY cc.position)      FROM all_cons_columns " ++
   "cc     WHERE cc.owner = c.owner AND cc.constraint_name = c.constraint_name),   c.r_owner,   " ++
   "(SELECT r.table_name FROM all_constraints r     WHERE r.owner = c.r_owner AND " ++
   "r.constraint_name = c.r_constraint_name),   (SELECT LISTAGG(rc.column_name, ',') WITHIN " ++
   "GROUP (ORDER BY rc.position)      FROM all_cons_columns rc     WHERE rc.owner = c.r_owner " ++
   "AND rc.constraint_name = c.r_constraint_name) FROM all_constraints c WHERE c.owner = :owner " ++
   "AND c.table_name = :name").
(* @src adapters/oracle.py 968-969 OracleAdapter._index_problems (index) *)
Definition INDEX_SQL : str :=
  ("SELECT uniqueness, status, funcidx_status, table_name FROM all_indexes WHERE owner = :owner " ++
   "AND index_name = :name").
(* @src adapters/oracle.py 989-990 OracleAdapter._index_problems (expression) *)
Definition INDEX_EXPRESSION_SQL : str :=
  ("SELECT column_expression FROM all_ind_expressions WHERE index_owner = :owner AND index_name " ++
   "= :name ORDER BY column_position").
(* @src adapters/oracle.py 1003-1004 OracleAdapter._index_problems (columns) *)
Definition INDEX_COLUMNS_SQL : str :=
  ("SELECT COUNT(*) FROM all_ind_columns WHERE index_owner = :owner AND index_name = :name").
(* @src adapters/oracle.py 523-524 OracleAdapter._verify_no_failover (query) *)
Definition FAILOVER_SQL : str :=
  ("SELECT failover_type, failover_method FROM v$session WHERE sid = " ++
   "sys_context('USERENV','SID')").
(* @src adapters/oracle.py 629-631 OracleAdapter._read_session_identity (query) *)
Definition IDENTITY_SQL : str :=
  ("SELECT sys_context('USERENV','SID'), sys_context('USERENV','SESSIONID'), " ++
   "sys_context('USERENV','INSTANCE_NAME'), sys_context('USERENV','SERVER_HOST') FROM dual").
(* @src adapters/oracle.py 639-639 OracleAdapter._read_session_identity (serial) *)
Definition SERIAL_SQL : str :=
  ("SELECT serial# FROM v$session WHERE sid = sys_context('USERENV','SID')").
(* @src adapters/oracle.py 1295-1297 OracleAdapter._error_text (query) *)
Definition ERRORS_SQL : str :=
  ("SELECT line, position, text FROM all_errors WHERE owner = :owner AND name = :name AND type " ++
   "= :type AND attribute = :attribute ORDER BY sequence FETCH FIRST 3 ROWS ONLY").
(* @src adapters/oracle.py 1332-1332 OracleAdapter._probe_session_liveness (query) *)
Definition LIVENESS_SQL : str :=
  ("SELECT COUNT(*) FROM v$session WHERE sid = :sid AND serial# = :serial").

(** ** PL/SQL blocks *)
Definition LOCK_REQUEST (package : str) : str :=
  "BEGIN :result := " ++ package ++ ".REQUEST(id => :lock_id, lockmode => :mode, timeout => :timeout, release_on_commit => FALSE); END;".
Definition LOCK_RELEASE (package : str) : str := "BEGIN :result := " ++ package ++ ".RELEASE(id => :lock_id); END;".
Definition XID_SQL (create : bool) : str :=
  "BEGIN :xid := SYS.DBMS_TRANSACTION.LOCAL_TRANSACTION_ID(" ++ (if create then "TRUE" else "FALSE") ++ "); END;".
