(* ===== verification/OraLib.v ===== *)
(** * What the Oracle adapter calls

    python-oracledb as an interface, and the state of the adapter's methods over it:
    the driver's together with the adapter's own fields and the module's. *)
From S2P Require Import Prelude PyStr Text Errors Paths Manifest Model SqlText Admission World Statements.
From S2P Require Export Effects Dbapi.
Open Scope str_scope.

Record ora_cursor := MkOraCursor {
  oc_rows : list (list pyval);    (* fetchall() *)
  oc_rowcount : Z;
}.

(** One call. A cursor's rows are fetched at once and the contents of a LOB come with
    its row; a block's output variable is what the call returns. *)
Inductive oraop :=
| OConnect (user : str) (password : option str) (dsn : str) (external : bool)   (* oracledb.connect *)
| OThin                                          (* Connection.thin *)
| OAutocommit (b : bool)                         (* Connection.autocommit = b *)
| OVersion                                       (* Connection.version *)
| OInProgress                                    (* Connection.transaction_in_progress, read locally *)
| OExecute (sql : str) (params : sql_params)
| OBlock (sql : str) (params : bindings_list)    (* a PL/SQL block with one output variable *)
| OExecuteMany (sql : str) (sets : list pyval)
| OCommit | ORollback | OClose
| OIsThin                                        (* oracledb.is_thin_mode() *)
| OInitClient (lib_dir config_dir : option str)  (* oracledb.init_oracle_client *)
| OConfigDir (dir : str)                         (* oracledb.defaults.config_dir = dir *)
| OHook (b : Boundary) (phase : str).            (* a hook installed by a test *)

Definition ora_reply (o : oraop) : Type :=
  match o with
  | OThin | OInProgress | OIsThin => bool
  | OVersion => str
  | OExecute _ _ => ora_cursor
  | OBlock _ _ => pyval
  | OExecuteMany _ _ => Z
  | _ => unit
  end.

Class OraLibrary (L : Type) := ora_step : forall o : oraop, L -> L * result pyexn (ora_reply o).

(** [_THICK_MODE], of the process: not initialized, initialized by another caller, or
    by this adapter with these directories. *)
(* @src adapters/oracle.py _THICK_MODE *)
Inductive thick_mode := Thin | Elsewhere | Initialized (lib_dir config_dir : option str).

#[export] Instance thick_mode_eq_dec : EqDecision thick_mode.
Proof. solve_decision. Defined.

(** The adapter's own fields; [_conn] is there or not. *)
(* @src adapters/oracle.py 385-389 OracleAdapter.__init__ (state) *)
Record OraSession (L : Type) := MkOraSession {
  os_lib : L;
  os_thick : thick_mode;
  os_conn : bool;
  os_lock_held : bool;
  os_banner : str;
  os_identity : option str;
  os_commit_note : str;
}.
Arguments MkOraSession {_} _ _ _ _ _ _ _.
Arguments os_lib {_} _.
Arguments os_thick {_} _.
Arguments os_conn {_} _.
Arguments os_lock_held {_} _.
Arguments os_banner {_} _.
Arguments os_identity {_} _.
Arguments os_commit_note {_} _.

Abbreviation OM L := (EM (OraSession L)).

Section operations.
Context {L : Type} {LB : OraLibrary L}.

Definition put_lib (l : L) (s : OraSession L) : OraSession L :=
  MkOraSession l (os_thick s) (os_conn s) (os_lock_held s) (os_banner s) (os_identity s) (os_commit_note s).
Definition put_thick (t : thick_mode) (s : OraSession L) : OraSession L :=
  MkOraSession (os_lib s) t (os_conn s) (os_lock_held s) (os_banner s) (os_identity s) (os_commit_note s).
Definition put_conn (b : bool) (s : OraSession L) : OraSession L :=
  MkOraSession (os_lib s) (os_thick s) b (os_lock_held s) (os_banner s) (os_identity s) (os_commit_note s).
Definition put_lock (b : bool) (s : OraSession L) : OraSession L :=
  MkOraSession (os_lib s) (os_thick s) (os_conn s) b (os_banner s) (os_identity s) (os_commit_note s).
Definition put_banner (t : str) (s : OraSession L) : OraSession L :=
  MkOraSession (os_lib s) (os_thick s) (os_conn s) (os_lock_held s) t (os_identity s) (os_commit_note s).
Definition put_identity (t : str) (s : OraSession L) : OraSession L :=
  MkOraSession (os_lib s) (os_thick s) (os_conn s) (os_lock_held s) (os_banner s) (Some t) (os_commit_note s).
Definition put_note (t : str) (s : OraSession L) : OraSession L :=
  MkOraSession (os_lib s) (os_thick s) (os_conn s) (os_lock_held s) (os_banner s) (os_identity s) t.

(** One call of the driver. *)
Definition ora (o : oraop) : OM L (ora_reply o) := fun s =>
  let '(l, r) := ora_step o (os_lib s) in (put_lib l s, r).
End operations.
