(* ===== verification/Oracle.v ===== *)
(** * The Oracle adapter ([adapters/oracle.py])

    [OracleAdapter], method by method: its configuration, the connection in the
    configured mode and its session settings, the lock of DBMS_LOCK, transactions,
    the engine's statements, the snapshot and the liveness probe. *)
From S2P Require Import Prelude PyStr Text Errors Latch Paths Manifest Model SqlText Admission Metadata World Statements.
From S2P Require Import Config OraText OraLib.
Open Scope str_scope.

(** ** Configuration *)
(* @src adapters/oracle.py 346-349 OracleAdapter.__init__ (keys) *)
Definition ORACLE_OPTIONS : list str := ["ddl_lock_timeout_seconds"; "allow_thick_mode"; "client_lib_dir"; "config_dir"].

Definition span (p : char -> bool) (s : str) : str * str := (take (span_len p s) s, drop (span_len p s) s).

(** The parts of [connecting[target]]: the pattern's [$] also matches before a final
    line feed. *)
(* @src adapters/oracle.py _PROXY_USER_RE *)
Definition proxy_parts (value : str) : option (str * str) :=
  let bracket c := (c =? 91)%N || (c =? 93)%N in
  let '(connecting, rest) := span (fun c => negb (bracket c)) value in
  match rest with
  | c :: rest =>
      if (c =? 91)%N then
        let '(target, rest) := span (fun c => negb (bracket c)) rest in
        if bool_decide (rest = "]" \/ rest = "]" ++ [10%N]) then Some (connecting, target) else None
      else None
  | [] => None
  end.

Section init.
Context {PR : PyRuntime} {UC : Unicode}.
(** [Path(value).is_dir()]; [int] and [bool] of the TOML values that [toml] does not
    tell apart. *)
Context (is_dir : str -> bool) (float_int : result pyexn Z) (other_truth : bool).

(** The session's user, the connecting user and the driver's connect string. *)
(* @src adapters/oracle.py _parse_user *)
Definition parse_user (value : str) : result error (str * option str * str) :=
  match proxy_parts value with
  | None => user ← require_identifier value; Ok (user, Some user, user)
  | Some (connecting, target) =>
      target ← require_identifier (strip target);
      match strip connecting with
      | [] => Ok (target, None, "[" ++ target ++ "]")
      | connecting =>
          authenticating ← require_identifier connecting;
          Ok (target, Some authenticating, authenticating ++ "[" ++ target ++ "]")
      end
  end.

(* @src adapters/oracle.py _optional_directory *)
Definition optional_directory (value : option toml) : result error (option str) :=
  match value with
  | None => Ok None
  | Some (TStr (c :: s)) =>
      raise_if (negb (is_dir (c :: s))) (cerr "not a directory");;
      Ok (Some (c :: s))
  | Some _ => Err (cerr "must be a path")
  end.

(** [bool(value)] of a TOML value. *)
Definition toml_truth (v : toml) : bool :=
  match v with
  | TStr s => negb (bool_decide (s = []))
  | TInt z => negb (z =? 0)%Z
  | TBool b => b
  | TOther => other_truth
  | TArr l => negb (bool_decide (length l = 0))
  | TTable l => negb (bool_decide (length l = 0))
  end.

(* @src adapters/oracle.py QUALIFIED_RE *)
Definition qualified_name (s : str) : bool :=
  match split_on 46%N s with
  | [name] => oracle_identifier name
  | [schema; name] => oracle_identifier schema && oracle_identifier name
  | _ => false
  end.

(** The fields that [__init__] sets for good. *)
Record OraConf := MkOraConf {
  oc_dsn : str;
  oc_user : str;                    (* the user that the session is *)
  oc_connecting : option str;       (* the one that authenticates *)
  oc_connect_string : str;
  oc_schema : str;
  oc_ddl_timeout : Z;
  oc_allow_thick : bool;
  oc_client_lib_dir : option str;
  oc_config_dir : option str;
  oc_lock_id : Z;
  oc_package : str;
  oc_lock_timeout : Z;
}.

(* @src adapters/oracle.py OracleAdapter.__init__ *)
Definition oracle_init (c : Config) : result pyexn OraConf :=
  dsn ← (match truthy (cf_dsn c) with
         | Some d => Ok d
         | None => Err (PyMigr8 (cerr "the oracle adapter requires database.dsn"))
         end);
  user ← (match truthy (cf_user c) with
          | Some u => Ok u
          | None => Err (PyMigr8 (cerr "the oracle adapter requires database.user"))
          end);
  '(user, connecting, connect_string) ← lift (parse_user user);
  schema ← lift (require_identifier (default user (truthy (cf_target_schema c))));
  let options := default [] (snd <$> find (fun kv => bool_decide (kv.1 = "oracle")) (cf_options c)) in
  raise_if (unknown_keys ORACLE_OPTIONS options) (PyMigr8 (cerr "[oracle] has unknown keys"));;
  ddl_timeout ← toml_int float_int (default (TInt 30) (table_get "ddl_lock_timeout_seconds" options));
  raise_if (ddl_timeout <? 0)%Z (PyMigr8 (cerr "oracle.ddl_lock_timeout_seconds must not be negative"));;
  let thick := toml_truth (default (TBool false) (table_get "allow_thick_mode" options)) in
  lib_dir ← lift (optional_directory (table_get "client_lib_dir" options));
  config_dir ← lift (optional_directory (table_get "config_dir" options));
  raise_if (match lib_dir with Some _ => negb thick | None => false end)
    (PyMigr8 (cerr "oracle.client_lib_dir requires oracle.allow_thick_mode"));;
  raise_if (negb (bool_decide (lk_provider (cf_lock c) = "dbms_lock")))
    (PyMigr8 (cerr "the oracle adapter requires lock.provider = dbms_lock"));;
  lock_id ← (match lk_id (cf_lock c) with
             | Some i => Ok i
             | None => Err (PyMigr8 (cerr "the oracle adapter requires an explicit lock.id"))
             end);
  let package := default "SYS.DBMS_LOCK" (truthy (lk_package (cf_lock c))) in
  raise_if (negb (qualified_name (upper package)) || negb (bool_decide (upper package = package)))
    (PyMigr8 (cerr "lock.package must be an unquoted uppercase [schema.]package name"));;
  Ok (MkOraConf dsn user connecting connect_string schema ddl_timeout thick lib_dir config_dir lock_id package
        (Z.min (lk_timeout_seconds (cf_lock c)) 32767)).
End init.

(** [oracledb.__version__]. *)
Class OraVersions := oracledb_version : str.

Definition assertion_error : pyexn := PyException (builtin_exn "builtins.AssertionError").

(** DBMS_LOCK's exclusive mode. *)
(* @src adapters/oracle.py _X_MODE *)
Definition X_MODE : Z := 6.

(* @src adapters/oracle.py _PRIVILEGE_ORA_CODES *)
Definition PRIVILEGE_ORA_CODES : list str := ["ORA-00942"; "ORA-01031"].

Section oracle.
Context {L : Type} {LB : OraLibrary L} {PR : PyRuntime} {UC : Unicode} {OV : OraVersions}.
Context (C : OraConf) (password : option str).

#[local] Hint Extern 0 Spelling => exact (oracle_spelling (oc_schema C)) : typeclass_instances.

(** ** The session *)
(** A connection is there. *)
(* @src adapters/oracle.py OracleAdapter._cursor *)
Definition cursor : OM L unit :=
  connected ← s_gets os_conn;
  s_when (negb connected) (s_raise_error (usage "the Oracle session is not connected")).

(** [self._cursor().execute(sql, ...)]. *)
Definition cur_execute (sql : str) (params : sql_params) : OM L ora_cursor := cursor;; ora (OExecute sql params).
Definition cur_block (sql : str) (params : bindings_list) : OM L pyval := cursor;; ora (OBlock sql params).

(** [cursor.fetchone()]. *)
Definition fetchone (c : ora_cursor) : option (list pyval) := head (oc_rows c).
Definition execute_one (sql : str) (params : sql_params) : OM L (option (list pyval)) :=
  c ← cur_execute sql params; mret (fetchone c).

(** [except oracledb.Error as exc: h]. *)
Definition catch_oracle {A} (m : OM L A) (h : driver_exn -> OM L A) : OM L A :=
  s_try m (fun x => match x with
                    | PyException d => if instance_of oracledb_error d then h d else s_raise x
                    | _ => s_raise x
                    end).

Definition as_setup_error {A} (m : OM L A) : OM L A :=
  catch_oracle m (fun d => s_raise_error (setup_error (D := oracle_dialect) d)).

(** [self.error_code(exc) in codes]. *)
Definition code_in (codes : list str) (d : driver_exn) : bool :=
  match oracle_error_code d with Some code => mem code codes | None => false end.

(* @src adapters/oracle.py OracleAdapter._verify_no_failover *)
Definition verify_no_failover : OM L unit :=
  row ← catch_oracle (execute_one FAILOVER_SQL NoParams)
          (fun d => if code_in PRIVILEGE_ORA_CODES d
                    then s_raise_error (mk_at ConnectionSetupError "Thick mode needs to read V$SESSION" "connect" None)
                    else s_raise_error (setup_error (D := oracle_dialect) d));
  value ← s_of_result (match row with Some ((_ :: _) as row) => cell row 0 | _ => Ok VNone end);
  let failover := match value with VNone => None | v => Some (upper (py_str v)) end in
  s_when (negb (bool_decide (failover = Some ("NONE" : str))))
    (s_raise_error (mk_at ConnectionSetupError "a transparent failover would drop the lock" "connect" None)).

(* @src adapters/oracle.py OracleAdapter._probe_commit_wait *)
Definition probe_commit_wait : OM L str :=
  catch_oracle
    (row ← execute_one "SELECT value FROM v$parameter WHERE name = 'commit_wait'" NoParams;
     value ← s_of_result (match row with Some ((_ :: _) as row) => cell row 0 | _ => Ok VNone end);
     mret ("NOT VERIFIED at session level. Instance value is " ++ py_str value))
    (fun d => mret ("NOT VERIFIED: v$parameter is not readable (ORA-" ++ zero_pad 5 (dec (Z.to_N (d_number d))) ++ ")")).

(* @src adapters/oracle.py OracleAdapter._verify_namespace_access *)
Definition verify_namespace_access : OM L unit :=
  as_setup_error
    (execute_one "SELECT COUNT(*) FROM all_objects WHERE owner = :owner" (Named [("owner", VStr (oc_schema C))]));;
  mret tt.

(* @src adapters/oracle.py OracleAdapter._configure_session *)
Definition configure_session : OM L unit :=
  cursor;;
  as_setup_error
    (ora (OExecute "ALTER SESSION SET COMMIT_WAIT = FORCE_WAIT" NoParams);;
     ora (OExecute "ALTER SESSION SET COMMIT_LOGGING = IMMEDIATE" NoParams);; mret tt);;
  note ← probe_commit_wait; s_modify (put_note note);;
  as_setup_error (ora (OExecute ("ALTER SESSION SET DDL_LOCK_TIMEOUT = " ++ dec_Z (oc_ddl_timeout C)) NoParams);; mret tt);;
  s_when (negb (bool_decide (oc_schema C = oc_user C)))
    (as_setup_error
       (ora (OExecute ("ALTER SESSION SET CURRENT_SCHEMA = " ++ quoted (oc_schema C)) NoParams);; mret tt));;
  verify_namespace_access.

(** [if row and row[0]] of the banner. *)
(* @src adapters/oracle.py OracleAdapter._read_banner *)
Definition read_banner : OM L str :=
  cursor;;
  found ← catch_oracle
    (row ← execute_one "SELECT banner_full FROM v$version" NoParams;
     match row with
     | Some (v :: _) =>
         if py_truth v then thin ← ora OThin; mret (Some (py_str v ++ " [thin=" ++ show_bool thin ++ "]"))
         else mret None
     | _ => mret None
     end)
    (fun _ => mret None);
  match found with
  | Some banner => mret banner
  | None =>
      version ← ora OVersion; thin ← ora OThin;
      mret ("Oracle Database " ++ version ++ " [thin=" ++ show_bool thin ++
            ", driver python-oracledb " ++ oracledb_version ++ "]")
  end.

(* @src adapters/oracle.py OracleAdapter._read_session_identity *)
Definition read_session_identity : OM L str :=
  base ← as_setup_error (execute_one IDENTITY_SQL NoParams);
  match base with
  | None => s_raise type_error
  | Some [sid; audsid; instance; host] =>
      serial ← catch_oracle
        (row ← execute_one SERIAL_SQL NoParams;
         s_of_result (match row with Some ((_ :: _) as row) => cell row 0 | _ => Ok VNone end))
        (fun _ => mret VNone);
      mret ("instance=" ++ py_str instance ++ "@" ++ py_str host ++ ",sid=" ++ py_str sid ++ ",audsid=" ++ py_str audsid ++
            (match serial with VNone => ",serial=unavailable" | v => ",serial=" ++ py_str v end))
  | Some _ => s_raise value_error
  end.

(** ** Thick mode *)
(* @src adapters/oracle.py _enable_thick_mode *)
Definition enable_thick_mode : OM L unit :=
  mode ← s_gets os_thick;
  match mode with
  | Elsewhere => mret tt
  | Initialized lib_dir config_dir =>
      s_when (negb (bool_decide (oc_client_lib_dir C = lib_dir /\ oc_config_dir C = config_dir)))
        (s_raise_error (usage "thick mode was already initialized with other directories"))
  | Thin =>
      thin ← ora OIsThin;
      if negb thin then s_modify (put_thick Elsewhere)
      else
        catch_oracle (ora (OInitClient (oc_client_lib_dir C) (oc_config_dir C)))
          (fun _ => s_raise_error (unsupported "the Oracle Client libraries could not be loaded"));;
        s_modify (put_thick (Initialized (oc_client_lib_dir C) (oc_config_dir C)))
  end.

(** ** Begin and end of the session *)
(** [except oracledb.Error: pass]. *)
Definition suppress_oracle (m : OM L unit) : OM L unit := catch_oracle m (fun _ => mret tt).

(* @src adapters/oracle.py OracleAdapter.discard *)
Definition discard : OM L unit :=
  connected ← s_gets os_conn;
  s_when connected
    (s_modify (put_lock false);;
     s_finally (suppress_oracle (ora OClose)) (s_modify (put_conn false))).

(** The session that was opened is in another mode than the configured one. *)
Definition wrong_mode : OM L unit :=
  ora OClose;; s_modify (put_conn false);; s_raise_error (unsupported "the connection is in another mode").

(* @src adapters/oracle.py OracleAdapter.connect *)
Definition connect : OM L unit :=
  s_when (match password with None => negb (oc_allow_thick C) | Some _ => false end)
    (s_raise_error (cerr "external authentication needs Thick mode"));;
  s_when (match oc_connecting C, password with None, Some _ => true | _, _ => false end)
    (s_raise_error (cerr "database.user names no connecting user, so no password is used"));;
  (if oc_allow_thick C then enable_thick_mode
   else match oc_config_dir C with Some dir => ora (OConfigDir dir) | None => mret tt end);;
  catch_oracle
    (ora (OConnect (oc_connect_string C) password (oc_dsn C) (match password with None => true | Some _ => false end));;
     s_modify (put_conn true))
    (fun _ => s_raise_error (usage "cannot connect to Oracle"));;
  thin ← ora OThin;
  s_when (negb thin && negb (oc_allow_thick C)) wrong_mode;;
  thin ← ora OThin;
  s_when (thin && oc_allow_thick C) wrong_mode;;
  s_try
    (thin ← ora OThin;
     s_when (negb thin) verify_no_failover;;
     ora (OAutocommit false);;
     configure_session;;
     banner ← read_banner; s_modify (put_banner banner);;
     identity ← read_session_identity; s_modify (put_identity identity))
    (fun x => discard;; s_raise x).

(** ** The lock *)
(** The outcome that a return code of DBMS_LOCK.REQUEST is reported as. *)
(* @src adapters/oracle.py 717-744 OracleAdapter.acquire_lock (return codes) *)
Definition lock_code (code : Z) : result error unit :=
  match code with
  | 0%Z => Ok tt
  | 1%Z | 2%Z => Err (mk LockNotAcquiredError "the migration lock was not acquired")
  | 3%Z => Err (cerr "DBMS_LOCK.REQUEST rejected the parameters")
  | 5%Z => Err (cerr "DBMS_LOCK.REQUEST reported an illegal lock handle")
  | 4%Z => Err (usage "the lock is already owned by this session")
  | _ => Err (usage "unexpected DBMS_LOCK.REQUEST return code")
  end.

(* @src adapters/oracle.py OracleAdapter.acquire_lock *)
Definition acquire_lock : OM L unit :=
  held ← s_gets os_lock_held;
  s_when held (s_raise_error (usage "the namespace lock is already held by this run"));;
  cursor;;
  result ← as_setup_error
    (ora (OBlock (LOCK_REQUEST (oc_package C))
            [("lock_id", VInt (oc_lock_id C)); ("mode", VInt X_MODE); ("timeout", VInt (oc_lock_timeout C))]));
  code ← s_of_result (py_int result);
  s_of_result (lift (lock_code code));;
  s_modify (put_lock true).

(* @src adapters/oracle.py OracleAdapter.release_lock *)
Definition release_lock : OM L unit :=
  held ← s_gets os_lock_held; connected ← s_gets os_conn;
  s_when (held && connected)
    (s_finally
       (suppress_oracle (ora (OBlock (LOCK_RELEASE (oc_package C)) [("lock_id", VInt (oc_lock_id C))]);; mret tt))
       (s_modify (put_lock false))).

(** ** Transactions *)
(* @src adapters/oracle.py OracleAdapter._read_transaction_identity *)
Definition do_read_identity : OM L (option str) :=
  v ← cur_block (XID_SQL false) []; text ← s_of_result (py_text_or_none v); mret (truthy text).

(* @src adapters/oracle.py OracleAdapter._establish_transaction_identity *)
Definition do_establish_identity : OM L (option str) :=
  v ← cur_block (XID_SQL true) [];
  text ← s_of_result (py_text_or_none v);
  match truthy text with
  | Some xid => mret (Some xid)
  | None => s_raise_error (usage "Oracle did not return a local transaction id")
  end.

(* @src adapters/oracle.py OracleAdapter._has_open_transaction *)
Definition do_has_open : OM L bool := xid ← do_read_identity; mret (match xid with Some _ => true | None => false end).

(* @src adapters/oracle.py OracleAdapter.batch_transaction_state *)
Definition do_batch_state : OM L BatchTransactionState :=
  connected ← s_gets os_conn;
  if negb connected then mret BT_ENDED
  else open ← ora OInProgress; mret (if (open : bool) then BT_OPEN else BT_ENDED).

(* @src adapters/oracle.py OracleAdapter._do_begin *)
Definition do_begin : OM L unit := mret tt.

(** [assert self._conn is not None]. *)
Definition assert_connected : OM L unit := connected ← s_gets os_conn; s_when (negb connected) (s_raise assertion_error).

(* @src adapters/oracle.py OracleAdapter._do_commit *)
Definition do_commit : OM L unit := assert_connected;; ora OCommit.

(* @src adapters/oracle.py OracleAdapter._do_rollback *)
Definition do_rollback : OM L unit := assert_connected;; ora ORollback.

(* @src adapters/oracle.py OracleAdapter.close *)
Definition close : OM L unit :=
  connected ← s_gets os_conn;
  s_when connected
    (s_finally
       (open ← do_has_open;
        s_when open (ora ORollback);;
        release_lock)
       (s_finally (ora OClose) (s_modify (put_conn false)))).

(** ** Statements *)
(* @src adapters/oracle.py OracleAdapter._metadata_execute *)
Definition metadata_execute (sql : str) (params : bindings_list) : OM L Z :=
  c ← cur_execute sql (Named params); mret (Z.max (oc_rowcount c) 0).

(* @src adapters/oracle.py OracleAdapter._metadata_query *)
Definition metadata_query (sql : str) (params : bindings_list) : OM L (list (list pyval)) :=
  c ← cur_execute sql (Named params); mret (oc_rows c).

(** [_render] and [_binds], then the call. *)
Definition run_command (c : metadata_cmd) : OM L Z :=
  params ← s_of_result (binds (cmd_sql c) (cmd_params c));
  metadata_execute (render (cmd_sql c)) params.

Definition run_query (sql : str) (params : bindings_list) : OM L (list (list pyval)) :=
  params ← s_of_result (binds sql params);
  metadata_query (render sql) params.

Definition count_rows (table : str) : OM L Z :=
  rows ← run_query (count_sql table) []; s_of_result (first_int rows).

Definition marker_rows : OM L (list (list pyval)) := run_query read_meta_sql [("meta_key", VStr META_SINGLETON_KEY)].

Definition progress_values (mid key : str) : OM L (list str) :=
  rows ← run_query progress_get_sql [("migration_id", VStr mid); ("prog_key", VStr key)];
  match rows with
  | [] => mret []
  | row :: _ => v ← s_of_result (cell row 0); mret [py_str v]
  end.

(** [params or {}]. *)
Definition author_binds (v : pyval) : sql_params := if py_truth v then Author v else NoParams.

(* @src adapters/oracle.py OracleAdapter._run *)
Definition run_statement (text : str) (params : pyval) : OM L ora_cursor := cur_execute text (author_binds params).

(* @src adapters/oracle.py OracleAdapter.executemany *)
Definition run_many (text : str) (sets : list pyval) : OM L Z :=
  cursor;; n ← ora (OExecuteMany text sets); mret (Z.max n 0).

(** [_DDL[name].format(...)], then the call that the guard wraps. *)
(* @src adapters/oracle.py OracleAdapter._create_metadata_object *)
Definition create_object (name : str) : OM L unit :=
  sql ← s_of_result (match ddl_of name with Some sql => Ok sql | None => Err key_error end);
  cur_execute sql NoParams;; mret tt.

(** ** The snapshot *)
(** [None if v is None else int(v)]. *)
Definition int_cell (v : pyval) : result pyexn pyval := match v with VNone => Ok VNone | v => z ← py_int v; Ok (VInt z) end.

Definition cells (row : list pyval) (from count : nat) : result pyexn (list pyval) := map_result (cell row) (seq from count).

(* @src adapters/oracle.py 1074-1096 OracleAdapter._read_snapshot (history row) *)
Definition snapshot_history (row : list pyval) : result pyexn HistoryRow :=
  seq ← (v ← cell row 1; py_int v);
  texts ← cells row 2 6;
  attempt ← (v ← cell row 8; int_cell v);
  rest ← cells row 9 5;
  pid ← (v ← cell row 14; int_cell v);
  last ← cells row 15 2;
  history_row ([VInt seq] ++ texts ++ [attempt] ++ rest ++ [pid] ++ last).

(* @src adapters/oracle.py 1098-1103 OracleAdapter._read_snapshot (progress row) *)
Definition snapshot_progress (row : list pyval) : result pyexn ProgressRow :=
  values ← cells row 2 4; progress_row values.

(* @src adapters/oracle.py 1107-1118 OracleAdapter._read_snapshot (marker row) *)
Definition snapshot_marker (row : list pyval) : result pyexn MetaRow :=
  key ← cell row 2;
  version ← (v ← cell row 3; py_int v);
  rest ← cells row 4 5;
  meta_row ([key; VInt version] ++ rest).

(** What the loop over the rows has gathered. *)
Record gathered := MkGathered {
  ga_history : list HistoryRow;
  ga_progress : list ProgressRow;
  ga_meta : option MetaRow;
  ga_markers : Z;
}.

(* @src adapters/oracle.py 1071-1118 OracleAdapter._read_snapshot (loop body) *)
Definition gather (g : gathered) (row : list pyval) : result pyexn gathered :=
  kind ← cell row 0;
  if bool_decide (kind = VStr "H") then
    h ← snapshot_history row; Ok (MkGathered (ga_history g ++ [h]) (ga_progress g) (ga_meta g) (ga_markers g))
  else if bool_decide (kind = VStr "P") then
    p ← snapshot_progress row; Ok (MkGathered (ga_history g) (ga_progress g ++ [p]) (ga_meta g) (ga_markers g))
  else
    key ← cell row 2;
    meta ← (if bool_decide (key = VStr META_SINGLETON_KEY) then m ← snapshot_marker row; Ok (Some m) else Ok (ga_meta g));
    Ok (MkGathered (ga_history g) (ga_progress g) meta (ga_markers g + 1)).

Fixpoint gather_all (g : gathered) (rows : list (list pyval)) : result pyexn gathered :=
  match rows with
  | [] => Ok g
  | row :: rows => g ← gather g row; gather_all g rows
  end.

(* @src adapters/oracle.py OracleAdapter._read_snapshot *)
Definition do_read_snapshot (consistent : bool) : OM L Snapshot :=
  c ← cur_execute SNAPSHOT_SQL NoParams;
  g ← s_of_result (gather_all (MkGathered [] [] None 0) (oc_rows c));
  s_when (1 <? ga_markers g)%Z (s_raise_error (mk MetadataDamagedError "the marker table holds several rows"));;
  mret (MkSnapshot (ga_history g) (ga_progress g) (ga_meta g)).

(** ** Liveness *)
(** [int(fields[key])]. *)
Definition int_field (fields : list (str * str)) (key : str) : result pyexn Z :=
  match snd <$> find (fun kv => bool_decide (kv.1 = key)) fields with
  | Some text => match int_of_text text with Some z => Ok z | None => Err value_error end
  | None => Err key_error
  end.

(* @src adapters/oracle.py OracleAdapter._probe_session_liveness *)
Definition probe_liveness (db_session : option str) : OM L (str * str) :=
  match truthy db_session with
  | None => mret ("unknown" : str, "no session identity was recorded" : str)
  | Some text =>
      let fields := session_fields text in
      let serial := snd <$> find (fun kv => bool_decide (kv.1 = "serial")) fields in
      if bool_decide (serial = None \/ serial = Some ("unavailable" : str)) then
        mret ("unknown" : str, "the recorded identity has no serial number" : str)
      else
        catch_oracle
          (cursor;;
           sid ← s_of_result (int_field fields "sid");
           serial ← s_of_result (int_field fields "serial");
           c ← ora (OExecute LIVENESS_SQL (Named [("sid", VInt sid); ("serial", VInt serial)]));
           v ← s_of_result (match fetchone c with Some ((_ :: _) as row) => cell row 0 | _ => Ok VNone end);
           mret ((if py_truth v then "present" else "absent") : str, "session existence is not proof of execution" : str))
          (fun _ => mret ("unknown" : str, "v$session is not readable" : str))
  end.
End oracle.
