(* ===== verification/OraInspect.v ===== *)
(** * The dictionary inspections of the Oracle adapter ([adapters/oracle.py])

    Which metadata objects exist and every way one differs from the supported
    layout; whether the objects that a migration requires are valid; then the
    adapter as a [Driver]. *)
From S2P Require Import Prelude PyStr Text Errors Latch Paths Manifest Model SqlText Admission Metadata World Statements.
From S2P Require Import Config Catalog OraText OraLib Oracle.
Open Scope str_scope.

Section inspect.
Context {L : Type} {LB : OraLibrary L} {PR : PyRuntime} {UC : Unicode}.
Context (C : OraConf).

#[local] Hint Extern 0 Spelling => exact (oracle_spelling (oc_schema C)) : typeclass_instances.

(** [str.lower()] as far as it can yield the name of an object, which is ASCII. *)
Definition lower_value (v : pyval) : result pyexn str := t ← py_text v; Ok (lower_str t).

(* @src adapters/oracle.py OracleAdapter._objects_present *)
Definition objects_present : OM L (list str) :=
  c ← cur_execute OBJECTS_SQL
        (Named (("owner", VStr (oc_schema C)) ::
                imap (fun i name => ("n" ++ dec (N.of_nat i), VStr (upper name))) CREATION_ORDER));
  names ← s_of_result (map_result (fun row => v ← cell row 0; lower_value v) (oc_rows c));
  mret (remove_dups names).

(** The rows of a query on one object of the schema. *)
Definition ask (sql name : str) : OM L (list (list pyval)) :=
  c ← cur_execute sql (Named [("owner", VStr (oc_schema C)); ("name", VStr (upper name))]); mret (oc_rows c).

(** ** Columns *)
Definition as_read (c : column) : list pyval :=
  [VStr (co_name c); VStr (co_type c); VInt (co_length c); val_str (co_used c); VStr (co_nullable c);
   val_int (co_precision c); val_int (co_scale c)].

(* @src adapters/oracle.py 850-858 OracleAdapter._definition_problems (row) *)
Definition column_of (row : list pyval) : result pyexn (list pyval) :=
  first ← cells row 0 2;
  length ← (v ← cell row 2; if py_truth v then py_int v else Ok 0%Z);
  last ← cells row 3 2;
  precision ← (v ← cell row 5; int_cell v);
  scale ← (v ← cell row 6; int_cell v);
  Ok (first ++ [VInt length] ++ last ++ [precision; scale]).

(* @src adapters/oracle.py 838-864 OracleAdapter._definition_problems (loop body) *)
Definition column_problems (table : str) (expected : list column) : OM L (list str) :=
  rows ← ask COLUMNS_SQL table;
  actual ← s_of_result (map_result column_of rows);
  mret (if bool_decide (actual = map as_read expected) then []
        else [table ++ " column layout does not match the supported layout"]).

(** ** Constraints *)
(** A row of the constraint query; the columns only of a key. *)
Record constraint := MkConstraint {
  cn_kind : pyval;
  cn_status : pyval;
  cn_validated : pyval;
  cn_condition : pyval;
  cn_columns : str;
  cn_owner : pyval;
  cn_target : pyval;
  cn_target_columns : pyval;
}.

(** [(text or "").upper()]. *)
Definition upper_value (v : pyval) : result pyexn str := t ← py_text (or_empty v); Ok (upper t).

(* @src adapters/oracle.py 896-898 OracleAdapter._constraint_problems (row) *)
Definition constraint_of (row : list pyval) : result pyexn constraint :=
  match row with
  | [kind; status; validated; condition; columns; owner; target; target_columns] =>
      columns ← (if bool_decide (kind ∈ map VStr ["P"; "U"; "R"]) then upper_value columns else Ok []);
      Ok (MkConstraint kind status validated condition columns owner target target_columns)
  | _ => Err value_error
  end.

Definition enforced (c : constraint) : bool :=
  bool_decide (cn_status c = VStr "ENABLED") && bool_decide (cn_validated c = VStr "VALIDATED").

Definition key_parts (k : ExpectedKey) : str * str * option (str * str) :=
  match k with
  | KeyPrimary columns => ("P", columns, None)
  | KeyUnique columns => ("U", columns, None)
  | KeyForeign columns target targets => ("R", columns, Some (target, targets))
  end.

Definition is_match (kind columns : str) (c : constraint) : bool :=
  bool_decide (cn_kind c = VStr kind) && bool_decide (cn_columns c = columns).

(** What a foreign key refers to, as text. *)
Definition actual_target (c : constraint) : str :=
  if py_truth (cn_target c)
  then py_str (cn_owner c) ++ "." ++ py_str (cn_target c) ++ "(" ++ py_str (or_empty (cn_target_columns c)) ++ ")"
  else "nothing".

Definition expected_target (wanted : str * str) : str :=
  oc_schema C ++ "." ++ upper (fold_name wanted.1) ++ "(" ++ wanted.2 ++ ")".

(* @src adapters/oracle.py 918-942 OracleAdapter._constraint_problems (match) *)
Definition match_problems (table columns : str) (references : option (str * str)) (c : constraint) : list str :=
  (if enforced c then [] else [table ++ " key on (" ++ columns ++ ") is not ENABLED/VALIDATED"]) ++
  match references with
  | None => []
  | Some wanted =>
      if bool_decide (actual_target c = expected_target wanted) then []
      else [table ++ " key on (" ++ columns ++ ") references another table"]
  end.

(* @src adapters/oracle.py 899-942 OracleAdapter._constraint_problems (keys) *)
Definition key_problems (table : str) (constraints : list constraint) (k : ExpectedKey) : list str :=
  let '(kind, columns, references) := key_parts k in
  match List.filter (is_match kind columns) constraints with
  | [] => [table ++ " is missing a key on (" ++ columns ++ ")"]
  | matches => concat (map (match_problems table columns references) matches)
  end.

(** The CHECK constraints among them. *)
Definition is_check (c : constraint) : bool := bool_decide (cn_kind c = VStr "C").
Definition check_text (c : constraint) : result pyexn (option str) := py_text_or_none (cn_condition c).
Definition stored_checks : list constraint -> result pyexn (list stored_check) := checks_of is_check check_text enforced.

(* @src adapters/oracle.py 874-958 OracleAdapter._constraint_problems (loop body) *)
Definition constraint_problems (table : str) (expected : ExpectedConstraints) : OM L (list str) :=
  rows ← ask CONSTRAINTS_SQL table;
  constraints ← s_of_result (map_result constraint_of rows);
  checks ← s_of_result (stored_checks constraints);
  mret (concat (map (key_problems table constraints) (ec_keys expected)) ++
        check_problems fold_name [] checks (ec_checks expected)).

(** ** The one-ACTIVE index *)
(* @src adapters/oracle.py 977-985 OracleAdapter._index_problems (index) *)
Definition index_row_problems (row : list pyval) : result pyexn (list str) :=
  match row with
  | [uniqueness; status; funcidx; table_name] =>
      Ok ((if bool_decide (table_name = VStr (upper HISTORY_TABLE)) then [] else ["the index is on another table" : str]) ++
          (if bool_decide (uniqueness = VStr "UNIQUE") then [] else ["the index is not UNIQUE" : str]) ++
          (if bool_decide (status = VStr "VALID") then [] else ["the index is not VALID" : str]) ++
          (if bool_decide (funcidx = VNone \/ funcidx = VStr "ENABLED") then [] else ["the expression is not ENABLED" : str]))
  | _ => Err value_error
  end.

(* @src adapters/oracle.py OracleAdapter._index_problems *)
Definition index_problems (present : list str) : OM L (list str) :=
  if negb (mem ACTIVE_INDEX present) then mret []
  else
    rows ← ask INDEX_SQL ACTIVE_INDEX;
    match rows with
    | [] => mret ["the index is not visible in ALL_INDEXES" : str]
    | row :: _ =>
        found ← s_of_result (index_row_problems row);
        expression ← ask INDEX_EXPRESSION_SQL ACTIVE_INDEX;
        texts ← s_of_result (map_result (fun row => v ← cell row 0; Ok (py_str v)) expression);
        counted ← ask INDEX_COLUMNS_SQL ACTIVE_INDEX;
        count ← s_of_result (match counted with row :: _ => v ← cell row 0; py_int v | [] => Err type_error end);
        mret (found ++
              (if (count =? 1)%Z && (length expression =? 1) then [] else ["the index has other columns" : str]) ++
              (if mem (compact_definition (join " " texts) false) SUPPORTED_ACTIVE_INDEX_EXPRESSIONS then []
               else ["the index does not carry the one-ACTIVE expression" : str]))
    end.

(** ** All objects *)
(* @src adapters/oracle.py OracleAdapter._definition_problems *)
Definition definition_problems (present : list str) : OM L (list str) :=
  columns ← s_map (fun kv => column_problems kv.1 kv.2) (present_of present EXPECTED_COLUMNS);
  constraints ← s_map (fun kv => constraint_problems kv.1 kv.2) (present_of present EXPECTED_CONSTRAINTS);
  index ← index_problems present;
  mret (concat columns ++ concat constraints ++ index).

(** ** Required objects *)
Definition required_binds (required : list RequiredObject) : bindings_list :=
  ("owner", VStr (oc_schema C)) ::
  concat (imap (fun i o => [("t" ++ dec (N.of_nat i), VStr (r_type o)); ("n" ++ dec (N.of_nat i), VStr (r_name o))]) required).

(** [except oracledb.Error as exc], where only a definite rejection is answered. *)
Definition catch_rejection {A} (m : OM L A) (h : driver_exn -> OM L A) : OM L A :=
  catch_oracle m (fun d => match oracle_classify d with SERVER_REJECTION => h d | COMMUNICATION_FAILURE => s_raise (PyException d) end).

(* @src adapters/oracle.py OracleAdapter._error_text *)
Definition error_text (name kind : pyval) (attribute : str) : OM L str :=
  found ← catch_rejection
    (c ← cur_execute ERRORS_SQL
           (Named [("owner", VStr (oc_schema C)); ("name", name); ("type", kind); ("attribute", VStr attribute)]);
     mret (inl (oc_rows c)))
    (fun d => mret (inr (if code_in PRIVILEGE_ORA_CODES d then "(compiler messages are not readable)" : str
                         else "(compiler messages could not be read: " ++ default (d_name d) (oracle_error_code d) ++ ")")));
  match found with
  | inr text => mret text
  | inl [] => mret ("(no compiler message recorded)" : str)
  | inl rows =>
      lines ← s_of_result (map_result (fun row => line ← cell row 0; position ← cell row 1; text ← cell row 2;
                  Ok ("line " ++ py_str line ++ ":" ++ py_str position ++ " " ++ strip (py_str text))) rows);
      mret (join "; " lines)
  end.

(** A count of the verdict's query, which is compared as a number. *)
Definition as_count (v : pyval) : result pyexn Z := match v with VInt z => Ok z | _ => Err type_error end.

(** The failures and the warnings of one row. *)
(* @src adapters/oracle.py 1250-1286 OracleAdapter._check_required_objects (loop body) *)
Definition required_row (row : list pyval) : OM L (list str * list str) :=
  match row with
  | [otype; oname; status; exact_count; other_types; hard; soft] =>
      let qualified := py_str otype ++ " " ++ oc_schema C ++ "." ++ py_str oname in
      count ← s_of_result (as_count exact_count);
      if (count =? 0)%Z then
        mret ([qualified ++ (if py_truth other_types then " is missing; an object of that name exists with another type"
                             else " does not exist or is not visible")], [])
      else if (1 <? count)%Z then mret ([qualified ++ " is ambiguous"], [])
      else
        warnings ← (if py_truth soft
                    then text ← error_text oname otype "WARNING"; mret [qualified ++ " has compiler warnings: " ++ text]
                    else mret []);
        failures ← (if negb (bool_decide (status = VStr "VALID"))
                    then text ← error_text oname otype "ERROR"; mret [qualified ++ " is not VALID. " ++ text]
                    else if py_truth hard
                    then text ← error_text oname otype "ERROR"; mret [qualified ++ " has compiler errors: " ++ text]
                    else mret []);
        mret (failures, warnings)
  | _ => s_raise value_error
  end.

(* @src adapters/oracle.py OracleAdapter._check_required_objects *)
Definition check_required (required : list RequiredObject) : OM L ValidityResult :=
  answer ← catch_rejection
    (c ← cur_execute (REQUIRED_SQL (length required)) (Named (required_binds required)); mret (Some (oc_rows c)))
    (fun d => mret None);
  match answer with
  | None => mret (MkValidity ["required-object inspection failed"] [])
  | Some rows =>
      found ← s_map required_row rows;
      mret (MkValidity (concat found.*1) (concat found.*2))
  end.
End inspect.

(** ** The adapter as a driver *)
Section driver.
Context {L : Type} {LB : OraLibrary L} {PR : PyRuntime} {UC : Unicode} {OV : OraVersions}.
Context (C : OraConf) (password : option str).

#[local] Hint Extern 0 Spelling => exact (oracle_spelling (oc_schema C)) : typeclass_instances.

(** The raw operations of a run, as [Adapter] calls them. *)
#[export] Instance oracle_driver : Driver (OraSession L) := fun o =>
  match o return OM L (reply o) with
  | RConnect => connect C password
  | RAcquireLock => acquire_lock C
  | RPrepareStorage => mret tt
  | RClose => close C
  | RDiscard => discard
  | RConnectionHeld => s_gets os_conn
  | RServerDescription => s_gets os_banner
  | RSessionIdentity => s_gets os_identity
  | RObjectsPresent => objects_present C
  | RDefinitionProblems present => definition_problems C present
  | RCreateObject name => create_object C name
  | RCount table => count_rows C table
  | RReadMarker => rows ← marker_rows C; mret (map meta_row rows)
  | RReadSnapshot consistent => do_read_snapshot C consistent
  | RMetadata c => run_command C c
  | RProgressGet mid key => progress_values C mid key
  | RBegin => do_begin
  | RCommit => do_commit
  | RRollback => do_rollback
  | RHasOpen => do_has_open
  | RBatchState => do_batch_state
  | REstablishIdentity => do_establish_identity
  | RReadIdentity => do_read_identity
  | RExecute text params => c ← run_statement text params; mret (oc_rowcount c)
  | RExecuteMany text sets => run_many text sets
  | RQuery text params => c ← run_statement text params; mret (oc_rows c)
  | RCheckRequired required => check_required C required
  | RProbeLiveness db_session => probe_liveness db_session
  | RFire b phase => ora (OHook b phase)
  end.
End driver.
