(* ===== verification/OraRefines.v ===== *)
(** * The Oracle adapter keeps the session's contract

    [OraLaws] states what Oracle and python-oracledb document of the calls that the
    adapter makes. From it alone the adapter satisfies [StorageLaws], so every
    theorem on runs holds of runs on Oracle, where creating an object commits and
    an empty text is NULL. *)
From S2P Require Import Prelude PyStr Text Errors Latch Paths Manifest Model Fingerprint StateValidate SqlText Admission Metadata World.
From S2P Require Import Statements History Durable Contract Config OraText OraLib Oracle OraInspect.
Open Scope str_scope.

(** Texts that commit nothing: queries and settings of the session. *)
Definition quiet_text (sql : str) : bool :=
  starts_with "SELECT " sql || starts_with "ALTER SESSION SET " sql ||
  starts_with "
SELECT 'H' AS kind" sql || starts_with "
WITH req AS (" sql.

(** The blocks of the engine. The lock is not released on commit. *)
Definition engine_blocks (C : OraConf) : list str :=
  [LOCK_REQUEST (oc_package C); LOCK_RELEASE (oc_package C); XID_SQL true; XID_SQL false].

(** The parameters of the facade's calls. *)
Definition author_params (p : sql_params) : bool := match p with Author _ | NoParams => true | _ => false end.

(** The calls that are no statements and no commit. *)
Definition no_statement (o : oraop) : bool :=
  match o with OExecute _ _ | OBlock _ _ | OExecuteMany _ _ | OCommit => false | _ => true end.

(** ** The lines of the snapshot *)
Section lines.
Context {PR : PyRuntime} {T : TimeColumn}.

(** [TO_CHAR] of a number. *)
Definition val_digits (o : option Z) : pyval := match o with Some z => VStr (dec_Z z) | None => VNone end.

Definition history_line (r : HistoryRow) : list pyval :=
  [VStr "H"; VInt (hr_seq r); VStr (hr_id r); VStr (hr_fingerprint r); VStr (hr_first_fingerprint r); VStr (hr_language r);
   VStr (hr_mode r); VStr (hr_status r); val_digits (hr_attempt r); val_time (hr_started_at r);
   val_time (hr_last_attempt_at r); val_time (hr_finished_at r); val_str (hr_runner_host r);
   val_str (hr_runner_user r); val_digits (hr_runner_pid r); val_str (hr_db_session r); val_str (hr_tool_version r)].

Definition progress_line (p : ProgressRow) : list pyval :=
  [VStr "P"; VInt 0; VStr (pr_id p); VStr (pr_key p); VStr (pr_value p); val_time (pr_updated_at p)] ++ repeat VNone 11.

(** A row of the marker table with its key. *)
Definition marker_line (km : str * MetaRow) : list pyval :=
  [VStr "M"; VInt 0; VStr km.1; VStr (dec_Z (mt_layout_version km.2)); VStr (mt_adapter km.2); VStr (mt_lock_provider km.2);
   VStr (mt_lock_binding km.2); VStr (mt_target_namespace km.2); val_time (mt_initialized_at km.2)] ++ repeat VNone 8.
End lines.

(** Each law is on one call, whether it returns or raises:
    - every statement runs in a transaction;
    - a quiet text, a block of the engine and a call that is no statement commits
      nothing;
    - any other statement leaves the engine's rows alone but may end a transaction,
      as DDL does;
    - a commit that returns has committed;
    - an engine statement [executes];
    - the snapshot's statement, when it returns, gives the rows in the order of their
      kinds and changes nothing; what it prints can be read back. *)
Class OraLaws (L : Type) {LB : OraLibrary L} {ST : Storage L} {PR : PyRuntime} {T : TimeColumn} (C : OraConf) : Prop := {
  ora_txn (s : L) : in_txn s = true;
  ora_quiet sql params (s : L) : quiet_text sql = true -> commits_nothing s (ora_step (OExecute sql params) s).1;
  ora_block sql params (s : L) : sql ∈ engine_blocks C -> commits_nothing s (ora_step (OBlock sql params) s).1;
  ora_no_statement o (s : L) : no_statement o = true -> commits_nothing s (ora_step o s).1;
  ora_hook b ph (s : L) : let s' := (ora_step (OHook b ph) s).1 in durable s' = durable s /\ working s' = working s;
  ora_author sql params (s : L) : author_params params = true -> may_commit s (ora_step (OExecute sql params) s).1;
  ora_author_many sql sets (s : L) : may_commit s (ora_step (OExecuteMany sql sets) s).1;
  ora_commit (s : L) :
    let '(s', r) := ora_step OCommit s in
    may_commit s s' /\ (r = Ok tt -> durable s' = working s /\ working s' = working s);
  ora_command c params (s : L) : binds (cmd_sql (SP := oracle_spelling (oc_schema C)) c) (cmd_params c) = Ok params ->
    let '(s', r) := ora_step (OExecute (render (SP := oracle_spelling (oc_schema C))
                                          (cmd_sql (SP := oracle_spelling (oc_schema C)) c)) (Named params)) s in
    executes c s s' (is_ok r);
  ora_snapshot (s s' : L) c :
    ora_step (OExecute (SNAPSHOT_SQL (SP := oracle_spelling (oc_schema C))) NoParams) s = (s', Ok c) ->
    working s' = working s /\
    exists h m p, h ≡ₚ db_history (working s) /\ p ≡ₚ db_progress (working s) /\
      oc_rows c = map history_line h ++ map marker_line m ++ map progress_line p;
  ora_digits z : int_of_text (dec_Z z) = Some z;
  ora_times t : parse_iso_timestamp (val_time t) = Ok t;
}.

#[export] Instance ora_storage {L} {ST : Storage L} : Storage (OraSession L) := {
  durable s := durable (os_lib s);
  working s := working (os_lib s);
  in_txn s := in_txn (os_lib s);
}.

Definition nothing_committed {L} {ST : Storage L} (s s' : OraSession L) : Prop := commits_nothing (os_lib s) (os_lib s').
Abbreviation quiet := (framed nothing_committed).

#[export] Instance nothing_committed_preorder {L} {ST : Storage L} : PreOrder (nothing_committed (L := L)).
Proof. split; [intros s; apply commits_nothing_refl|intros s1 s2 s3; apply commits_nothing_trans]. Qed.

(** ** Methods that commit nothing *)
Section methods.
Context {L : Type} {LB : OraLibrary L} {ST : Storage L} {PR : PyRuntime} {T : TimeColumn} {UC : Unicode} {OV : OraVersions}.
Context (C : OraConf) (password : option str) {LL : OraLaws L C}.

#[local] Hint Extern 0 Spelling => exact (oracle_spelling (oc_schema C)) : typeclass_instances.

Lemma quiet_ora o : no_statement o = true -> quiet (ora o).
Proof.
  intros Ho s. unfold nothing_committed, ora. pose proof (ora_no_statement (C := C) o (os_lib s) Ho) as H. by destruct (ora_step o (os_lib s)).
Qed.

Lemma ora_quiet_execute sql params : quiet_text sql = true -> quiet (ora (OExecute sql params)).
Proof.
  intros Hq s. unfold nothing_committed, ora. pose proof (ora_quiet (C := C) sql params (os_lib s) Hq) as H. by destruct (ora_step _ (os_lib s)).
Qed.

Lemma quiet_block sql params : sql ∈ engine_blocks C -> quiet (ora (OBlock sql params)).
Proof.
  intros Hq s. unfold nothing_committed, ora. pose proof (ora_block (C := C) sql params (os_lib s) Hq) as H. by destruct (ora_step _ (os_lib s)).
Qed.

Lemma ora_quiet_modify (f : OraSession L -> OraSession L) : (forall s, os_lib (f s) = os_lib s) -> quiet (s_modify f).
Proof. intros Hf. apply framed_modify. intros s. unfold nothing_committed. rewrite Hf. apply commits_nothing_refl. Qed.

(** As [frame_steps], with the calls. *)
Ltac quiet_step :=
  match goal with
  | |- quiet (s_modify _) => apply ora_quiet_modify; done
  | |- quiet (ora (OExecute ?sql ?ps)) => refine (ora_quiet_execute sql ps _)
  | |- quiet (ora (OBlock ?sql ?ps)) => refine (quiet_block sql ps _); unfold engine_blocks; set_solver
  | |- quiet (ora ?o) => exact (quiet_ora o eq_refl)
  | |- quiet (catch_oracle _ _) => unfold catch_oracle
  | _ => frame_step
  end.
Ltac quiet_steps := repeat quiet_step.

Lemma quiet_cursor : quiet (cursor (L := L)).
Proof. unfold cursor. quiet_steps. Qed.
Hint Resolve quiet_cursor : methods.

Lemma quiet_cur_execute sql params : quiet_text sql = true -> quiet (cur_execute (L := L) sql params).
Proof. intros Hq. unfold cur_execute. quiet_steps; done. Qed.

Lemma quiet_execute_one sql params : quiet_text sql = true -> quiet (execute_one (L := L) sql params).
Proof. intros Hq. unfold execute_one. quiet_steps. by apply quiet_cur_execute. Qed.
Hint Resolve quiet_cur_execute quiet_execute_one : methods.

Lemma quiet_cur_block sql params : sql ∈ engine_blocks C -> quiet (cur_block (L := L) sql params).
Proof. intros Hq. unfold cur_block. apply framed_bind; [apply _|apply quiet_cursor|]. intros _. by apply quiet_block. Qed.

Lemma ora_quiet_select rest : quiet_text ("SELECT " ++ rest) = true.
Proof. done. Qed.
Lemma quiet_alter rest : quiet_text ("ALTER SESSION SET " ++ rest) = true.
Proof. done. Qed.
Lemma quiet_snapshot_text : quiet_text SNAPSHOT_SQL = true.
Proof. done. Qed.
Lemma quiet_required_text n : quiet_text (REQUIRED_SQL n) = true.
Proof. done. Qed.
Hint Resolve ora_quiet_select quiet_alter quiet_snapshot_text quiet_required_text : methods.

Lemma ora_quiet_setup {A} (m : OM L A) : quiet m -> quiet (as_setup_error m).
Proof. intros Hm. unfold as_setup_error. quiet_steps; done. Qed.

Lemma quiet_commit_wait : quiet (probe_commit_wait (L := L)).
Proof. unfold probe_commit_wait. quiet_steps. Qed.
Hint Resolve quiet_commit_wait : methods.

Lemma ora_quiet_configure : quiet (configure_session (L := L) C).
Proof. unfold configure_session, verify_namespace_access. repeat first [apply ora_quiet_setup|quiet_step]; done. Qed.

Lemma quiet_failover : quiet (verify_no_failover (L := L)).
Proof. unfold verify_no_failover. quiet_steps. Qed.

Lemma ora_quiet_banner : quiet (read_banner (L := L)).
Proof. unfold read_banner. quiet_steps. Qed.

Lemma ora_quiet_session_identity : quiet (read_session_identity (L := L)).
Proof. unfold read_session_identity. repeat first [apply ora_quiet_setup|quiet_step]. Qed.
Hint Resolve ora_quiet_configure quiet_failover ora_quiet_banner ora_quiet_session_identity : methods.

Lemma ora_quiet_discard : quiet (discard (L := L)).
Proof. unfold discard, suppress_oracle. quiet_steps. Qed.
Hint Resolve ora_quiet_discard : methods.

Lemma quiet_thick : quiet (enable_thick_mode (L := L) C).
Proof. unfold enable_thick_mode. quiet_steps. Qed.

Lemma quiet_wrong_mode : quiet (wrong_mode (L := L)).
Proof. unfold wrong_mode. quiet_steps. Qed.
Hint Resolve quiet_thick quiet_wrong_mode : methods.

Lemma ora_quiet_connect : quiet (connect (L := L) C password).
Proof. unfold connect. quiet_steps. Qed.

Lemma ora_quiet_release_lock : quiet (release_lock (L := L) C).
Proof. unfold release_lock, suppress_oracle. quiet_steps. Qed.
Hint Resolve ora_quiet_release_lock : methods.

Lemma ora_quiet_acquire_lock : quiet (acquire_lock (L := L) C).
Proof. unfold acquire_lock. repeat first [apply ora_quiet_setup|quiet_step]. Qed.

Lemma quiet_read_identity : quiet (do_read_identity (L := L)).
Proof. unfold do_read_identity. apply framed_bind; [apply _|apply quiet_cur_block|intros v; quiet_steps]. unfold engine_blocks. set_solver. Qed.

Lemma quiet_establish_identity : quiet (do_establish_identity (L := L)).
Proof.
  unfold do_establish_identity. apply framed_bind; [apply _|apply quiet_cur_block|intros v; quiet_steps].
  unfold engine_blocks. set_solver.
Qed.
Hint Resolve quiet_read_identity quiet_establish_identity : methods.

Lemma ora_quiet_has_open : quiet (do_has_open (L := L)).
Proof. unfold do_has_open. quiet_steps. Qed.
Hint Resolve ora_quiet_has_open : methods.

Lemma ora_quiet_close : quiet (close (L := L) C).
Proof. unfold close. quiet_steps. Qed.

(** ** Queries *)
Lemma ora_select_rendered rest : quiet_text (render ("SELECT " ++ rest)) = true.
Proof.
  rewrite (render_literal "SELECT " rest); [done|]. apply Forall_forall. intros c Hc%list_elem_of_In. simpl in Hc.
  destruct_or! Hc; subst; done.
Qed.

Lemma ora_quiet_run_query rest params : quiet (run_query (L := L) C ("SELECT " ++ rest) params).
Proof.
  unfold run_query, metadata_query. apply framed_bind; [apply _|frame_pure|]. intros ps.
  apply framed_bind; [apply _|apply quiet_cur_execute, ora_select_rendered|]. intros c. frame_pure.
Qed.

(** As [quiet_steps], with queries. *)
Ltac query_steps := repeat match goal with
  | |- quiet (run_query C _ _) => apply ora_quiet_run_query
  | _ => quiet_step
  end.

Lemma ora_quiet_count_rows table : quiet (count_rows (L := L) C table).
Proof. unfold count_rows. query_steps. Qed.

Lemma ora_quiet_marker_rows : quiet (marker_rows (L := L) C).
Proof. apply ora_quiet_run_query. Qed.
Hint Resolve ora_quiet_count_rows ora_quiet_marker_rows : methods.

Lemma ora_quiet_progress_values mid key : quiet (progress_values (L := L) C mid key).
Proof. unfold progress_values. query_steps. Qed.

Lemma ora_quiet_ask sql name : quiet_text sql = true -> quiet (ask (L := L) C sql name).
Proof. intros Hq. unfold ask. quiet_steps. Qed.

Lemma ora_quiet_objects_present : quiet (objects_present (L := L) C).
Proof. unfold objects_present. quiet_steps. Qed.

Lemma ora_quiet_definition_problems present : quiet (definition_problems (L := L) C present).
Proof.
  pose proof ora_quiet_ask as Hask. unfold definition_problems, column_problems, constraint_problems, index_problems.
  repeat match goal with |- quiet (ask C _ _) => by apply Hask | _ => quiet_step end.
Qed.

Lemma quiet_error_text name kind attribute : quiet (error_text (L := L) C name kind attribute).
Proof. unfold error_text, catch_rejection. quiet_steps. Qed.
Hint Resolve quiet_error_text : methods.

Lemma quiet_check_required required : quiet (check_required (L := L) C required).
Proof. unfold check_required, catch_rejection, required_row. quiet_steps. Qed.

Lemma ora_quiet_liveness db_session : quiet (probe_liveness (L := L) db_session).
Proof. unfold probe_liveness. quiet_steps; done. Qed.

Lemma ora_quiet_read_snapshot consistent : quiet (do_read_snapshot (L := L) C consistent).
Proof. unfold do_read_snapshot. quiet_steps. Qed.

(** ** The snapshot *)
Lemma int_digits o : int_cell (val_digits o) = Ok (val_int o).
Proof. destruct o as [z|]; [|done]. unfold int_cell, val_digits, py_int. by rewrite (ora_digits (C := C)). Qed.

Lemma snapshot_history_line r : snapshot_history (history_line r) = Ok r.
Proof.
  unfold snapshot_history, history_line, cells. simpl. rewrite !int_digits. simpl.
  apply history_row_values, (ora_times (C := C)).
Qed.


Lemma snapshot_progress_line p : snapshot_progress (progress_line p) = Ok p.
Proof. apply progress_row_columns, (ora_times (C := C)). Qed.

Lemma gather_all_app g rows rows' : gather_all g (rows ++ rows') = (g ← gather_all g rows; gather_all g rows').
Proof. revert g. induction rows as [|row rows IH]; intros g; simpl; [done|]. destruct (gather g row); simpl; [apply IH|done]. Qed.

Lemma gather_history g h :
  gather_all g (map history_line h) = Ok (MkGathered (ga_history g ++ h) (ga_progress g) (ga_meta g) (ga_markers g)).
Proof.
  revert g. induction h as [|r h IH]; intros g; simpl; [by rewrite app_nil_r; destruct g|].
  unfold gather. rewrite snapshot_history_line. simpl. rewrite IH. simpl. by rewrite <-(assoc_L (++)).
Qed.

Lemma gather_progress g p :
  gather_all g (map progress_line p) = Ok (MkGathered (ga_history g) (ga_progress g ++ p) (ga_meta g) (ga_markers g)).
Proof.
  revert g. induction p as [|r p IH]; intros g; simpl; [by rewrite app_nil_r; destruct g|].
  unfold gather. rewrite snapshot_progress_line. simpl. rewrite IH. simpl. by rewrite <-(assoc_L (++)).
Qed.

Lemma gather_markers g g' m : gather_all g (map marker_line m) = Ok g' ->
  ga_history g' = ga_history g /\ ga_progress g' = ga_progress g.
Proof.
  revert g. induction m as [|km m IH]; intros g; simpl; [by intros [= <-]|].
  intros (g1 & Hg & H)%bind_Ok. destruct (IH _ H) as [-> ->]. unfold gather in Hg. simpl in Hg.
  by apply bind_Ok in Hg as (meta & _ & [= <-]).
Qed.

Lemma cursor_inv (s s' : OraSession L) r : cursor s = (s', r) -> s' = s.
Proof. unfold cursor, s_when. cbv [mbind EM_bind s_gets]. destruct (os_conn s); by intros [= <- _]. Qed.

Lemma ora_read_snapshot_rows b s s' snap : do_read_snapshot C b s = (s', Ok snap) ->
  s_history snap ≡ₚ db_history (working (os_lib s)) /\ s_progress snap ≡ₚ db_progress (working (os_lib s)).
Proof.
  intros (s1 & c & (s0 & [] & ->%cursor_inv & Hc)%sm_bind_Ok & H)%sm_bind_Ok.
  apply sm_bind_Ok in H as (s2 & g & [-> Hg]%sm_result_Ok & H). apply sm_bind_Ok in H as (s3 & [] & _ & [= _ <-]).
  unfold ora in Hc. destruct (ora_step _ (os_lib s)) as [l r] eqn:E. injection Hc as <- ->.
  apply (ora_snapshot (C := C)) in E as (_ & h & m & p & Hh & Hp & Hrows). rewrite Hrows, gather_all_app, gather_history in Hg.
  simpl in Hg. rewrite gather_all_app in Hg. apply bind_Ok in Hg as (g1 & [H1 H2]%gather_markers & Hg).
  rewrite gather_progress in Hg. injection Hg as <-. simpl in *. by rewrite H1, H2.
Qed.

(** ** Commits and commands *)
(** A method that starts with a cursor does nothing without a connection. *)
Lemma after_cursor {A} (m : OM L A) (s : OraSession L) (P : OraSession L * result pyexn A -> Prop) :
  (forall x, P (s, Err x)) -> P (m s) -> P ((cursor;; m) s).
Proof. intros Herr Hm. unfold mbind, EM_bind. by destruct (cursor s) as [s1 [[]|x]] eqn:Hd; apply cursor_inv in Hd as ->. Qed.

Lemma after_assert {A} (m : OM L A) (s : OraSession L) (P : OraSession L * result pyexn A -> Prop) :
  (forall x, P (s, Err x)) -> P (m s) -> P ((assert_connected;; m) s).
Proof.
  intros Herr Hm. unfold mbind at 1. unfold EM_bind at 1. unfold assert_connected, s_when. cbv [mbind EM_bind s_gets].
  destruct (os_conn s); [exact Hm|apply Herr].
Qed.

Lemma execute_may_commit sql params (s : OraSession L) : author_params params = true ->
  may_commit (os_lib s) (os_lib (cur_execute sql params s).1).
Proof.
  intros Hp. unfold cur_execute. apply (after_cursor _ s (fun p => may_commit (os_lib s) (os_lib p.1))); [intros x; apply may_commit_refl|].
  unfold ora. pose proof (ora_author (C := C) sql params (os_lib s) Hp) as H. by destruct (ora_step _ (os_lib s)).
Qed.

Lemma ora_run_statement_may_commit text params (s : OraSession L) : may_commit (os_lib s) (os_lib (run_statement text params s).1).
Proof. apply execute_may_commit. unfold author_binds. by destruct (py_truth params). Qed.

Lemma ora_run_many_may_commit text sets (s : OraSession L) : may_commit (os_lib s) (os_lib (run_many text sets s).1).
Proof.
  unfold run_many. apply (after_cursor _ s (fun p => may_commit (os_lib s) (os_lib p.1))); [intros x; apply may_commit_refl|].
  rewrite bind_ret_state. unfold ora. pose proof (ora_author_many (C := C) text sets (os_lib s)) as H. by destruct (ora_step _ (os_lib s)).
Qed.

Lemma create_object_may_commit name (s : OraSession L) : may_commit (os_lib s) (os_lib (create_object C name s).1).
Proof.
  unfold create_object. unfold mbind at 1. unfold EM_bind at 1, s_of_result.
  destruct (ddl_of name); [|apply may_commit_refl]. rewrite bind_ret_state. by apply execute_may_commit.
Qed.

Lemma ora_do_commit_spec (s : OraSession L) :
  let '(s', r) := do_commit s in
  may_commit (os_lib s) (os_lib s') /\
  (r = Ok tt -> durable (os_lib s') = working (os_lib s) /\ working (os_lib s') = working (os_lib s)).
Proof.
  apply (after_assert _ s (fun p : OraSession L * result pyexn unit => let '(s', r) := p in
    may_commit (os_lib s) (os_lib s') /\
    (r = Ok tt -> durable (os_lib s') = working (os_lib s) /\ working (os_lib s') = working (os_lib s)))).
  - intros x. split; [apply may_commit_refl|done].
  - unfold ora. pose proof (ora_commit (C := C) (os_lib s)) as H. by destruct (ora_step OCommit (os_lib s)).
Qed.

Lemma ora_run_command_spec c (s : OraSession L) :
  let '(s', r) := run_command C c s in executes c (os_lib s) (os_lib s') (is_ok r).
Proof.
  unfold run_command. unfold mbind at 1. unfold EM_bind at 1, s_of_result. destruct (binds _ _) as [params|x] eqn:Hb; [|apply executes_nothing].
  unfold metadata_execute, mbind at 1, EM_bind at 1, cur_execute, mbind, EM_bind.
  destruct (cursor s) as [s0 [[]|x]] eqn:E; apply cursor_inv in E as ->; [|apply executes_nothing].
  unfold ora. pose proof (ora_command c params (os_lib s) Hb) as Hc. destruct (ora_step _ (os_lib s)) as [l [cur|x]]; exact Hc.
Qed.

Lemma ora_quiet_other o : may_end_txn o = false -> is_metadata o = false -> quiet (oracle_driver (L := L) C password o).
Proof.
  intros Hsub Hmd. destruct o; try done; cbn [oracle_driver]; try frame_pure.
  - apply ora_quiet_connect.
  - apply ora_quiet_acquire_lock.
  - apply ora_quiet_close.
  - apply ora_quiet_discard.
  - apply ora_quiet_objects_present.
  - apply ora_quiet_definition_problems.
  - apply ora_quiet_count_rows.
  - quiet_steps.
  - apply ora_quiet_read_snapshot.
  - apply ora_quiet_progress_values.
  - unfold do_rollback, assert_connected. quiet_steps.
  - apply ora_quiet_has_open.
  - unfold do_batch_state. quiet_steps.
  - apply quiet_establish_identity.
  - apply quiet_read_identity.
  - apply quiet_check_required.
  - apply ora_quiet_liveness.
  - quiet_steps.
Qed.
End methods.

