(* ===== verification/OraLayout.v ===== *)
(** * What Oracle's inspections accept

    The layout, and the validity of required objects, as statements about the
    answers of the data dictionary. An inspection that comes to an end reports no
    problem exactly when the dictionary says that. *)
From S2P Require Import Prelude PyStr Text Errors Latch Paths Manifest Model SqlText Admission Metadata World Statements.
From S2P Require Import Config Catalog OraText OraLib Oracle OraInspect OraRefines.
Open Scope str_scope.

(** ** The dictionary *)
Definition Dictionary : Type := str -> bindings_list -> list (list pyval).

(** The objects of one type and name in the schema. *)
Record object_state := MkObject {
  ob_statuses : list str;     (* one for each, in the order of MAX *)
  ob_types : list str;        (* the types of all objects of the name *)
  ob_errors : nat;            (* the compiler's errors and other messages *)
  ob_warnings : nat;
}.

Class DictionaryView (L : Type) := {
  dictionary : L -> Dictionary;
  object_of : L -> str -> str -> object_state;
}.

Definition DICTIONARY_QUERIES : list str := [COLUMNS_SQL; CONSTRAINTS_SQL; INDEX_SQL; INDEX_EXPRESSION_SQL; INDEX_COLUMNS_SQL].

(** The line of the validity query on one object: MAX and LISTAGG of nothing are
    NULL. *)
Definition object_line (type name : str) (o : object_state) : list pyval :=
  [VStr type; VStr name; val_str (last (ob_statuses o)); VInt (Z.of_nat (length (ob_statuses o)));
   match ob_types o with [] => VNone | types => VStr (join "," types) end;
   VInt (Z.of_nat (ob_errors o)); VInt (Z.of_nat (ob_warnings o))].

(** A query of the dictionary answers from it and changes nothing in it; the validity
    query has a line for each declaration. *)
Class DictionaryLaws (L : Type) {LB : OraLibrary L} {DV : DictionaryView L} (C : OraConf) : Prop := {
  dictionary_read sql params (l l' : L) c : sql ∈ DICTIONARY_QUERIES ->
    ora_step (OExecute sql (Named params)) l = (l', Ok c) -> oc_rows c = dictionary l sql params /\ dictionary l' = dictionary l;
  dictionary_objects required (l l' : L) c :
    ora_step (OExecute (REQUIRED_SQL (length required)) (Named (required_binds C required))) l = (l', Ok c) ->
    oc_rows c ≡ₚ map (fun o => object_line (r_type o) (r_name o) (object_of l (r_type o) (r_name o))) required;
}.

(** ** The layout *)
Section layout.
Context {PR : PyRuntime} {UC : Unicode} (C : OraConf) (dict : Dictionary).

#[local] Hint Extern 0 Spelling => exact (oracle_spelling (oc_schema C)) : typeclass_instances.

Definition answers (sql name : str) : list (list pyval) :=
  dict sql [("owner", VStr (oc_schema C)); ("name", VStr (upper name))].

Definition columns_ok (table : str) (expected : list column) : Prop :=
  map_result column_of (answers COLUMNS_SQL table) = Ok (map as_read expected).

(** The key is there, and every key that passes for it is enabled and validated and
    refers to the layout's own table, in this schema. *)
Definition key_ok (constraints : list constraint) (k : ExpectedKey) : Prop :=
  let '(kind, columns, references) := key_parts k in
  (exists c, c ∈ constraints /\ is_match kind columns c = true) /\
  forall c, c ∈ constraints -> is_match kind columns c = true ->
    enforced c = true /\ forall wanted, references = Some wanted -> actual_target c = expected_target C wanted.

Definition constraints_ok (table : str) (expected : ExpectedConstraints) : Prop :=
  exists constraints, map_result constraint_of (answers CONSTRAINTS_SQL table) = Ok constraints /\
    (forall k, k ∈ ec_keys expected -> key_ok constraints k) /\
    checks_ok fold_name [] is_check check_text enforced constraints (ec_checks expected).

(** On the history table, unique and valid, with one expression, enabled, that picks
    the ACTIVE rows. *)
Definition active_index_ok : Prop :=
  exists funcidx rest cell_count counted count_rest expression text,
    answers INDEX_SQL ACTIVE_INDEX = [VStr "UNIQUE"; VStr "VALID"; funcidx; VStr (upper HISTORY_TABLE)] :: rest /\
    (funcidx = VNone \/ funcidx = VStr "ENABLED") /\
    answers INDEX_COLUMNS_SQL ACTIVE_INDEX = (cell_count :: counted) :: count_rest /\ py_int cell_count = Ok 1%Z /\
    answers INDEX_EXPRESSION_SQL ACTIVE_INDEX = [text :: expression] /\
    compact_definition (py_str text) false ∈ SUPPORTED_ACTIVE_INDEX_EXPRESSIONS.

Definition layout_ok (present : list str) : Prop :=
  (forall table columns, (table, columns) ∈ EXPECTED_COLUMNS -> table ∈ present -> columns_ok table columns) /\
  (forall table expected, (table, expected) ∈ EXPECTED_CONSTRAINTS -> table ∈ present -> constraints_ok table expected) /\
  (ACTIVE_INDEX ∈ present -> active_index_ok).

(** ** Row by row *)
Lemma ora_match_problems_nil table columns references c : match_problems C table columns references c = [] <->
  enforced c = true /\ forall wanted, references = Some wanted -> actual_target c = expected_target C wanted.
Proof.
  unfold match_problems. rewrite app_nil. apply and_iff_both; [apply unless_nil|].
  destruct references as [wanted|]; [|done]. rewrite singleton_unless. naive_solver.
Qed.

Lemma ora_key_problems_nil table constraints k : key_problems C table constraints k = [] <-> key_ok constraints k.
Proof.
  unfold key_problems, key_ok. destruct (key_parts k) as [[kind columns] references].
  pose proof (in_filter (is_match kind columns) constraints) as Hin.
  destruct (List.filter _ constraints) as [|c0 cs] eqn:E.
  - split; [done|]. intros [(c & Hc & Hm) _]. assert (c ∈ @nil constraint) as []%elem_of_nil by (by apply Hin).
  - rewrite concat_nil, Forall_forall. split.
    + intros Hall. split; [exists c0; apply Hin; by left|]. intros c Hc Hm. apply (ora_match_problems_nil table columns), Hall.
      apply list_elem_of_fmap. exists c. split; [done|]. by apply Hin.
    + intros [_ Hall] ps (c & -> & [Hc Hm]%Hin)%list_elem_of_fmap. apply ora_match_problems_nil. by apply Hall.
Qed.
End layout.

(** ** Inspection *)
Section inspection.
Context {L : Type} {LB : OraLibrary L} {DV : DictionaryView L} {PR : PyRuntime} {UC : Unicode} {OV : OraVersions}.
Context (C : OraConf) {DL : DictionaryLaws L C}.

#[local] Hint Extern 0 Spelling => exact (oracle_spelling (oc_schema C)) : typeclass_instances.

Definition dict_of (s : OraSession L) : Dictionary := dictionary (os_lib s).

Lemma cur_execute_Ok sql params (s s' : OraSession L) c : cur_execute sql params s = (s', Ok c) ->
  ora_step (OExecute sql params) (os_lib s) = (os_lib s', Ok c).
Proof.
  intros (s1 & [] & ->%cursor_inv & H)%sm_bind_Ok. unfold ora in H. destruct (ora_step _ (os_lib s)) as [l r]. by injection H as <- ->.
Qed.

Lemma ora_ask_Ok sql name (s s' : OraSession L) rows : sql ∈ DICTIONARY_QUERIES -> ask C sql name s = (s', Ok rows) ->
  dict_of s' = dict_of s /\ rows = answers C (dict_of s) sql name.
Proof.
  intros Hsql (s1 & c & Hc & [= <- <-])%sm_bind_Ok. apply cur_execute_Ok, (dictionary_read (C := C)) in Hc as [Hr Hd]; done.
Qed.

Lemma ora_column_problems_Ok table expected (s s' : OraSession L) ps : column_problems C table expected s = (s', Ok ps) ->
  dict_of s' = dict_of s /\ (ps = [] <-> columns_ok C (dict_of s) table expected).
Proof.
  intros (s1 & rows & [Hd ->]%ora_ask_Ok & H)%sm_bind_Ok; [|by apply list_elem_of_here].
  apply sm_bind_Ok in H as (s2 & actual & [-> Ha]%sm_result_Ok & [= <- <-]). split; [done|].
  rewrite singleton_unless. unfold columns_ok. rewrite Ha. naive_solver.
Qed.

Lemma ora_constraint_problems_Ok table expected (s s' : OraSession L) ps : constraint_problems C table expected s = (s', Ok ps) ->
  dict_of s' = dict_of s /\ (ps = [] <-> constraints_ok C (dict_of s) table expected).
Proof.
  intros (s1 & rows & [Hd ->]%ora_ask_Ok & H)%sm_bind_Ok; [|by apply list_elem_of_further, list_elem_of_here].
  apply sm_bind_Ok in H as (s2 & constraints & [-> Hc]%sm_result_Ok & H).
  apply sm_bind_Ok in H as (s3 & checks & [-> Hk]%sm_result_Ok & [= <- <-]). split; [done|].
  rewrite app_nil, (checks_exact _ _ _ _ _ _ _ _ Hk), concat_nil, Forall_forall. unfold constraints_ok. rewrite Hc. split.
  - intros [Hkeys Hchecks]. exists constraints. split_and!; [done| |done]. intros k Hin.
    apply (ora_key_problems_nil C table), Hkeys, list_elem_of_fmap. by exists k.
  - intros (cs & [= <-] & Hkeys & Hchecks). split; [|done]. intros ps (k & -> & Hin)%list_elem_of_fmap.
    by apply ora_key_problems_nil, Hkeys.
Qed.

Lemma index_row_nil row found : index_row_problems row = Ok found ->
  found = [] <-> exists funcidx, row = [VStr "UNIQUE"; VStr "VALID"; funcidx; VStr (upper HISTORY_TABLE)] /\
    (funcidx = VNone \/ funcidx = VStr "ENABLED").
Proof.
  destruct row as [|uniqueness [|status [|funcidx [|table [|]]]]]; simpl; try done. intros [= <-].
  rewrite !app_nil, !singleton_unless. naive_solver.
Qed.

Lemma ora_index_problems_Ok present (s s' : OraSession L) ps : index_problems C present s = (s', Ok ps) ->
  dict_of s' = dict_of s /\ (ps = [] <-> (ACTIVE_INDEX ∈ present -> active_index_ok C (dict_of s))).
Proof.
  unfold index_problems. destruct (mem ACTIVE_INDEX present) eqn:Hp; simpl.
  2:{ intros [= <- <-]. split; [done|]. apply mem_false in Hp. done. }
  apply mem_true in Hp. intros (s1 & rows & [Hd Hrows]%ora_ask_Ok & H)%sm_bind_Ok; [|unfold DICTIONARY_QUERIES; set_solver].
  unfold active_index_ok. rewrite <-Hrows. destruct rows as [|row rows].
  { injection H as <- <-. split; [done|]. split; [done|]. intros Ha. by destruct (Ha Hp) as (?&?&?&?&?&?&?&?&_). }
  apply sm_bind_Ok in H as (s2 & found & [-> Hf]%sm_result_Ok & H).
  apply sm_bind_Ok in H as (s3 & expression & [Hd3 He]%ora_ask_Ok & H); [|unfold DICTIONARY_QUERIES; set_solver].
  apply sm_bind_Ok in H as (s4 & texts & [-> Ht]%sm_result_Ok & H).
  apply sm_bind_Ok in H as (s5 & counted & [Hd5 Hc]%ora_ask_Ok & H); [|unfold DICTIONARY_QUERIES; set_solver].
  apply sm_bind_Ok in H as (s6 & count & [-> Hn]%sm_result_Ok & [= <- <-]).
  rewrite Hd3, Hd in Hc. rewrite Hd in He. split; [congruence|]. rewrite <-Hc, <-He.
  rewrite !app_nil, !unless_nil, (index_row_nil _ _ Hf), andb_true_iff, Z.eqb_eq, Nat.eqb_eq, mem_true. split.
  - intros ((funcidx & -> & Hfun) & [-> Hone] & Hin) _. destruct counted as [|counted rest]; [done|].
    destruct counted as [|v counted]; [done|]. destruct expression as [|r []]; try done.
    destruct r as [|text r]; [done|]. injection Ht as <-. by exists funcidx, rows, v, counted, rest, r, text.
  - intros Ha. destruct (Ha Hp) as (funcidx & rest & v & vs & rest' & r & text & [= -> ->] & Hfun & -> & Hv & -> & Hin).
    simpl in Hn, Ht. rewrite Hv in Hn. simplify_eq. split_and!; [by exists funcidx|done..].
Qed.
End inspection.

(** C15: the inspection of a schema on Oracle is exact. When it comes to an end it has
    reported no problem exactly when, by the data dictionary, every table present
    has the columns of the layout in order, the keys of the layout, enabled and
    validated and referring to this schema, and just the CHECK conditions of the
    layout, in force; and the index that admits one ACTIVE row, if present, is one. *)
Theorem oracle_inspection_exact {L} {LB : OraLibrary L} {DV : DictionaryView L} {PR : PyRuntime} {UC : Unicode} (C : OraConf)
    {DL : DictionaryLaws L C} present (s s' : OraSession L) problems (Hinspect : definition_problems C present s = (s', Ok problems)) :
  problems = [] <-> layout_ok C (dictionary (os_lib s)) present.
Proof.
  apply sm_bind_Ok in Hinspect as (s1 & columns & Hcolumns & H).
  apply (present_Ok dict_of (column_problems C) (columns_ok C)) in Hcolumns as [Hd1 H1]; [|by apply ora_column_problems_Ok].
  apply sm_bind_Ok in H as (s2 & constraints & Hconstraints & H).
  apply (present_Ok dict_of (constraint_problems C) (constraints_ok C)) in Hconstraints as [Hd2 H2]; [|by apply ora_constraint_problems_Ok].
  apply sm_bind_Ok in H as (s3 & index & [_ H3]%(ora_index_problems_Ok C) & [= <- <-]).
  rewrite Hd2, Hd1 in *. by rewrite !app_nil, H1, H2, H3.
Qed.

(** ** Required objects *)
Section required.
Context {L : Type} {LB : OraLibrary L} {DV : DictionaryView L} {PR : PyRuntime} {UC : Unicode}.
Context (C : OraConf) {DL : DictionaryLaws L C}.

(** There is one object of the type and name, VALID and without errors. *)
Definition object_ok (o : object_state) : Prop := ob_statuses o = ["VALID" : str] /\ ob_errors o = 0.

(** There is one, and the compiler warned of it. *)
Definition object_warned (o : object_state) : Prop := length (ob_statuses o) = 1 /\ ob_warnings o <> 0.

Lemma count_truth n : negb (Z.of_nat n =? 0)%Z = true <-> n <> 0.
Proof. rewrite negb_true_iff, Z.eqb_neq. lia. Qed.

Lemma returned_Ok {A B} (m : OM L A) (f : A -> B) s s' b : (x ← m; mret (f x)) s = (s', Ok b) -> exists x, b = f x.
Proof. intros (s1 & x & _ & [= _ <-])%sm_bind_Ok. by exists x. Qed.

Lemma required_row_Ok type name o (s s' : OraSession L) found : required_row C (object_line type name o) s = (s', Ok found) ->
  (found.1 = [] <-> object_ok o) /\ (found.2 = [] <-> ~ object_warned o).
Proof.
  unfold required_row, object_line. intros (s1 & count & [-> Hc]%sm_result_Ok & H)%sm_bind_Ok. injection Hc as <-.
  unfold object_ok, object_warned. destruct (ob_statuses o) as [|status [|other rest]]; simpl in H.
  - injection H as _ <-. simpl. naive_solver.
  - apply sm_bind_Ok in H as (s2 & warnings & Hw & H). apply sm_bind_Ok in H as (s3 & failures & Hf & [= _ <-]). simpl. split.
    + destruct (negb (bool_decide _)) eqn:Hs in Hf.
      * apply returned_Ok in Hf as [text ->]. split; [done|]. intros [[= ->] _]. done.
      * apply negb_false_iff, bool_decide_eq_true in Hs. injection Hs as ->. destruct (negb _) eqn:He in Hf.
        -- apply returned_Ok in Hf as [text ->]. apply count_truth in He. naive_solver.
        -- injection Hf as _ <-. apply not_true_iff_false in He. rewrite count_truth in He. split; [|done]. intros _. split; [done|lia].
    + destruct (negb _) eqn:He in Hw.
      * apply returned_Ok in Hw as [text ->]. apply count_truth in He. naive_solver.
      * injection Hw as _ <-. apply not_true_iff_false in He. rewrite count_truth in He. naive_solver.
  - rewrite (proj2 (Z.ltb_lt _ _)) in H by lia. injection H as _ <-. simpl. naive_solver.
Qed.

Lemma rejection_answers {A B} (m : OM L A) (f : A -> B) (g : driver_exn -> B) (s s' : OraSession L) b :
  catch_rejection (x ← m; mret (f x)) (fun d => mret (g d)) s = (s', Ok b) ->
  (exists s1 a, m s = (s1, Ok a) /\ b = f a) \/ ((forall s1 a, m s <> (s1, Ok a)) /\ exists d, b = g d).
Proof.
  unfold catch_rejection, catch_oracle, s_try, mbind, EM_bind. destruct (m s) as [s1 [a|x]].
  - intros [= _ <-]. left. by exists s1, a.
  - destruct x as [e|d|]; [done| |done]. destruct (instance_of _ d); [|done]. destruct (oracle_classify d); [|done].
    intros [= _ <-]. right. split; [done|]. by exists d.
Qed.

Definition declared (s : OraSession L) (o : RequiredObject) : object_state := object_of (os_lib s) (r_type o) (r_name o).

(** The verdict of a loop over rows, whatever their order. *)
Lemma required_rows_Ok (states : list (str * str * object_state)) (s s' : OraSession L) found :
  s_map (required_row C) (map (fun t => object_line t.1.1 t.1.2 t.2) states) s = (s', Ok found) ->
  (concat found.*1 = [] <-> Forall (fun t => object_ok t.2) states) /\
  (concat found.*2 = [] <-> Forall (fun t => ~ object_warned t.2) states).
Proof.
  revert s s' found. induction states as [|t states IH]; intros s s' found; csimpl; [intros [= _ <-]; by rewrite !Forall_nil|].
  intros (s1 & fw & Hrow%required_row_Ok & H)%sm_bind_Ok. apply sm_bind_Ok in H as (s2 & fws & Hrest%IH & [= _ <-]). csimpl.
  rewrite !Forall_cons, !app_nil. naive_solver.
Qed.
End required.

(** C16: the validity of required objects on Oracle. When the server answers the query
    and the check comes to an end, it reports no failure exactly when each declared
    object is there once, VALID and without compiler errors, and warns exactly of
    those with other messages; a check whose query the server rejects fails. *)
Theorem oracle_required_exact {L} {LB : OraLibrary L} {DV : DictionaryView L} {PR : PyRuntime} {UC : Unicode} (C : OraConf)
    {DL : DictionaryLaws L C} required (s s' : OraSession L) v (Hcheck : check_required C required s = (s', Ok v)) :
  ((exists s1 c, cur_execute (REQUIRED_SQL (length required)) (Named (required_binds C required)) s = (s1, Ok c)) ->
     (v_failures v = [] <-> forall o, o ∈ required -> object_ok (declared s o)) /\
     (v_warnings v = [] <-> forall o, o ∈ required -> ~ object_warned (declared s o))) /\
  (v_failures v = [] -> forall o, o ∈ required -> object_ok (declared s o)).
Proof.
  apply sm_bind_Ok in Hcheck as (s1 & answer & Ha & Hcheck). apply rejection_answers in Ha as [(s2 & c & Hc & ->)|[Hno [d ->]]].
  2:{ injection Hcheck as _ <-. split; [|done]. intros (s2 & c & Hc). by apply Hno in Hc. }
  apply sm_bind_Ok in Hcheck as (s3 & found & Hfound & [= _ <-]). simpl.
  apply cur_execute_Ok, (dictionary_objects (C := C)) in Hc.
  pose (f o := (r_type o, r_name o, declared s o)).
  assert (oc_rows c ≡ₚ map (fun t => object_line t.1.1 t.1.2 t.2) (map f required)) as Hrows by (by rewrite map_map).
  apply Permutation_map_inv in Hrows as (states & Hrows & Hp). rewrite Hrows in Hfound.
  apply required_rows_Ok in Hfound as [Hf Hw]. rewrite <-Hp, Forall_fmap, Forall_forall in Hf, Hw. naive_solver.
Qed.
