(* ===== verification/OraLock.v ===== *)
(** * The lock of DBMS_LOCK

    A session that connect returns is one server session, in the configured mode and
    without failover; it then has the lock from its acquisition on, and keeps it as
    long as the server keeps the session, through every call of a run but those that
    end it. *)
From S2P Require Import Prelude PyStr Text Errors Latch Paths Manifest Model Fingerprint StateValidate SqlText Admission Metadata Checks World.
From S2P Require Import Adapter Context Engine Protocol Order Statements Config Replay OraText OraLib Oracle OraInspect OraRefines.
Open Scope str_scope.

(** ** The session as the server and the driver see it *)
Class OraServerView (L : Type) := {
  osv_thin : L -> bool;              (* the driver is in Thin mode *)
  osv_failover : L -> pyval;         (* failover_type of V$SESSION *)
  osv_alive : L -> bool;             (* the server still has this session *)
  osv_owner : L -> bool;             (* the session holds the lock *)
  osv_releases : str -> bool;        (* a text that releases the lock *)
}.

Section view.
Context {L : Type} {SV : OraServerView L} {UC : Unicode} {PR : PyRuntime} (C : OraConf).

#[local] Hint Extern 0 Spelling => exact (oracle_spelling (oc_schema C)) : typeclass_instances.

(** One server session for good: only Thick mode fails over, and only if the session
    says so. *)
Definition single_session (l : L) : Prop :=
  osv_thin l = true \/ (osv_failover l <> VNone /\ upper (py_str (osv_failover l)) = "NONE").

(** The calls that begin or end the session, or may give the lock back. *)
Definition ends_lock (o : oraop) : bool :=
  match o with
  | OConnect _ _ _ _ | OClose => true
  | OBlock sql _ => bool_decide (sql = LOCK_RELEASE (oc_package C))
  | OExecute sql _ | OExecuteMany sql _ => osv_releases sql
  | _ => false
  end.

Definition connects_anew (o : oraop) : bool := match o with OConnect _ _ _ _ => true | _ => false end.

(** The texts that the engine executes once it is connected. *)
Definition engine_text (sql : str) : Prop :=
  sql ∈ [OBJECTS_SQL; COLUMNS_SQL; CONSTRAINTS_SQL; INDEX_SQL; INDEX_EXPRESSION_SQL; INDEX_COLUMNS_SQL; ERRORS_SQL; LIVENESS_SQL;
         SNAPSHOT_SQL; render read_meta_sql; render progress_get_sql] \/
  sql ∈ DDL.*2 \/
  (exists count, sql = REQUIRED_SQL count) \/
  (exists table, sql = render (count_sql table)) \/
  exists c, sql = render (cmd_sql c).
End view.

(** What Oracle and python-oracledb document:
    - the mode, and the failover type that V$SESSION reports, are those of the session;
    - a block that requests the lock and returns 0 has it;
    - a session without failover that is gone does not come back, and its statements
      fail; one that is still there keeps its lock until it gives it back, as the
      engine's own texts do not. *)
Class OraServerLaws (L : Type) {LB : OraLibrary L} {SV : OraServerView L} {UC : Unicode} {PR : PyRuntime} (C : OraConf) : Prop := {
  osv_tells (l l' : L) b : ora_step OThin l = (l', Ok b) -> b = osv_thin l;
  osv_reports (l l' : L) c : ora_step (OExecute FAILOVER_SQL NoParams) l = (l', Ok c) ->
    exists rest, head (oc_rows c) = Some (osv_failover l :: rest);
  osv_same o (l : L) : connects_anew o = false ->
    osv_thin (ora_step o l).1 = osv_thin l /\ osv_failover (ora_step o l).1 = osv_failover l;
  osv_lock params (l l' : L) v : ora_step (OBlock (LOCK_REQUEST (oc_package C)) params) l = (l', Ok v) -> py_int v = Ok 0%Z ->
    osv_owner l' = true;
  osv_gone o (l : L) : connects_anew o = false -> single_session l -> osv_alive (ora_step o l).1 = true -> osv_alive l = true;
  osv_dead sql params (l l' : L) c : single_session l -> osv_alive l = false -> ora_step (OExecute sql params) l <> (l', Ok c);
  osv_keeps o (l : L) : ends_lock C o = false -> single_session l -> osv_alive (ora_step o l).1 = true ->
    osv_owner l = true -> osv_owner (ora_step o l).1 = true;
  osv_engine sql : engine_text C sql -> osv_releases sql = false;
}.

Section lock.
Context {L : Type} {LB : OraLibrary L} {PR : PyRuntime} {UC : Unicode} {SV : OraServerView L} {OV : OraVersions}.
Context (C : OraConf) (password : option str) {SL : OraServerLaws L C}.

#[local] Hint Extern 0 Spelling => exact (oracle_spelling (oc_schema C)) : typeclass_instances.

Definition ready (s : OraSession L) : Prop := single_session (os_lib s).

(** The adapter counts the lock as held, and so does the server if it still has the
    session. *)
Definition holds_lock (s : OraSession L) : Prop :=
  ready s /\ os_lock_held s = true /\ (osv_alive (os_lib s) = true -> osv_owner (os_lib s) = true).

(** ** The same server session *)
Definition same_session (s s' : OraSession L) : Prop :=
  osv_thin (os_lib s') = osv_thin (os_lib s) /\ osv_failover (os_lib s') = osv_failover (os_lib s) /\ os_conn s' = os_conn s.

#[export] Instance same_session_preorder : PreOrder same_session.
Proof. split; [by intros s|]. intros s1 s2 s3 (? & ? & ?) (? & ? & ?). unfold same_session. split_and!; congruence. Qed.

Lemma same_ready s s' : same_session s s' -> ready s -> ready s'.
Proof. unfold ready, single_session. by intros (-> & -> & _). Qed.

Lemma same_ora o : connects_anew o = false -> framed same_session (ora o).
Proof. intros Ho s. unfold ora, same_session. pose proof (osv_same (C := C) o (os_lib s) Ho) as [H1 H2]. by destruct (ora_step o (os_lib s)). Qed.

Lemma same_after o s s' r : connects_anew o = false -> ora o s = (s', r) -> same_session s s'.
Proof. intros Ho H. pose proof (same_ora o Ho s) as Hs. by rewrite H in Hs. Qed.

Ltac same_step :=
  match goal with
  | |- framed same_session (s_modify _) => by apply framed_modify
  | |- framed same_session (ora ?o) => exact (same_ora o eq_refl)
  | |- framed same_session (catch_oracle _ _) => unfold catch_oracle
  | |- framed same_session (as_setup_error _) => unfold as_setup_error
  | |- framed same_session (cursor) => unfold cursor
  | |- framed same_session (cur_execute _ _) => unfold cur_execute
  | |- framed same_session (execute_one _ _) => unfold execute_one
  | _ => frame_step
  end.
Ltac same_steps := repeat same_step.

Lemma same_failover : framed same_session (verify_no_failover (L := L)).
Proof. unfold verify_no_failover. same_steps. Qed.
Lemma same_configure : framed same_session (configure_session (L := L) C).
Proof. unfold configure_session, verify_namespace_access, probe_commit_wait. same_steps. Qed.
Lemma same_banner : framed same_session (read_banner (L := L)).
Proof. unfold read_banner. same_steps. Qed.
Lemma same_identity : framed same_session (read_session_identity (L := L)).
Proof. unfold read_session_identity. same_steps. Qed.
Hint Resolve same_failover same_configure same_banner same_identity : methods.

(** ** Connecting *)
Lemma catch_raises {A} (m : OM L A) (f : driver_exn -> error) (s s' : OraSession L) a :
  catch_oracle m (fun d => s_raise_error (f d)) s = (s', Ok a) -> m s = (s', Ok a).
Proof.
  unfold catch_oracle, s_try. destruct (m s) as [s1 [b|x]]; [done|]. destruct x as [e|d|]; [done| |done].
  by destruct (instance_of _ d).
Qed.

Lemma when_raises (b : bool) (m : OM L unit) (s s' : OraSession L) :
  (forall s s', m s <> (s', Ok tt)) -> s_when b m s = (s', Ok tt) -> b = false /\ s' = s.
Proof. intros Hm. destruct b; simpl; [by intros ?%Hm|by intros [= <-]]. Qed.

Lemma wrong_mode_raises (s s' : OraSession L) : wrong_mode s <> (s', Ok tt).
Proof.
  intros (s1 & [] & _ & (s2 & [] & _ & H)%sm_bind_Ok)%sm_bind_Ok. done.
Qed.

Lemma thin_told (s s' : OraSession L) b : ora OThin s = (s', Ok b) -> b = osv_thin (os_lib s') /\ same_session s s'.
Proof.
  intros H. pose proof (same_after OThin _ _ _ eq_refl H) as Hs. split; [|done]. destruct Hs as [-> _].
  unfold ora in H. destruct (ora_step OThin (os_lib s)) as [l r] eqn:E. injection H as _ ->. by apply (osv_tells (C := C)) in E.
Qed.

(** A verification that returns has read NONE. *)
Lemma failover_verified (s s' : OraSession L) : verify_no_failover s = (s', Ok tt) ->
  osv_failover (os_lib s') <> VNone /\ upper (py_str (osv_failover (os_lib s'))) = "NONE".
Proof.
  intros H. assert (osv_failover (os_lib s') = osv_failover (os_lib s)) as ->.
  { pose proof (same_failover s) as Hs. rewrite H in Hs. by destruct Hs as (_ & Hs & _). }
  apply sm_bind_Ok in H as (s1 & row & Hrow & H). apply sm_bind_Ok in H as (s2 & v & [-> Hv]%sm_result_Ok & H).
  apply when_raises in H as [Hn _]; [|done]. apply negb_false_iff, bool_decide_eq_true in Hn.
  unfold catch_oracle, s_try in Hrow. destruct (execute_one FAILOVER_SQL NoParams s) as [s3 [row'|x]] eqn:He.
  2:{ destruct x as [e|d|]; [done| |done]. destruct (instance_of _ d); [|done]. by destruct (code_in _ d). }
  injection Hrow as <- ->. apply sm_bind_Ok in He as (s4 & c & (s5 & [] & ->%cursor_inv & Hc)%sm_bind_Ok & [= <- Hf]).
  unfold ora in Hc. destruct (ora_step _ (os_lib s)) as [l r] eqn:E. injection Hc as <- ->.
  apply (osv_reports (C := C)) in E as (rest & Hhead). unfold fetchone in Hf. rewrite Hhead in Hf. subst row. injection Hv as <-.
  destruct (osv_failover (os_lib s)); simplify_eq; done.
Qed.

(** What connect leaves when it returns. *)
Definition connected_as_configured (s : OraSession L) : Prop :=
  os_conn s = true /\ osv_thin (os_lib s) = negb (oc_allow_thick C) /\
  (oc_allow_thick C = true -> osv_failover (os_lib s) <> VNone /\ upper (py_str (osv_failover (os_lib s))) = "NONE").

Lemma configured_ready s : connected_as_configured s -> ready s.
Proof. intros (_ & Ht & Hf). unfold ready, single_session. destruct (oc_allow_thick C); [right; by apply Hf|by left]. Qed.

Lemma configured_same s s' : same_session s s' -> connected_as_configured s -> connected_as_configured s'.
Proof. unfold connected_as_configured. by intros (-> & -> & ->). Qed.

Lemma connect_configured (s s' : OraSession L) : connect C password s = (s', Ok tt) -> connected_as_configured s'.
Proof.
  intros H. apply sm_bind_Ok in H as (s1 & [] & _ & H). apply sm_bind_Ok in H as (s2 & [] & _ & H).
  apply sm_bind_Ok in H as (s3 & [] & _ & H).
  apply sm_bind_Ok in H as (s4 & [] & (s5 & [] & _ & [= <-])%catch_raises%sm_bind_Ok & H).
  apply sm_bind_Ok in H as (s6 & thin & [-> H6]%thin_told & H).
  apply sm_bind_Ok in H as (s7 & [] & [Hm1 ->]%when_raises & H); [|apply wrong_mode_raises].
  apply sm_bind_Ok in H as (s8 & thin & [-> H8]%thin_told & H).
  apply sm_bind_Ok in H as (s9 & [] & [Hm2 ->]%when_raises & H); [|apply wrong_mode_raises].
  unfold s_try in H. match type of H with (let (_, _) := ?t in _) = _ => destruct t as [s10 [[]|x]] eqn:Hb end.
  2:{ by apply sm_bind_Ok in H as (s11 & [] & _ & ?). }
  injection H as <-. apply sm_bind_Ok in Hb as (s11 & thin & [-> H11]%thin_told & Hb).
  assert (osv_thin (os_lib s8) = negb (oc_allow_thick C)) as Ht.
  { destruct H8 as (H8 & _). rewrite <-H8 in Hm1. destruct (osv_thin (os_lib s8)), (oc_allow_thick C); done. }
  apply sm_bind_Ok in Hb as (s12 & [] & Hv & Hb).
  assert (connected_as_configured s12) as Hc12.
  { destruct H11 as (Ht11 & Hf11 & Hc11). destruct H8 as (_ & _ & Hc8). destruct H6 as (_ & _ & Hc6). simpl in Hc6.
    rewrite Ht11, Ht, negb_involutive in Hv. destruct (oc_allow_thick C) eqn:Ha; simpl in Hv.
    - pose proof (failover_verified _ _ Hv) as Hn. pose proof (same_failover s11) as Hs. rewrite Hv in Hs. destruct Hs as (H1 & _ & H3). simpl in H1, H3.
      unfold connected_as_configured. rewrite Ha. simpl in *. split_and!; congruence || done.
    - injection Hv as <-. unfold connected_as_configured. rewrite Ha. simpl in *. split_and!; congruence || done. }
  eapply configured_same; [|exact Hc12].
  assert (framed same_session (ora (OAutocommit false);; configure_session C;; banner ← read_banner; s_modify (put_banner banner);;
     identity ← read_session_identity; s_modify (put_identity identity))) as Hfr by same_steps.
  specialize (Hfr s12). by rewrite Hb in Hfr.
Qed.

(** ** Taking the lock *)
Lemma lock_code_zero z : lock_code z = Ok tt -> z = 0%Z.
Proof. unfold lock_code. repeat case_match; by try intros [=]. Qed.

Lemma ora_acquire_lock_holds (s s' : OraSession L) : ready s -> acquire_lock C s = (s', Ok tt) -> holds_lock s'.
Proof.
  intros Hr H. apply sm_bind_Ok in H as (s1 & held & [= <- <-] & H). apply sm_bind_Ok in H as (s2 & [] & [_ ->]%when_raises & H); [|done].
  apply sm_bind_Ok in H as (s3 & [] & ->%cursor_inv & H). apply sm_bind_Ok in H as (s4 & v & Hv%catch_raises & H).
  apply sm_bind_Ok in H as (s5 & code & [-> Hcode]%sm_result_Ok & H).
  apply sm_bind_Ok in H as (s6 & [] & [-> Hz]%sm_result_Ok & [= <-]).
  assert (ready s4) as Hr4. { eapply same_ready; [|exact Hr]. by eapply (same_after (OBlock _ _)). }
  split_and!; [done|done|]. intros _. cbn [os_lib put_lock]. unfold ora in Hv.
  destruct (ora_step _ (os_lib s)) as [l r] eqn:E. injection Hv as <- ->.
  eapply (osv_lock (C := C)); [exact E|]. rewrite Hcode. f_equal. apply lock_code_zero.
  by destruct (lock_code code) as [[]|].
Qed.

(** ** The lock is kept *)
Definition keeps_lock (s s' : OraSession L) : Prop :=
  same_session s s' /\ os_lock_held s' = os_lock_held s /\
  (ready s -> osv_alive (os_lib s') = true ->
   osv_alive (os_lib s) = true /\ (osv_owner (os_lib s) = true -> osv_owner (os_lib s') = true)).

#[export] Instance ora_keeps_preorder : PreOrder keeps_lock.
Proof.
  split; [by intros s|]. intros s1 s2 s3 (Hs1 & ? & H1) (Hs2 & ? & H2). unfold keeps_lock.
  split_and!; [by transitivity s2|congruence|]. intros Hr Ha3. destruct (H2 (same_ready _ _ Hs1 Hr) Ha3) as [Ha ?]. destruct (H1 Hr Ha). auto.
Qed.

Lemma ora_keeps_holds s s' : keeps_lock s s' -> holds_lock s -> holds_lock s'.
Proof.
  intros (Hs & H1 & H2) (Hr & Hh & Ho). split_and!; [by eapply same_ready|congruence|]. intros Ha. destruct (H2 Hr Ha). auto.
Qed.

Lemma ends_connects o : ends_lock C o = false -> connects_anew o = false.
Proof. by destruct o. Qed.

Lemma keeps_ora o : ends_lock C o = false -> framed keeps_lock (ora o).
Proof.
  intros Ho s. pose proof (ends_connects o Ho) as Hn. pose proof (same_ora o Hn s) as Hs. unfold keeps_lock. split; [done|].
  unfold ora in *. pose proof (osv_keeps (C := C) o (os_lib s) Ho) as Hk. pose proof (osv_gone (C := C) o (os_lib s) Hn) as Ha.
  destruct (ora_step o (os_lib s)) as [l r]. simpl in *. split; [done|]. intros Hr Hl. auto.
Qed.

Lemma keeps_text sql params : osv_releases sql = false -> framed keeps_lock (ora (OExecute sql params)).
Proof. intros H. by apply keeps_ora. Qed.

Lemma keeps_block sql params : sql <> LOCK_RELEASE (oc_package C) -> framed keeps_lock (ora (OBlock sql params)).
Proof. intros H. apply keeps_ora. simpl. by apply bool_decide_eq_false_2. Qed.

Lemma ora_keeps_modify (f : OraSession L -> OraSession L) :
  (forall s, os_lib (f s) = os_lib s /\ os_lock_held (f s) = os_lock_held s /\ os_conn (f s) = os_conn s) -> framed keeps_lock (s_modify f).
Proof. intros Hf s. unfold keeps_lock, same_session. destruct (Hf s) as (H1 & H2 & H3). simpl. rewrite H1, H2, H3. auto. Qed.

(** A text of the engine gives nothing back. *)
Lemma keeps_engine sql params : engine_text C sql -> framed keeps_lock (ora (OExecute sql params)).
Proof. intros H. by apply keeps_text, (osv_engine (C := C)). Qed.

Ltac listed := match goal with |- ?x ∈ ?x :: _ => apply list_elem_of_here | |- _ ∈ _ :: _ => apply list_elem_of_further; listed end.
Ltac engine := unfold engine_text; first [left; listed|right; right; left; by eexists].
Ltac keeps_step :=
  match goal with
  | |- framed keeps_lock (s_modify _) => apply ora_keeps_modify; done
  | |- framed keeps_lock (ora (OExecute _ _)) => apply keeps_engine; engine
  | |- framed keeps_lock (ora (OBlock _ _)) => apply keeps_block; done
  | |- framed keeps_lock (ora ?o) => exact (keeps_ora o eq_refl)
  | |- framed keeps_lock (catch_oracle _ _) => unfold catch_oracle
  | |- framed keeps_lock (catch_rejection _ _) => unfold catch_rejection
  | _ => frame_step
  end.
Ltac keeps_steps := repeat keeps_step.

Lemma keeps_cursor : framed keeps_lock (cursor (L := L)).
Proof. unfold cursor. keeps_steps. Qed.
Hint Resolve keeps_cursor : methods.

Lemma ora_keeps_execute sql params : osv_releases sql = false -> framed keeps_lock (cur_execute (L := L) sql params).
Proof. intros H. unfold cur_execute. apply framed_bind; [apply _|apply keeps_cursor|]. intros _. by apply keeps_text. Qed.

Lemma keeps_query sql params : engine_text C (render sql) -> framed keeps_lock (run_query (L := L) C sql params).
Proof.
  intros H. unfold run_query, metadata_query. apply framed_bind; [apply _|frame_pure|]. intros ps.
  apply framed_bind; [apply _|by apply ora_keeps_execute, (osv_engine (C := C))|]. intros. frame_pure.
Qed.

Lemma keeps_asked sql name : engine_text C sql -> framed keeps_lock (ask (L := L) C sql name).
Proof.
  intros H. unfold ask. apply framed_bind; [apply _|by apply ora_keeps_execute, (osv_engine (C := C))|]. intros. frame_pure.
Qed.

Lemma keeps_definitions present : framed keeps_lock (definition_problems (L := L) C present).
Proof.
  pose proof keeps_asked as Hask. unfold definition_problems, column_problems, constraint_problems, index_problems.
  repeat match goal with |- framed keeps_lock (ask C _ _) => apply Hask; engine | _ => keeps_step end.
Qed.

Lemma keeps_read_identity : framed keeps_lock (do_read_identity (L := L)).
Proof. unfold do_read_identity, cur_block. keeps_steps. Qed.
Hint Resolve keeps_read_identity : methods.

Lemma keeps_required required : framed keeps_lock (check_required (L := L) C required).
Proof.
  assert (forall name kind attribute, framed keeps_lock (error_text (L := L) C name kind attribute)).
  { intros. unfold error_text, cur_execute. keeps_steps. }
  unfold check_required, cur_execute, required_row. keeps_steps; auto.
Qed.

Lemma keeps_created name : framed keeps_lock (create_object (L := L) C name).
Proof.
  unfold create_object. apply framed_of_result; [apply _|]. intros sql Hsql. apply framed_bind; [apply _| |intros; frame_pure].
  apply ora_keeps_execute, (osv_engine (C := C)). right; left. unfold ddl_of in Hsql. destruct (find _ DDL) as [[n t]|] eqn:Hf; [|done].
  injection Hsql as <-. apply find_some in Hf as [Hin _]. apply list_elem_of_fmap. exists (n, t). split; [done|]. by apply list_elem_of_In.
Qed.

(** The migration's own text gives nothing back. *)
Definition no_release (o : rawop) : Prop :=
  match o with RExecute text _ | RExecuteMany text _ | RQuery text _ => osv_releases text = false | _ => True end.

(** Every call but those that begin or end the session keeps the lock. *)
Lemma ora_keeps_driver o : session_op o = false -> no_release o -> framed keeps_lock (oracle_driver (L := L) C password o).
Proof.
  intros Ho Hn. destruct o; try discriminate; cbn [oracle_driver]; try frame_pure.
  - unfold objects_present, cur_execute. keeps_steps.
  - apply keeps_definitions.
  - apply keeps_created.
  - unfold count_rows. apply framed_bind; [apply _|apply keeps_query|intros; frame_pure]. unfold engine_text. eauto 10.
  - unfold marker_rows. apply framed_bind; [apply _|apply keeps_query; engine|intros; frame_pure].
  - unfold do_read_snapshot, cur_execute. keeps_steps.
  - unfold run_command, metadata_execute. apply framed_bind; [apply _|frame_pure|]. intros ps.
    apply framed_bind; [apply _|apply ora_keeps_execute, (osv_engine (C := C))|intros; frame_pure]. unfold engine_text. eauto 10.
  - unfold progress_values. apply framed_bind; [apply _|apply keeps_query; engine|intros]. keeps_steps.
  - unfold do_commit, assert_connected. keeps_steps.
  - unfold do_rollback, assert_connected. keeps_steps.
  - unfold do_has_open. keeps_steps.
  - unfold do_batch_state. keeps_steps.
  - unfold do_establish_identity, cur_block. keeps_steps.
  - keeps_steps.
  - unfold run_statement. apply framed_bind; [apply _|by apply ora_keeps_execute|intros; frame_pure].
  - unfold run_many. keeps_steps. exact (keeps_ora (OExecuteMany text params) Hn).
  - unfold run_statement. apply framed_bind; [apply _|by apply ora_keeps_execute|intros; frame_pure].
  - apply keeps_required.
  - unfold probe_liveness. keeps_steps.
  - keeps_steps.
Qed.
End lock.

(** The adapter counts the lock as held, and a statement that the server executes at
    this moment is one of the session that holds it. *)
Definition works_under_lock {L} {LB : OraLibrary L} {SV : OraServerView L} (s : OraSession L) : Prop :=
  os_lock_held s = true /\
  forall sql params l c, ora_step (OExecute sql params) (os_lib s) = (l, Ok c) -> osv_owner (os_lib s) = true.

Lemma ora_holds_works {L} {LB : OraLibrary L} {SV : OraServerView L} {UC : Unicode} {PR : PyRuntime} (C : OraConf) {SL : OraServerLaws L C}
    (s : OraSession L) : holds_lock s -> works_under_lock s.
Proof.
  intros (Hr & Hh & Ho). split; [done|]. intros sql params l c Hs. apply Ho. destruct (osv_alive (os_lib s)) eqn:Ha; [done|].
  by apply (osv_dead (C := C)) in Hs.
Qed.

(** C14: on Oracle a run works under the lock. Whenever a run asks the adapter for
    anything but to connect, to describe the session, to take the lock or to end,
    and no migration gave the lock back itself, the adapter counts the lock of
    DBMS_LOCK as held, and whatever the server executes is executed by the session
    that holds it, Thick mode included: no failover replaces that session. *)
Theorem oracle_run_locked {L} {LB : OraLibrary L} {SV : OraServerView L} {PR : PyRuntime} {UC : Unicode} {OV : OraVersions}
    {I : Interpreter} {D : Dialect} {H : Host} {LD : Loader} {DF : Deferred}
    (C : OraConf) {SL : OraServerLaws L C} password b capture recover_id (s : OraSession L) runner :
  each_after (fun pre e => needs_lock (ev_op e) = true -> Forall (fun e => no_release (ev_op e)) pre ->
      works_under_lock (after_log (DR := oracle_driver C password) s pre))
    (run_log (DR := oracle_driver C password) b capture recover_id s runner).
Proof.
  eapply each_after_impl; [|apply (run_locked (DR := oracle_driver C password) ready holds_lock no_release)].
  - intros pre e Hp Hn Hr. by apply (ora_holds_works C), Hp.
  - intros s0 s1 Hc. eapply configured_ready. exact (connect_configured C password s0 s1 Hc).
  - intros o s0 Ho Hn. pose proof (ora_keeps_driver C password o Ho Hn s0) as [Hs _]. by apply same_ready.
  - intros s0 s1 Hr. by apply (ora_acquire_lock_holds C).
  - intros o s0 Ho Hn. pose proof (ora_keeps_driver C password o Ho Hn s0) as Hs. by apply ora_keeps_holds.
Qed.
