(* ===== verification/OraMemory.v ===== *)
(** * Oracle in memory

    A concrete server and driver under the Oracle adapter: one schema whose DDL
    commits and whose empty texts are NULL, its data dictionary, the lock of
    DBMS_LOCK and a driver that can be put into Thick mode. It shows that what is
    assumed of Oracle can be had, and runs run on it. *)
From S2P Require Import Prelude PyStr Text Errors Latch Paths Manifest Model Fingerprint StateValidate SqlText Admission Metadata World.
From S2P Require Import Statements History Checks Adapter Context Engine Durable Memory Contract MemoryRuntime Config Catalog Replay.
From S2P Require Import Protocol Order SqliteRefines OraText OraLib Oracle OraInspect OraRefines OraLayout OraLock.
Open Scope str_scope.

#[local] Existing Instance ascii_unicode.

(** Thick mode: the session is checked for failover. *)
Definition demo_ora : OraConf :=
  MkOraConf "db" "APP" (Some ("APP" : str)) "APP" "APP" 30 true (Some ("/opt/client" : str)) None 7 "SYS.DBMS_LOCK" 60.
#[local] Instance ora_demo_spelling : Spelling := oracle_spelling "APP".
#[local] Instance ora_memory_time : TimeColumn := text_times.

(** ** The server *)
Record OraMem := MkOraMem {
  om_durable : MetaDB;
  om_pending : option MetaDB;      (* the rows inside an open transaction *)
  om_objects : list str;
  om_marker : option MetaRow;
  om_alive : bool;                 (* the session exists *)
  om_owner : bool;                 (* and holds the lock *)
  om_busy : bool;                  (* another session holds it *)
  om_client : bool;                (* the driver is in Thick mode *)
  om_thin : bool;                  (* the session was opened in Thin mode *)
  om_failover : str;               (* its failover type *)
  om_clock : Z;
}.

Definition set_rows (d : MetaDB) (p : option MetaDB) (m : OraMem) : OraMem :=
  MkOraMem d p (om_objects m) (om_marker m) (om_alive m) (om_owner m) (om_busy m) (om_client m) (om_thin m) (om_failover m) (om_clock m).
Definition set_catalog (objects : list str) (marker : option MetaRow) (m : OraMem) : OraMem :=
  MkOraMem (om_durable m) (om_pending m) objects marker (om_alive m) (om_owner m) (om_busy m) (om_client m) (om_thin m) (om_failover m) (om_clock m).
Definition set_owner (alive owner : bool) (m : OraMem) : OraMem :=
  MkOraMem (om_durable m) (om_pending m) (om_objects m) (om_marker m) alive owner (om_busy m) (om_client m) (om_thin m) (om_failover m) (om_clock m).
Definition set_mode (client thin : bool) (m : OraMem) : OraMem :=
  MkOraMem (om_durable m) (om_pending m) (om_objects m) (om_marker m) (om_alive m) (om_owner m) (om_busy m) client thin (om_failover m) (om_clock m).

Definition om_working (m : OraMem) : MetaDB := default (om_durable m) (om_pending m).
Definition committed (m : OraMem) : OraMem := set_rows (om_working m) None m.

#[export] Instance oramem_storage : Storage OraMem := {
  durable := om_durable;
  working := om_working;
  in_txn _ := true;
}.

Definition ora_error (code : str) (number : Z) : pyexn :=
  PyException (MkDriver "oracledb.exceptions.DatabaseError" [oracledb_error] (Some code) number false).

Definition rows_only (rows : list (list pyval)) : ora_cursor := MkOraCursor rows 0.

(** ** The dictionary *)
Definition key_row (k : ExpectedKey) : list pyval :=
  let row (kind columns : str) (target : list pyval) :=
    [VStr kind; VStr "ENABLED"; VStr "VALIDATED"; VNone; VStr columns] ++ target in
  match k with
  | KeyPrimary columns => row "P" columns [VNone; VNone; VNone]
  | KeyUnique columns => row "U" columns [VNone; VNone; VNone]
  | KeyForeign columns table targets => row "R" columns [VStr "APP"; VStr (upper table); VStr targets]
  end.

Definition check_line (condition : str) : list pyval :=
  [VStr "C"; VStr "ENABLED"; VStr "VALIDATED"; VStr condition; VNone; VNone; VNone; VNone].

Definition om_dictionary (sql : str) (params : bindings_list) : list (list pyval) :=
  let name := named params "name" in
  let entry {A} (l : list (str * A)) : option A := snd <$> find (fun kv => bool_decide (upper kv.1 = name)) l in
  if bool_decide (sql = COLUMNS_SQL) then map as_read (default [] (entry EXPECTED_COLUMNS))
  else if bool_decide (sql = CONSTRAINTS_SQL) then
    match entry EXPECTED_CONSTRAINTS with
    | Some e => map key_row (ec_keys e) ++ map check_line (ec_checks e)
    | None => []
    end
  else if bool_decide (sql = INDEX_SQL) then [[VStr "UNIQUE"; VStr "VALID"; VStr "ENABLED"; VStr (upper HISTORY_TABLE)]]
  else if bool_decide (sql = INDEX_EXPRESSION_SQL) then
    [[VStr ("CASE " ++ [34%N] ++ "STATUS" ++ [34%N] ++ " WHEN 'ACTIVE' THEN 1 END")]]
  else [[VInt 1]].

(** A valid view, of which the compiler warned, and a package body that is not. *)
Definition om_object (type name : str) : object_state :=
  if bool_decide (type = "VIEW" /\ name = "REPORT") then MkObject ["VALID"] ["VIEW"] 0 1
  else if bool_decide (type = "PACKAGE BODY" /\ name = "BILLING") then MkObject ["INVALID"] ["PACKAGE"; "PACKAGE BODY"] 2 0
  else MkObject [] [] 0 0.

(** The declarations among the parameters of the validity query. *)
Fixpoint declared_pairs (l : bindings_list) : list (str * str) :=
  match l with
  | (_, VStr type) :: (_, VStr name) :: l => (type, name) :: declared_pairs l
  | _ => []
  end.

Definition om_validity (l : bindings_list) : list (list pyval) :=
  map (fun tn => object_line tn.1 tn.2 (om_object tn.1 tn.2)) (declared_pairs (tail l)).

(** The answers to queries. *)
Definition om_answer (sql : str) (params : sql_params) (m : OraMem) : list (list pyval) :=
  let w := om_working m in
  if bool_decide (sql = FAILOVER_SQL) then [[VStr (om_failover m); VStr "NONE"]]
  else if bool_decide (sql = SNAPSHOT_SQL) then
    map history_line (db_history w) ++ map marker_line (map (fun r => (META_SINGLETON_KEY, r)) (option_list (om_marker m))) ++
    map progress_line (db_progress w)
  else if bool_decide (sql = OBJECTS_SQL) then map (fun n => [VStr (upper n)]) (om_objects m)
  else if bool_decide (sql = render (count_sql HISTORY_TABLE)) then count_of (db_history w)
  else if bool_decide (sql = render (count_sql PROGRESS_TABLE)) then count_of (db_progress w)
  else if bool_decide (sql = render (count_sql META_TABLE)) then count_of (option_list (om_marker m))
  else if bool_decide (sql = render read_meta_sql) then map meta_values (option_list (om_marker m))
  else match params with
  | Named l =>
      if mem sql DICTIONARY_QUERIES then om_dictionary sql l
      else if starts_with "
WITH req AS (" sql then om_validity l
      else map (fun p => [VStr (pr_value p)]) (filter (has_key (named l "migration_id") (named l "prog_key")) (db_progress w))
  | _ => [[VStr "12"; VStr "3456"; VStr "orcl"; VStr "host"]]
  end.

Definition om_command (c : metadata_cmd) (m : OraMem) : OraMem * result pyexn ora_cursor :=
  let db := apply_cmd (om_clock m) (null_empty c) (om_working m) in
  let m := match c with
           | InsertMarker v a p lb ns => set_catalog (om_objects m) (Some (MkMeta v a p lb ns (Some (om_clock m)))) m
           | _ => m
           end in
  (set_rows (om_durable m) (Some db) m, Ok (MkOraCursor [] (affected c (om_working m)))).

(** Of the statements of migrations one fails, and one gives the lock back. *)
Definition BAD_SQL : str := "DELETE FROM missing".
Definition LET_GO_SQL : str := "CALL app.let_go()".

Definition om_execute (sql : str) (params : sql_params) (m : OraMem) : OraMem * result pyexn ora_cursor :=
  if negb (om_alive m) then (m, Err (ora_error "ORA-03113" 3113))
  else if quiet_text sql then (m, Ok (rows_only (om_answer sql params m)))
  else match params with
  | Named l => match decode sql l with Some c => om_command c m | None => (m, Err (ora_error "ORA-00900" 900)) end
  | _ =>
      match find (fun kv => bool_decide (kv.2 = sql)) DDL with
      | Some (name, _) => (committed (set_catalog (om_objects m ++ [name]) (om_marker m) m), Ok (rows_only []))
      | None =>
          if bool_decide (sql = BAD_SQL) then (m, Err (ora_error "ORA-00942" 942))
          else if bool_decide (sql = LET_GO_SQL) then (set_owner (om_alive m) false m, Ok (rows_only []))
          else if starts_with "CREATE " sql then (committed m, Ok (rows_only []))
          else (m, Ok (rows_only []))
      end
  end.

Definition om_block (sql : str) (m : OraMem) : OraMem * result pyexn pyval :=
  if negb (om_alive m) then (m, Err (ora_error "ORA-03113" 3113))
  else if bool_decide (sql = LOCK_REQUEST "SYS.DBMS_LOCK") then
    if om_busy m then (m, Ok (VInt 1)) else (set_owner (om_alive m) true m, Ok (VInt 0))
  else if bool_decide (sql = LOCK_RELEASE "SYS.DBMS_LOCK") then (set_owner (om_alive m) false m, Ok (VInt 0))
  else if bool_decide (sql = XID_SQL true) then (set_rows (om_durable m) (Some (om_working m)) m, Ok (VStr "5.1.77"))
  else (m, Ok (match om_pending m with Some _ => VStr "5.1.77" | None => VNone end)).

#[export] Instance oramem_library : OraLibrary OraMem := fun o m =>
  match o return OraMem * result pyexn (ora_reply o) with
  | OConnect _ _ _ _ => (set_mode (om_client m) (negb (om_client m)) (set_owner true false (set_rows (om_durable m) None m)), Ok tt)
  | OThin => (m, Ok (om_thin m))
  | OAutocommit _ => (m, Ok tt)
  | OVersion => (m, Ok ("23.4" : str))
  | OInProgress => (m, Ok (match om_pending m with Some _ => true | None => false end))
  | OExecute sql params => om_execute sql params m
  | OBlock sql _ => om_block sql m
  | OExecuteMany _ _ => (m, Ok 0%Z)
  | OCommit => (committed m, Ok tt)
  | ORollback => (set_rows (om_durable m) None m, Ok tt)
  | OClose => (set_owner false false (set_rows (om_durable m) None m), Ok tt)
  | OIsThin => (m, Ok (negb (om_client m)))
  | OInitClient _ _ => (set_mode true (om_thin m) m, Ok tt)
  | OConfigDir _ => (m, Ok tt)
  | OHook _ _ => (m, Ok tt)
  end.

(** ** It does what is assumed of Oracle *)
Lemma ora_decode_command c params : binds (cmd_sql c) (cmd_params c) = Ok params -> decode (render (cmd_sql c)) params = Some c.
Proof.
  intros Hb. destruct c as [[] [] [] ? ? ? ? ? r|? ? ? r| | | |]; try destruct r as [[] [] [] [] ?].
  all: vm_compute in Hb; injection Hb as <-; vm_compute; reflexivity.
Qed.

Lemma ora_not_quiet_command c : quiet_text (render (cmd_sql c)) = false.
Proof. by destruct c as [[] [] [] ? ? ? ? ? r|? ? ? r| | | |]. Qed.

Lemma om_committed m : may_commit m (committed m).
Proof. unfold may_commit, committed. simpl. unfold om_working. simpl. auto. Qed.

(** An empty text is stored as NULL. *)
Lemma om_command_executes c m : executes c m (om_command c m).1 true.
Proof. exists (om_clock m), (null_empty c). split; [by right|]. destruct c; simpl; auto. Qed.

#[export] Instance oramem_laws : OraLaws OraMem demo_ora.
Proof.
  split.
  - done.
  - intros sql params m Hq. unfold ora_step, oramem_library, om_execute. rewrite Hq.
    destruct (om_alive m); apply commits_nothing_refl.
  - intros sql params m _. unfold ora_step, oramem_library, om_block, commits_nothing.
    repeat case_match; simpl; unfold om_working; simpl; auto.
  - intros o m Ho. destruct o; try done; unfold ora_step; simpl; unfold commits_nothing, om_working; simpl; auto.
  - done.
  - intros sql params m Hp. unfold ora_step, oramem_library, om_execute. destruct (om_alive m); [|apply may_commit_refl].
    destruct (quiet_text sql); [apply may_commit_refl|]. simpl negb. cbv iota.
    destruct params; try done; (destruct (find _ DDL) as [[name text]|]; [exact (om_committed (set_catalog _ _ m))|]).
    all: repeat (case_match; try apply may_commit_refl; try apply om_committed); unfold may_commit; simpl; auto.
  - intros sql sets m. apply may_commit_refl.
  - intros m. unfold ora_step, oramem_library. split; [apply om_committed|done].
  - change (oracle_spelling (oc_schema demo_ora)) with ora_demo_spelling. intros c params m Hb.
    unfold ora_step, oramem_library, om_execute. rewrite ora_not_quiet_command, (ora_decode_command c params Hb).
    destruct (om_alive m); [|apply executes_nothing]. pose proof (om_command_executes c m) as He.
    unfold om_command in *. simpl in *. done.
  - intros m m' c H. unfold ora_step, oramem_library, om_execute in H. destruct (om_alive m); [|done].
    injection H as <- <-. split; [done|]. exists (db_history (om_working m)), (map (fun r => (META_SINGLETON_KEY, r)) (option_list (om_marker m))),
      (db_progress (om_working m)). done.
  - apply text_int_dec.
  - apply text_times_parsed, memory_iso_reads.
Qed.

(** ** The session as this server sees it *)
#[export] Instance oramem_server : OraServerView OraMem := {
  osv_thin := om_thin;
  osv_failover m := VStr (om_failover m);
  osv_alive := om_alive;
  osv_owner := om_owner;
  osv_releases sql := bool_decide (sql = LET_GO_SQL);
}.

Lemma om_execute_session sql params m :
  let m' := (om_execute sql params m).1 in
  om_alive m' = om_alive m /\ om_thin m' = om_thin m /\ om_failover m' = om_failover m /\
  (sql <> LET_GO_SQL -> om_owner m' = om_owner m).
Proof.
  unfold om_execute. destruct (negb (om_alive m)); [done|]. destruct (quiet_text sql); [done|].
  destruct params as [| |l| |]; try (repeat case_match; try case_bool_decide; done).
  destruct (decode sql l) as [[]|]; done.
Qed.

Lemma om_block_session sql m :
  let m' := (om_block sql m).1 in
  om_alive m' = om_alive m /\ om_thin m' = om_thin m /\ om_failover m' = om_failover m /\
  (sql <> LOCK_RELEASE (oc_package demo_ora) -> om_owner m = true -> om_owner m' = true).
Proof. unfold om_block. repeat case_match; try case_bool_decide; done. Qed.

Lemma let_go_other sql : engine_text demo_ora sql -> sql <> LET_GO_SQL.
Proof.
  intros [Hin|[Hin|[[count ->]|[[table ->]|[c ->]]]]].
  - apply list_elem_of_In in Hin. simpl In in Hin. destruct_or! Hin; subst; try (by vm_compute); done.
  - apply list_elem_of_In in Hin. simpl In in Hin. destruct_or! Hin; subst; done.
  - done.
  - unfold count_sql. rewrite (render_literal "SELECT COUNT(*) FROM "); [done|]. apply Forall_forall. intros c Hc%list_elem_of_In.
    simpl in Hc. destruct_or! Hc; subst; done.
  - by destruct c as [[] [] [] ? ? ? ? ? r|? ? ? r| | | |].
Qed.

#[export] Instance oramem_server_laws : OraServerLaws OraMem demo_ora.
Proof.
  split.
  - by intros m m' b [= <- <-].
  - intros m m' c. unfold ora_step, oramem_library, om_execute. destruct (om_alive m); [|done]. simpl. intros [= <- <-]. by eexists.
  - intros o m Ho. destruct o; try done; unfold ora_step; simpl.
    + by destruct (om_execute_session sql params m) as (_ & -> & -> & _).
    + by destruct (om_block_session sql m) as (_ & -> & -> & _).
  - intros params m m' v. unfold ora_step, oramem_library, om_block. destruct (om_alive m); [|done]. simpl.
    destruct (om_busy m); by intros [= <- <-].
  - intros o m Ho _. destruct o; try done; unfold ora_step; simpl.
    + by destruct (om_execute_session sql params m) as (-> & _).
    + by destruct (om_block_session sql m) as (-> & _).
  - intros sql params m m' c _ Ha. simpl in Ha. unfold ora_step, oramem_library, om_execute. by rewrite Ha.
  - intros o m Ho _. destruct o; try done; unfold ora_step; simpl in *; intros _ Hown.
    + apply bool_decide_eq_false in Ho. by rewrite (proj2 (proj2 (proj2 (om_execute_session sql params m)))).
    + apply bool_decide_eq_false in Ho. by apply om_block_session.
  - intros sql Hs. apply bool_decide_eq_false_2, let_go_other, Hs.
Qed.

(** Its dictionary. *)
#[export] Instance oramem_dictionary : DictionaryView OraMem := {
  dictionary _ := om_dictionary;
  object_of _ := om_object;
}.

Lemma declared_pairs_binds (type name : nat -> str) required :
  declared_pairs (concat (imap (fun i o => [(type i, VStr (r_type o)); (name i, VStr (r_name o))]) required)) =
  map (fun o => (r_type o, r_name o)) required.
Proof.
  revert type name. induction required as [|o required IH]; intros type name; [done|]. rewrite imap_cons. simpl. f_equal.
  apply (IH (fun i => type (S i)) (fun i => name (S i))).
Qed.

#[export] Instance oramem_dictionary_laws : DictionaryLaws OraMem demo_ora.
Proof.
  split.
  - intros sql params m m' c Hs. apply list_elem_of_In in Hs. simpl in Hs. unfold ora_step, oramem_library, om_execute.
    destruct (om_alive m); [|by destruct_or! Hs; subst]. destruct_or! Hs; subst; intros [= <- <-]; done.
  - intros required m m' c. unfold ora_step, oramem_library, om_execute. rewrite quiet_required_text.
    destruct (om_alive m); [|done]. intros [= <- <-].
    assert (om_answer (REQUIRED_SQL (length required)) (Named (required_binds demo_ora required)) m =
            om_validity (required_binds demo_ora required)) as Ha.
    { unfold om_answer. rewrite !bool_decide_eq_false_2 by (intros H; by vm_compute in H). done. }
    cbn [oc_rows rows_only]. rewrite Ha. unfold om_validity, required_binds. cbn [tail].
    by rewrite (declared_pairs_binds (fun i => "t" ++ dec (N.of_nat i)) (fun i => "n" ++ dec (N.of_nat i))), map_map.
Qed.

(** ** A run on it *)
#[local] Instance ora_demo_versions : OraVersions := "2.4".
#[local] Existing Instances ascii_interpreter oracle_dialect demo_host.
#[local] Instance ora_demo_loader : Loader := fun _ => Ok demo_prog.
#[local] Instance ora_demo_deferred : Deferred := fun _ => false.

Definition ora_password : option str := Some ("secret" : str).

(** A new schema, and a process whose driver is in Thin mode. *)
Definition demo_server (failover : str) (busy : bool) : OraMem :=
  MkOraMem empty_db None [] None false false busy false true failover 0.
Definition demo_session (failover : str) (busy : bool) : OraSession OraMem :=
  MkOraSession (demo_server failover busy) Thin false false [] None [].

Definition oracle_run (s : OraSession OraMem) : World (OraSession OraMem) * result pyexn unit :=
  run (DR := oracle_driver demo_ora ora_password) demo_bindings demo_capture None (initial_world s demo_runner).

Definition oracle_statuses (w : World (OraSession OraMem)) : list (str * str) :=
  map (fun r => (hr_id r, hr_status r)) (db_history (om_durable (os_lib (w_driver w)))).

(** The run connects in Thick mode, initializes the schema, runs the migrations and
    gives everything back; the next one finds nothing to do. *)
Example oracle_run_ok :
  let w := (oracle_run (demo_session "NONE" false)).1 in
  let again := (oracle_run (w_driver w)).1 in
  rp_exit_code (w_report w) = OK /\ rp_executed (w_report w) = ["one"; "two"; "three"] /\
  oracle_statuses w = [("one", "SUCCESS"); ("two", "SUCCESS"); ("three", "SUCCESS")] :> list (str * str) /\
  om_owner (os_lib (w_driver w)) = false /\ os_lock_held (w_driver w) = false /\
  os_thick (w_driver w) = Initialized (Some ("/opt/client" : str)) None /\
  rp_exit_code (w_report again) = OK /\ rp_executed (w_report again) = [].
Proof. vm_compute. done. Qed.

(** A session with failover is refused before anything is written, and so is a lock
    that another session has. *)
Example oracle_run_refused :
  let w := (oracle_run (demo_session "SESSION" false)).1 in
  let w' := (oracle_run (demo_session "NONE" true)).1 in
  rp_exit_code (w_report w) <> OK /\ oracle_statuses w = [] /\ om_objects (os_lib (w_driver w)) = [] /\
  os_conn (w_driver w) = false /\
  rp_exit_code (w_report w') <> OK /\ om_objects (os_lib (w_driver w')) = [].
Proof. vm_compute. done. Qed.


Lemma oracle_run_locked_witness :
  each_after (fun pre e => needs_lock (ev_op e) = true -> Forall (fun e => no_release (ev_op e)) pre ->
      works_under_lock (after_log (DR := oracle_driver demo_ora ora_password) (demo_session "NONE" false) pre))
    (run_log (DR := oracle_driver demo_ora ora_password) demo_bindings demo_capture None (demo_session "NONE" false) demo_runner).
Proof. exact (oracle_run_locked demo_ora ora_password demo_bindings demo_capture None (demo_session "NONE" false) demo_runner). Defined.

Definition connected_session : OraSession OraMem := (connect demo_ora ora_password (demo_session "NONE" false)).1.

Example connected_verified : connected_as_configured demo_ora connected_session.
Proof. apply (connect_configured demo_ora ora_password (demo_session "NONE" false)). vm_compute. done. Qed.

(** The schema as the run leaves it, inspected. *)
Definition initialized : OraSession OraMem :=
  (connect demo_ora ora_password (w_driver (oracle_run (demo_session "NONE" false)).1)).1.

Lemma oracle_inspection_exact_witness : layout_ok demo_ora (dictionary (os_lib initialized)) CREATION_ORDER.
Proof.
  apply (oracle_inspection_exact demo_ora CREATION_ORDER initialized (definition_problems demo_ora CREATION_ORDER initialized).1 []); [|done].
  vm_compute. done.
Defined.

Definition report_view : RequiredObject := MkRequired "VIEW" "REPORT".
Definition billing_body : RequiredObject := MkRequired "PACKAGE BODY" "BILLING".

(** The view passes with a warning, the package body does not. *)
Example oracle_required_checked :
  let v := (check_required demo_ora [report_view; billing_body] connected_session).2 in
  exists failure warning, v = Ok (MkValidity [failure] [warning]).
Proof. do 2 eexists. vm_compute. reflexivity. Qed.

Lemma oracle_required_exact_witness : object_ok (declared connected_session report_view).
Proof.
  apply (oracle_required_exact demo_ora [report_view] connected_session (check_required demo_ora [report_view] connected_session).1
           (match (check_required demo_ora [report_view] connected_session).2 with Ok v => v | Err _ => MkValidity [] [] end));
    [vm_compute; reflexivity|vm_compute; reflexivity|by apply list_elem_of_here].
Defined.
