(* ===== verification/Bindings.v ===== *)
(** * One marker, one lock

    The namespace and the lock as each adapter spells them, and what it means that
    runs agree with the marker of a namespace: whatever their configurations, they
    contend for the same lock. *)
From S2P Require Import Prelude PyStr Text Errors Latch Paths Manifest Model SqlText Admission Metadata Checks World Staging Config.
From S2P Require Sqlite Postgres Oracle.
Open Scope str_scope.

(** [str(path)] of an absolute POSIX path. *)
Definition path_text (p : path) : str := "/" ++ join "/" p.

(** A configured adapter. *)
Inductive adapter :=
| SqliteAdapter (C : Sqlite.SqliteConf)
| PostgresAdapter (C : Postgres.PgConf)
| OracleAdapter (C : Oracle.OraConf).

Section adapters.
Context {UC : Unicode}.

Definition dialect_of (a : adapter) : Dialect :=
  match a with SqliteAdapter _ => sqlite_dialect | PostgresAdapter _ => postgres_dialect | OracleAdapter _ => oracle_dialect end.

(* @src adapters/sqlite.py SqliteAdapter.normalized_namespace *)
Definition sqlite_namespace (C : Sqlite.SqliteConf) : str := path_text (Sqlite.sc_path C).
(* @src adapters/sqlite.py SqliteAdapter.lock_binding *)
Definition sqlite_lock_binding (C : Sqlite.SqliteConf) : str := "file:" ++ path_text (Sqlite.sc_lock_path C).
(* @src adapters/postgres.py PostgresAdapter.normalized_namespace *)
Definition postgres_namespace (C : Postgres.PgConf) : str := Postgres.pg_schema C.
(* @src adapters/postgres.py PostgresAdapter.lock_binding *)
Definition postgres_lock_binding (C : Postgres.PgConf) : str := "advisory:" ++ dec_Z (Postgres.pg_lock_id C).
(* @src adapters/oracle.py OracleAdapter.normalized_namespace *)
Definition oracle_namespace (C : Oracle.OraConf) : str := Oracle.oc_schema C.
(* @src adapters/oracle.py OracleAdapter.lock_binding *)
Definition oracle_lock_binding (C : Oracle.OraConf) : str := "dbms_lock:" ++ dec_Z (Oracle.oc_lock_id C).

(** What the run compares with the marker. *)
Definition bindings_of (a : adapter) (provider : str) : bindings :=
  match a with
  | SqliteAdapter C => MkBindings (sqlite_namespace C) provider (sqlite_lock_binding C)
  | PostgresAdapter C => MkBindings (postgres_namespace C) provider (postgres_lock_binding C)
  | OracleAdapter C => MkBindings (oracle_namespace C) provider (oracle_lock_binding C)
  end.

(** The database as named by the configuration, and what is locked: a file, or a
    number that the server knows. *)
Inductive lock_key := LockFile (p : path) | AdvisoryLock (id : Z) | UserLock (id : Z).

Definition lock_of (a : adapter) : lock_key :=
  match a with
  | SqliteAdapter C => LockFile (Sqlite.sc_lock_path C)
  | PostgresAdapter C => AdvisoryLock (Postgres.pg_lock_id C)
  | OracleAdapter C => UserLock (Oracle.oc_lock_id C)
  end.

Definition namespace_of (a : adapter) : path + str :=
  match a with
  | SqliteAdapter C => inl (Sqlite.sc_path C)
  | PostgresAdapter C => inr (Postgres.pg_schema C)
  | OracleAdapter C => inr (Oracle.oc_schema C)
  end.

(** A resolved path: its components have no slash and are not empty. *)
Definition resolved (p : path) : Prop := p <> [] /\ Forall (fun c => c <> [] /\ slash ∉ c) p.

Definition configured (a : adapter) : Prop :=
  match a with SqliteAdapter C => resolved (Sqlite.sc_path C) /\ resolved (Sqlite.sc_lock_path C) | _ => True end.

(** ** Spellings are injective *)
Lemma path_text_inj p q : resolved p -> resolved q -> path_text p = path_text q -> p = q.
Proof.
  assert (forall p, resolved p -> split_on slash (join "/" p) = p) as Hsplit.
  { intros p' [Hne Hall]. apply split_join; [done|]. eapply Forall_impl; [exact Hall|]. by intros c []. }
  intros Hp Hq [= He]. by rewrite <-(Hsplit p Hp), <-(Hsplit q Hq), He.
Qed.

Lemma binding_lock a b pa pb : configured a -> configured b -> ad_name (Dialect := dialect_of a) = ad_name (Dialect := dialect_of b) ->
  b_namespace (bindings_of a pa) = b_namespace (bindings_of b pb) -> b_lock_binding (bindings_of a pa) = b_lock_binding (bindings_of b pb) ->
  namespace_of a = namespace_of b /\ lock_of a = lock_of b.
Proof.
  destruct a as [A|A|A], b as [B|B|B]; try done; cbn [bindings_of b_namespace b_lock_binding configured namespace_of lock_of].
  - intros [HA HA'] [HB HB'] _ Hn Hl%app_inv_head. by rewrite (path_text_inj _ _ HA HB Hn), (path_text_inj _ _ HA' HB' Hl).
  - unfold postgres_namespace. intros _ _ _ Hn Hl%app_inv_head%dec_Z_inj. by rewrite Hn, Hl.
  - unfold oracle_namespace. intros _ _ _ Hn Hl%app_inv_head%dec_Z_inj. by rewrite Hn, Hl.
Qed.
End adapters.

(** C20: runs that agree with one marker take one lock. If the bindings of two
    configured adapters, of whatever kinds and lock providers, are both accepted
    against the marker that a namespace records, the adapters are of one kind and
    name the same database file or schema, and what they lock is the same file or
    the same number: no two runners can work on a namespace under different locks. *)
Theorem same_marker_same_lock {UC : Unicode} (a b : adapter) pa pb marker
    (Ha : configured a) (Hb : configured b)
    (Hva : verify_bindings (D := dialect_of a) (bindings_of a pa) marker = Ok tt)
    (Hvb : verify_bindings (D := dialect_of b) (bindings_of b pb) marker = Ok tt) :
  namespace_of a = namespace_of b /\ lock_of a = lock_of b.
Proof.
  apply verify_bindings_iff in Hva as (m & -> & _ & Hna & Hsa & Hla). apply verify_bindings_iff in Hvb as (m' & [= <-] & _ & Hnb & Hsb & Hlb).
  apply (binding_lock a b pa pb); congruence.
Qed.

(** ** Witness *)
Section demo.
#[local] Existing Instance ascii_unicode.

Definition first_runner : adapter := SqliteAdapter (Sqlite.MkSqliteConf ["srv"; "app.db"] ["srv"; "app.db.m8lock"] 5000 "wal" "full" 60).
Definition second_runner : adapter := SqliteAdapter (Sqlite.MkSqliteConf ["srv"; "app.db"] ["srv"; "app.db.m8lock"] 100 "delete" "extra" 5).
Definition demo_marker : option MetaRow :=
  Some (MkMeta LAYOUT_VERSION "sqlite" "file" "file:/srv/app.db.m8lock" "/srv/app.db" None).

(** Configurations that differ in what does not matter. *)
Lemma same_marker_same_lock_witness : lock_of first_runner = lock_of second_runner.
Proof.
  assert (forall p, bool_decide (p <> [] /\ Forall (fun c => c <> [] /\ slash ∉ c) p) = true -> resolved p) as Hr
    by (intros p H; by apply bool_decide_eq_true in H).
  apply (same_marker_same_lock first_runner second_runner "file" "file" demo_marker); [split; apply Hr; vm_compute; reflexivity..| |];
    vm_compute; reflexivity.
Defined.

(** A runner of another lock number is refused. *)
Example other_lock_refused :
  is_ok (verify_bindings (D := oracle_dialect)
    (bindings_of (OracleAdapter (Oracle.MkOraConf "db" "APP" None "APP" "APP" 30 false None None 8 "SYS.DBMS_LOCK" 60)) "dbms_lock")
    (Some (MkMeta LAYOUT_VERSION "oracle" "dbms_lock" "dbms_lock:7" "APP" None))) = false.
Proof. vm_compute. reflexivity. Qed.
End demo.
