(* ===== verification/Reporting.v ===== *)
(** * Reports of the read-only commands ([reporting.py])

    The report structure, its entries, its text and the value its JSON form
    serialises. [datetime.isoformat] is a parameter; [json.dumps] is applied to a
    [json] value by the command line. *)
From S2P Require Import Prelude PyStr Text Errors Paths Manifest Model.
Open Scope str_scope.

(** ** JSON values *)
#[warnings="-register-all"]
Inductive json :=
| JNull
| JBool (b : bool)
| JInt (z : Z)
| JStr (s : str)
| JOther                                  (* a float *)
| JArr (l : list json)
| JObj (t : list (str * json)).

(** [document.get(key)] on an object whose keys are distinct. *)
Definition json_get (key : str) (t : list (str * json)) : option json :=
  snd <$> find (fun kv => bool_decide (kv.1 = key)) t.

Definition json_str (o : option str) : json := match o with Some s => JStr s | None => JNull end.
Definition json_int (o : option Z) : json := match o with Some z => JInt z | None => JNull end.
Definition json_bool (o : option bool) : json := match o with Some b => JBool b | None => JNull end.

(** ** The structures *)
(* @src reporting.py MigrationStatus *)
Record MigrationStatus := MkStatus {
  ms_position : Z;
  ms_id : str;
  ms_state : str;
  ms_mode : str;
  ms_language : str;
  ms_current_fingerprint : str;
  ms_recorded_fingerprint : option str;
  ms_recorded_matches_current : option bool;
  ms_first_fingerprint : option str;
  ms_first_matches_latest : option bool;
  ms_attempt : option Z;
  ms_started_at : option str;
  ms_last_attempt_at : option str;
  ms_finished_at : option str;
  ms_runner_host : option str;
  ms_runner_user : option str;
  ms_runner_pid : option Z;
  ms_db_session : option str;
  ms_tool_version : option str;
  ms_session_liveness : option str;
  ms_session_liveness_detail : option str;
  ms_problem : option str;
}.

(* @src reporting.py Problem *)
Record Problem := MkProblem {
  pb_kind : str;
  pb_message : str;
  pb_exit_code : Exit;
  pb_migration_id : option str;
}.

(* @src reporting.py 53-80 Report *)
Record Report := MkReadReport {
  ro_command : str;
  ro_adapter : str;
  ro_server : str;
  ro_namespace : str;
  ro_metadata_state : str;
  ro_initialized : bool;
  ro_success_count : nat;
  ro_pending_count : nat;
  ro_active_id : option str;
  ro_migrations : list MigrationStatus;
  ro_problem : option str;
  ro_problem_kind : option str;
  ro_problems : list Problem;
  ro_recovery_id : option str;
  ro_recovery_command : option str;
  ro_checks : list str;
  ro_exit_code : Exit;
  ro_run_id : str;
}.

(** The entry of a unit without a row. *)
Definition bare_status (position : Z) (mid state mode language current : str) : MigrationStatus :=
  MkStatus position mid state mode language current
    None None None None None None None None None None None None None None None None.

Section rows.
Context (isoformat : timestamp -> str).

(* @src reporting.py _iso *)
Definition iso (value : option timestamp) : option str := isoformat <$> value.

(* @src reporting.py status_from_row *)
Definition status_from_row (position : Z) (mid mode language current : str) (row : option HistoryRow) : MigrationStatus :=
  match row with
  | None => bare_status position mid "PENDING" mode language current
  | Some row =>
      MkStatus position mid (hr_status row) (hr_mode row) (hr_language row) current
        (Some (hr_fingerprint row)) (Some (bool_decide (hr_fingerprint row = current)))
        (Some (hr_first_fingerprint row)) (Some (bool_decide (hr_first_fingerprint row = hr_fingerprint row)))
        (hr_attempt row) (iso (hr_started_at row)) (iso (hr_last_attempt_at row)) (iso (hr_finished_at row))
        (hr_runner_host row) (hr_runner_user row) (hr_runner_pid row) (hr_db_session row) (hr_tool_version row)
        None None None
  end.
End rows.

(** ** Problems *)
(* @src reporting.py Report.problem_list *)
Definition problem_list (r : Report) : list Problem :=
  match ro_problems r with
  | [] =>
      match truthy (ro_problem r) with
      | Some message =>
          [MkProblem (match truthy (ro_problem_kind r) with Some k => k | None => "problem" end) message
             (ro_exit_code r) None]
      | None => []
      end
  | l => l
  end.

(** ** The JSON form *)

(** [asdict] of an entry and of a problem: the fields in their order. *)
Definition status_fields (m : MigrationStatus) : list (str * json) :=
  [("position", JInt (ms_position m)); ("id", JStr (ms_id m)); ("state", JStr (ms_state m));
   ("mode", JStr (ms_mode m)); ("language", JStr (ms_language m));
   ("current_fingerprint", JStr (ms_current_fingerprint m));
   ("recorded_fingerprint", json_str (ms_recorded_fingerprint m));
   ("recorded_matches_current", json_bool (ms_recorded_matches_current m));
   ("first_fingerprint", json_str (ms_first_fingerprint m));
   ("first_matches_latest", json_bool (ms_first_matches_latest m));
   ("attempt", json_int (ms_attempt m)); ("started_at", json_str (ms_started_at m));
   ("last_attempt_at", json_str (ms_last_attempt_at m)); ("finished_at", json_str (ms_finished_at m));
   ("runner_host", json_str (ms_runner_host m)); ("runner_user", json_str (ms_runner_user m));
   ("runner_pid", json_int (ms_runner_pid m)); ("db_session", json_str (ms_db_session m));
   ("tool_version", json_str (ms_tool_version m)); ("session_liveness", json_str (ms_session_liveness m));
   ("session_liveness_detail", json_str (ms_session_liveness_detail m)); ("problem", json_str (ms_problem m))].

Definition problem_fields (p : Problem) : list (str * json) :=
  [("kind", JStr (pb_kind p)); ("message", JStr (pb_message p)); ("exit_code", JInt (exit_int (pb_exit_code p)));
   ("migration_id", json_str (pb_migration_id p))].

(** The value [to_json] hands to [json.dumps]. *)
(* @src reporting.py Report.to_json *)
Definition to_payload (r : Report) : json :=
  JObj [("command", JStr (ro_command r)); ("adapter", JStr (ro_adapter r)); ("server", JStr (ro_server r));
    ("namespace", JStr (ro_namespace r)); ("metadata_state", JStr (ro_metadata_state r));
    ("initialized", JBool (ro_initialized r)); ("success_count", JInt (Z.of_nat (ro_success_count r)));
    ("pending_count", JInt (Z.of_nat (ro_pending_count r))); ("active_id", json_str (ro_active_id r));
    ("migrations", JArr (map (fun m => JObj (status_fields m)) (ro_migrations r)));
    ("problem", json_str (ro_problem r)); ("problem_kind", json_str (ro_problem_kind r));
    ("problems", JArr (map (fun p => JObj (problem_fields p)) (problem_list r)));
    ("recovery_id", json_str (ro_recovery_id r)); ("recovery_command", json_str (ro_recovery_command r));
    ("checks", JArr (map JStr (ro_checks r))); ("exit_code", JInt (exit_int (ro_exit_code r)));
    ("run_id", JStr (ro_run_id r))].

(** ** The text form *)
Definition show_text (o : option str) : str := show_option id o.

Definition mark (m : MigrationStatus) : str :=
  match ms_recorded_matches_current m with None => "-" | Some true => "ok" | Some false => "DIFF" end.

(** The lines of the ACTIVE migration. *)
(* @src reporting.py 126-142 Report.to_text (ACTIVE entry) *)
Definition active_lines (m : MigrationStatus) : list str :=
  ["        attempt=" ++ show_option dec_Z (ms_attempt m) ++ " started=" ++ show_text (ms_started_at m) ++
     " last_attempt=" ++ show_text (ms_last_attempt_at m);
   "        recorded=" ++ show_text (ms_recorded_fingerprint m);
   "        current =" ++ ms_current_fingerprint m;
   "        first=" ++ show_text (ms_first_fingerprint m) ++ " first_matches_latest=" ++
     show_option show_bool (ms_first_matches_latest m)] ++
  match truthy (ms_db_session m) with
  | Some session =>
      ("        session=" ++ session ++ " liveness=" ++ show_text (ms_session_liveness m)) ::
      match truthy (ms_session_liveness_detail m) with Some d => ["        note: " ++ d] | None => [] end
  | None => []
  end.

(* @src reporting.py 113-142 Report.to_text (loop body) *)
Definition entry_lines (m : MigrationStatus) : list str :=
  [pad_left 4 (dec_Z (ms_position m)) ++ "  " ++ pad_right 8 (ms_state m) ++ " " ++ pad_right 12 (ms_mode m) ++ " " ++
     pad_right 7 (ms_language m) ++ " " ++ pad_right 5 (mark m) ++ " " ++ ms_id m] ++
  match truthy (ms_problem m) with Some p => ["        fails preflight: " ++ p] | None => [] end ++
  (if bool_decide (ms_state m = "ACTIVE") then active_lines m else []).

Definition table_header : str :=
  pad_left 4 "pos" ++ "  " ++ pad_right 8 "state" ++ " " ++ pad_right 12 "mode" ++ " " ++ pad_right 7 "lang" ++ " " ++
  pad_right 5 "fp" ++ " id".

Definition problem_lines (l : list Problem) : list str :=
  match l with
  | [] => []
  | p :: extra => [] :: (pb_kind p ++ ": " ++ pb_message p) ::
                  map (fun e => "also " ++ pb_kind e ++ ": " ++ pb_message e) extra
  end.

(* @src reporting.py Report.to_text *)
Definition to_text (r : Report) : str :=
  join [10%N] (
    ["command:   " ++ ro_command r; "adapter:   " ++ ro_adapter r; "server:    " ++ ro_server r;
     "namespace: " ++ ro_namespace r;
     "metadata:  " ++ ro_metadata_state r ++ (if ro_initialized r then [] else "  (not initialized)")] ++
    (if ro_initialized r
     then ["history:   " ++ dec (N.of_nat (ro_success_count r)) ++ " successful, " ++
           dec (N.of_nat (ro_pending_count r)) ++ " pending" ++
           match truthy (ro_active_id r) with Some a => ", ACTIVE " ++ a | None => [] end]
     else []) ++
    match ro_migrations r with
    | [] => []
    | l => [] :: table_header :: concat (map entry_lines l)
    end ++
    match ro_checks r with [] => [] | l => [] :: "checked:" :: map (fun c => "  - " ++ c) l end ++
    problem_lines (problem_list r) ++
    match truthy (ro_recovery_command r) with Some c => ["recovery: " ++ c] | None => [] end ++
    [[]] ++
    (match ro_run_id r with [] => [] | rid => ["run:  " ++ rid] end) ++
    ["exit: " ++ dec_Z (exit_int (ro_exit_code r))]).

Example to_text_example :
  to_text (MkReadReport "status" "sqlite" "SQLite 3" "main" "complete" true 1 1 None
    [bare_status 2 "b" "PENDING" "atomic" "sql" "fp"] None None [] None None ["x"] OK "r") =
  join [10%N] ["command:   status"; "adapter:   sqlite"; "server:    SQLite 3"; "namespace: main"; "metadata:  complete";
    "history:   1 successful, 1 pending"; []; " pos  state    mode         lang    fp    id";
    "   2  PENDING  atomic       sql     -     b"; []; "checked:"; "  - x"; []; "run:  r"; "exit: 0"].
Proof. vm_compute. done. Qed.
