(* ===== verification/ReadOnly.v ===== *)
(** * The read-only commands ([readonly.py])

    [validate], [validate --offline] and [status] over the same raw operations as a
    run, and the comparison with an approved plan. A report is built by value: the
    code's report object is local to each command. *)
From S2P Require Import Prelude PyStr Text Errors Latch Paths Manifest Model Fingerprint StateValidate SqlText.
From S2P Require Import Admission Metadata Checks World Adapter Reporting.
Open Scope str_scope.

(** ** Updates of the report *)
Definition with_problem (kind message : str) (code : Exit) (r : Report) : Report :=
  MkReadReport (ro_command r) (ro_adapter r) (ro_server r) (ro_namespace r) (ro_metadata_state r) (ro_initialized r)
    (ro_success_count r) (ro_pending_count r) (ro_active_id r) (ro_migrations r) (Some message) (Some kind)
    (ro_problems r) (ro_recovery_id r) (ro_recovery_command r) (ro_checks r) code (ro_run_id r).
Definition with_migrations (l : list MigrationStatus) (r : Report) : Report :=
  MkReadReport (ro_command r) (ro_adapter r) (ro_server r) (ro_namespace r) (ro_metadata_state r) (ro_initialized r)
    (ro_success_count r) (ro_pending_count r) (ro_active_id r) l (ro_problem r) (ro_problem_kind r)
    (ro_problems r) (ro_recovery_id r) (ro_recovery_command r) (ro_checks r) (ro_exit_code r) (ro_run_id r).
Definition with_counts (success pending : nat) (active : option str) (r : Report) : Report :=
  MkReadReport (ro_command r) (ro_adapter r) (ro_server r) (ro_namespace r) (ro_metadata_state r) (ro_initialized r)
    success pending active (ro_migrations r) (ro_problem r) (ro_problem_kind r)
    (ro_problems r) (ro_recovery_id r) (ro_recovery_command r) (ro_checks r) (ro_exit_code r) (ro_run_id r).
Definition with_problems (l : list Problem) (r : Report) : Report :=
  MkReadReport (ro_command r) (ro_adapter r) (ro_server r) (ro_namespace r) (ro_metadata_state r) (ro_initialized r)
    (ro_success_count r) (ro_pending_count r) (ro_active_id r) (ro_migrations r) (ro_problem r) (ro_problem_kind r)
    l (ro_recovery_id r) (ro_recovery_command r) (ro_checks r) (ro_exit_code r) (ro_run_id r).
Definition with_recovery (mid : option str) (r : Report) : Report :=
  MkReadReport (ro_command r) (ro_adapter r) (ro_server r) (ro_namespace r) (ro_metadata_state r) (ro_initialized r)
    (ro_success_count r) (ro_pending_count r) (ro_active_id r) (ro_migrations r) (ro_problem r) (ro_problem_kind r)
    (ro_problems r) mid (ro_recovery_command r) (ro_checks r) (ro_exit_code r) (ro_run_id r).
Definition with_checks (l : list str) (r : Report) : Report :=
  MkReadReport (ro_command r) (ro_adapter r) (ro_server r) (ro_namespace r) (ro_metadata_state r) (ro_initialized r)
    (ro_success_count r) (ro_pending_count r) (ro_active_id r) (ro_migrations r) (ro_problem r) (ro_problem_kind r)
    (ro_problems r) (ro_recovery_id r) (ro_recovery_command r) l (ro_exit_code r) (ro_run_id r).

(** [entry.session_liveness, entry.session_liveness_detail = verdict, detail]. *)
Definition with_liveness_of (v : str * str) (m : MigrationStatus) : MigrationStatus :=
  MkStatus (ms_position m) (ms_id m) (ms_state m) (ms_mode m) (ms_language m) (ms_current_fingerprint m)
    (ms_recorded_fingerprint m) (ms_recorded_matches_current m) (ms_first_fingerprint m) (ms_first_matches_latest m)
    (ms_attempt m) (ms_started_at m) (ms_last_attempt_at m) (ms_finished_at m) (ms_runner_host m) (ms_runner_user m)
    (ms_runner_pid m) (ms_db_session m) (ms_tool_version m) (Some v.1) (Some v.2) (ms_problem m).
Definition with_entry_problem (p : str) (m : MigrationStatus) : MigrationStatus :=
  MkStatus (ms_position m) (ms_id m) (ms_state m) (ms_mode m) (ms_language m) (ms_current_fingerprint m)
    (ms_recorded_fingerprint m) (ms_recorded_matches_current m) (ms_first_fingerprint m) (ms_first_matches_latest m)
    (ms_attempt m) (ms_started_at m) (ms_last_attempt_at m) (ms_finished_at m) (ms_runner_host m) (ms_runner_user m)
    (ms_runner_pid m) (ms_db_session m) (ms_tool_version m) (ms_session_liveness m) (ms_session_liveness_detail m) (Some p).

(* @src checks.py CHECKS *)
Definition CHECKS : list str :=
  ["manifest order, identity, paths and fingerprints";
   "supported language and mode combinations";
   "required-object declarations";
   "SQL statement admission for every SQL unit";
   "Python compilation of every source in every Python unit"].

(** ** The approved plan *)

(** [isinstance(position, int)]: a JSON truth value counts as 0 or 1. *)
Definition json_position (v : option json) : option Z :=
  match v with Some (JInt z) => Some z | Some (JBool b) => Some (Z.b2z b) | _ => None end.

Definition json_is (v : option json) (s : str) : bool :=
  match v with Some (JStr t) => bool_decide (s = t) | _ => false end.

(** Whether one recorded entry matches the capture. *)
(* @src readonly.py 162-180 verify_baseline (loop body) *)
Definition entry_matches (capture : Capture) (entry : list (str * json)) : bool :=
  match json_position (json_get "position" entry) ≫= at_position capture with
  | None => false
  | Some u => json_is (json_get "id" entry) (u_id u) && json_is (json_get "current_fingerprint" entry) (u_fingerprint u)
  end.

(** The recorded entries, when the document has the shape of a report. *)
(* @src readonly.py 155-159 verify_baseline (shape) *)
Definition recorded_entries (document : json) : option (list (list (str * json))) :=
  match document with
  | JObj t =>
      match json_get "migrations" t with
      | Some (JArr l) =>
          foldr (fun item acc => match item, acc with JObj e, Some es => Some (e :: es) | _, _ => None end) (Some []) l
      | _ => None
      end
  | _ => None
  end.

(** [content] is what reading the artifact gives, [json_loads] decodes and parses it. *)
(* @src readonly.py verify_baseline *)
Definition verify_baseline (json_loads : bytes -> option json) (capture : Capture) (content : option bytes) : result error unit :=
  text ← match content with Some t => Ok t | None => Err (usage "the baseline plan cannot be read") end;
  document ← match json_loads text with Some d => Ok d | None => Err (usage "the baseline plan is not JSON") end;
  recorded ← match recorded_entries document with
             | Some l => Ok l
             | None => Err (usage "the baseline plan is not a migr8 JSON report")
             end;
  raise_if (negb (forallb (entry_matches capture) recorded))
    (mk_at ValidationError "the plan differs from the approved plan" "baseline" None).

Section readonly.
Context {S : Type} {DR : Driver S} {UC : Unicode} {I : Interpreter} {D : Dialect}.
Context (isoformat : timestamp -> str) (b : bindings) (capture : Capture).

(** Nothing of a run: no latch, no runner. *)
Definition readonly_world (s : S) : World S :=
  MkWorld s [] latch_init false None false context_init report_init false false.

(* @src readonly.py _base_report *)
Definition base_status_report (command : str) (state : MetadataState) : M S Report :=
  server ← raw RServerDescription;
  mret (MkReadReport command ad_name server (b_namespace b) (metadata_state_value state) (bool_decide (state = COMPLETE))
          0 (length (c_units capture)) None [] None None [] None None [] OK []).

(** A unit's entry from its row, if any. *)
Definition unit_status (row : option HistoryRow) (u : CapturedUnit) : MigrationStatus :=
  status_from_row isoformat (u_position u) (u_id u) (mode_value (u_mode u)) (language_value (u_language u))
    (u_fingerprint u) row.

(* @src readonly.py _pending_only *)
Definition pending_only (r : Report) : Report := with_migrations (map (unit_status None) (c_units capture)) r.

(** What the loop of [_fill] keeps: entries, successes, pending, active. *)
Definition filled := (list MigrationStatus * nat * nat * option str)%type.

(* @src readonly.py 70-92 _fill (loop body) *)
Definition fill_unit (rows : list HistoryRow) (with_liveness : bool) (acc : filled) (u : CapturedUnit) : M S filled :=
  let '(entries, success, pending, active) := acc in
  let row := by_id rows (u_id u) in
  let entry := unit_status row u in
  match row with
  | None => mret (entries ++ [entry], success, pending + 1, active)
  | Some r =>
      if is_success r then mret (entries ++ [entry], success + 1, pending, active)
      else
        entry ← (if with_liveness then v ← probe_session_liveness (hr_db_session r); mret (with_liveness_of v entry)
                 else mret entry);
        mret (entries ++ [entry], success, pending + 1, Some (hr_id r))
  end.

Fixpoint fill_units (rows : list HistoryRow) (with_liveness : bool) (acc : filled) (us : list CapturedUnit) : M S filled :=
  match us with
  | [] => mret acc
  | u :: us => acc ← fill_unit rows with_liveness acc u; fill_units rows with_liveness acc us
  end.

(* @src readonly.py _fill *)
Definition fill (r : Report) (snapshot : Snapshot) (with_liveness : bool) : M S Report :=
  '(entries, success, pending, active) ← fill_units (s_history snapshot) with_liveness ([], 0, 0, None) (c_units capture);
  mret (with_counts success pending active (with_migrations entries r)).

Definition not_initialized : str := "the namespace has no completed migration metadata".

(* @src readonly.py _prepare *)
Definition prepare_report (command : str) : M S (Report * option Snapshot) :=
  state ← inspect_metadata;
  r ← base_status_report command (mr_state state);
  match mr_state state with
  | DAMAGED =>
      mret (pending_only (with_problem "metadata damaged" (join "; " (mr_problems state)) METADATA_DAMAGED r), None)
  | ABSENT | INCOMPLETE_COMPATIBLE =>
      mret (pending_only (with_problem "not initialized" not_initialized NOT_INITIALIZED r), None)
  | COMPLETE =>
      match verify_bindings b (mr_meta state) with
      | Err e => mret (pending_only (with_problem "binding mismatch" (report e) (exit_code e) r), None)
      | Ok _ => snapshot ← read_snapshot true; mret (r, Some snapshot)
      end
  end.

(** The handlers of [_read]; an exception of another kind goes on. *)
(* @src readonly.py 280-290 _read (except clauses) *)
Definition plan_problem (recovery_suffix : str) (x : pyexn) (r : Report) : result pyexn Report :=
  match x with
  | PyMigr8 e =>
      if is_instance e RecoveryRequiredError then
        Ok (with_recovery (e_migration_id e) (with_problem "recovery required" (e_message e ++ recovery_suffix) (exit_code e) r))
      else
        Ok (with_problem (if is_instance e MetadataDamagedError then "metadata damaged" else "validation") (report e) (exit_code e) r)
  | _ => Err x
  end.

(* @src readonly.py _read *)
Definition read_status (command : str) (with_liveness : bool) (recovery_suffix : str) : M S Report :=
  '(r, snapshot) ← prepare_report command;
  match snapshot with
  | None => mret r
  | Some snapshot =>
      r ← fill r snapshot with_liveness;
      match (plan ← build_plan capture snapshot; require_no_recovery_needed plan) with
      | Ok _ => mret r
      | Err x => of_result (plan_problem recovery_suffix x r)
      end
  end.

(** [report.problem_list()[0]] of an empty list. *)
Definition first_problem (r : Report) : result pyexn Problem :=
  match problem_list r with p :: _ => Ok p | [] => Err index_error end.

(* @src readonly.py _attach_preflight_problem *)
Definition attach_preflight_problem (e : error) (r : Report) : result pyexn Report :=
  let problem := MkProblem "preflight" (report e) (exit_code e) (e_migration_id e) in
  let r := with_migrations (map (fun m => if bool_decide (Some (ms_id m) = e_migration_id e)
                                          then with_entry_problem (e_message e) m else m) (ro_migrations r)) r in
  match ro_problem r with
  | None => Ok (with_problems [problem] (with_problem (pb_kind problem) (pb_message problem) (pb_exit_code problem) r))
  | Some _ => first ← first_problem r; Ok (with_problems [first; problem] r)
  end.

(** [try: m finally: adapter.close()]. *)
Definition finally_close {A} (m : M S A) : M S A := fun w =>
  let '(w1, r) := m w in
  match raw RClose w1 with
  | (w2, Ok _) => (w2, r)
  | (w2, Err x) => (w2, Err x)
  end.

(** [check_baseline] is the comparison with the approved plan, when one is given. *)
(* @src readonly.py _run *)
Definition run_readonly (command : str) (with_liveness : bool) (recovery_suffix : str)
    (check_baseline : option (result error unit)) (defer_preflight : bool) : M S Report :=
  deferred ← of_result (match preflight capture with
                        | Ok _ => Ok None
                        | Err (PyMigr8 e) => if defer_preflight then Ok (Some e) else Err (PyMigr8 e)
                        | Err x => Err x
                        end);
  (match check_baseline with Some check => of_check check | None => mret tt end);;
  raw RConnect;;
  r ← finally_close (read_status command with_liveness recovery_suffix);
  match deferred with
  | Some e => of_result (attach_preflight_problem e r)
  | None => mret r
  end.

(* @src readonly.py run_status *)
Definition run_status : M S Report := run_readonly "status" true [] None true.

Definition recovery_note : str := " This is a recovery-required condition, not permission to modify the active marker.".

(* @src readonly.py run_validate *)
Definition run_validate (check_baseline : option (result error unit)) : M S Report :=
  run_readonly "validate" false recovery_note check_baseline false.

(* @src readonly.py run_offline *)
Definition run_offline (check_baseline : option (result error unit)) : result pyexn Report :=
  let r := MkReadReport "validate --offline" ad_name "not connected" (b_namespace b) "not read" false 0 0 None
             (map (fun u => bare_status (u_position u) (u_id u) "UNREAD" (mode_value (u_mode u))
                              (language_value (u_language u)) (u_fingerprint u)) (c_units capture))
             None None [] None None
             (CHECKS ++ match check_baseline with Some _ => ["published identity, order and fingerprints"] | None => [] end)
             OK [] in
  match (preflight capture;; match check_baseline with Some check => lift check | None => Ok tt end) with
  | Ok _ => Ok r
  | Err (PyMigr8 e) => Ok (with_problem "validation" (report e) (exit_code e) r)
  | Err x => Err x
  end.
End readonly.

(** ** The approved plan, read back

    What an artifact written from a report says, and what the comparison accepts. *)

Definition identity_of (u : CapturedUnit) : str * str := (u_id u, u_fingerprint u).

(** The report lists the units of a capture. *)
Definition lists_units (units : list CapturedUnit) (r : Report) : Prop :=
  map (fun m => (ms_position m, (ms_id m, ms_current_fingerprint m))) (ro_migrations r) =
  map (fun u => (u_position u, identity_of u)) units.

Lemma recorded_payload r : recorded_entries (to_payload r) = Some (map status_fields (ro_migrations r)).
Proof. unfold recorded_entries, to_payload. simpl. induction (ro_migrations r) as [|m l IH]; simpl; [done|]. by rewrite IH. Qed.

Lemma entry_matches_fields capture m :
  entry_matches capture (status_fields m) = true <->
  exists u, at_position capture (ms_position m) = Some u /\ identity_of u = (ms_id m, ms_current_fingerprint m).
Proof.
  unfold entry_matches, identity_of. simpl. destruct (at_position capture (ms_position m)) as [u|]; [|naive_solver].
  rewrite andb_true_iff, !bool_decide_eq_true. split.
  - intros [H1 H2]. exists u. by rewrite H1, H2.
  - intros (v & [= <-] & [= <- <-]). done.
Qed.

Lemma verify_baseline_Ok json_loads capture r content :
  json_loads content = Some (to_payload r) ->
  verify_baseline json_loads capture (Some content) = Ok tt <->
  Forall (fun m => exists u, at_position capture (ms_position m) = Some u /\
                             identity_of u = (ms_id m, ms_current_fingerprint m)) (ro_migrations r).
Proof.
  intros Hj. pose proof (recorded_payload r) as Hr. revert Hj Hr. generalize (to_payload r). intros p Hj Hr.
  unfold verify_baseline. simpl. rewrite Hj. simpl. rewrite Hr. simpl.
  rewrite raise_if_Ok, negb_false_iff, forallb_forall. setoid_rewrite in_map_iff.
  rewrite List.Forall_forall. setoid_rewrite <-entry_matches_fields. split.
  - intros H m Hm. apply H. by exists m.
  - intros H e (m & <- & Hm). by apply H.
Qed.

(** A list that starts another. *)
Lemma prefix_lookup_iff {A} (l k : list A) : l `prefix_of` k <-> forall i x, l !! i = Some x -> k !! i = Some x.
Proof.
  split; [intros Hp i x Hi; by eapply prefix_lookup_Some|].
  revert k. induction l as [|x l IH]; intros k Hk; [by exists k|].
  destruct k as [|y k]; [by specialize (Hk 0 x eq_refl)|]. pose proof (Hk 0 x eq_refl) as [= ->].
  apply prefix_cons, IH. intros i z Hz. by apply (Hk (Datatypes.S i)).
Qed.

Lemma Forall_same_map {A B C} (f : A -> C) (g : B -> C) (Q : C -> Prop) la lb :
  map f la = map g lb -> Forall (fun a => Q (f a)) la <-> Forall (fun b => Q (g b)) lb.
Proof. intros Heq. by rewrite <-(List.Forall_map f Q), <-(List.Forall_map g Q), Heq. Qed.

Lemma entries_prefix capture units r :
  (forall i u, units !! i = Some u -> u_position u = (Z.of_nat i + 1)%Z) -> lists_units units r ->
  Forall (fun m => exists u, at_position capture (ms_position m) = Some u /\
                             identity_of u = (ms_id m, ms_current_fingerprint m)) (ro_migrations r) <->
  map identity_of units `prefix_of` map identity_of (c_units capture).
Proof.
  intros Hpos Hl.
  rewrite (Forall_same_map _ _ (fun t => exists u, at_position capture t.1 = Some u /\ identity_of u = t.2) _ _ Hl).
  rewrite Forall_lookup, prefix_lookup_iff. change (map identity_of) with (fmap (M := list) identity_of). simpl. split.
  - intros H i p (u & -> & Hu)%list_lookup_fmap_Some. destruct (H i u Hu) as (v & Hv & Hid).
    rewrite (Hpos _ _ Hu), at_position_spec in Hv. rewrite list_lookup_fmap, Hv. simpl. by rewrite Hid.
  - intros H i u Hu. specialize (H i (identity_of u)). rewrite !list_lookup_fmap, Hu in H. specialize (H eq_refl).
    rewrite (Hpos _ _ Hu), at_position_spec. destruct (c_units capture !! i) as [v|]; [|done].
    exists v. split; [done|]. simpl in H. congruence.
Qed.

(** C33: an approved plan is held exactly. When the artifact is the printed report of
    [validate --offline] over the units of [approved], the comparison accepts a
    plan exactly when it starts with those units, in that order, with the same
    ids and fingerprints; what comes after them is not constrained. *)
Theorem baseline_prefix {UC : Unicode} {I : Interpreter} {D : Dialect} json_loads b approved check r capture content
    (Hreport : run_offline b approved check = Ok r) (Hprinted : json_loads content = Some (to_payload r))
    (Hpos : forall i u, c_units approved !! i = Some u -> u_position u = (Z.of_nat i + 1)%Z) :
  verify_baseline json_loads capture (Some content) = Ok tt <->
  map identity_of (c_units approved) `prefix_of` map identity_of (c_units capture).
Proof.
  rewrite (verify_baseline_Ok json_loads capture r content Hprinted). apply entries_prefix; [done|].
  unfold run_offline in Hreport. unfold lists_units.
  assert (ro_migrations r = map (fun u => bare_status (u_position u) (u_id u) "UNREAD" (mode_value (u_mode u))
                              (language_value (u_language u)) (u_fingerprint u)) (c_units approved)) as ->.
  { destruct (preflight approved;; _) as [?|[e|d|]]; by simplify_eq/=. }
  by rewrite map_map.
Qed.

Lemma baseline_prefix_witness :
  let a := MkCapture (MkManifest [] [] []) [sql_unit ATOMIC "SELECT 1;"] false in
  let c := MkCapture (MkManifest [] [] []) [sql_unit ATOMIC "SELECT 1;"; sql_unit RESTARTABLE "SELECT 2;"] false in
  exists content loads, verify_baseline loads c (Some content) = Ok tt <->
    map identity_of (c_units a) `prefix_of` map identity_of (c_units c).
Proof.
  intros a c.
  pose (r := match run_offline (UC := ascii_unicode) (I := ascii_interpreter) (D := sqlite_dialect)
               (MkBindings "main" "file" "lock") a None with Ok r => r | Err _ => MkReadReport [] [] [] [] [] false 0 0 None [] None None [] None None [] OK [] end).
  exists [], (fun _ => Some (to_payload r)).
  refine (baseline_prefix (UC := ascii_unicode) (I := ascii_interpreter) (D := sqlite_dialect) _
            (MkBindings "main" "file" "lock") a None r c [] _ eq_refl _).
  - vm_compute. reflexivity.
  - intros [|i] u Hu; [injection Hu as <-; reflexivity|discriminate].
Defined.
