(* ===== verification/Verdict.v ===== *)
(** * What the read-only commands answer

    That [status] and [validate] only read, and that their verdict is the one a run
    would act on: exit code 0 exactly when the plan read can be executed without
    recovery, with the counts of that plan. *)
From S2P Require Import Prelude PyStr Errors Latch Paths Manifest Model Fingerprint StateValidate SqlText.
From S2P Require Import Admission Metadata Checks World History Adapter Context Engine Frame Triple Protocol Durable Crash Memory Reporting ReadOnly.
Open Scope str_scope.

(** The calls of the read-only commands. *)
Definition reading (o : rawop) : bool :=
  match o with
  | RConnect | RServerDescription | RReadSnapshot _ | RProbeLiveness _ | RClose => true
  | _ => inspect_op o
  end.

(** The snapshots read, the latest first. *)
Definition snapshots (log : list event) : list Snapshot :=
  omap (fun e => match e with Event (RReadSnapshot _) (Ok snap) => Some snap | _ => None end) log.

(** A plan that can be executed as it is. *)
Definition plannable (capture : Capture) (snaps : list Snapshot) (p : Plan) : Prop :=
  exists snap, snaps = [snap] /\ build_plan capture snap = Ok p /\ p_active_changed p = false.

(** The counts of a report are those of a plan. *)
Definition counts_plan (r : Report) (p : Plan) : Prop :=
  ro_success_count r = p_success_count p /\ ro_pending_count r = length (p_pending p) /\
  ro_active_id r = hr_id <$> p_active p.

(** ** The tally of the units *)
Definition tally_unit (rows : list HistoryRow) (acc : nat * nat * option str) (u : CapturedUnit) : nat * nat * option str :=
  let '(success, pending, active) := acc in
  match by_id rows (u_id u) with
  | None => (success, pending + 1, active)
  | Some r => if is_success r then (success + 1, pending, active) else (success, pending + 1, Some (hr_id r))
  end.

Section tally.
Context (rows : list HistoryRow) (Hids : NoDup (map hr_id rows)).

Lemma tally_success dn us s p a :
  Forall2 success_agrees dn us -> Forall (fun r => r ∈ rows) dn -> Forall (fun r => is_success r = true) dn ->
  foldl (tally_unit rows) (s, p, a) us = (s + length dn, p, a).
Proof.
  intros Hag. revert s. induction Hag as [|r u dn us Hru _ IH]; intros s Hin Hs; simpl; [by rewrite Nat.add_0_r|].
  apply Forall_cons in Hin as [Hr Hin]. apply Forall_cons in Hs as [Hrs Hs].
  assert (by_id rows (u_id u) = Some r) as -> by (apply by_id_Some; [done|split; [done|apply Hru]]).
  rewrite Hrs, IH by done. f_equal; f_equal; lia.
Qed.

Lemma tally_none us s p a :
  Forall (fun u => u_id u ∉ map hr_id rows) us -> foldl (tally_unit rows) (s, p, a) us = (s, p + length us, a).
Proof.
  revert p. induction us as [|u us IH]; intros p Hn; simpl; [by rewrite Nat.add_0_r|].
  apply Forall_cons in Hn as [Hu Hn]. destruct (by_id rows (u_id u)) as [r|] eqn:Hr.
  - apply by_id_Some in Hr as [Hr Hid]; [|done]. destruct Hu. rewrite <-Hid. by apply list_elem_of_fmap_2.
  - rewrite IH by done. f_equal. f_equal. lia.
Qed.
End tally.

Lemma tally_plan capture snap p :
  NoDup (map u_id (c_units capture)) -> build_plan capture snap = Ok p ->
  foldl (tally_unit (s_history snap)) (0, 0, None) (c_units capture) =
  (p_success_count p, length (p_pending p), hr_id <$> p_active p).
Proof.
  intros Hnd (dn & act & Hok & Hag & ->)%build_plan_Ok. destruct Hok as [_ Hrows _ Hids _ (_ & Hs & Ha & Hl) _].
  pose proof (recorded_ids _ _ _ Hag) as Hrec. rewrite Hrows in Hids. destruct Hag as [Hd Hac].
  assert (Forall (fun r => r ∈ s_history snap) (dn ++ act)) as Hin by (apply Forall_forall; intros r; by rewrite Hrows).
  apply Forall_app in Hin as [Hin Hin'].
  assert (Forall (fun u => u_id u ∉ map hr_id (s_history snap)) (drop (length (dn ++ act)) (c_units capture))) as Hrest.
  { apply Forall_forall. intros u Hu Hid. rewrite <-(Permutation_map hr_id Hrows), Hrec in Hid.
    rewrite <-(take_drop (length (dn ++ act)) (c_units capture)), map_app in Hnd.
    apply NoDup_app in Hnd as (_ & Hnd & _). apply (Hnd _ Hid). by apply list_elem_of_fmap_2. }
  rewrite <-(take_drop (length dn) (c_units capture)) at 1.
  rewrite foldl_app, (tally_success _ Hids dn _ 0 0 None Hd Hin Hs). simpl.
  rewrite length_app, <-drop_drop in Hrest. destruct act as [|a [|]]; [| |simpl in Hl; lia].
  - rewrite tally_none by (done || by rewrite drop_0 in Hrest). done.
  - destruct (drop (length dn) (c_units capture)) as [|u us]; [by inversion Hac|]. simpl in *.
    apply Forall2_cons in Hac as [[Hid _] _]. apply Forall_cons in Hin' as [Hin' _]. apply Forall_cons in Ha as [Ha _].
    assert (by_id (s_history snap) (u_id u) = Some a) as Hby by (by apply by_id_Some).
    rewrite Hby, (is_active_success _ Ha), drop_0 in *. rewrite tally_none by done. done.
Qed.

Lemma recovery_needed capture snap p :
  build_plan capture snap = Ok p ->
  match require_no_recovery_needed p with
  | Ok _ => p_active_changed p = false
  | Err x => p_active_changed p = true /\ exists e, x = PyMigr8 e /\ is_instance e RecoveryRequiredError = true
  end.
Proof.
  intros (dn & act & Hok & Hag & ->)%build_plan_Ok. unfold require_no_recovery_needed. simpl.
  destruct (fingerprint_changed act _) eqn:Hch; [|done].
  destruct (head act) as [a|] eqn:Ha; [|by destruct act].
  destruct (the_plan_active capture snap dn act a Hok Hag Ha) as (u & -> & _). eauto.
Qed.

(** ** The verdict *)
Section verdict.
Context {S : Type} {DR : Driver S} {UC : Unicode} {I : Interpreter} {D : Dialect}.
Context (isoformat : timestamp -> str) (b : bindings) (capture : Capture).

Definition seen (l : list Snapshot) (s : S * list event) : Prop := snapshots s.2 = l.
Definition any (s : S * list event) : Prop := True.

Lemma stable_seen l : stable (fun o => match o with RReadSnapshot _ => false | _ => true end) (on_driver (seen l)).
Proof.
  split; [|done..]. intros o w Ho Hw. unfold on_driver, raw, seen in *.
  destruct (logged_step o (w_driver w)) as (s' & r & ->). simpl. by destruct o.
Qed.

Lemma triple_seen_raw l o : match o with RReadSnapshot _ => false | _ => true end = true ->
  triple (seen l) (raw o) (fun _ => seen l) any.
Proof. intros Ho. apply triple_last; [|done]. exact (keeps_raw _ _ o (stable_seen l) Ho). Qed.

Lemma triple_inspect l : triple (seen l) inspect_metadata (fun _ => seen l) any.
Proof. apply triple_last; [|done]. apply (keeps_inspect_metadata _ _ (stable_seen l)). by intros []. Qed.

Lemma triple_snapshot : triple (seen []) (read_snapshot true) (fun snap => seen [snap]) any.
Proof.
  apply triple_guarded; [|done]. refine (triple_raw _ (RReadSnapshot true) (fun snap => seen [snap]) any _). intros s Hs.
  destruct (logged_step (RReadSnapshot true) s) as (s' & r & ->). destruct r as [snap|x]; [|done].
  unfold seen in *. simpl. by rewrite Hs.
Qed.

(** A clean report: nothing is wrong yet. *)
Definition clean (r : Report) : Prop := ro_exit_code r = OK /\ ro_problem r = None.

(** A report that carries a problem. *)
Definition troubled (r : Report) : Prop := ro_exit_code r <> OK /\ ro_problem r <> None.

Lemma troubled_problem kind message e r : troubled (with_problem kind message (exit_code e) r).
Proof. split; simpl; [apply exit_code_not_OK|done]. Qed.

Lemma triple_base command state :
  triple (seen []) (base_status_report b capture command state) (fun r s => clean r /\ seen [] s) any.
Proof.
  unfold base_status_report. eapply triple_seq; [by apply (triple_seen_raw [] RServerDescription)|].
  intros server w Hw. split; [done|exact Hw].
Qed.

Lemma triple_prepare command :
  triple (seen []) (prepare_report isoformat b capture command)
    (fun '(r, so) s => match so with
                       | None => troubled r /\ seen [] s
                       | Some snap => clean r /\ seen [snap] s
                       end) any.
Proof.
  unfold prepare_report. eapply triple_seq; [apply triple_inspect|intros state].
  eapply triple_bind; [apply triple_base|intros r]. apply triple_pure. intros Hr.
  destruct (mr_state state); try (intros w Hw; split; [done|exact Hw]).
  destruct (verify_bindings b (mr_meta state)) as [[]|e].
  - eapply triple_bind; [apply triple_snapshot|]. intros snap w Hw. by split.
  - intros w Hw. split; [|exact Hw]. apply troubled_problem.
Qed.

Lemma triple_fill_units l rows live us entries acc :
  triple (seen l) (fill_units isoformat rows live (entries, acc.1.1, acc.1.2, acc.2) us)
    (fun '(_, s, p, a) st => (s, p, a) = foldl (tally_unit rows) acc us /\ seen l st) any.
Proof.
  revert entries acc. induction us as [|u us IH]; intros entries [[s p] a]; simpl.
  { intros w Hw. by split. }
  destruct (by_id rows (u_id u)) as [r|] eqn:Hr; [destruct (is_success r) eqn:Hs|]; simpl.
  - apply (IH _ (s + 1, p, a)).
  - apply triple_assoc. eapply triple_seq with (Q := seen l); [|intros entry; apply (IH _ (s, p + 1, Some (hr_id r)))].
    destruct live; [|apply triple_ret].
    eapply triple_seq with (Q := seen l); [|intros v; apply triple_ret].
    apply triple_guarded; [|done]. by apply (triple_seen_raw l (RProbeLiveness (hr_db_session r))).
  - apply (IH _ (s, p + 1, a)).
Qed.

Context (Hids : NoDup (map u_id (c_units capture))).

(** What a report of the database's state says. *)
Definition honest (r : Report) (snaps : list Snapshot) : Prop :=
  (ro_exit_code r = OK <-> ro_problem r = None) /\
  (ro_exit_code r = OK -> exists p, plannable capture snaps p /\ counts_plan r p) /\
  ((exists p, plannable capture snaps p) -> ro_exit_code r = OK).

Lemma troubled_honest r snaps : troubled r -> (forall p, ~ plannable capture snaps p) -> honest r snaps.
Proof. intros [Hc Hp] Hn. split; [done|]. split; [done|]. intros [p Hpl]. by destruct (Hn p). Qed.

Lemma triple_fill r snap live :
  clean r ->
  triple (seen [snap]) (fill isoformat capture r snap live)
    (fun r' s => (clean r' /\ forall p, build_plan capture snap = Ok p -> counts_plan r' p) /\ seen [snap] s) any.
Proof.
  intros Hr. unfold fill. eapply triple_bind; [apply (triple_fill_units [snap] (s_history snap) live (c_units capture) [] (0, 0, None))|].
  intros [[[entries s] p] a] w [Ht Hw]. split; [|exact Hw]. split; [done|].
  intros plan Hplan. rewrite (tally_plan capture snap plan Hids Hplan) in Ht. injection Ht as -> -> ->. done.
Qed.

Lemma plan_problem_troubled suffix e r : exists r', plan_problem suffix (PyMigr8 e) r = Ok r' /\ troubled r'.
Proof. simpl. destruct (is_instance e _); eexists; (split; [done|]); apply troubled_problem. Qed.

Lemma triple_read_status command live suffix :
  triple (seen []) (read_status isoformat b capture command live suffix) (fun r s => honest r (snapshots s.2)) any.
Proof.
  unfold read_status. eapply triple_bind; [apply triple_prepare|]. intros [r [snap|]]; simpl.
  2:{ intros w [Hr Hw]. apply troubled_honest; [done|]. rewrite Hw. by intros p (snap & ? & _). }
  apply triple_pure. intros Hr. eapply triple_bind; [by apply triple_fill|]. intros r'. apply triple_pure. intros [Hr' Hcount].
  assert (forall p, plannable capture [snap] p -> build_plan capture snap = Ok p /\ p_active_changed p = false) as Hpl
    by (intros p (snap' & [= <-] & ? & ?); done).
  destruct (build_plan capture snap) as [p|x] eqn:Hplan; simpl.
  - pose proof (recovery_needed capture snap p Hplan) as Hrec. destruct (require_no_recovery_needed p) as [[]|x].
    + intros w Hw. unfold seen in Hw. simpl. rewrite Hw. destruct Hr' as [Hc Hp]. split; [by rewrite Hc, Hp|].
      split; [|done]. intros _. exists p. split; [by exists snap|by apply Hcount].
    + destruct Hrec as (Hch & e & -> & _). destruct (plan_problem_troubled suffix e r') as (r2 & -> & Ht).
      intros w Hw. unfold seen in Hw. simpl. rewrite Hw. apply troubled_honest; [done|].
      intros p' [[= <-] ?]%Hpl. congruence.
  - destruct x as [e|d|]; try (by intros w Hw).
    destruct (plan_problem_troubled suffix e r') as (r2 & -> & Ht).
    intros w Hw. unfold seen in Hw. simpl. rewrite Hw. apply troubled_honest; [done|]. by intros p' [? ?]%Hpl.
Qed.

Lemma triple_finally {A} P (m : M (S * list event) A) Q :
  triple P m (fun a s => Q a (snapshots s.2)) any -> triple P (finally_close m) (fun a s => Q a (snapshots s.2)) any.
Proof.
  intros Hm w Hw. specialize (Hm w Hw). unfold finally_close. destruct (m w) as [w1 r].
  pose proof (triple_seen_raw (snapshots (w_driver w1).2) RClose eq_refl w1 eq_refl) as Hc.
  destruct (raw RClose w1) as [w2 [[]|x]]; [|done]. destruct r as [a|x]; [|done]. unfold seen in Hc. by rewrite Hc.
Qed.

(** The verdict of a command that read the namespace. *)
Definition verdict (defer : bool) (r : Report) (snaps : list Snapshot) : Prop :=
  (defer = false -> preflight capture = Ok tt) /\
  (ro_exit_code r = OK <-> preflight capture = Ok tt /\ exists p, plannable capture snaps p) /\
  (ro_exit_code r = OK -> exists p, plannable capture snaps p /\ counts_plan r p).

(** What a command that returned a report has found. *)
Definition answers (defer : bool) (check : option (result error unit)) (out : World (S * list event) * result pyexn Report) : Prop :=
  match out with
  | (w, Ok r) => verdict defer r (snapshots (w_driver w).2) /\ match check with Some c => c = Ok tt | None => True end
  | _ => True
  end.

Lemma attach_verdict e r r' snaps :
  preflight capture = Err (PyMigr8 e) -> honest r snaps -> attach_preflight_problem e r = Ok r' -> verdict true r' snaps.
Proof.
  intros Hpre (Hcode & _) Ha.
  assert (ro_exit_code r' <> OK) as Hne.
  { unfold attach_preflight_problem in Ha. simpl in Ha. destruct (ro_problem r) eqn:Hp; simpl in Ha.
    - apply bind_Ok in Ha as (p & _ & [= <-]). simpl. intros Hok. apply Hcode in Hok. congruence.
    - injection Ha as <-. simpl. apply exit_code_not_OK. }
  split; [done|]. split; [|done]. split; [done|]. intros [? _]. congruence.
Qed.

Lemma triple_run_readonly command live suffix check defer :
  triple (seen []) (run_readonly isoformat b capture command live suffix check defer)
    (fun r s => verdict defer r (snapshots s.2) /\ match check with Some c => c = Ok tt | None => True end) any.
Proof.
  unfold run_readonly. apply triple_of_result; [intros deferred Hd|done].
  eapply triple_bind with (Q := fun _ s => match check with Some c => c = Ok tt | None => True end /\ seen [] s).
  { destruct check as [[[]|e]|]; intros w Hw; done. }
  intros _. apply triple_pure. intros Hcheck.
  eapply triple_seq; [by apply (triple_seen_raw [] RConnect)|intros _].
  eapply triple_bind; [apply (triple_finally _ _ honest), triple_read_status|]. intros r.
  destruct (preflight capture) as [[]|[e|d|]] eqn:Hpre; simplify_eq/=.
  - intros w (Hcode & Hok & Hback). split; [|done]. split; [done|]. split; [|exact Hok].
    split; [intros H; split; [done|]; destruct (Hok H) as (p & ? & _); by exists p|]. intros [_ Hp]. by apply Hback.
  - destruct defer; [|done]. injection Hd as <-. intros w Hh.
    destruct (attach_preflight_problem e r) as [r'|x] eqn:Ha; simpl; [|done]. split; [|done]. by eapply attach_verdict.
Qed.
End verdict.

(** ** Only reading *)
Section reads.
Context {S : Type} {DR : Driver S} {UC : Unicode} {I : Interpreter} {D : Dialect}.
Context (isoformat : timestamp -> str) (b : bindings) (capture : Capture).
Context (P : World S -> Prop) (HP : stable reading P).

Lemma keeps_fill_units rows live acc us : keeps P (fill_units isoformat rows live acc us).
Proof.
  revert acc. induction us as [|u us IH]; intros acc; [apply keeps_ret|]. simpl. apply keeps_bind; [|intros; apply IH].
  unfold fill_unit, probe_session_liveness. keeps. apply (keeps_guarded reading P HP).
  exact (keeps_raw reading P (RProbeLiveness _) HP eq_refl).
Qed.

Lemma keeps_finally {A} (m : M S A) : keeps P m -> keeps P (finally_close m).
Proof.
  intros Hm w Hw. specialize (Hm w Hw). unfold finally_close. destruct (m w) as [w1 r].
  pose proof (keeps_raw reading P RClose HP eq_refl w1 Hm) as Hc. by destruct (raw RClose w1) as [w2 [[]|x]].
Qed.

Lemma keeps_run_readonly command live suffix check defer :
  keeps P (run_readonly isoformat b capture command live suffix check defer).
Proof.
  unfold run_readonly. apply keeps_bind; [apply keeps_of_result|intros deferred].
  apply keeps_bind; [destruct check; [apply keeps_of_check|apply keeps_ret]|intros _].
  apply keeps_bind; [exact (keeps_raw reading P RConnect HP eq_refl)|intros _].
  apply keeps_bind; [apply keeps_finally|intros; keeps].
  assert (keeps P inspect_metadata) by (apply (keeps_inspect_metadata reading P HP); by intros []).
  assert (keeps P (read_snapshot true)) by (by apply (keeps_read_snapshot reading P HP)).
  unfold read_status, prepare_report, base_status_report, fill. keeps; apply keeps_fill_units.
Qed.
End reads.

(** ** The theorems *)


(** C31: the verdict of [status] and [validate] is the plan's. When the command returns
    a report, its exit code is 0 exactly when preflight passes and a plan can be
    built from the one snapshot that was read and needs no recovery, which is when a
    run would go on to execute it; and the report then counts what that plan
    counts. [validate] besides returns only if the approved plan was met. *)
Theorem readonly_verdict {S : Type} {DR : Driver S} {UC : Unicode} {I : Interpreter} {D : Dialect}
    isoformat b capture check (s : S) (Hids : NoDup (map u_id (c_units capture))) :
  answers capture true None (run_status isoformat b capture (readonly_world (s, []))) /\
  answers capture false check (run_validate isoformat b capture check (readonly_world (s, []))).
Proof.
  split.
  - pose proof (triple_run_readonly isoformat b capture Hids "status" true [] None true (readonly_world (s, [])) eq_refl) as H.
    unfold run_status, answers. by destruct (run_readonly _ _ _ _ _ _ _ _ _) as [w [r|x]].
  - pose proof (triple_run_readonly isoformat b capture Hids "validate" false recovery_note check false (readonly_world (s, [])) eq_refl) as H.
    unfold run_validate, answers. by destruct (run_readonly _ _ _ _ _ _ _ _ _) as [w [r|x]].
Qed.

(** ** On the database in memory *)
#[local] Existing Instances ascii_unicode ascii_interpreter sqlite_dialect.

Definition demo_iso (t : timestamp) : str := "t".

(** A namespace where the first unit has succeeded. *)
Definition demo_session : Memory := with_lost true (memory_on (durable (w_driver (crash_run 60).1))).

Example demo_status_ok :
  match (run_status demo_iso demo_bindings demo_capture (readonly_world (demo_session, []))).2 with
  | Ok r => (ro_exit_code r, ro_success_count r, ro_pending_count r, map ms_state (ro_migrations r)) =
            (OK, 1, 2, ["SUCCESS"; "PENDING"; "PENDING"] : list str)
  | Err _ => False
  end.
Proof. vm_compute. done. Qed.

Lemma readonly_verdict_witness :
  answers demo_capture true None (run_status demo_iso demo_bindings demo_capture (readonly_world (demo_session, []))) /\
  answers demo_capture false None (run_validate demo_iso demo_bindings demo_capture None (readonly_world (demo_session, []))).
Proof. exact (readonly_verdict demo_iso demo_bindings demo_capture None demo_session (uk_ids _ demo_units)). Defined.
