(* ===== verification/Cli.v ===== *)
(** * The command line ([cli.py])

    One command from its parsed arguments to the exit code of the process, over
    the components it calls: configuration, manifest, staging, the engine's run and
    the read-only commands. The database session is the driver's; what the command
    asks of the process itself (its log, its temporary directory, its output
    streams) are the operations [cliop] of a shell, which may fail or be
    interrupted in any way. [OTick] stands for an interrupt that arrives between two
    statements. Argument parsing, signal set-up and the text of log events are
    left out. *)
From S2P Require Import Prelude PyStr Text Errors Latch Paths Manifest Model SqlText Admission Checks World Adapter Context Engine.
From S2P Require Import Config Reporting ReadOnly Staging.
Open Scope str_scope.

(** ** [shlex.quote] *)
Definition shell_safe (c : char) : bool := ascii_alnum c || (c =? 95)%N || bool_decide (c ∈ ("@%+=:,./-" : str)).

Definition single_quote : char := 39%N.
Definition double_quote : char := 34%N.

Definition quote_char (c : char) : str :=
  if (c =? single_quote)%N then [single_quote; double_quote; single_quote; double_quote; single_quote] else [c].

Definition shlex_quote (s : str) : str :=
  match s with
  | [] => [single_quote; single_quote]
  | _ => if forallb shell_safe s then s
         else [single_quote] ++ concat (map quote_char s) ++ [single_quote]
  end.

(** ** Arguments *)
(* @src cli.py 90-113 build_parser (the commands and their options) *)
Inductive Command :=
| Migrate (recover : option str)
| Validate (offline : bool) (baseline : option str)
| StatusCommand.

(* @src cli.py 66-88 build_parser (common options) *)
Record Args := MkArgs {
  a_command : Command;
  a_config : option str;
  a_manifest : option str;
  a_json : bool;
}.

(* @src version.py TOOL_NAME *)
Definition TOOL_NAME : str := "migr8".
(* @src config.py DEFAULT_CONFIG_NAME *)
Definition DEFAULT_CONFIG_NAME : str := "migr8.toml".
(* @src manifest.py DEFAULT_MANIFEST_NAME *)
Definition DEFAULT_MANIFEST_NAME : str := "manifest.toml".

Definition given (o : option str) : bool := match o with Some _ => true | None => false end.

(** [str(config_path)] and [str(manifest_path)] are texts here. *)
(* @src cli.py _recovery_command *)
Definition recovery_command (args : Args) (migration_id config_path manifest_path : str) : str :=
  let command := TOOL_NAME ++ " migrate --recover " ++ shlex_quote migration_id in
  if given (a_config args) || given (a_manifest args)
  then command ++ " --config " ++ shlex_quote config_path ++ " --manifest " ++ shlex_quote manifest_path
  else command.

(** ** The process *)

(** What the command asks of its process. *)
Inductive cliop :=
| OTick                                   (* between two statements *)
| OOpenLog | OEvent (name : str) | OCloseLog
| OAdapter (name : str)                   (* import the adapter's module and construct it *)
| OMakeTemp                               (* tempfile.mkdtemp *)
| OCleanup                                (* staging.cleanup(root) *)
| OWarn                                   (* LOGGER.warning *)
| OWrite (err : bool) (text : str).       (* stream.write and stream.flush *)

Class Shell (E : Type) := sh_step : cliop -> E -> E * result pyexn unit.

(** The machine the command runs on, as far as it is read: paths, files, decoders. *)
Class Site := MkSite {
  si_resolve : option str -> str -> path;  (* [Path(p).expanduser().resolve()], below the working directory when absent *)
  si_text : path -> str;
  si_read : path -> option bytes;
  si_host : host;
  si_utf8 : bytes -> option str;
  si_toml : str -> option (list (str * toml));
  si_json_loads : bytes -> option json;
  si_json_dumps : json -> str;
  si_isoformat : timestamp -> str;
  si_sha256 : bytes -> str;
}.

(** What a unit directory holds. *)
Definition unit_tree (h : host) (p : path) : list (str * node) :=
  match lookup_node (h_fs h) p with Some (NDir es) => es | _ => [] end.

(** [_MigrateRun] with the objects it refers to. The engine is its [World], whose
    report is the one object [run.report] and [engine.report] share. *)
(* @src cli.py _MigrateRun *)
Record Cli (E S : Type) := MkCli {
  cl_env : E;
  cl_calls : list cliop;                    (* the latest first *)
  cl_session : S;
  cl_engine : option (World S);
  cl_returned : bool;                       (* run.report is not None *)
  cl_paths : option (path * path);
  cl_recovery : option str;                 (* report.recovery_command *)
  cl_exit : option Exit;
}.
Arguments MkCli {_ _} _ _ _ _ _ _ _ _.
Arguments cl_env {_ _} _.
Arguments cl_calls {_ _} _.
Arguments cl_session {_ _} _.
Arguments cl_engine {_ _} _.
Arguments cl_returned {_ _} _.
Arguments cl_paths {_ _} _.
Arguments cl_recovery {_ _} _.
Arguments cl_exit {_ _} _.

Definition C (E S A : Type) : Type := Cli E S -> Cli E S * result pyexn A.

#[export] Instance C_ret {E S} : MRet (C E S) := fun A a k => (k, Ok a).
#[export] Instance C_bind {E S} : MBind (C E S) := fun A B f m k =>
  match m k with
  | (k', Ok a) => f a k'
  | (k', Err x) => (k', Err x)
  end.

Section monad.
Context {E S : Type} {SH : Shell E}.

Definition craise {A} (x : pyexn) : C E S A := fun k => (k, Err x).
Definition cgets {A} (f : Cli E S -> A) : C E S A := fun k => (k, Ok (f k)).
Definition cmodify (f : Cli E S -> Cli E S) : C E S unit := fun k => (f k, Ok tt).
Definition cof {A} (r : result pyexn A) : C E S A := fun k => (k, r).
Definition ctry {A} (m : C E S A) (h : pyexn -> C E S A) : C E S A := fun k =>
  match m k with
  | (k', Ok a) => (k', Ok a)
  | (k', Err x) => h x k'
  end.

(** [try: m finally: f]. *)
Definition cfinally {A} (m : C E S A) (f : C E S unit) : C E S A := fun k =>
  let '(k1, r) := m k in
  match f k1 with
  | (k2, Ok _) => (k2, r)
  | (k2, Err x) => (k2, Err x)
  end.

Definition op (o : cliop) : C E S unit := fun k =>
  let '(e, r) := sh_step o (cl_env k) in
  (MkCli e (o :: cl_calls k) (cl_session k) (cl_engine k) (cl_returned k) (cl_paths k) (cl_recovery k) (cl_exit k), r).

Definition tick : C E S unit := op OTick.

(** A read-only command's run on the session. *)
Definition on_session {A} (m : M S A) : C E S A := fun k =>
  let '(w, r) := m (readonly_world (cl_session k)) in
  (MkCli (cl_env k) (cl_calls k) (w_driver w) (cl_engine k) (cl_returned k) (cl_paths k) (cl_recovery k) (cl_exit k), r).

Definition set_engine (w : World S) (k : Cli E S) : Cli E S :=
  MkCli (cl_env k) (cl_calls k) (cl_session k) (Some w) (cl_returned k) (cl_paths k) (cl_recovery k) (cl_exit k).
Definition set_returned (k : Cli E S) : Cli E S :=
  MkCli (cl_env k) (cl_calls k) (cl_session k) (cl_engine k) true (cl_paths k) (cl_recovery k) (cl_exit k).
Definition set_paths (p : path * path) (k : Cli E S) : Cli E S :=
  MkCli (cl_env k) (cl_calls k) (cl_session k) (cl_engine k) (cl_returned k) (Some p) (cl_recovery k) (cl_exit k).
Definition set_recovery_command (c : str) (k : Cli E S) : Cli E S :=
  MkCli (cl_env k) (cl_calls k) (cl_session k) (cl_engine k) (cl_returned k) (cl_paths k) (Some c) (cl_exit k).
Definition set_exit (c : Exit) (k : Cli E S) : Cli E S :=
  MkCli (cl_env k) (cl_calls k) (cl_session k) (cl_engine k) (cl_returned k) (cl_paths k) (cl_recovery k) (Some c).
End monad.

Section cli.
Context {E S : Type} {SH : Shell E} {SI : Site} {DR : Driver S} {UC : Unicode} {I : Interpreter} {D : Dialect} {H : Host}
  {L : Loader} {DF : Deferred}.
Context (bindings_of : Config -> bindings) (runner : RunnerInfo) (run_id : str) (args : Args).

(** ** Reading the inputs *)
Definition os_failure : pyexn := PyException (builtin_exn "builtins.OSError").

(* @src cli.py _resolve *)
Definition resolve (p : option str) (default_name : str) : C E S path :=
  let resolved := si_resolve p default_name in
  cof (lift (raise_if (negb (h_is_file si_host resolved)) (mk UsageError "does not exist or is not a regular file")));;
  mret resolved.

(* @src cli.py _load *)
Definition load_inputs : C E S (Config * path * path) :=
  config_path ← resolve (a_config args) DEFAULT_CONFIG_NAME;
  manifest_path ← resolve (a_manifest args) DEFAULT_MANIFEST_NAME;
  content ← cof (match si_read config_path with Some c => Ok c | None => Err os_failure end);
  config ← cof (lift (load_config si_utf8 si_toml (h_realpath si_host) (h_is_file si_host) config_path content));
  mret (config, config_path, manifest_path).

Definition load_manifest (manifest_path : path) : C E S Manifest :=
  cof (load si_utf8 si_toml si_host manifest_path (si_read manifest_path)).

(** [adapters.create]: the registry is searched by name. *)
(* @src adapters/__init__.py create *)
Definition create (name : str) : C E S unit :=
  let import : C E S unit :=
    ctry (op (OAdapter name))
      (fun x => match x with
                | PyException d => if instance_of "builtins.ImportError" d
                                   then craise (PyMigr8 (mk UnsupportedCapabilityError "the adapter requires its driver"))
                                   else craise x
                | _ => craise x
                end) in
  if bool_decide (name = "sqlite-probe") then craise (PyMigr8 (mk UsageError "retired adapter name"))
  else if bool_decide (name = "sqlite") then op (OAdapter name)
  else if bool_decide (name = "postgres") then import
  else if bool_decide (name = "oracle") then import
  else craise (PyMigr8 (mk UsageError "unsupported database.adapter")).

(** ** The report of a run *)

(** [asdict(report)] with its exit code as an integer, then the outcome's name. *)
(* @src engine.py RunReport.to_json *)
Definition run_payload (recovery : option str) (r : RunReport) : json :=
  JObj [("exit_code", JInt (exit_int (rp_exit_code r))); ("run_id", JStr run_id); ("executed", JArr (map JStr (rp_executed r)));
    ("message", json_str (rp_message r)); ("warnings", JArr (map JStr (rp_warnings r)));
    ("connection_discarded", JBool (rp_discarded r)); ("failed_migration", json_str (rp_failed r));
    ("phase", json_str (rp_phase r)); ("recovery_id", json_str (rp_recovery_id r)); ("recovery_command", json_str recovery);
    ("adapter", JStr ad_name); ("namespace", json_str (rp_namespace r)); ("duration_seconds", JOther);
    ("outcome", JStr (OUTCOME_NAMES (rp_exit_code r)))].

(* @src cli.py _lines *)
Definition lines (l : list str) : str := concat (map (fun line => line ++ [10%N]) l).

(* @src cli.py _format_run_report *)
Definition format_run_report (recovery : option str) (r : RunReport) : str * str :=
  if a_json args then (si_json_dumps (run_payload recovery r) ++ [10%N], [])
  else
    (lines (map (fun mid => "applied " ++ mid) (rp_executed r) ++
            (if bool_decide (rp_executed r = []) && bool_decide (rp_exit_code r = OK) then ["no pending migrations"] else [])),
     lines (map (fun warning => "warning: " ++ warning) (rp_warnings r) ++
            match truthy (rp_message r) with Some m => [m; "run: " ++ run_id] | None => [] end ++
            match truthy recovery with Some c => ["recovery: " ++ c] | None => [] end)).

(** Each stream once; an interrupt stops the writing. *)
(* @src cli.py _write *)
Definition write (out err : str) : C E S unit :=
  let put (is_err : bool) (text : str) : C E S unit := match text with [] => mret tt | _ => op (OWrite is_err text) end in
  ctry (put false out;; put true err) (fun x => match x with PyInterrupt => mret tt | _ => craise x end).

(** [self.report] of the engine, when it is the outcome. *)
(* @src cli.py _recorded_report *)
Definition recorded_report (k : Cli E S) : option RunReport :=
  match cl_engine k with
  | Some w => if cl_returned k || w_reported w then Some (w_report w) else None
  | None => None
  end.

(* @src cli.py _add_recovery_command *)
Definition add_recovery_command (r : RunReport) : C E S unit :=
  paths ← cgets cl_paths;
  match rp_recovery_id r, paths with
  | Some mid, Some (config_path, manifest_path) =>
      cmodify (set_recovery_command (recovery_command args mid (si_text config_path) (si_text manifest_path)))
  | _, _ => mret tt
  end.

(* @src cli.py _render_run_report *)
Definition render_run_report (r : RunReport) : C E S Exit :=
  recovery ← cgets cl_recovery;
  let '(out, err) := format_run_report recovery r in
  tick;;
  cmodify (set_exit (rp_exit_code r));;
  tick;;
  write out err;;
  tick;;
  mret (rp_exit_code r).

(** ** Migrate *)
Definition add_run_warning (warning : str) (w : World S) : World S :=
  let r := w_report w in
  set_report (MkReport (rp_exit_code r) (rp_executed r) (rp_message r) (rp_warnings r ++ [warning]) (rp_discarded r)
                (rp_failed r) (rp_phase r) (rp_recovery_id r) (rp_namespace r)) w.

Definition left_behind : str := "removing the staging directory was interrupted; it was left behind and can be deleted".

(** [for _attempt in range(2)]: the removal, tried again after an interrupt. *)
Definition cleanup_attempts : C E S bool :=
  let attempt (again : C E S bool) : C E S bool :=
    ctry (op OCleanup;; mret true) (fun x => match x with PyInterrupt => again | _ => craise x end) in
  attempt (attempt (mret false)).

(* @src cli.py _cleanup_staging *)
Definition cleanup_staging : C E S unit :=
  engine ← cgets cl_engine;
  match engine with
  | None => op OCleanup
  | Some _ =>
      removed ← cleanup_attempts;
      if (removed : bool) then mret tt
      else op OWarn;;
           k ← cgets id;
           match recorded_report k, cl_engine k with
           | Some _, Some w => cmodify (set_engine (add_run_warning left_behind w))
           | _, _ => mret tt
           end
  end.

(** The copies are removed again when staging fails. *)
(* @src staging.py 85-105 stage (temporary directory and cleanup) *)
Definition stage_units (m : Manifest) : C E S Capture :=
  op OMakeTemp;;
  ctry (tick;; cof (stage si_sha256 (unit_tree si_host) m)) (fun x => op OCleanup;; craise x).

(** [run.engine = engine], then [run.report = engine.run()]. *)
(* @src cli.py 191-201 _do_migrate (engine) *)
Definition run_engine (config : Config) (capture : Capture) (recover : option str) : C E S unit :=
  session ← cgets cl_session;
  cmodify (set_engine (initial_world session runner));;
  tick;;
  (fun k => let '(w, r) := run (bindings_of config) capture recover (initial_world session runner) in (set_engine w k, r));;
  tick;;
  cmodify set_returned.

(* @src cli.py _do_migrate *)
Definition do_migrate (recover : option str) : C E S Exit :=
  '(config, config_path, manifest_path) ← load_inputs;
  cmodify (set_paths (config_path, manifest_path));;
  m ← load_manifest manifest_path;
  create (cf_adapter config);;
  tick;;
  capture ← stage_units m;
  cfinally (tick;; run_engine config capture recover) cleanup_staging;;
  tick;;
  k ← cgets id;
  match cl_engine k with
  | None => craise (PyException (builtin_exn "builtins.AttributeError"))
  | Some w =>
      add_recovery_command (w_report w);;
      tick;;
      render_run_report (w_report w)
  end.

(** ** The read-only commands *)
Definition with_run (recovery : option str) (r : Report) : Report :=
  MkReadReport (ro_command r) (ro_adapter r) (ro_server r) (ro_namespace r) (ro_metadata_state r) (ro_initialized r)
    (ro_success_count r) (ro_pending_count r) (ro_active_id r) (ro_migrations r) (ro_problem r) (ro_problem_kind r)
    (ro_problems r) (ro_recovery_id r) recovery (ro_checks r) (ro_exit_code r) run_id.

(** The comparison with the approved plan, when [--baseline] names one. *)
Definition baseline_check (capture : Capture) : C E S (option (result error unit)) :=
  match a_command args with
  | Validate _ (Some baseline) =>
      resolved ← resolve (Some baseline) [];
      mret (Some (verify_baseline si_json_loads capture (si_read resolved)))
  | _ => mret None
  end.

(* @src cli.py _do_readonly *)
Definition do_readonly : C E S Exit :=
  '(config, config_path, manifest_path) ← load_inputs;
  m ← load_manifest manifest_path;
  capture ← cof (capture_in_place si_sha256 (unit_tree si_host) m);
  create (cf_adapter config);;
  baseline ← baseline_check capture;
  op (OEvent "run_start");;
  r ← match a_command args with
      | Validate true _ => cof (run_offline (bindings_of config) capture baseline)
      | Validate false _ => on_session (run_validate si_isoformat (bindings_of config) capture baseline)
      | _ => on_session (run_status si_isoformat (bindings_of config) capture)
      end;
  let recovery :=
    match ro_recovery_id r with
    | Some mid => Some (recovery_command args mid (si_text config_path) (si_text manifest_path))
    | None => ro_recovery_command r
    end in
  let r := with_run recovery r in
  op (OEvent "run_end");;
  op (OWrite false ((if a_json args then si_json_dumps (to_payload r) else to_text r) ++ [10%N]));;
  mret (ro_exit_code r).

(** ** Failures and interrupts *)
Definition failure_record (code : Exit) (message : str) (phase migration : option str) : json :=
  JObj [("exit_code", JInt (exit_int code)); ("outcome", JStr (OUTCOME_NAMES code)); ("run_id", JStr run_id);
    ("message", JStr message); ("phase", json_str phase); ("failed_migration", json_str migration)].

(** [of_run]: [run] is given and its exit code is set. *)
(* @src cli.py _render_failure *)
Definition render_failure (code : Exit) (message : str) (phase migration : option str) (of_run : bool) : C E S Exit :=
  let '(out, err) :=
    if a_json args then (si_json_dumps (failure_record code message phase migration) ++ [10%N], [])
    else ([], lines ["error: " ++ message; "run: " ++ run_id]) in
  (if of_run then cmodify (set_exit code) else mret tt);;
  (if of_run then tick else mret tt);;
  write out err;;
  mret code.

(** The error [_interrupt_exit] and [_render_interrupt_once] read from the latch. *)
Definition engine_error (k : Cli E S) : option error := w ← cl_engine k; l_error (w_latch w).

(* @src cli.py _interrupt_exit *)
Definition interrupt_exit (k : Cli E S) : Exit :=
  match recorded_report k with
  | Some r => rp_exit_code r
  | None => match engine_error k with Some e => exit_code e | None => MIGRATION_FAILED end
  end.

(* @src cli.py _render_interrupt_once *)
Definition render_interrupt_once : C E S Exit :=
  k ← cgets id;
  match recorded_report k with
  | Some r => add_recovery_command r;; tick;; render_run_report r
  | None =>
      let '(code, message, phase, migration) :=
        match engine_error k, cl_engine k with
        | Some e, _ => (exit_code e, report e, e_phase e, e_migration_id e)
        | None, Some _ => (MIGRATION_FAILED, "interrupted repeatedly while the run was ending, before it could report", Some "interrupted", None)
        | None, None => (MIGRATION_FAILED, "interrupted before any migration work began", Some "interrupted", None)
        end in
      ctry (op (OEvent "run_end")) (fun x => match x with PyInterrupt => mret tt | _ => craise x end);;
      tick;;
      render_failure code message phase migration true
  end.

(* @src cli.py _render_interrupt *)
Definition render_interrupt : C E S Exit :=
  let attempt (again : C E S Exit) : C E S Exit :=
    ctry (tick;;
          code ← cgets cl_exit;
          match code with Some code => mret code | None => render_interrupt_once end)
         (fun x => match x with PyInterrupt => again | _ => craise x end) in
  attempt (attempt (k ← cgets id; mret (match cl_exit k with Some code => code | None => interrupt_exit k end))).

(* @src cli.py _open_log *)
Definition open_log : C E S unit :=
  ctry (op OOpenLog)
    (fun x => match x with
              | PyException d => if instance_of "builtins.OSError" d
                                 then craise (PyMigr8 (mk_at UsageError "the run log cannot be opened" "log_setup" None))
                                 else craise x
              | _ => craise x
              end).

(** The command and its handlers. *)
(* @src cli.py 461-495 main (try and except clauses) *)
Definition run_command : C E S Exit :=
  ctry (code ← match a_command args with
               | Migrate recover => do_migrate recover
               | _ => do_readonly
               end;
        tick;; mret code)
    (fun x => match x with
              | PyMigr8 e =>
                  op (OEvent "run_end");;
                  render_failure (exit_code e) (report e) (e_phase e) (e_migration_id e) false
              | PyInterrupt => render_interrupt
              | PyException d =>
                  op (OEvent "run_end");;
                  render_failure USAGE ("unexpected failure (" ++ d_name d ++ ")") (Some "internal_error") None false
              end).

(* @src cli.py 496-504 main (finally clause) *)
Definition close_log : C E S unit := ctry (op OCloseLog) (fun _ => op OWarn).

(** The value returned is the exit code. *)
(* @src cli.py main *)
Definition main : C E S Z :=
  opened ← ctry (open_log;; mret None)
             (fun x => match x with
                       | PyMigr8 e => code ← render_failure (exit_code e) (report e) (e_phase e) None false; mret (Some code)
                       | _ => craise x
                       end);
  match opened with
  | Some code => mret (exit_int code)
  | None => code ← cfinally run_command close_log; mret (exit_int code)
  end.

(** The process before the command. *)
Definition initial_cli (e : E) (s : S) : Cli E S := MkCli e [] s None false None None None.
End cli.
