(* ===== verification/Terminal.v ===== *)
(** * What the process returns

    The exit code of [migrate] against the outcome of the run it made, whatever
    interrupts arrive. *)
From S2P Require Import Prelude PyStr Text Errors Latch Paths Manifest Model Fingerprint SqlText Admission Checks World Adapter Context Engine.
From S2P Require Import History Safety Outcome Durable Staging Sources Config Reporting ReadOnly Cli.
Open Scope str_scope.

(** ** Triples of the command's monad *)
Section hoare.
Context {E S : Type} {SH : Shell E}.
Implicit Types P : Cli E S -> Prop.

Definition hoare {A} P (m : C E S A) (Q : A -> Cli E S -> Prop) (X : pyexn -> Cli E S -> Prop) : Prop :=
  forall k, P k -> match m k with (k', Ok a) => Q a k' | (k', Err x) => X x k' end.

Lemma hoare_bind {A B} P (m : C E S A) (f : A -> C E S B) R Q X :
  hoare P m R X -> (forall a, hoare (R a) (f a) Q X) -> hoare P (m ≫= f) Q X.
Proof.
  intros Hm Hf k Hk. specialize (Hm k Hk). unfold mbind, C_bind. destruct (m k) as [k' [a|x]]; [by apply Hf|done].
Qed.

Lemma hoare_conseq {A} P P' (m : C E S A) Q Q' X X' :
  hoare P m Q X -> (forall k, P' k -> P k) -> (forall a k, Q a k -> Q' a k) -> (forall x k, X x k -> X' x k) -> hoare P' m Q' X'.
Proof. intros Hm HP HQ HX k Hk. specialize (Hm k (HP k Hk)). destruct (m k) as [k' [a|x]]; auto. Qed.

Lemma hoare_ret {A} (a : A) Q X : hoare (Q a) (mret a) Q X.
Proof. by intros k Hk. Qed.

Lemma hoare_raise {A} x (Q : A -> Cli E S -> Prop) X : hoare (X x) (craise x) Q X.
Proof. by intros k Hk. Qed.

Lemma hoare_of {A} P (r : result pyexn A) (Q : A -> Cli E S -> Prop) X :
  (forall a, r = Ok a -> forall k, P k -> Q a k) -> (forall x, r = Err x -> forall k, P k -> X x k) -> hoare P (cof r) Q X.
Proof. intros Ha Hx k Hk. unfold cof. destruct r; auto. Qed.

Lemma hoare_gets {A} (f : Cli E S -> A) P X : hoare P (cgets f) (fun a k => P k /\ a = f k) X.
Proof. by intros k Hk. Qed.

Lemma hoare_modify f P X : hoare (fun k => P (f k)) (cmodify f) (fun _ => P) X.
Proof. by intros k Hk. Qed.

Lemma hoare_try {A} P (m : C E S A) h Q X Y :
  hoare P m Q Y -> (forall x, hoare (Y x) (h x) Q X) -> hoare P (ctry m h) Q X.
Proof.
  intros Hm Hh k Hk. specialize (Hm k Hk). unfold ctry. destruct (m k) as [k' [a|x]]; [done|by apply Hh].
Qed.

Lemma hoare_finally {A} P (m : C E S A) f Q X Q' X' :
  hoare P m Q' X' -> (forall a, hoare (Q' a) f (fun _ => Q a) X) -> (forall x, hoare (X' x) f (fun _ => X x) X) ->
  hoare P (cfinally m f) Q X.
Proof.
  intros Hm Ha Hx k Hk. specialize (Hm k Hk). unfold cfinally. destruct (m k) as [k1 [a|x]].
  - specialize (Ha a k1 Hm). by destruct (f k1) as [k2 [[]|y]].
  - specialize (Hx x k1 Hm). by destruct (f k1) as [k2 [[]|y]].
Qed.

(** After a call to the shell. *)
Definition called (o : cliop) (e : E) (k : Cli E S) : Cli E S :=
  MkCli e (o :: cl_calls k) (cl_session k) (cl_engine k) (cl_returned k) (cl_paths k) (cl_recovery k) (cl_exit k).

Lemma hoare_op o P : (forall e k, P k -> P (called o e k)) -> hoare P (op o) (fun _ => P) (fun _ => P).
Proof. intros HP k Hk. unfold op. destruct (sh_step o (cl_env k)) as [e [[]|x]]; by apply HP. Qed.

Lemma hoare_exists {A B} (P : B -> Cli E S -> Prop) (m : C E S A) Q X :
  (forall b, hoare (P b) m Q X) -> hoare (fun k => exists b, P b k) m Q X.
Proof. intros H k (b & Hk). by apply (H b). Qed.

Lemma hoare_pure {A} (p : Prop) P (m : C E S A) Q X : (p -> hoare P m Q X) -> hoare (fun k => p /\ P k) m Q X.
Proof. intros H k [Hp Hk]. by apply H. Qed.

(** A computation that keeps [P] however it ends. *)
Definition preserves {A} P (m : C E S A) : Prop := hoare P m (fun _ => P) (fun _ => P).

Lemma preserves_bind {A B} P (m : C E S A) (f : A -> C E S B) :
  preserves P m -> (forall a, preserves P (f a)) -> preserves P (m ≫= f).
Proof. intros Hm Hf. by eapply hoare_bind. Qed.

Lemma preserves_try {A} P (m : C E S A) h : preserves P m -> (forall x, preserves P (h x)) -> preserves P (ctry m h).
Proof. intros Hm Hh. by eapply hoare_try. Qed.

Lemma preserves_ret {A} P (a : A) : preserves P (mret a).
Proof. by intros k Hk. Qed.

Lemma preserves_raise {A} P x : preserves P (craise (A := A) x).
Proof. by intros k Hk. Qed.

Lemma preserves_of {A} P (r : result pyexn A) : preserves P (cof r).
Proof. apply hoare_of; auto. Qed.

Lemma preserves_gets {A} P (f : Cli E S -> A) : preserves P (cgets f).
Proof. by intros k Hk. Qed.

(** Calls of the shell that raise nothing but interrupts. *)
Definition calm_call (o : cliop) : Prop := forall (e : E) x, (sh_step o e).2 = Err x -> x = PyInterrupt.

Lemma hoare_calm o P : calm_call o -> (forall e k, P k -> P (called o e k)) ->
  hoare P (op o) (fun _ => P) (fun x k => x = PyInterrupt /\ P k).
Proof.
  intros Hc HP k Hk. unfold op. specialize (Hc (cl_env k)). destruct (sh_step o (cl_env k)) as [e [[]|x]]; [by apply HP|].
  split; [by apply Hc|by apply HP].
Qed.
End hoare.

(** ** The outcome of [migrate] *)

(** The streams written to, the latest first. *)
Definition stream_of (o : cliop) : option bool := match o with OWrite is_err _ => Some is_err | _ => None end.
Definition writes {E S} (k : Cli E S) : list bool := omap stream_of (cl_calls k).

(** Ending the command raises nothing but interrupts. *)
Definition settling (o : cliop) : bool :=
  match o with OTick | OCleanup | OWarn | OWrite _ _ => true | _ => false end.

Section terminal.
Context {E S : Type} {SH : Shell E} {SI : Site} {DR : Driver S} {UC : Unicode} {I : Interpreter} {D : Dialect} {H : Host}
  {L : Loader} {DF : Deferred}.
Context (bindings_of : Config -> bindings) (runner : RunnerInfo) (run_id : str) (args : Args) (s : S) (recover : option str).
Context (Hheld : forall s : S, is_ok (drv_step RConnectionHeld s).2 = true).
Context (Hcalm : forall o, settling o = true -> calm_call (E := E) o).
Implicit Types k : Cli E S.
Implicit Types w wf : World S.

Definition config_path : path := si_resolve (a_config args) DEFAULT_CONFIG_NAME.
Definition manifest_path : path := si_resolve (a_manifest args) DEFAULT_MANIFEST_NAME.

(** [config] is what the configuration file says. *)
Definition configured (config : Config) : Prop :=
  exists content, si_read config_path = Some content /\
    load_config si_utf8 si_toml (h_realpath si_host) (h_is_file si_host) config_path content = Ok config.

(** [wf] is the end of an engine's run on the session, with the configuration and
    over the staged manifest that the arguments name. *)
Definition launched wf : Prop :=
  exists config m capture,
    configured config /\
    load si_utf8 si_toml si_host manifest_path (si_read manifest_path) = Ok m /\
    stage si_sha256 (unit_tree si_host) m = Ok capture /\
    wf = (run (bindings_of config) capture recover (initial_world s runner)).1.

(** No run has an outcome; nothing says success. *)
Definition idle k : Prop :=
  cl_session k = s /\ cl_returned k = false /\ (forall w, cl_engine k = Some w -> w_reported w = false) /\ cl_exit k <> Some OK.

(** The command holds the outcome of [wf], which may have gained warnings. *)
Definition holds_run wf k : Prop :=
  exists w, cl_engine k = Some w /\ w_reported w = true /\ w_driver w = w_driver wf /\
    rp_exit_code (w_report w) = rp_exit_code (w_report wf).

(** Before the result is written, and from the moment it is. *)
Definition fresh wf k : Prop := launched wf /\ holds_run wf k /\ cl_exit k = None /\ writes k = [].
Definition decided wf k : Prop :=
  launched wf /\ holds_run wf k /\ cl_exit k = Some (rp_exit_code (w_report wf)) /\ NoDup (writes k).
Definition around wf k : Prop := fresh wf k \/ decided wf k.

Lemma idle_unrecorded k : idle k -> recorded_report k = None.
Proof.
  intros (_ & Hr & He & _). unfold recorded_report. rewrite Hr. destruct (cl_engine k) as [w|]; [|done].
  by rewrite (He w).
Qed.

Lemma idle_called o e k : idle k -> idle (called o e k).
Proof. done. Qed.

Lemma fresh_called wf o e k : stream_of o = None -> fresh wf k -> fresh wf (called o e k).
Proof. intros Ho (H1 & H2 & H3 & H4). split_and!; try done. unfold writes. simpl. by rewrite Ho. Qed.

Lemma decided_called wf o e k : stream_of o = None -> decided wf k -> decided wf (called o e k).
Proof. intros Ho (H1 & H2 & H3 & H4). split_and!; try done. unfold writes. simpl. by rewrite Ho. Qed.

Lemma around_called wf o e k : stream_of o = None -> around wf k -> around wf (called o e k).
Proof. intros Ho [Hk|Hk]; [left; by apply fresh_called|right; by apply decided_called]. Qed.

(** *** Before the run *)
Lemma idle_op o : preserves idle (op o).
Proof. apply hoare_op. intros e k. apply idle_called. Qed.

(** Nothing decided or written yet. *)
Definition untouched k : Prop := idle k /\ cl_exit k = None /\ writes k = [].

Lemma untouched_op o : stream_of o = None -> preserves untouched (op o).
Proof. intros Ho. apply hoare_op. intros e k (H1 & H2 & H3). split_and!; try done. unfold writes. simpl. by rewrite Ho. Qed.

Ltac preserving :=
  repeat first
    [ apply idle_op | by apply untouched_op | apply preserves_of | apply preserves_ret | apply preserves_raise | apply preserves_gets
    | apply preserves_bind; [|intros ?] | apply preserves_try; [|intros ?]
    | match goal with
      | |- preserves _ (let '(_, _) := ?x in _) => destruct x
      | |- preserves _ (match ?x with _ => _ end) => destruct x eqn:?
      end ].

Lemma load_inputs_says :
  hoare untouched (load_inputs args) (fun r k => (configured r.1.1 /\ r.2 = manifest_path) /\ untouched k) (fun _ => idle).
Proof.
  unfold load_inputs, resolve. intros k Hk. pose proof (proj1 Hk) as Hi.
  unfold mbind, C_bind, mret, C_ret, cof. fold config_path manifest_path.
  destruct (lift (raise_if (negb (h_is_file si_host config_path)) _)); [|done].
  destruct (lift (raise_if (negb (h_is_file si_host manifest_path)) _)); [|done].
  destruct (si_read config_path) as [content|] eqn:Hread; [|done].
  destruct (load_config _ _ _ _ _ _) as [config|] eqn:Hconfig; [|done]. split; [|done]. split; [|done]. by exists content.
Qed.

Lemma untouched_create name : preserves untouched (create name).
Proof. unfold create. preserving. Qed.

Lemma stage_units_staged m :
  hoare untouched (stage_units m) (fun c k => stage si_sha256 (unit_tree si_host) m = Ok c /\ untouched k) (fun _ => idle).
Proof.
  unfold stage_units. eapply hoare_bind; [eapply hoare_conseq; [by apply (untouched_op OMakeTemp)|by auto|by auto|by intros ? ? []]|intros ?].
  eapply hoare_try with (Y := fun _ => untouched).
  - eapply hoare_bind; [by apply untouched_op|intros ?]. by apply hoare_of; [|by intros].
  - intros x. eapply hoare_bind; [eapply hoare_conseq; [by apply (untouched_op OCleanup)|by auto|by auto|by intros ? ? []]|intros ?].
    by intros k [].
Qed.

Lemma idle_write out err : preserves idle (write out err).
Proof. unfold write. preserving. Qed.

Lemma idle_set_exit code : code <> OK -> preserves idle (cmodify (set_exit code)).
Proof. intros Hc k (H1 & H2 & H3 & H4). split_and!; [done..|]. simpl. congruence. Qed.

Lemma idle_render_failure code message phase migration of_run :
  code <> OK -> hoare idle (render_failure run_id args code message phase migration of_run) (fun c k => c <> OK /\ idle k) (fun _ => idle).
Proof.
  intros Hc. unfold render_failure. destruct (if a_json args then _ else _) as [out err].
  eapply hoare_bind; [destruct of_run; [by apply idle_set_exit|apply preserves_ret]|intros ?].
  eapply hoare_bind; [destruct of_run; [apply idle_op|apply preserves_ret]|intros ?].
  eapply hoare_bind; [apply idle_write|intros ?]. by intros k Hk.
Qed.

Lemma idle_cleanup_staging : preserves idle cleanup_staging.
Proof.
  unfold cleanup_staging, cleanup_attempts. eapply hoare_bind; [apply preserves_gets|intros [w|]]; [|apply idle_op].
  apply preserves_bind; [preserving|intros []]; [apply preserves_ret|].
  apply preserves_bind; [apply idle_op|intros ?].
  eapply (hoare_bind _ _ _ (fun k' k => idle k /\ k' = k)); [by intros k Hk|]. intros k' k [Hk ->].
  by rewrite (idle_unrecorded k Hk).
Qed.

(** An engine that was never run has no latched error and no outcome. *)
Lemma idle_interrupt_exit k : idle k -> interrupt_exit k <> OK.
Proof.
  intros Hk. unfold interrupt_exit. rewrite (idle_unrecorded k Hk). destruct (engine_error k); [apply exit_code_not_OK|done].
Qed.

(** *** The run *)
Lemma idle_run_engine config m capture :
  configured config ->
  load si_utf8 si_toml si_host manifest_path (si_read manifest_path) = Ok m ->
  stage si_sha256 (unit_tree si_host) m = Ok capture ->
  hoare untouched (run_engine bindings_of runner config capture recover)
    (fun _ k => exists wf, fresh wf k)
    (fun x k => idle k \/ (x = PyInterrupt /\ exists wf, fresh wf k)).
Proof.
  intros Hconfig Hload Hstage. unfold run_engine.
  eapply (hoare_bind _ _ _ (fun session k => session = s /\ untouched k)).
  { intros k (Hk & Hx & Hw). split; [apply Hk|done]. }
  intros session. apply hoare_pure. intros ->.
  eapply (hoare_bind _ _ _ (fun _ => untouched)).
  { intros k ((H1 & H2 & H3 & H4) & Hx & Hw). split; [|done]. split_and!; try done. by intros w [= <-]. }
  intros _. eapply (hoare_bind _ _ _ (fun _ => untouched)).
  { eapply hoare_conseq; [apply (untouched_op OTick)|..]; try done. intros x k [Hk _]. by left. }
  intros _. eapply (hoare_bind _ _ _ (fun _ k => exists wf, fresh wf k)).
  { intros k (Hk & Hx & Hw).
    pose proof (run_ended (bindings_of config) capture recover Hheld s runner) as Hend.
    destruct (run (bindings_of config) capture recover (initial_world s runner)) as [wf r] eqn:Hrun. destruct Hend as [-> Hend].
    exists wf. split_and!; [|exists wf|done|done].
    - exists config, m, capture. by rewrite Hrun.
    - split_and!; try done. destruct Hend as [? ? _ _ _ (_ & _ & ?)|(e & l & [Hrep _ _ _ _] & _)]; done. }
  intros _. apply hoare_exists. intros wf. eapply (hoare_bind _ _ _ (fun _ => fresh wf)).
  { eapply hoare_conseq; [apply (hoare_calm OTick (fresh wf)); [by apply Hcalm|by intros; apply fresh_called]|..]; try done.
    intros x k [-> Hk]. right. eauto. }
  intros _ k Hk. exists wf. exact Hk.
Qed.

(** *** After the run *)
Lemma hoare_tick P : (forall e k, P k -> P (called OTick e k)) ->
  hoare P tick (fun _ => P) (fun x k => x = PyInterrupt /\ P k).
Proof. by apply hoare_calm, Hcalm. Qed.

(** A warning changes neither the outcome nor the database. *)
Lemma fresh_warned wf w warning k : cl_engine k = Some w -> fresh wf k -> fresh wf (set_engine (add_run_warning warning w) k).
Proof.
  intros Hw (H1 & (w' & Hw' & Hr & Hd & Hc) & H3). simplify_eq. split_and!; try done; [|by destruct H3..].
  exists (add_run_warning warning w). by split_and!.
Qed.

Lemma fresh_recorded wf k : fresh wf k -> exists w, cl_engine k = Some w /\ recorded_report k = Some (w_report w) /\
  rp_exit_code (w_report w) = rp_exit_code (w_report wf).
Proof.
  intros (_ & (w & Hw & Hr & _ & Hc) & _). exists w. split_and!; [done| |done]. unfold recorded_report.
  by rewrite Hw, Hr, orb_true_r.
Qed.

Lemma fresh_cleanup_attempts wf : hoare (fresh wf) cleanup_attempts (fun _ => fresh wf) (fun _ _ => False).
Proof.
  assert (forall again, hoare (fresh wf) again (fun _ => fresh wf) (fun _ _ => False) ->
    hoare (fresh wf) (ctry (op OCleanup;; mret true) (fun x => match x with PyInterrupt => again | _ => craise x end))
      (fun _ => fresh wf) (fun _ _ => False)) as Hattempt.
  { intros again Hagain. eapply hoare_try with (Y := fun x k => x = PyInterrupt /\ fresh wf k).
    - eapply hoare_bind; [apply hoare_calm; [by apply Hcalm|by intros; apply fresh_called]|intros ?]. by intros k Hk.
    - intros x. apply hoare_pure. by intros ->. }
  unfold cleanup_attempts. do 2 apply Hattempt. by intros k Hk.
Qed.

Lemma fresh_cleanup wf : hoare (fresh wf) cleanup_staging (fun _ => fresh wf) (fun x k => x = PyInterrupt /\ fresh wf k).
Proof.
  unfold cleanup_staging. eapply (hoare_bind _ _ _ (fun engine k => engine <> None /\ fresh wf k)).
  { intros k Hk. split; [|done]. destruct Hk as (_ & (w & -> & _) & _). done. }
  intros [w|]; apply hoare_pure; [intros _|done].
  eapply hoare_bind; [eapply hoare_conseq; [apply fresh_cleanup_attempts|by auto|by auto|by intros ? ? []]|intros removed].
  destruct removed; [by intros k Hk|].
  eapply hoare_bind; [apply hoare_calm; [by apply Hcalm|by intros; apply fresh_called]|intros ?].
  eapply (hoare_bind _ _ _ (fun k' k => fresh wf k /\ k' = k)); [by intros k Hk|]. intros k' k [Hk ->].
  destruct (fresh_recorded wf k Hk) as (w' & Hw' & -> & _). rewrite Hw'. by apply fresh_warned.
Qed.

#[local] Ltac ending Hp := match type of Hp with match ?m with _ => _ end => destruct m as [? [[]|?]] end; tauto.

(** The result is written once, to each stream. *)
Lemma decided_write wf out err :
  hoare (fun k => decided wf k /\ writes k = []) (write out err) (fun _ => decided wf) (fun _ _ => False).
Proof.
  assert (forall b text l, ~ b ∈ l -> NoDup l ->
    hoare (fun k => decided wf k /\ writes k = l) (match text with [] => mret tt | _ => op (OWrite b text) end)
      (fun _ k => decided wf k /\ (writes k = l \/ writes k = b :: l)) (fun x k => x = PyInterrupt /\ decided wf k)) as Hput.
  { intros b text l Hb Hl. destruct text as [|c text]; [intros k [Hk Hw]; split; auto|].
    eapply hoare_conseq with (P := fun k => decided wf k /\ writes k = l)
      (Q := fun _ k => decided wf k /\ writes k = b :: l) (X := fun x k => x = PyInterrupt /\ decided wf k).
    2-4: try (intros; tauto).
    intros k [(H1 & H2 & H3 & H4) Hw]. pose proof (Hcalm (OWrite b (c :: text)) eq_refl (cl_env k)) as Hc. unfold op.
    assert (NoDup (b :: writes k)) as Hnd by (rewrite Hw; by constructor).
    destruct (sh_step _ _) as [e [[]|x]]; [|split; [by apply Hc|by split_and!]].
    split; [by split_and!|]. by rewrite <-Hw. }
  unfold write. eapply hoare_try with (Y := fun x k => x = PyInterrupt /\ decided wf k).
  - eapply hoare_bind; [apply (Hput false out []); [set_solver|constructor]|intros ?]. intros k [Hk [Hw|Hw]].
    + pose proof (Hput true err [] ltac:(set_solver) ltac:(constructor) k (conj Hk Hw)) as Hp.
      ending Hp.
    + pose proof (Hput true err [false] ltac:(set_solver) ltac:(repeat constructor; set_solver) k (conj Hk Hw)) as Hp.
      ending Hp.
  - intros x. apply hoare_pure. intros ->. by intros k Hk.
Qed.

Lemma decided_set_exit wf k : fresh wf k -> decided wf (set_exit (rp_exit_code (w_report wf)) k) /\ writes (set_exit (rp_exit_code (w_report wf)) k) = [].
Proof. intros (H1 & H2 & H3 & H4). split; [|done]. split_and!; try done. unfold writes in *. simpl. rewrite H4. constructor. Qed.

Lemma fresh_render wf r : rp_exit_code r = rp_exit_code (w_report wf) ->
  hoare (fresh wf) (render_run_report run_id args r) (fun c k => c = rp_exit_code (w_report wf) /\ decided wf k)
    (fun x k => x = PyInterrupt /\ around wf k).
Proof.
  intros Hr. unfold render_run_report. rewrite Hr. eapply (hoare_bind _ _ _ (fun _ => fresh wf)); [by intros k Hk|intros recovery].
  destruct (format_run_report run_id args recovery r) as [out err].
  eapply hoare_bind; [eapply hoare_conseq; [apply (hoare_tick (fresh wf)); by intros; apply fresh_called|by auto|by auto|unfold around; tauto]|intros ?].
  eapply (hoare_bind _ _ _ (fun _ k => decided wf k /\ writes k = [])); [intros k Hk; by apply decided_set_exit|intros ?].
  eapply hoare_bind; [eapply hoare_conseq; [apply (hoare_tick (fun k => decided wf k /\ writes k = []))|by auto|by auto|unfold around; tauto]|intros ?].
  { intros e k [Hk Hw]. split; [by apply decided_called|done]. }
  eapply hoare_bind; [eapply hoare_conseq; [apply (decided_write wf)|by auto|by auto|by intros ? ? []]|intros ?].
  eapply hoare_bind; [eapply hoare_conseq; [apply (hoare_tick (decided wf)); by intros; apply decided_called|by auto|by auto|unfold around; tauto]|intros ?].
  by intros k Hk.
Qed.

Lemma fresh_add_recovery wf r : hoare (fresh wf) (add_recovery_command args r) (fun _ => fresh wf) (fun _ _ => False).
Proof.
  unfold add_recovery_command. eapply (hoare_bind _ _ _ (fun _ => fresh wf)); [by intros k Hk|intros paths].
  destruct (rp_recovery_id r), paths as [[? ?]|]; by intros k Hk.
Qed.

(** *** Interrupts that reach the command *)

(** What the command answers: the run's code, or some failure when there was no run. *)
Definition answered (c : Exit) k : Prop :=
  (c <> OK /\ idle k) \/ exists wf, c = rp_exit_code (w_report wf) /\ around wf k.

Lemma around_exit wf k : around wf k ->
  match cl_exit k with Some code => code | None => interrupt_exit k end = rp_exit_code (w_report wf).
Proof.
  intros [Hk|Hk]; [|by destruct Hk as (_ & _ & -> & _)]. destruct (fresh_recorded wf k Hk) as (w & _ & Hr & Hc).
  destruct Hk as (_ & _ & -> & _). unfold interrupt_exit. by rewrite Hr.
Qed.

Lemma idle_exit k : idle k -> match cl_exit k with Some code => code | None => interrupt_exit k end <> OK.
Proof. intros Hk. pose proof (idle_interrupt_exit k Hk). destruct Hk as (_ & _ & _ & Hx). destruct (cl_exit k); naive_solver. Qed.

Lemma fresh_render_once wf :
  hoare (fresh wf) (render_interrupt_once run_id args) (fun c k => c = rp_exit_code (w_report wf) /\ decided wf k)
    (fun x k => x = PyInterrupt /\ around wf k).
Proof.
  unfold render_interrupt_once. eapply (hoare_bind _ _ _ (fun k' k => fresh wf k /\ k' = k)); [by intros k Hk|].
  intros k' k [Hk ->]. destruct (fresh_recorded wf k Hk) as (w & _ & -> & Hc). revert k Hk.
  change (hoare (fresh wf) (add_recovery_command args (w_report w);; tick;; render_run_report run_id args (w_report w))
    (fun c k => c = rp_exit_code (w_report wf) /\ decided wf k) (fun x k => x = PyInterrupt /\ around wf k)).
  eapply hoare_bind; [eapply hoare_conseq; [apply (fresh_add_recovery wf)|by auto|by auto|by intros ? ? []]|intros ?].
  eapply hoare_bind; [eapply hoare_conseq; [apply (hoare_tick (fresh wf)); by intros; apply fresh_called|by auto|by auto|unfold around; tauto]|intros ?].
  by apply fresh_render.
Qed.

Lemma idle_render_once : hoare idle (render_interrupt_once run_id args) (fun c k => c <> OK /\ idle k) (fun _ => idle).
Proof.
  unfold render_interrupt_once. eapply (hoare_bind _ _ _ (fun k' k => idle k /\ k' = k)); [by intros k Hk|].
  intros k' k [Hk ->]. rewrite (idle_unrecorded k Hk).
  assert (forall code message phase migration, code <> OK -> hoare idle
    (ctry (op (OEvent "run_end")) (fun x => match x with PyInterrupt => mret tt | _ => craise x end);;
     tick;; render_failure run_id args code message phase migration true) (fun c k => c <> OK /\ idle k) (fun _ => idle)) as Hgen.
  { intros code message phase migration Hc. eapply hoare_bind; [apply (preserves_try idle); [apply idle_op|intros []; preserving]|intros ?].
    eapply hoare_bind; [apply idle_op|intros ?]. by apply idle_render_failure. }
  destruct (engine_error k) as [e|]; [by apply Hgen; [apply exit_code_not_OK|]|]. by destruct (cl_engine k); apply Hgen.
Qed.

(** Any number of interrupts later, the answer is the one the run reached. *)
Lemma around_interrupt wf :
  hoare (around wf) (render_interrupt run_id args) (fun c k => c = rp_exit_code (w_report wf) /\ around wf k) (fun _ _ => False).
Proof.
  set (Q := fun c k => c = rp_exit_code (w_report wf) /\ around wf k).
  assert (forall again, hoare (around wf) again Q (fun _ _ => False) -> hoare (around wf)
    (ctry (tick;; code ← cgets cl_exit; match code with Some code => mret code | None => render_interrupt_once run_id args end)
       (fun x => match x with PyInterrupt => again | _ => craise x end)) Q (fun _ _ => False)) as Hattempt.
  { intros again Hagain. eapply hoare_try with (Y := fun x k => x = PyInterrupt /\ around wf k).
    - eapply hoare_bind; [apply (hoare_tick (around wf)); by intros; apply around_called|intros ?].
      intros k [Hk|Hk].
      + pose proof Hk as (_ & _ & Hx & _). unfold mbind, C_bind, cgets. rewrite Hx. pose proof (fresh_render_once wf k Hk) as Hr.
        destruct (render_interrupt_once run_id args k) as [k' [c|x]]; [|done]. destruct Hr. split; [done|by right].
      + pose proof Hk as (_ & _ & Hx & _). unfold mbind, C_bind, cgets. rewrite Hx. split; [done|by right].
    - intros x. apply hoare_pure. by intros ->. }
  unfold render_interrupt. do 2 apply Hattempt. intros k Hk. split; [by apply around_exit|done].
Qed.

Lemma idle_interrupt : hoare idle (render_interrupt run_id args) (fun c k => c <> OK /\ idle k) (fun _ => idle).
Proof.
  set (Q := fun c k => c <> OK /\ idle k).
  assert (forall again, hoare idle again Q (fun _ => idle) -> hoare idle
    (ctry (tick;; code ← cgets cl_exit; match code with Some code => mret code | None => render_interrupt_once run_id args end)
       (fun x => match x with PyInterrupt => again | _ => craise x end)) Q (fun _ => idle)) as Hattempt.
  { intros again Hagain. eapply hoare_try with (Y := fun _ => idle).
    - eapply hoare_bind; [apply idle_op|intros ?]. intros k Hk. unfold mbind, C_bind, cgets.
      destruct (cl_exit k) as [c|] eqn:Hx; [|by apply idle_render_once]. split; [|done].
      destruct Hk as (_ & _ & _ & Hne). congruence.
    - intros []; try done; by intros k Hk. }
  unfold render_interrupt. do 2 apply Hattempt. intros k Hk. split; [by apply idle_exit|done].
Qed.

(** *** The command *)
Lemma migrate_decides :
  hoare untouched (do_migrate bindings_of runner run_id args recover)
    (fun c k => exists wf, c = rp_exit_code (w_report wf) /\ around wf k)
    (fun x k => idle k \/ (x = PyInterrupt /\ exists wf, around wf k)).
Proof.
  set (X := fun (x : pyexn) k => idle k \/ (x = PyInterrupt /\ exists wf, around wf k)).
  assert (forall A (m : C E S A), preserves untouched m -> hoare untouched m (fun _ => untouched) X) as Hpre.
  { intros A m Hm. eapply hoare_conseq; [exact Hm|by auto|by auto|intros x k [Hk _]; by left]. }
  assert (forall wf, hoare (fresh wf) tick (fun _ => fresh wf) X) as Htick.
  { intros wf. eapply hoare_conseq; [apply (hoare_tick (fresh wf)); by intros; apply fresh_called|by auto|by auto|].
    intros x k [-> Hk]. right. split; [done|]. exists wf. by left. }
  unfold do_migrate. eapply hoare_bind; [eapply hoare_conseq; [apply load_inputs_says|by auto|by auto|by left]|intros [[config ?] ?]].
  apply hoare_pure. simpl. intros [Hconfig ->].
  eapply hoare_bind; [apply Hpre; by intros k (Hk & ? & ?)|intros ?].
  eapply (hoare_bind _ _ _ (fun m k => load si_utf8 si_toml si_host manifest_path (si_read manifest_path) = Ok m /\ untouched k)).
  { apply hoare_of; [by intros|]. intros x _ k [Hk _]. by left. }
  intros m. apply hoare_pure. intros Hload.
  eapply hoare_bind; [apply Hpre, untouched_create|intros ?]. eapply hoare_bind; [by apply Hpre, untouched_op|intros ?].
  eapply (hoare_bind _ _ _ (fun c k => stage si_sha256 (unit_tree si_host) m = Ok c /\ untouched k)).
  { eapply hoare_conseq; [apply stage_units_staged|by auto|by auto|by left]. }
  intros capture. apply hoare_pure. intros Hstage.
  eapply (hoare_bind _ _ _ (fun _ k => exists wf, fresh wf k)).
  { eapply hoare_finally with (Q' := fun _ k => exists wf, fresh wf k) (X' := fun x k => idle k \/ (x = PyInterrupt /\ exists wf, fresh wf k)).
    - eapply hoare_bind; [eapply hoare_conseq; [by apply (untouched_op OTick)|by auto|by auto|intros x k [Hk _]; by left]|intros ?].
      by eapply idle_run_engine.
    - intros _. apply hoare_exists. intros wf. eapply hoare_conseq; [apply (fresh_cleanup wf)|by auto|intros ? ? ?; by exists wf|].
      intros x k [-> Hk]. right. split; [done|]. exists wf. by left.
    - intros x k [Hk|[-> [wf Hk]]].
      + pose proof (idle_cleanup_staging k Hk) as Hc. unfold X. destruct (cleanup_staging k) as [k' [[]|y]]; by left.
      + pose proof (fresh_cleanup wf k Hk) as Hc. unfold X, around. destruct (cleanup_staging k) as [k' [[]|y]]; naive_solver. }
  intros _. apply hoare_exists. intros wf. eapply hoare_bind; [apply Htick|intros ?].
  eapply (hoare_bind _ _ _ (fun k' k => fresh wf k /\ k' = k)); [by intros k Hk|]. intros k' k [Hk ->].
  destruct (fresh_recorded wf k Hk) as (w & -> & _ & Hc). revert k Hk.
  change (hoare (fresh wf) (add_recovery_command args (w_report w);; tick;; render_run_report run_id args (w_report w))
    (fun c k => exists wf, c = rp_exit_code (w_report wf) /\ around wf k) X).
  eapply hoare_bind; [eapply hoare_conseq; [apply (fresh_add_recovery wf)|by auto|by auto|by intros ? ? []]|intros ?].
  eapply hoare_bind; [apply Htick|intros ?].
  eapply hoare_conseq; [by apply (fresh_render wf (w_report w))|by auto| |].
  - intros c k [-> Hk]. exists wf. split; [done|by right].
  - intros x k [-> Hk]. right. eauto.
Qed.

Lemma command_answers : a_command args = Migrate recover ->
  hoare untouched (run_command bindings_of runner run_id args) answered (fun _ => idle).
Proof.
  intros Hcmd. unfold run_command. rewrite Hcmd.
  eapply hoare_try with (Y := fun x k => idle k \/ (x = PyInterrupt /\ exists wf, around wf k)).
  - eapply hoare_bind; [apply migrate_decides|intros c]. apply hoare_exists. intros wf. apply hoare_pure. intros ->.
    eapply hoare_bind; [eapply hoare_conseq; [apply (hoare_tick (around wf)); by intros; apply around_called|by auto|by auto|]|intros ?].
    + intros x k [-> Hk]. right. eauto.
    + intros k Hk. right. eauto.
  - assert (forall code message phase migration, code <> OK -> hoare idle
      (op (OEvent "run_end");; render_failure run_id args code message phase migration false) answered (fun _ => idle)) as Hfail.
    { intros code message phase migration Hc. eapply hoare_bind; [apply idle_op|intros ?].
      eapply hoare_conseq; [by apply idle_render_failure|by auto| |by auto]. intros c k Hk. by left. }
    intros [e|d|] k [Hk|[Hx [wf Hk]]]; try done.
    + by apply Hfail; [apply exit_code_not_OK|].
    + by apply Hfail.
    + pose proof (idle_interrupt k Hk) as Hi. destruct (render_interrupt run_id args k) as [k' [c|x]]; [by left|done].
    + pose proof (around_interrupt wf k Hk) as Hi. destruct (render_interrupt run_id args k) as [k' [c|x]]; [right; eauto|done].
Qed.

Lemma hoare_log P Q : (forall o e k, stream_of o = None -> P k -> Q (called o e k)) ->
  (forall o e k, stream_of o = None -> Q k -> Q (called o e k)) ->
  hoare P close_log (fun _ => Q) (fun x k => x = PyInterrupt /\ Q k /\ exists rest, cl_calls k = OWarn :: OCloseLog :: rest).
Proof.
  intros HP HQ k Hk. unfold close_log, ctry, op. destruct (sh_step OCloseLog (cl_env k)) as [e [[]|x]]; [by apply (HP OCloseLog)|].
  simpl. pose proof (Hcalm OWarn eq_refl e) as Hc. destruct (sh_step OWarn e) as [e' [[]|y]]; simpl in *.
  - by apply (HQ OWarn e' (called OCloseLog e k)), HP.
  - split_and!; [by apply Hc|by apply (HQ OWarn e' (called OCloseLog e k)), HP|by eexists].
Qed.

(** How the process ends: there was no run and it does not say success; or it gives
    the run's exit code, each stream written at most once; or, the result written,
    it was interrupted both in closing its log and in saying so. *)
Definition ends_well k (r : result pyexn Z) : Prop :=
  (recorded_report k = None /\ r <> Ok (exit_int OK)) \/
  exists wf, launched wf /\ holds_run wf k /\ NoDup (writes k) /\
    (r = Ok (exit_int (rp_exit_code (w_report wf))) \/
     (r = Err PyInterrupt /\ exists rest, cl_calls k = OWarn :: OCloseLog :: rest)).

Lemma exit_int_inj c d : exit_int c = exit_int d -> c = d.
Proof. intros Heq. apply (f_equal Exit_of_int) in Heq. rewrite !Exit_of_int_code in Heq. congruence. Qed.

Lemma around_parts wf k : around wf k -> launched wf /\ holds_run wf k /\ NoDup (writes k).
Proof. intros [(H1 & H2 & _ & Hw)|(H1 & H2 & _ & Hw)]; split_and!; try done. rewrite Hw. constructor. Qed.

Lemma answered_log : a_command args = Migrate recover ->
  hoare untouched (cfinally (run_command bindings_of runner run_id args) close_log)
    (fun c k => ends_well k (Ok (exit_int c))) (fun x k => ends_well k (Err x)).
Proof.
  intros Hcmd k Hk. pose proof (command_answers Hcmd k Hk) as Ha. unfold cfinally.
  destruct (run_command bindings_of runner run_id args k) as [k1 [c|x]].
  - destruct Ha as [[Hc Hi]|[wf [-> Ha]]].
    + pose proof (hoare_log idle idle (fun _ _ _ _ H => H) (fun _ _ _ _ H => H) k1 Hi) as Hl.
      destruct (close_log k1) as [k2 [[]|y]]; left; (split; [apply idle_unrecorded; tauto|]); [|done].
      intros [= Heq]. apply (exit_int_inj c OK) in Heq. done.
    + pose proof (hoare_log (around wf) (around wf) (fun o e k => around_called wf o e k) (fun o e k => around_called wf o e k) k1 Ha) as Hl.
      destruct (close_log k1) as [k2 [[]|y]]; right; exists wf.
      * destruct (around_parts wf k2 Hl) as (? & ? & ?). split_and!; try done. by left.
      * destruct Hl as (-> & Hl & Hrest). destruct (around_parts wf k2 Hl) as (? & ? & ?). split_and!; try done. by right.
  - pose proof (hoare_log idle idle (fun _ _ _ _ H => H) (fun _ _ _ _ H => H) k1 Ha) as Hl.
    destruct (close_log k1) as [k2 [[]|y]]; left; (split; [apply idle_unrecorded; tauto|done]).
Qed.

Lemma main_ends (e : E) : a_command args = Migrate recover ->
  ends_well (main bindings_of runner run_id args (initial_cli e s)).1 (main bindings_of runner run_id args (initial_cli e s)).2.
Proof.
  intros Hcmd. cut (hoare untouched (main bindings_of runner run_id args) (fun z k => ends_well k (Ok z)) (fun x k => ends_well k (Err x))).
  { intros Hm. specialize (Hm (initial_cli e s)). destruct (main _ _ _ _ _) as [k [z|x]]; by apply Hm. }
  unfold main. eapply (hoare_bind _ _ _ (fun o k => match o with Some c => c <> OK /\ idle k | None => untouched k end)).
  - eapply hoare_try with (Y := fun _ => untouched).
    + eapply hoare_bind; [|intros ? k Hk; exact Hk].
      unfold open_log. apply (preserves_try untouched); [by apply untouched_op|intros x]. preserving.
    + intros x k Hk. assert (idle k) as Hi by apply Hk. destruct x as [e0|d|]; [|left; split; [by apply idle_unrecorded|done]..].
      pose proof (idle_render_failure (exit_code e0) (report e0) (e_phase e0) None false (exit_code_not_OK e0) k Hi) as Hf.
      unfold mbind, C_bind. destruct (render_failure _ _ _ _ _ _ _ _) as [k' [c|y]]; [done|].
      left. split; [by apply idle_unrecorded|done].
  - intros [c|].
    + intros k [Hc Hk]. left. split; [by apply idle_unrecorded|]. intros [= Heq]. by apply (exit_int_inj c OK) in Heq.
    + eapply hoare_bind; [by apply answered_log|intros c]. by intros k Hk.
Qed.
End terminal.


(** C6: exit code 0 means the database is where the manifest wants it. When [migrate],
    from the files to the exit of the process, returns 0, the manifest was loaded
    and staged, and in the committed record of the engine's session every
    migration of the manifest has its successful row, in order, with its
    fingerprint; nothing is ACTIVE and no progress is left. *)
Theorem exit_zero_complete {E S : Type} {SH : Shell E} {SI : Site} {DR : Driver S} {ST : Storage S} {LAWS : StorageLaws S} {UC : Unicode}
    {I : Interpreter} {D : Dialect} {H : Host} {L : Loader} {DF : Deferred} bindings_of runner run_id args (e : E) (s : S) recover
    (Hheld : forall s : S, is_ok (drv_step RConnectionHeld s).2 = true)
    (Hcalm : forall o, settling o = true -> calm_call (E := E) o)
    (Hcommand : a_command args = Migrate recover)
    (Hsha : forall b, length (si_sha256 b) = 64 /\ forallb lower_hex (si_sha256 b) = true)
    (Hfresh : working s = durable s)
    (Hexit : (main bindings_of runner run_id args (initial_cli e s)).2 = Ok 0%Z) :
  exists m capture w dn,
    load si_utf8 si_toml si_host (manifest_path args) (si_read (manifest_path args)) = Ok m /\
    stage si_sha256 (unit_tree si_host) m = Ok capture /\ map u_definition (c_units capture) = mf_migrations m /\
    cl_engine (main bindings_of runner run_id args (initial_cli e s)).1 = Some w /\
    length dn = length (mf_migrations m) /\ recorded (c_units capture) dn [] (durable (w_driver w)) /\
    db_progress (durable (w_driver w)) = [].
Proof.
  destruct (main_ends bindings_of runner run_id args s recover Hheld Hcalm e Hcommand) as [[_ Hne]|(wf & Hl & (w & Hw & _ & Hd & _) & _ & Hr)]; [done|].
  rewrite Hexit in Hr. destruct Hr as [Hr|[? _]]; [|done]. injection Hr as Hr. apply (exit_int_inj OK) in Hr.
  destruct Hl as (config & m & capture & _ & Hload & Hstage & ->).
  destruct (run (bindings_of config) capture recover (initial_world s runner)) as [wf r] eqn:Hrun. simpl in *.
  pose proof (stage_captured _ _ _ _ Hstage) as Hcap.
  pose proof (captured_ok si_sha256 _ _ _ _ _ _ _ Hsha Hload Hcap) as Hunits.
  destruct (run_success _ _ _ _ _ _ _ Hunits Hfresh Hheld Hrun (eq_sym Hr)) as (_ & _ & dn & _ & _ & Hlen & Hrec & Hprog & _).
  destruct Hcap as [Hdefs _]. exists m, capture, w, dn. rewrite Hd. split_and!; try done.
  by rewrite Hlen, <-Hdefs, length_map.
Qed.
