(* ===== verification/CliDemo.v ===== *)
(** * One command, end to end

    [migrate] on a machine with two units, over the in-memory database, once left
    alone and once interrupted wherever it can be: the witnesses of [Terminal]. *)
From S2P Require Import Prelude PyStr Text Errors Latch Paths Manifest Model Fingerprint SqlText Admission Checks World Adapter Context Engine.
From S2P Require Import History Durable Memory Config Reporting Staging Cli Terminal.
Open Scope str_scope.

(** A shell that fails no call but is interrupted [n] times, at the first calls that
    can be. *)
Definition interruptible (o : cliop) : bool :=
  match o with OTick | OCleanup | OWarn | OWrite _ _ | OCloseLog => true | _ => false end.

#[local] Instance pestering : Shell (nat * nat) := fun o e =>
  match e with
  | (0, S n) => if interruptible o then ((0, n), Err PyInterrupt) else (e, Ok tt)
  | (S calls, n) => ((calls, n), Ok tt)
  | (0, 0) => (e, Ok tt)
  end.

Lemma pestering_calm o : settling o = true -> calm_call (E := nat * nat) o.
Proof.
  intros _ [[|calls] [|n]] x; unfold sh_step, pestering; simpl; try done.
  destruct (interruptible o); simpl; [by intros [= <-]|done].
Qed.

Definition demo_config : list (str * toml) :=
  [("database", TTable [("adapter", TStr "sqlite"); ("path", TStr "app.db")]);
   ("lock", TTable [("provider", TStr "file"); ("timeout_seconds", TInt 5)])].

Definition demo_entry (id dir mode : str) : toml :=
  TTable [("id", TStr id); ("path", TStr dir); ("language", TStr "sql"); ("mode", TStr mode); ("entry", TStr "up.sql")].

Definition demo_manifest : list (str * toml) :=
  [("manifest_version", TInt 1); ("migration", TArr [demo_entry "one" "u1" "atomic"; demo_entry "two" "u2" "restartable"])].

Definition demo_files : node :=
  NDir [("p", NDir [("u1", NDir [("up.sql", NFile "INSERT INTO t VALUES (1);")]);
                    ("u2", NDir [("up.sql", NFile "CREATE INDEX i ON t (x);")])])].

#[local] Instance demo_site : Site := {|
  si_resolve given default := ["p"; match given with Some s => s | None => default end];
  si_text p := "/" ++ join "/" p;
  si_read p := Some (match List.last p [] with 109 :: 105 :: _ => "config" | _ => "manifest" end)%N;
  si_host := MkHost demo_files id (fun _ => None) (fun _ => true) (fun _ => false);
  si_utf8 := Some;
  si_toml text := Some (if bool_decide (text = "config") then demo_config else demo_manifest);
  si_json_loads _ := None;
  si_json_dumps _ := "{}";
  si_isoformat _ := "";
  si_sha256 _ := repeat 97%N 64;
|}.

#[local] Existing Instances ascii_unicode ascii_interpreter sqlite_dialect demo_host.
#[local] Instance no_loader : Loader := fun _ => Err (PyMigr8 (mk UnitError "no python here")).
#[local] Instance nothing_deferred : Deferred := fun _ => false.

Definition demo_args : Args := MkArgs (Migrate None) None None false.

(** [migr8 migrate], interrupted [n] times from the [calls]-th call of the process on. *)
Definition demo_main (calls n : nat) : Cli (nat * nat) Memory * result pyexn Z :=
  main (fun _ => demo_bindings) demo_runner "run" demo_args (initial_cli (calls, n) (memory_on empty_db)).

Definition demo_history (k : Cli (nat * nat) Memory) : list (str * str) :=
  match cl_engine k with Some w => statuses w | None => [] end.

Example demo_main_ok :
  let r := demo_main 0 0 in
  r.2 = Ok 0%Z /\ demo_history r.1 = [("one", "SUCCESS"); ("two", "SUCCESS")] /\ writes r.1 = [false].
Proof. vm_compute. done. Qed.

(** Interrupted any number of times from the end of the run on, it still returns 0. *)
Example demo_main_pestered :
  map (fun calls => (demo_main calls 4).2) (seq 7 9) = repeat (Ok 0%Z) 9 /\
  map (fun calls => (demo_main calls 2).2) (seq 0 7) = repeat (Ok 3%Z) 7.
Proof. vm_compute. done. Qed.

(** A failure is being reported when the interrupt arrives: the handler of
    [Migr8Error] does not hold it back. *)
#[local] Instance failing : Shell unit := fun o e =>
  match o with
  | OAdapter _ => (e, Err (PyMigr8 (mk ConfigError "database.path is required")))
  | OEvent _ => (e, Err PyInterrupt)
  | _ => (e, Ok tt)
  end.

Lemma interrupt_escapes_failure :
  (main (E := unit) (fun _ => demo_bindings) demo_runner "run" demo_args (initial_cli tt (memory_on empty_db))).2 = Err PyInterrupt.
Proof. vm_compute. done. Qed.


Lemma exit_zero_complete_witness :
  exists m capture w dn,
    load si_utf8 si_toml si_host (manifest_path demo_args) (si_read (manifest_path demo_args)) = Ok m /\
    stage si_sha256 (unit_tree si_host) m = Ok capture /\ map u_definition (c_units capture) = mf_migrations m /\
    cl_engine (demo_main 8 4).1 = Some w /\
    length dn = length (mf_migrations m) /\ recorded (c_units capture) dn [] (durable (w_driver w)) /\
    db_progress (durable (w_driver w)) = [].
Proof.
  apply (exit_zero_complete (fun _ => demo_bindings) demo_runner "run" demo_args (8, 4) (memory_on empty_db) None
           memory_held_total pestering_calm eq_refl).
  - intros b. vm_compute. done.
  - reflexivity.
  - vm_compute. reflexivity.
Defined.
