(* ===== verification/Recovery.v ===== *)
(** * The recovery command read by a shell

    What [_recovery_command] prints is meant to be pasted. A reference reading of a
    command line by POSIX quoting rules, and what it makes of the command. *)
From S2P Require Import Prelude PyStr Text Errors Latch Paths Manifest Model SqlText Cli.
Open Scope str_scope.

(** ** Words of a simple command

    Blanks separate words; single quotes keep every character, double quotes all
    but the dollar sign, the backquote and the backslash, which are not read here;
    nor is any unquoted character with a meaning of its own. *)
Inductive quoting := Bare | Single | Double.

Definition blank (c : char) : bool := (c =? 32)%N || (c =? 9)%N.
Definition special (c : char) : bool := bool_decide (c ∈ ([10%N] ++ "|&;<>()$`\*?[]#~!{}^" : str)).
Definition expanding (c : char) : bool := bool_decide (c ∈ ("$`\" : str)).

Definition grow (word : option str) (c : char) : option str := Some (default [] word ++ [c]).

(** [word] is the word begun so far; the result is [None] where the line is not one
    simple command of literal words. *)
Fixpoint sh_words (q : quoting) (word : option str) (s : str) : option (list str) :=
  match s with
  | [] => match q with Bare => Some (option_list word) | _ => None end
  | c :: s =>
      match q with
      | Bare =>
          if blank c then ws ← sh_words Bare None s; Some (option_list word ++ ws)
          else if (c =? single_quote)%N then sh_words Single (Some (default [] word)) s
          else if (c =? double_quote)%N then sh_words Double (Some (default [] word)) s
          else if special c then None
          else sh_words Bare (grow word c) s
      | Single => if (c =? single_quote)%N then sh_words Bare word s else sh_words Single (grow word c) s
      | Double =>
          if (c =? double_quote)%N then sh_words Bare word s
          else if expanding c then None
          else sh_words Double (grow word c) s
      end
  end.

Example sh_words_examples :
  sh_words Bare None ("a  'b c'd " ++ [double_quote] ++ "e'f" ++ [double_quote]) = Some ["a"; "b cd"; "e'f"] /\ sh_words Bare None "rm -rf $HOME" = None /\
  sh_words Bare None "''" = Some [[]].
Proof. vm_compute. done. Qed.

(** ** Quoted texts read back *)
Definition plain_char (c : char) : bool :=
  negb (blank c || (c =? single_quote)%N || (c =? double_quote)%N || special c).

Lemma shell_safe_plain c : shell_safe c = true -> plain_char c = true.
Proof.
  intros Hc. assert (c < 128)%N as Hlt.
  { unfold shell_safe, ascii_alnum in Hc. rewrite !orb_true_iff in Hc. destruct Hc as [[Hc|Hc]|Hc].
    - unfold ascii_alpha, ascii_lower_letter, ascii_upper_letter, ascii_digit, between in Hc. repeat (rewrite ?orb_true_iff, ?andb_true_iff, ?N.leb_le in Hc). lia.
    - apply N.eqb_eq in Hc as ->. done.
    - apply bool_decide_eq_true in Hc. cbv in Hc. set_unfold. repeat destruct Hc as [->|Hc]; done. }
  assert (forallb (fun n => implb (shell_safe n) (plain_char n)) (map N.of_nat (seq 0 128)) = true) as Hall by (vm_compute; done).
  rewrite forallb_forall in Hall. specialize (Hall c). rewrite Hc in Hall. apply Hall, in_map_iff.
  exists (N.to_nat c). rewrite N2Nat.id, in_seq. split; [done|lia].
Qed.

Lemma sh_words_plain c word s : plain_char c = true -> sh_words Bare word (c :: s) = sh_words Bare (grow word c) s.
Proof.
  unfold plain_char. rewrite negb_true_iff, !orb_false_iff. intros [[[Hb Hs] Hd] Hx]. simpl. by rewrite Hb, Hs, Hd, Hx.
Qed.

Lemma sh_words_safe w word s : forallb plain_char w = true ->
  sh_words Bare (Some word) (w ++ s) = sh_words Bare (Some (word ++ w)) s.
Proof.
  revert word. induction w as [|c w IH]; intros word Hw; [by rewrite app_nil_r|].
  simpl in Hw. apply andb_true_iff in Hw as [Hc Hw].
  rewrite <-app_comm_cons, sh_words_plain by done. unfold grow. simpl. rewrite IH by done. by rewrite <-app_assoc.
Qed.

(** The inside of a quoted text: a quote is closed, quoted on its own and reopened. *)
Lemma sh_words_inside w word s :
  sh_words Single (Some word) (concat (map quote_char w) ++ single_quote :: s) = sh_words Bare (Some (word ++ w)) s.
Proof.
  revert word. induction w as [|c w IH]; intros word; [by rewrite app_nil_r|].
  replace (word ++ c :: w) with ((word ++ [c]) ++ w) by (by rewrite <-app_assoc). rewrite <-IH.
  cbn [map concat]. rewrite <-app_assoc. unfold quote_char. destruct (N.eqb_spec c single_quote) as [->|Hc]; [done|].
  simpl. apply N.eqb_neq in Hc. by rewrite Hc.
Qed.

(** A quoted text is one word, whatever it holds. *)
Lemma sh_words_quote w s : sh_words Bare None (shlex_quote w ++ s) = sh_words Bare (Some w) s.
Proof.
  unfold shlex_quote. destruct w as [|c w]; [done|]. destruct (forallb shell_safe (c :: w)) eqn:Hsafe.
  - assert (forallb plain_char (c :: w) = true) as Hp.
    { rewrite forallb_forall in Hsafe |- *. eauto using shell_safe_plain. }
    simpl in Hp. apply andb_true_iff in Hp as [Hc Hw]. rewrite <-app_comm_cons, sh_words_plain by done.
    by apply (sh_words_safe w [c]).
  - rewrite <-!app_assoc. exact (sh_words_inside (c :: w) [] s).
Qed.

Lemma sh_words_blank word s : sh_words Bare (Some word) (32%N :: s) = (ws ← sh_words Bare None s; Some (word :: ws)).
Proof. done. Qed.

(** C40: the recovery command says what it should to any shell. Read by POSIX quoting
    rules, the printed command is exactly the words [migr8 migrate --recover] and
    the migration's id, followed, when the operator gave either path, by both
    options with both resolved paths, whatever characters the id and the paths
    hold: nothing is expanded, split or executed. *)
Theorem recovery_command_words args migration_id config_path manifest_path :
  sh_words Bare None (recovery_command args migration_id config_path manifest_path) =
  Some (["migr8"; "migrate"; "--recover"; migration_id] ++
        if given (a_config args) || given (a_manifest args)
        then ["--config"; config_path; "--manifest"; manifest_path] else []).
Proof.
  unfold recovery_command. cbv zeta. destruct (given (a_config args) || given (a_manifest args)).
  - rewrite <-!app_assoc. simpl. rewrite !sh_words_quote. simpl. rewrite !sh_words_quote. simpl.
    rewrite <-(app_nil_r (shlex_quote manifest_path)), sh_words_quote. done.
  - simpl. by rewrite <-(app_nil_r (shlex_quote migration_id)), sh_words_quote.
Qed.
